(* ===== verification/_CoqProject ===== *)
-Q . S2P
Prelude.v
Protocol.v
Ring.v
RingConc.v
Notify.v
Endpoint.v
Frame.v
EndpointSpec.v
DriverState.v
DriverLifecycle.v
DriverUser.v
DriverSysfs.v
DriverProbe.v
DriverSpec.v
ProbeSpec.v
HostDemo.v
LifecycleSpec.v
LoaderSpec.v
ControlSpec.v
NotifySpec.v
UserSpec.v
Firmware.v
BlockSpec.v
FirmwareSpec.v
ObservationSpec.v
BootSpec.v
WorkerSpec.v
SystemSpec.v
StopSpec.v
QueueSpec.v
ServeSpec.v
DebtSpec.v
DrainSpec.v
BurstSpec.v
OwnSpec.v
Layout.v
Safe.v
SafeLinux.v
SafeSpec.v
LayoutSpec.v
Bringup.v
Tools.v
ToolsSpec.v
ToolsTermination.v
Rig.v
TestPrograms.v
