(* ===== verification/Prelude.v ===== *)
(** Verification of the LZAMP MailMsg system.

    An RK3588 runs Linux on its other cores and a Zephyr image on CPU3 (an A55
    started by PSCI).  The two sides share a reserved memory region and one
    hardware mailbox.  [MailMsg] is the protocol between them: eight
    single-producer/single-consumer rings of CRC-protected frames, one per
    priority and direction, with a mailbox doorbell per priority.  A Linux
    platform driver loads the image, starts and stops CPU3, owns the session
    and exports the priorities as character devices; the firmware answers what
    it receives; two small tools drive the devices from userspace.

    * The parts and where they are modelled

    Paths are relative to src/LZAMP.  A C function keeps its name.

    - [Protocol]: protocol/mailmsg/mailmsg.h, mailmsg_user.h.  Constants, frame,
      ring and block as records, the frame CRC computed bit by bit, payload
      integers.
    - [Ring]: mailmsg.c.  Push, pop, has_data, count over the shared block, with
      the publish/acquire hooks as functions on memory; the FIFO specification
      [Queue].  [RingConc] cuts push and pop into their memory operations and
      interleaves two CPUs with separate caches.
    - [Notify]: mailmsg_notify.h and the mailbox0 adapter.  [Endpoint]:
      mailmsg_endpoint.c (bind, session check, send, receive, has_received,
      statistics); [EndpointSpec] has its properties.
    - [DriverState], [DriverLifecycle], [DriverUser], [DriverSysfs],
      [DriverProbe]: linux/drivers/lzamp_amp_mailmsg.c, by plane - data and
      doorbells; start, rearm, stop and the three works; character devices;
      sysfs attributes and image loader; probe.  [DriverSpec] makes them one
      state machine ([driver_event], [handle], [reachable]) in which CPU3 may
      rewrite shared memory and mailbox arbitrarily between any two events.
      [LifecycleSpec], [ControlSpec], [NotifySpec], [UserSpec], [ProbeSpec],
      [LoaderSpec] hold the properties; [HostDemo] a concrete platform with a
      scripted session, the input of the witnesses.
    - [Firmware]: firmware/zephyr/app/src/main.c.  Interrupt handler, worker
      (its turn in the pieces between which interrupts fall), PING/PONG
      service, session and stop control, observations, main thread; one state
      machine ([worker_step], [cpu3_handle]).  [FirmwareSpec] specifies the
      service on abstract queues; [BootSpec], [WorkerSpec], [ObservationSpec]
      hold the properties.
    - [BlockSpec], [SystemSpec]: the composition, one memory and one mailbox
      between driver and firmware ([system_step]).  [BlockSpec] says once what
      every push and pop, hook and store keeps of the shared block (the class
      [KeepsBlock], an instance per side) and what invariants of the firmware
      come to (the class [Cpu3Invariant]); [SystemSpec], [OwnSpec], [QueueSpec]
      and [ServeSpec] use them for their invariants of the composed system.
      [QueueSpec] has the contents of the rings, [ServeSpec] which session CPU3
      serves, [OwnSpec] who writes what,
      [DebtSpec] how much CPU3 can still send, [DrainSpec] the reader of
      mailmsg_response among the steps of CPU3, [BurstSpec] the way of several
      PINGs there and back, [StopSpec] the stop handshake on both sides.
    - [Layout]: the C types of mailmsg.h and of the state area as bytes
      (a [codec] per type, put together from words, arrays and padding), the
      driver's offsets and pointers, the firmware's addresses, the ranges given
      to the memory hooks, the owner of every byte; [LayoutSpec] the properties.
    - [Safe], [SafeLinux], [SafeSpec]: no undefined behaviour.  [Safe] has the
      logic (a computation is defined and keeps an invariant of arrays, types
      and pointers), its tactic and the shared code; [SafeLinux] the driver,
      with how the kernel calls its handlers; [SafeSpec] the firmware and the
      two together.
    - [Tools], [ToolsSpec], [ToolsTermination]: tools/mailmsg_window_bench.c and
      mailmsg_user_client.c over the system calls they make.  [Rig] carries the
      calls out by the modelled driver; before each call CPU3 and the driver's
      works move as an arbitrary schedule says, so the tools run on the whole
      system.
    - [TestPrograms]: the C programs of tests/host and tests/board, each shown
      to pass.
    - [Bringup]: src/src/zephyr-amp-checkpoint and zephyr-amp-heartbeat, the
      images that came before the firmware.
    - [Frame] and this file: shared lemmas, views and invariants of monadic
      code, record update, tactics.

    * How code becomes definitions

    A C function is a computation in the state monad [M]: [None] is undefined
    behaviour (an index out of range, a NULL dereference).  Integers are [Z]
    with the wrap-around written out where C performs it.  A pointer into a
    larger object is a [zoom] on that part of the state.  What the repository
    does not contain is a parameter: cache maintenance, register access and
    jiffies arithmetic ([Platform], [Cpu3Platform]), the answers of PSCI and of
    the kernel to one call ([kenv], [probe_env], the environment of a read),
    the system calls of the tools ([Kernel]).  The laws used of them are
    classes ([CoherentOps], [Mailbox0Laws], [A2bReadback], [ScanLaws],
    [KernelLaws]), each with a concrete instance.

    Atomicity: a transition is a critical section of the driver's mutex, and
    [read] and mailmsg_response are cut further, at each of their receives.  The
    worker's turn is cut at its atomic operations; a turn of the main loop is one
    step because the worker is a cooperative thread and the endpoint is used by
    main only until the session is announced.  [RingConc] and [ObservationSpec]
    go below that, to single memory operations; in [ObservationSpec] the stores
    of CPU3 become visible in program order, and a theorem shows that this is
    needed.

    What this leaves out is the other core moving inside a transition, which
    neither the mutex nor the worker prevents.  A push or a pop loses nothing by
    it (C2, C3), but the transitions with several of them are taken whole: the
    control work's loop of receives, the service's loops over the rings, start
    and stop.  A frame pushed meanwhile counts as pushed before or after, so the
    eight turns of C13 are those for the frames there when the control work
    begins.  The reader of status takes an arbitrary peer between its reads
    ([status_show]) but is run in the composition with CPU3 standing still.  And
    an interrupt between the worker's reads of the interrupt count and of the
    pending set for its observation line, which would show the new set beside
    the old count, is left out.

    * What the theorems show

    - Rings (C1 - C4): the rings are bounded FIFO queues; under every
      interleaving and torn write-back frames arrive once, whole and in order;
      the concurrent and the sequential model agree; a corrupted frame is never
      delivered, and what the pop answers to it.
    - Endpoints (C5 - C8): a frame received is one of this session, whatever
      the peer wrote; send and receive are inverse; every outcome of a send;
      sequence numbers do not repeat.
    - Lifecycle (C9 - C14): the session invariant, the edges of the state
      machine, that a closed session stays closed, that a pending operation
      ends, what start and the control work do.
    - Traffic (C15): however CPU3 and the driver's works run, the frames
      waiting for Linux stay below two per request and one announcement.
    - Devices (C16 - C20): consistent open counts, the results of read and
      write in every state, no lost wake-up; the sysfs drain of the reverse
      rings shows every frame and ends although CPU3 goes on sending.
    - Firmware (C21 - C24): no pending doorbell is dropped between interrupt,
      worker and main loop; the service always comes back and implements its
      specification on queues; what a defective frame and a stop request lead
      to.
    - System, as invariants (C25 - C28): no handler or thread of either side
      runs into undefined behaviour; CPU3 serves its session as specified and no
      other; the rings are sound queues of the session's frames; every byte has
      one writer.
    - System, end to end (C29 - C31): the handshake opens a session, a burst of
      PINGs comes back, the stop handshake closes the session on both sides.
    - Layout (C32 - C35): the hooks get the bytes they name; both sides find the
      same objects at the same addresses; bytes and values correspond one to
      one; the bytes of the state area have owners, and which cache lines do
      not.  Both sides' own declarations of the lines agree.
    - Observations, probe, loader (C36 - C38): a snapshot flagged valid is a
      published line; probe is all or nothing but for one path; the image is
      loaded in order.
    - Tools (C39, C40): what a passing benchmark certifies; it comes to its end, and
      exits unless it took more than 2^31 samples.  Both
      are applied to runs on the modelled system ([Rig]), where the benchmark
      passes; [bench_exits_on_system] says that it exits from every reachable
      state of driver and firmware, whatever the schedule.

    Beside these the files prove what the properties rest on or what is of use
    on its own: which ring alone the stop preflight looks at ([ControlSpec]),
    a second reader is refused ([UserSpec]), a doorbell rings or
    coalesces ([NotifySpec]), the session is announced once, interrupts are
    acknowledged exactly and the core is quiet before it goes off ([BootSpec]),
    answers keep the order of requests and an early doorbell is lost
    ([WorkerSpec]), the invariants of both sides hold of the composition, the
    shared block keeps its shape and a single PING comes back ([SystemSpec]),
    what the geometry checks of probe let through ([ProbeSpec]), the worker's line is read like the
    TX-full line ([ObservationSpec]), what the checkpoint image shows ([Bringup]).

    * Fuel and bounds

    Only loops that are not bounded by their data carry fuel.  [control_loop]
    pops one frame per turn from a ring of seven: eight turns are enough (C13).
    [response_loop] races with CPU3; five turns and one for each frame CPU3 can
    still send without a new request are enough (C20).  The read loop's fuel counts the sleeps a caller
    grants it.  The service's quota of seven turns is the code's own.  In the
    tools running out of fuel is an outcome of its own, and C40 gives an amount
    that is always enough ([bench_fuel]): the nanoseconds of the longest
    measurement times the readings the clock may need for one, and the frames
    under way.  Its laws of the kernel ([KernelLaws]) let successive readings
    of the clock be equal, but not without end; the clock of [Rig] moves with
    every second reading.

    * Not modelled, and why

    lzamp_mailmsg_common.c only includes the protocol sources.  The files of
    src/src/mailmsg are those of protocol/mailmsg, and
    src/src/zephyr-amp-shmem-ping/src/main.c is the firmware but for one include
    path: the definitions hold of them as they stand.  The boot assembly stores
    one status word and branches.  Device trees, scripts,
    agents and documentation are other languages or glue.  Left out inside the
    modelled files: text formatting (the values printed are the results), the
    optional busy wait of a test image, devm-managed resources, and the instruction
    cache maintenance after the last image byte.  Memory that nothing has
    initialised is zero in the initial state; the peer's arbitrary writes cover
    any other content. *)
From stdpp Require Export base tactics list numbers option strings gmap.
From Stdlib Require Export ZArith Lia.

Open Scope Z_scope.

(** [lia] also solves division and remainder by constants. *)
#[export] Ltac Zify.zify_post_hook ::= Z.to_euclidean_division_equations.

(** * Machine integers

    [mailmsg_u8], [mailmsg_u32], [u64] and [unsigned long] are [Z]s whose
    wrap-around is written out where C performs it. *)
Definition u8 (z : Z) : Z := z mod 2 ^ 8.
Definition u32 (z : Z) : Z := z mod 2 ^ 32.
Definition u64 (z : Z) : Z := z mod 2 ^ 64.
(** Conversion to a signed 32-bit integer. *)
Definition s32 (z : Z) : Z := let v := u32 z in if v <? 2 ^ 31 then v else v - 2 ^ 32.
Definition u32_not (z : Z) : Z := Z.lxor (u32 z) 0xffffffff.
Definition u64_not (z : Z) : Z := Z.lxor (u64 z) 0xffffffffffffffff.

Definition is_u8 (z : Z) : Prop := 0 <= z < 2 ^ 8.
Definition is_u32 (z : Z) : Prop := 0 <= z < 2 ^ 32.

(** [BIT(n)] and the test [x & BIT(n)]. *)
Definition BIT (n : Z) : Z := Z.shiftl 1 n.
Definition has_bit (x n : Z) : bool := negb (Z.land x (BIT n) =? 0).

Create HintDb word.
Create Rewrite HintDb arr.

Lemma u8_range z : is_u8 (u8 z).
Proof. apply Z.mod_pos_bound; reflexivity. Qed.
Lemma u32_range z : is_u32 (u32 z).
Proof. apply Z.mod_pos_bound; reflexivity. Qed.
#[export] Hint Resolve u8_range u32_range : word.

Lemma u32_small z : is_u32 z -> u32 z = z.
Proof. intros H. apply Z.mod_small, H. Qed.
Lemma u32_idem z : u32 (u32 z) = u32 z.
Proof. apply u32_small, u32_range. Qed.

Lemma is_u32_iff_bits z :
  is_u32 z <-> 0 <= z /\ (forall i, 32 <= i -> Z.testbit z i = false).
Proof.
  unfold is_u32. split.
  - intros [H0 H]. split; [done|]. intros i Hi.
    destruct (decide (z = 0)) as [->|]; [apply Z.bits_0|].
    apply Z.bits_above_log2; [done|].
    apply Z.log2_lt_pow2; [lia|]. eapply Z.lt_le_trans; [exact H|].
    apply Z.pow_le_mono_r; lia.
  - intros [H0 H]. split; [done|].
    destruct (decide (z = 0)) as [->|]; [done|].
    apply Z.log2_lt_pow2; [lia|].
    destruct (decide (Z.log2 z < 32)); [done|].
    specialize (H (Z.log2 z) ltac:(lia)).
    rewrite Z.bit_log2 in H by lia. done.
Qed.

Lemma is_u32_lxor x y : is_u32 x -> is_u32 y -> is_u32 (Z.lxor x y).
Proof.
  rewrite !is_u32_iff_bits. intros [? Hx] [? Hy]. split.
  - apply Z.lxor_nonneg. tauto.
  - intros i Hi. by rewrite Z.lxor_spec, Hx, Hy.
Qed.
#[export] Hint Resolve is_u32_lxor : word.

Lemma is_u8_u32 x : is_u8 x -> is_u32 x.
Proof. unfold is_u8, is_u32. lia. Qed.
#[export] Hint Resolve is_u8_u32 : word.

Lemma lxor_cancel_l a x y : Z.lxor a x = Z.lxor a y -> x = y.
Proof.
  intros H. apply (f_equal (Z.lxor a)) in H.
  by rewrite <-!Z.lxor_assoc, Z.lxor_nilpotent, !Z.lxor_0_l in H.
Qed.

Lemma has_bit_testbit x n : 0 <= n -> has_bit x n = Z.testbit x n.
Proof.
  intros Hn. unfold has_bit, BIT. rewrite Z.shiftl_1_l.
  destruct (Z.testbit x n) eqn:E.
  - apply negb_true_iff, Z.eqb_neq. intros H.
    apply (f_equal (fun z => Z.testbit z n)) in H.
    by rewrite Z.land_spec, Z.pow2_bits_true, E, Z.bits_0 in H by done.
  - apply negb_false_iff, Z.eqb_eq, Z.bits_inj'. intros i Hi.
    rewrite Z.land_spec, Z.pow2_bits_eqb, Z.bits_0 by done.
    destruct (Z.eqb_spec n i) as [<-|]; [by rewrite E|apply andb_false_r].
Qed.
Lemma BIT_testbit n i : 0 <= n -> 0 <= i -> Z.testbit (BIT n) i = (n =? i).
Proof. intros. unfold BIT. rewrite Z.shiftl_1_l. by apply Z.pow2_bits_eqb. Qed.
Lemma has_bit_lor_r x n : 0 <= n -> has_bit (Z.lor x (BIT n)) n = true.
Proof.
  intros. rewrite has_bit_testbit, Z.lor_spec, BIT_testbit, Z.eqb_refl by done. apply orb_true_r.
Qed.
(** Acknowledging by writing ones: one bit, and a whole mask. *)
Lemma has_bit_lor_l x y n : 0 <= n -> has_bit x n = true -> has_bit (Z.lor x y) n = true.
Proof. intros ?. rewrite !has_bit_testbit, Z.lor_spec by done. by intros ->. Qed.
Lemma has_bit_ldiff x n i : 0 <= n -> 0 <= i ->
  has_bit (Z.land x (Z.lnot (BIT n))) i = negb (i =? n) && has_bit x i.
Proof.
  intros. rewrite !has_bit_testbit, Z.land_spec, Z.lnot_spec, BIT_testbit by done.
  rewrite Z.eqb_sym. apply andb_comm.
Qed.
Lemma land_ldiff_mask x mask : Z.land (Z.land x (Z.lnot (Z.land x mask))) mask = 0.
Proof.
  apply Z.bits_inj'. intros i Hi. rewrite !Z.land_spec, Z.lnot_spec, Z.land_spec, Z.bits_0 by done.
  by destruct (Z.testbit x i), (Z.testbit mask i).
Qed.

(** * Record update: [r <| field := v |>]

    A record declares its eta-expansion once ([Eta]); the setter of a field
    is found by abstracting that projection in it. *)
Class Eta (R : Type) := eta : R -> R.
Class Setter {R E : Type} (getter : R -> E) := set_field : (E -> E) -> R -> R.

Ltac solve_setter :=
  lazymatch goal with
  | |- @Setter ?R ?E ?g =>
      let inst := constr:(_ : Eta R) in
      let body := eval hnf in inst in
      lazymatch eval pattern g in body with
      | ?F _ =>
          let s := eval cbv beta in (fun (f : E -> E) => F (fun r : R => f (g r))) in
          exact s
      end
  end.
#[export] Hint Extern 1 (Setter _) => solve_setter : typeclass_instances.

Declare Scope record_scope.
Delimit Scope record_scope with record.
Open Scope record_scope.
Notation "r <| f := v |>" := (set_field (getter := f) (fun _ => v) r)
  (at level 12, left associativity, f at next level, v at level 99,
   format "r  <| f  :=  v |>") : record_scope.
Notation "r <| f ::= u |>" := (set_field (getter := f) u r)
  (at level 12, left associativity, f at next level, u at level 99,
   format "r  <| f  ::=  u |>") : record_scope.

(** * State monad with undefined behaviour

    [M S A] threads a state [S]; [None] is C undefined behaviour: an array
    index out of range or a NULL dereference. *)
Definition M (S A : Type) : Type := S -> option (A * S).

#[export] Instance M_ret {S} : MRet (M S) := fun A a s => Some (a, s).
#[export] Instance M_bind {S} : MBind (M S) := fun A B k m s =>
  match m s with Some (a, s') => k a s' | None => None end.

Definition ub {S A} : M S A := fun _ => None.
Definition get {S} : M S S := fun s => Some (s, s).
Definition gets {S A} (f : S -> A) : M S A := fun s => Some (f s, s).
Definition put {S} (s : S) : M S unit := fun _ => Some (tt, s).
Definition modify {S} (f : S -> S) : M S unit := fun s => Some (tt, f s).
Definition from_option_ub {S A} (o : option A) : M S A :=
  match o with Some a => mret a | None => ub end.

(** [zoom] runs a computation on a component of the state: C code that works
    through a pointer into a larger object. *)
Definition zoom {S T A} (getc : S -> T) (setc : T -> S -> S) (m : M T A) : M S A :=
  fun s => match m (getc s) with
           | Some (a, t) => Some (a, setc t s)
           | None => None
           end.

(** C's conditional statement without [else]. *)
Definition when {S} (b : bool) (m : M S unit) : M S unit := if b then m else mret tt.

(** [for (i = 0; i < n; i++) body(i)] over the listed indices. *)
Fixpoint for_each {S A} (l : list A) (body : A -> M S unit) : M S unit :=
  match l with
  | [] => mret tt
  | x :: l => body x ;; for_each l body
  end.

Lemma bind_ret_l {S A B} (a : A) (k : A -> M S B) : (x ← mret a; k x) = k a.
Proof. reflexivity. Qed.
Lemma run_bind {S A B} (m : M S A) (k : A -> M S B) s :
  (x ← m; k x) s = match m s with Some (a, s') => k a s' | None => None end.
Proof. reflexivity. Qed.
Lemma run_bind_some {S A B} (m : M S A) (k : A -> M S B) s a s' :
  m s = Some (a, s') -> (x ← m; k x) s = k a s'.
Proof. intros H. rewrite run_bind, H. reflexivity. Qed.
Lemma run_bind_inv {S A B} (m : M S A) (k : A -> M S B) s r :
  (x ← m; k x) s = Some r -> exists a s', m s = Some (a, s') /\ k a s' = Some r.
Proof. rewrite run_bind. destruct (m s) as [[a s']|]; [eauto|done]. Qed.

(** The state a computation ends in, and whether it is defined: for concrete
    runs, decided without reading the state back. *)
Definition end_state {S} (m : M S unit) (s : S) : S :=
  match m s with Some (_, s') => s' | None => s end.
Definition defined {S A} (m : M S A) (s : S) : bool :=
  match m s with Some _ => true | None => false end.
Lemma run_end_state {S} (m : M S unit) s : defined m s = true -> m s = Some (tt, end_state m s).
Proof. unfold defined, end_state. by destruct (m s) as [[[] s']|]. Qed.

(** Every run of [m] from a state satisfying [P] is defined and ends in [Q]. *)
Definition triple {S A} (P : S -> Prop) (m : M S A) (Q : A -> S -> Prop) : Prop :=
  forall s, P s -> exists a s', m s = Some (a, s') /\ Q a s'.

(** Every run of [m] that is defined keeps [R] between its end states. *)
Definition keeps {S A} (R : S -> S -> Prop) (m : M S A) : Prop :=
  forall s a s', m s = Some (a, s') -> R s s'.

(** Whatever [m] does from [s], if it is defined it ends in [Q]. *)
Definition wlp {S A} (m : M S A) (Q : A -> S -> Prop) (s : S) : Prop :=
  forall a s', m s = Some (a, s') -> Q a s'.

Lemma wlp_bind {S A B} (m : M S A) (k : A -> M S B) Q s :
  wlp m (fun a => wlp (k a) Q) s -> wlp (x ← m; k x) Q s.
Proof. intros H b s' E. apply run_bind_inv in E as (a & s1 & E1 & E2). by eapply H. Qed.
Lemma wlp_step {S A B} (m : M S A) (k : A -> M S B) Q s a s' :
  m s = Some (a, s') -> wlp (k a) Q s' -> wlp (x ← m; k x) Q s.
Proof. intros E H b s'' E'. rewrite (run_bind_some _ _ _ _ _ E) in E'. by apply H. Qed.
Lemma wlp_run {S A} (m : M S A) (Q : A -> S -> Prop) s a s' :
  m s = Some (a, s') -> Q a s' -> wlp m Q s.
Proof. intros E H b s'' E'. rewrite E in E'. by injection E' as <- <-. Qed.
Lemma wlp_mono {S A} (m : M S A) (P Q : A -> S -> Prop) s :
  wlp m P s -> (forall a s', P a s' -> Q a s') -> wlp m Q s.
Proof. intros H HPQ a s' E. by apply HPQ, H. Qed.

(** * Arrays indexed by a C integer *)
Definition zget {A} (l : list A) (i : Z) : option A :=
  if 0 <=? i then l !! Z.to_nat i else None.
Definition zset {A} (i : Z) (x : A) (l : list A) : list A :=
  if 0 <=? i then <[Z.to_nat i := x]> l else l.
Definition zupd {A} (i : Z) (f : A -> A) (l : list A) : list A :=
  match zget l i with Some x => zset i (f x) l | None => l end.

Lemma zget_is_Some {A} (l : list A) i :
  0 <= i < Z.of_nat (length l) -> exists x, zget l i = Some x.
Proof.
  intros H. unfold zget. rewrite (proj2 (Z.leb_le 0 i)) by lia.
  apply lookup_lt_is_Some. lia.
Qed.
Lemma zget_Some_range {A} (l : list A) i x :
  zget l i = Some x -> 0 <= i < Z.of_nat (length l).
Proof.
  unfold zget. destruct (Z.leb_spec 0 i); [|done].
  intros ?%lookup_lt_Some. lia.
Qed.
Lemma zget_zset {A} (l : list A) i x :
  0 <= i < Z.of_nat (length l) -> zget (zset i x l) i = Some x.
Proof.
  intros H. unfold zget, zset. rewrite (proj2 (Z.leb_le 0 i)) by lia.
  apply list_lookup_insert_eq. lia.
Qed.
Lemma zget_zset_ne {A} (l : list A) i j x :
  i <> j -> zget (zset i x l) j = zget l j.
Proof.
  intros H. unfold zget, zset.
  destruct (Z.leb_spec 0 i), (Z.leb_spec 0 j); try done.
  apply list_lookup_insert_ne. lia.
Qed.
Lemma length_zset {A} (l : list A) i x : length (zset i x l) = length l.
Proof. unfold zset. destruct (0 <=? i); [apply length_insert|done]. Qed.
Lemma length_zupd {A} (l : list A) i f : length (zupd i f l) = length l.
Proof. unfold zupd. destruct (zget l i); [apply length_zset|done]. Qed.
Lemma zset_zset {A} (l : list A) i x y : zset i x (zset i y l) = zset i x l.
Proof. unfold zset. destruct (0 <=? i); [apply list_insert_insert_eq|done]. Qed.
Lemma zset_id {A} (l : list A) i x : zget l i = Some x -> zset i x l = l.
Proof.
  unfold zget, zset. destruct (0 <=? i); [|done]. apply list_insert_id.
Qed.
Lemma zget_zupd {A} (l : list A) i f :
  zget (zupd i f l) i = f <$> zget l i.
Proof.
  unfold zupd. destruct (zget l i) as [x|] eqn:E.
  - apply zget_zset. eapply zget_Some_range; eauto.
  - by rewrite E.
Qed.
Lemma zget_zupd_ne {A} (l : list A) i j f :
  i <> j -> zget (zupd i f l) j = zget l j.
Proof.
  intros H. unfold zupd. destruct (zget l i); [by apply zget_zset_ne|done].
Qed.
#[export] Hint Rewrite @length_zset @length_zupd : arr.

(** * Reflexive-transitive closure, for reachability and traces *)
Inductive star {A} (R : A -> A -> Prop) : A -> A -> Prop :=
| star_refl a : star R a a
| star_snoc a b c : star R a b -> R b c -> star R a c.

Lemma star_invariant {A} (R : A -> A -> Prop) (I : A -> Prop) :
  (forall a b, I a -> R a b -> I b) -> forall a b, star R a b -> I a -> I b.
Proof. intros H a b Hs. induction Hs; eauto. Qed.
Lemma star_trans {S} (step : S -> S -> Prop) a b c : star step a b -> star step b c -> star step a c.
Proof. intros Hab Hbc. induction Hbc; [done|]. by eapply star_snoc; [apply IHHbc|]. Qed.

(** * Tactics shared by the development *)

(** Run the monad's structural equations in the goal. *)
Ltac run :=
  repeat (unfold mbind, M_bind, mret, M_ret, modify, gets, get, put, when,
            from_option_ub, zoom; cbn [fst snd]; cbv beta iota).

(** Run the first computation of a bind, whose result [H] states. *)
Ltac step_with H := erewrite run_bind_some by (eapply H); cbv beta iota.
(** Run a first computation that evaluates by itself ([gets], [modify], [mret]). *)
Ltac step := erewrite run_bind_some by reflexivity; cbv beta iota.

(** The same, naming the state it ends in. *)
Ltac step_to s := erewrite (run_bind_some _ _ _ _ s) by reflexivity; cbv beta iota.

(** The same steps under [wlp]. *)
Ltac wstep := eapply wlp_step; [reflexivity|]; cbv beta iota.
Ltac wret := eapply wlp_run; [reflexivity|]; cbv beta iota.

(** Case on the scrutinee of the first [if]/[match] of the goal. *)
Ltac case_goal :=
  match goal with
  | |- context [match ?x with _ => _ end] =>
      lazymatch x with
      | context [match _ with _ => _ end] => fail
      | _ => destruct x eqn:?
      end
  end.

Ltac bool_to_prop :=
  repeat match goal with
  | H : (_ || _) = false |- _ => apply orb_false_iff in H as [? ?]
  | H : (_ && _) = true |- _ => apply andb_true_iff in H as [? ?]
  | H : negb _ = true |- _ => apply negb_true_iff in H
  | H : negb _ = false |- _ => apply negb_false_iff in H
  | H : (_ =? _) = true |- _ => apply Z.eqb_eq in H
  | H : (_ =? _) = false |- _ => apply Z.eqb_neq in H
  | H : (_ <? _) = true |- _ => apply Z.ltb_lt in H
  | H : (_ <? _) = false |- _ => apply Z.ltb_ge in H
  | H : (_ <=? _) = true |- _ => apply Z.leb_le in H
  | H : (_ <=? _) = false |- _ => apply Z.leb_gt in H
  end.
