(* ===== verification/Protocol.v ===== *)
(** The hardware-neutral MailMsg ABI: [mailmsg.h] and [mailmsg_user.h].

    Constants, the shared-memory data types, the frame CRC and the payload
    integers, with the error-detection power of the CRC. *)
From S2P Require Import Prelude.

(** * Constants and enumerations *)
Definition MAILMSG_PROTOCOL_MAGIC : Z := 0x4d4d5347.
Definition MAILMSG_PROTOCOL_VERSION : Z := 6.
Definition MAILMSG_PRIORITY_COUNT : Z := 4.
Definition MAILMSG_RING_SLOTS : Z := 8.
Definition MAILMSG_PAYLOAD_BYTES : Z := 28.
Definition MAILMSG_USER_PAYLOAD_BYTES : Z := 32.
Definition MAILMSG_RELIABLE_PRIORITY_MASK : Z := 0x3.
Definition MAILMSG_TX_FULL_OBSERVATION_MAGIC : Z := 0x4d46554c.

(** [enum mailmsg_priority]: the C code casts any [u32] to it. *)
Definition MAILMSG_PRIO_CRITICAL : Z := 0.
Definition MAILMSG_PRIO_CONTROL : Z := 1.
Definition MAILMSG_PRIO_NORMAL : Z := 2.
Definition MAILMSG_PRIO_BEST_EFFORT : Z := 3.

(** [for (priority = 0; priority < MAILMSG_PRIORITY_COUNT; priority++)] *)
Definition priorities : list Z := [0; 1; 2; 3].

Definition MAILMSG_MSG_NOP : Z := 0.
Definition MAILMSG_MSG_PING : Z := 1.
Definition MAILMSG_MSG_PONG : Z := 2.
Definition MAILMSG_MSG_ACK : Z := 3.
Definition MAILMSG_MSG_NACK : Z := 4.
Definition MAILMSG_MSG_STOP_REQUEST : Z := 5.
Definition MAILMSG_MSG_STOP_READY : Z := 6.
Definition MAILMSG_MSG_STOP_REFUSED : Z := 7.
Definition MAILMSG_MSG_SESSION_READY : Z := 8.

Definition MAILMSG_NACK_BAD_CRC : Z := 1.
Definition MAILMSG_NACK_INVALID_FRAME : Z := 2.

Definition MAILMSG_STOP_REFUSED_INVALID_REQUEST : Z := 1.
Definition MAILMSG_STOP_REFUSED_BUSY : Z := 2.

Definition MAILMSG_RING_OK : Z := 0.
Definition MAILMSG_RING_EMPTY : Z := -1.
Definition MAILMSG_RING_FULL : Z := -2.
Definition MAILMSG_RING_INCOMPLETE : Z := -3.
Definition MAILMSG_RING_BAD_CRC : Z := -4.
Definition MAILMSG_RING_INVALID : Z := -5.

Definition MAILMSG_FEEDBACK_SEQUENCE_OFFSET : Z := 0.
Definition MAILMSG_FEEDBACK_STATUS_OFFSET : Z := 4.
Definition MAILMSG_FEEDBACK_BYTES : Z := 8.
Definition MAILMSG_SESSION_GENERATION_OFFSET : Z := 0.
Definition MAILMSG_SESSION_VERSION_OFFSET : Z := 4.
Definition MAILMSG_SESSION_BYTES : Z := 8.

Definition mailmsg_priority_is_reliable (priority : Z) : bool :=
  (priority <? MAILMSG_PRIORITY_COUNT) &&
  negb (Z.land MAILMSG_RELIABLE_PRIORITY_MASK (u32 (Z.shiftl 1 priority)) =? 0).

(** * Frames and rings *)

(** [struct mailmsg_message]; [type] is a keyword of Gallina. *)
Record mailmsg_message := mk_message {
  generation : Z;
  type_ : Z;
  sequence : Z;
  length_ : Z;
  payload : list Z;     (* mailmsg_u8[MAILMSG_PAYLOAD_BYTES] *)
  crc32 : Z;
  commit : Z;
}.
#[export] Instance eta_message : Eta mailmsg_message := fun m =>
  mk_message (generation m) (type_ m) (sequence m) (length_ m) (payload m)
    (crc32 m) (commit m).

(** [struct mailmsg_message message = { 0 }] *)
Definition message_zero : mailmsg_message :=
  mk_message 0 0 0 0 (replicate 28 0) 0 0.

Record mailmsg_ring := mk_ring {
  producer : Z;
  consumer : Z;
  slot : list mailmsg_message;   (* [MAILMSG_RING_SLOTS] *)
}.
#[export] Instance eta_ring : Eta mailmsg_ring := fun r =>
  mk_ring (producer r) (consumer r) (slot r).

Definition ring_zero : mailmsg_ring := mk_ring 0 0 (replicate 8 message_zero).

Record mailmsg_shared := mk_shared {
  magic : Z;
  version : Z;
  shared_generation : Z;
  linux_to_cpu3 : list mailmsg_ring;   (* [MAILMSG_PRIORITY_COUNT] *)
  cpu3_to_linux : list mailmsg_ring;
}.
#[export] Instance eta_shared : Eta mailmsg_shared := fun s =>
  mk_shared (magic s) (version s) (shared_generation s) (linux_to_cpu3 s)
    (cpu3_to_linux s).

(** The block after [memset(shared, 0, sizeof *shared)]. *)
Definition shared_zero : mailmsg_shared :=
  mk_shared 0 0 0 (replicate 4 ring_zero) (replicate 4 ring_zero).

(** [struct mailmsg_tx_full_observation], without its padding. *)
Record mailmsg_tx_full_observation := mk_tx_full_observation {
  txo_magic : Z;
  txo_commit : Z;
  txo_commit_inv : Z;
  full_count : Z;
  last_priority : Z;
  last_type : Z;
  last_result : Z;
}.
#[export] Instance eta_tx_full_observation : Eta mailmsg_tx_full_observation := fun o =>
  mk_tx_full_observation (txo_magic o) (txo_commit o) (txo_commit_inv o)
    (full_count o) (last_priority o) (last_type o) (last_result o).

(** [struct mailmsg_user_frame], the userspace record of one frame. *)
Record mailmsg_user_frame := mk_user_frame {
  uf_priority : Z;
  uf_type : Z;
  uf_sequence : Z;
  uf_length : Z;
  uf_payload : list Z;   (* mailmsg_u8[MAILMSG_USER_PAYLOAD_BYTES] *)
}.
#[export] Instance eta_user_frame : Eta mailmsg_user_frame := fun f =>
  mk_user_frame (uf_priority f) (uf_type f) (uf_sequence f) (uf_length f) (uf_payload f).
Definition user_frame_zero : mailmsg_user_frame :=
  mk_user_frame 0 0 0 0 (replicate 32 0).

#[export] Instance message_eq_dec : EqDecision mailmsg_message.
Proof. solve_decision. Defined.
#[export] Instance ring_eq_dec : EqDecision mailmsg_ring.
Proof. solve_decision. Defined.
#[export] Instance shared_eq_dec : EqDecision mailmsg_shared.
Proof. solve_decision. Defined.
#[export] Instance user_frame_eq_dec : EqDecision mailmsg_user_frame.
Proof. solve_decision. Defined.

(** Objects whose fields fit their C types. *)
Definition message_wt (m : mailmsg_message) : Prop :=
  is_u32 (generation m) /\ is_u32 (type_ m) /\ is_u32 (sequence m) /\
  is_u32 (length_ m) /\ length (payload m) = 28%nat /\ Forall is_u8 (payload m).

(** * Little-endian bytes *)

(** The four bytes of a [u32] as they lie in memory on the little-endian
    cores that share the ring. *)
Definition le_bytes (v : Z) : list Z :=
  [u8 v; u8 (Z.shiftr v 8); u8 (Z.shiftr v 16); u8 (Z.shiftr v 24)].

(** The bytes [(const mailmsg_u8 * )&message->generation] walks over:
    generation, type, sequence, length and payload. *)
Definition frame_bytes (m : mailmsg_message) : list Z :=
  le_bytes (generation m) ++ le_bytes (type_ m) ++ le_bytes (sequence m) ++
  le_bytes (length_ m) ++ payload m.

(** * The frame CRC *)

(** [crc = (crc >> 1) ^ (0xedb88320U & -(crc & 1U))] *)
Definition crc_bit (crc : Z) : Z :=
  Z.lxor (Z.shiftr crc 1) (Z.land 0xedb88320 (u32 (- Z.land crc 1))).

(** One turn of the byte loop: [crc ^= bytes[index]] and eight bit steps. *)
Definition crc_byte (crc byte : Z) : Z := Nat.iter 8 crc_bit (Z.lxor crc byte).

Definition crc_bytes (crc : Z) (bytes : list Z) : Z := fold_left crc_byte bytes crc.

Definition mailmsg_frame_crc32 (message : mailmsg_message) : Z :=
  u32_not (crc_bytes 0xffffffff (frame_bytes message)).

(** ** Lemmas on the CRC step *)
Lemma crc_bit_odd x : Z.odd x = true -> crc_bit x = Z.lxor (Z.shiftr x 1) 0xedb88320.
Proof.
  intros H. unfold crc_bit. change (Z.land x 1) with (Z.land x (Z.ones 1)).
  rewrite Z.land_ones, Zmod_odd, H by lia. reflexivity.
Qed.
Lemma crc_bit_even x : Z.odd x = false -> crc_bit x = Z.shiftr x 1.
Proof.
  intros H. unfold crc_bit. change (Z.land x 1) with (Z.land x (Z.ones 1)).
  rewrite Z.land_ones, Zmod_odd, H by lia. apply Z.lxor_0_r.
Qed.

Lemma crc_bit_range x : is_u32 x -> is_u32 (crc_bit x).
Proof.
  intros H. assert (is_u32 (Z.shiftr x 1)).
  { unfold is_u32 in *. rewrite Z.shiftr_div_pow2 by lia. change (2 ^ 1) with 2. lia. }
  destruct (Z.odd x) eqn:E.
  - rewrite crc_bit_odd by done. apply is_u32_lxor; [done|]. unfold is_u32; lia.
  - by rewrite crc_bit_even.
Qed.
#[export] Hint Resolve crc_bit_range : word.

Lemma crc_bit_linear x y : crc_bit (Z.lxor x y) = Z.lxor (crc_bit x) (crc_bit y).
Proof.
  assert (Ho : Z.odd (Z.lxor x y) = xorb (Z.odd x) (Z.odd y)).
  { rewrite <-!Z.bit0_odd. apply Z.lxor_spec. }
  destruct (Z.odd x) eqn:Ex, (Z.odd y) eqn:Ey; cbn in Ho;
    rewrite ?(crc_bit_odd x), ?(crc_bit_odd y), ?(crc_bit_odd (Z.lxor x y)),
      ?(crc_bit_even x), ?(crc_bit_even y), ?(crc_bit_even (Z.lxor x y)) by done;
    rewrite Z.shiftr_lxor; apply Z.bits_inj'; intros n _;
    rewrite ?Z.lxor_spec; repeat (destruct (Z.testbit _ n)); reflexivity.
Qed.

Lemma crc_bit_zero x : is_u32 x -> crc_bit x = 0 -> x = 0.
Proof.
  intros Hx H. destruct (Z.odd x) eqn:E.
  - rewrite crc_bit_odd in H by done.
    apply (f_equal (fun z => Z.testbit z 31)) in H. exfalso.
    apply is_u32_iff_bits in Hx as [_ Hx].
    rewrite Z.lxor_spec, Z.shiftr_spec, (Hx (31 + 1)) in H by lia.
    discriminate H.
  - rewrite crc_bit_even in H by done.
    rewrite (Z.div_mod x 2), Zmod_odd, E by lia.
    rewrite Z.shiftr_div_pow2 in H by lia. change (2 ^ 1) with 2 in H. lia.
Qed.

Lemma crc_iter_linear n x y :
  Nat.iter n crc_bit (Z.lxor x y) = Z.lxor (Nat.iter n crc_bit x) (Nat.iter n crc_bit y).
Proof.
  induction n as [|n IH]; [done|]. by rewrite !Nat.iter_succ, IH, crc_bit_linear.
Qed.

Lemma crc_iter_range n x : is_u32 x -> is_u32 (Nat.iter n crc_bit x).
Proof. intros H. induction n; rewrite ?Nat.iter_succ; auto with word. Qed.
#[export] Hint Resolve crc_iter_range : word.

Lemma crc_iter_inj n x y :
  is_u32 x -> is_u32 y -> Nat.iter n crc_bit x = Nat.iter n crc_bit y -> x = y.
Proof.
  intros Hx Hy H.
  assert (Hz : Nat.iter n crc_bit (Z.lxor x y) = 0).
  { by rewrite crc_iter_linear, H, Z.lxor_nilpotent. }
  clear H. apply Z.lxor_eq. induction n as [|n IH]; [done|]. rewrite Nat.iter_succ in Hz.
  apply IH, crc_bit_zero; auto with word.
Qed.

Lemma crc_iter_shift n x :
  0 <= x -> Nat.iter n crc_bit (Z.shiftl x (Z.of_nat n)) = x.
Proof.
  intros Hx. induction n as [|n IH]; [apply Z.shiftl_0_r|].
  rewrite Nat.iter_succ_r, crc_bit_even.
  - rewrite Z.shiftr_shiftl_l by lia.
    by replace (Z.of_nat (S n) - 1) with (Z.of_nat n) by lia.
  - rewrite <-Z.bit0_odd, Z.shiftl_spec_low; lia || done.
Qed.

Lemma crc_byte_eq crc b : crc_byte crc b = Nat.iter 8 crc_bit (Z.lxor crc b).
Proof. reflexivity. Qed.
#[local] Opaque Nat.iter.
Lemma crc_byte_range crc b : is_u32 crc -> is_u8 b -> is_u32 (crc_byte crc b).
Proof. intros. rewrite crc_byte_eq. apply crc_iter_range. apply is_u32_lxor; auto with word. Qed.
Lemma crc_bytes_range bs crc :
  is_u32 crc -> Forall is_u8 bs -> is_u32 (crc_bytes crc bs).
Proof.
  intros Hc Hbs. revert crc Hc. induction Hbs as [|b bs Hb _ IH]; intros crc Hc; cbn.
  - done.
  - apply IH. by apply crc_byte_range.
Qed.
Lemma crc_bytes_app crc l1 l2 : crc_bytes crc (l1 ++ l2) = crc_bytes (crc_bytes crc l1) l2.
Proof. apply fold_left_app. Qed.

Lemma crc_byte_inj_state c c' b :
  is_u32 c -> is_u32 c' -> is_u8 b -> crc_byte c b = crc_byte c' b -> c = c'.
Proof.
  intros Hc Hc' Hb H. rewrite !crc_byte_eq in H.
  apply crc_iter_inj in H; [|apply is_u32_lxor; auto with word..].
  rewrite !(Z.lxor_comm _ b) in H. by apply lxor_cancel_l in H.
Qed.
Lemma crc_bytes_inj_state bs c c' :
  is_u32 c -> is_u32 c' -> Forall is_u8 bs -> crc_bytes c bs = crc_bytes c' bs -> c = c'.
Proof.
  intros Hc Hc' Hbs. revert c c' Hc Hc'.
  induction Hbs as [|b bs Hb _ IH]; intros c c' Hc Hc' H; cbn in H; [done|].
  apply IH in H; [|by apply crc_byte_range..].
  by apply crc_byte_inj_state in H.
Qed.

(** ** A burst of at most four bytes reaches the register undistorted *)
Fixpoint le_word (bs : list Z) : Z :=
  match bs with
  | [] => 0
  | b :: bs => Z.lxor b (Z.shiftl (le_word bs) 8)
  end.

Lemma le_word_cons b bs : is_u8 b -> 0 <= le_word bs -> le_word (b :: bs) = b + 256 * le_word bs.
Proof.
  intros Hb H. cbn [le_word]. rewrite <-Z.add_nocarry_lxor.
  - rewrite Z.shiftl_mul_pow2 by lia. lia.
  - apply Z.bits_inj'. intros n Hn. rewrite Z.land_spec, Z.bits_0.
    destruct (decide (n < 8)).
    + rewrite Z.shiftl_spec_low by lia. apply andb_false_r.
    + unfold is_u8 in Hb. destruct (decide (b = 0)) as [->|]; [by rewrite Z.bits_0|].
      rewrite (Z.bits_above_log2 b); [done|lia|].
      apply Z.log2_lt_pow2; [lia|]. eapply Z.lt_le_trans; [apply Hb|].
      apply Z.pow_le_mono_r; lia.
Qed.

Lemma le_word_bound bs :
  Forall is_u8 bs -> 0 <= le_word bs < 2 ^ (8 * Z.of_nat (length bs)).
Proof.
  induction 1 as [|b bs Hb _ IH]; [cbn; lia|].
  rewrite le_word_cons by (done || lia). cbn [length].
  replace (8 * Z.of_nat (S (length bs))) with (8 + 8 * Z.of_nat (length bs)) by lia.
  rewrite Z.pow_add_r by lia. change (2 ^ 8) with 256. unfold is_u8 in Hb. lia.
Qed.

Lemma le_word_inj bs bs' :
  Forall is_u8 bs -> Forall is_u8 bs' -> length bs = length bs' ->
  le_word bs = le_word bs' -> bs = bs'.
Proof.
  intros H. revert bs'. induction H as [|b bs Hb Hbs IH]; intros [|b' bs'] H' Hl He;
    try done. apply Forall_cons in H' as [Hb' H'].
  pose proof (le_word_bound _ Hbs). pose proof (le_word_bound _ H').
  rewrite !le_word_cons in He by (done || lia).
  unfold is_u8 in *. assert (b = b') as -> by lia. f_equal.
  apply IH; [done|cbn in Hl; lia|lia].
Qed.

Lemma crc_bytes_word bs : forall crc,
  is_u32 crc -> Forall is_u8 bs -> (length bs <= 4)%nat ->
  crc_bytes crc bs = Nat.iter (8 * length bs) crc_bit (Z.lxor crc (le_word bs)).
Proof.
  induction bs as [|b bs IH]; intros crc Hc Hbs Hl.
  - cbn. by rewrite Z.lxor_0_r.
  - apply Forall_cons in Hbs as [Hb Hbs]. cbn [length] in Hl.
    change (crc_bytes crc (b :: bs)) with (crc_bytes (crc_byte crc b) bs).
    rewrite IH by (try apply crc_byte_range; done || lia).
    pose proof (le_word_bound _ Hbs) as [Hw _].
    rewrite <-(crc_iter_shift 8 (le_word bs)) at 1 by done.
    rewrite crc_byte_eq, <-crc_iter_linear, <-Nat.iter_add.
    cbn [length le_word].
    replace (8 * S (length bs))%nat with (8 * length bs + 8)%nat by lia.
    f_equal. by rewrite Z.lxor_assoc.
Qed.

Lemma crc_burst_detected crc pre a b post :
  is_u32 crc -> Forall is_u8 pre -> Forall is_u8 a -> Forall is_u8 b ->
  Forall is_u8 post -> length a = length b -> (length a <= 4)%nat -> a <> b ->
  crc_bytes crc (pre ++ a ++ post) <> crc_bytes crc (pre ++ b ++ post).
Proof.
  intros Hc Hpre Ha Hb Hpost Hl H4 Hab He. apply Hab.
  rewrite !crc_bytes_app in He.
  assert (Hs : is_u32 (crc_bytes crc pre)) by by apply crc_bytes_range.
  revert Hs He. generalize (crc_bytes crc pre). intros s Hs He.
  apply crc_bytes_inj_state in He; [|by apply crc_bytes_range..|done].
  rewrite !crc_bytes_word in He by (done || lia). rewrite Hl in He.
  pose proof (le_word_bound _ Ha) as Ba. pose proof (le_word_bound _ Hb) as Bb.
  assert (H2 : 2 ^ (8 * Z.of_nat (length b)) <= 2 ^ 32) by (apply Z.pow_le_mono_r; lia).
  rewrite Hl in Ba.
  apply crc_iter_inj in He; [|apply is_u32_lxor; unfold is_u32; try done; lia..].
  apply lxor_cancel_l in He. by apply le_word_inj.
Qed.

(** The frame view: a change confined to four consecutive frame bytes is
    always visible in the CRC. *)
Lemma le_bytes_u8 v : Forall is_u8 (le_bytes v).
Proof. repeat constructor; apply u8_range. Qed.

Lemma frame_bytes_u8 m : Forall is_u8 (payload m) -> Forall is_u8 (frame_bytes m).
Proof. intros H. unfold frame_bytes. rewrite !Forall_app. auto using le_bytes_u8. Qed.

Lemma u32_not_inj x y : is_u32 x -> is_u32 y -> u32_not x = u32_not y -> x = y.
Proof.
  intros Hx Hy H. unfold u32_not in H. rewrite !u32_small in H by done.
  rewrite !(Z.lxor_comm _ 0xffffffff) in H. by apply lxor_cancel_l in H.
Qed.

Lemma mailmsg_frame_crc32_range m :
  Forall is_u8 (payload m) -> is_u32 (mailmsg_frame_crc32 m).
Proof.
  intros H. unfold mailmsg_frame_crc32, u32_not.
  apply is_u32_lxor; [apply u32_range|unfold is_u32; lia].
Qed.

(** A frame followed by its CRC leaves the same remainder whatever the frame. *)
Definition sealed_bytes (m : mailmsg_message) : list Z := frame_bytes m ++ le_bytes (crc32 m).
Definition crc_residue : Z := Nat.iter 32 crc_bit 0xffffffff.

Lemma le_word_le_bytes v : is_u32 v -> le_word (le_bytes v) = v.
Proof.
  intros Hv. unfold le_bytes. rewrite !Z.shiftr_div_pow2 by lia.
  rewrite !le_word_cons by (apply u8_range || (apply le_word_bound; repeat constructor; apply u8_range)).
  unfold u8, is_u32 in *. cbn [le_word].
  change (2 ^ 8) with 256. change (2 ^ 16) with 65536. change (2 ^ 24) with 16777216. lia.
Qed.
Lemma sealed_residue m :
  Forall is_u8 (payload m) -> is_u32 (crc32 m) ->
  crc32 m = mailmsg_frame_crc32 m <-> crc_bytes 0xffffffff (sealed_bytes m) = crc_residue.
Proof.
  intros Hp Hc. unfold sealed_bytes. rewrite crc_bytes_app. unfold mailmsg_frame_crc32.
  assert (Hs : is_u32 (crc_bytes 0xffffffff (frame_bytes m)))
    by (apply crc_bytes_range; [unfold is_u32; lia|by apply frame_bytes_u8]).
  generalize dependent (crc_bytes 0xffffffff (frame_bytes m)). intros s Hs.
  rewrite crc_bytes_word, le_word_le_bytes by (done || apply le_bytes_u8 || (cbn; lia)).
  unfold crc_residue, u32_not. rewrite u32_small by done. change (8 * length (le_bytes (crc32 m)))%nat with 32%nat.
  split.
  - intros ->. f_equal. by rewrite <-Z.lxor_assoc, Z.lxor_nilpotent, Z.lxor_0_l.
  - intros E. apply crc_iter_inj in E; [|by apply is_u32_lxor|unfold is_u32; lia].
    rewrite <-E, <-Z.lxor_assoc, Z.lxor_nilpotent, Z.lxor_0_l. done.
Qed.

(** The bytes a frame occupies in its slot. *)
Definition slot_bytes (m : mailmsg_message) : list Z := sealed_bytes m ++ le_bytes (commit m).

(** A change of [slot_bytes] confined to four consecutive bytes, seen from a
    cut of the bytes at [n]: both parts change inside such a window, if at all. *)
Lemma burst_take n (pre a b post : list Z) :
  length a = length b ->
  exists pre1 a1 b1 post1, take n (pre ++ a ++ post) = pre1 ++ a1 ++ post1 /\
    take n (pre ++ b ++ post) = pre1 ++ b1 ++ post1 /\ length a1 = length b1 /\ (length a1 <= length a)%nat.
Proof.
  intros Hl. exists (take n pre), (take (n - length pre) a), (take (n - length pre) b),
    (take (n - length pre - length a) post).
  rewrite !take_app, Hl. split; [done|]. split; [done|]. rewrite !length_take. lia.
Qed.
(** A burst in front of the last four bytes does not touch them, and the other
    way round. *)
Lemma burst_one_end n (pre a b post : list Z) :
  length a = length b -> (length a <= 4)%nat ->
  take n (pre ++ a ++ post) = take n (pre ++ b ++ post) \/
  drop (n + 3) (pre ++ a ++ post) = drop (n + 3) (pre ++ b ++ post).
Proof.
  intros Hl H4. destruct (decide (n <= length pre)%nat) as [Hn|Hn].
  - left. by rewrite !take_app_le.
  - right. rewrite !drop_app, Hl. f_equal. f_equal. rewrite !drop_ge by lia. done.
Qed.

(** What a burst anywhere in the slot leaves of the checks: the CRC no longer
    fits, or the commit word no longer names the sequence number. *)
Record slot_wt (m : mailmsg_message) : Prop := {
  wt_message : message_wt m; wt_crc : is_u32 (crc32 m); wt_commit : is_u32 (commit m);
}.
Lemma le_bytes_inj v w : is_u32 v -> is_u32 w -> le_bytes v = le_bytes w -> v = w.
Proof. intros Hv Hw E. by rewrite <-(le_word_le_bytes v), <-(le_word_le_bytes w), E. Qed.
Lemma slot_bytes_seq m : take 4 (drop 8 (slot_bytes m)) = le_bytes (sequence m).
Proof. reflexivity. Qed.
Lemma sealed_length m : message_wt m -> length (sealed_bytes m) = 48%nat.
Proof. intros (_ & _ & _ & _ & Hl & _). unfold sealed_bytes, frame_bytes. rewrite !length_app, Hl. done. Qed.
Lemma slot_bytes_sealed m : message_wt m -> take 48 (slot_bytes m) = sealed_bytes m.
Proof. intros H. unfold slot_bytes. rewrite <-(sealed_length m H). apply take_app_length. Qed.
Lemma slot_bytes_commit m : message_wt m -> drop 48 (slot_bytes m) = le_bytes (commit m).
Proof. intros H. unfold slot_bytes. rewrite <-(sealed_length m H). apply drop_app_length. Qed.

(** Never both the sequence number and the commit word. *)
Lemma burst_spares_seq_or_commit m m' pre a b post :
  slot_wt m -> slot_wt m' -> slot_bytes m = pre ++ a ++ post -> slot_bytes m' = pre ++ b ++ post ->
  length a = length b -> (length a <= 4)%nat -> sequence m' = sequence m \/ commit m' = commit m.
Proof.
  intros [(?&?&Hs&?) _ Hc] [(?&?&Hs'&?) _ Hc'] Hm Hm' Hl Hle4.
  destruct (burst_one_end 12 pre a b post Hl Hle4) as [E|E]; rewrite <-Hm, <-Hm' in E.
  - left. apply le_bytes_inj; [done..|]. rewrite <-!slot_bytes_seq, !take_drop_commute. change (8 + 4)%nat with 12%nat. by rewrite E.
  - right. apply le_bytes_inj; [done..|].
    rewrite <-!slot_bytes_commit by done. change 48%nat with (12 + 3 + 33)%nat. by rewrite <-!(drop_drop _ 33), E.
Qed.
Lemma burst_breaks_crc m m' pre a b post :
  slot_wt m -> slot_wt m' -> slot_bytes m = pre ++ a ++ post -> slot_bytes m' = pre ++ b ++ post ->
  length a = length b -> (length a <= 4)%nat -> a <> b -> commit m' = commit m ->
  crc32 m = mailmsg_frame_crc32 m -> crc32 m' <> mailmsg_frame_crc32 m'.
Proof.
  intros [Ht Hk _] [Ht' Hk' _] Hm Hm' Hl Hle4 Hab Hcommit Hcrc Hcrc'.
  assert (Hp : Forall is_u8 (payload m)) by apply Ht. assert (Hp' : Forall is_u8 (payload m')) by apply Ht'.
  apply sealed_residue in Hcrc, Hcrc'; [|done..].
  destruct (burst_take 48 pre a b post Hl) as (pre1 & a1 & b1 & post1 & E & E' & Hl1 & Hle).
  rewrite <-Hm, slot_bytes_sealed in E by done. rewrite <-Hm', slot_bytes_sealed in E' by done.
  assert (Hab1 : a1 <> b1).
  { intros ->. apply Hab. assert (Es : slot_bytes m = slot_bytes m')
      by (unfold slot_bytes; by rewrite E, E', Hcommit).
    rewrite Hm, Hm' in Es. apply app_inv_head, app_inj_1 in Es; [by destruct Es|done]. }
  assert (Hu : forall x, Forall is_u8 (payload x) -> Forall is_u8 (sealed_bytes x)).
  { intros x Hx. unfold sealed_bytes. rewrite Forall_app. split; [by apply frame_bytes_u8|apply le_bytes_u8]. }
  pose proof (Hu _ Hp) as Hb. pose proof (Hu _ Hp') as Hb'. rewrite E in Hb, Hcrc. rewrite E' in Hb', Hcrc'.
  rewrite !Forall_app in Hb, Hb'. destruct Hb as (Hb1&Hb2&Hb3), Hb' as (_&Hb4&_).
  refine (crc_burst_detected 0xffffffff pre1 a1 b1 post1 _ Hb1 Hb2 Hb4 Hb3 Hl1 _ Hab1 _); [unfold is_u32; lia|lia|].
  by rewrite Hcrc, Hcrc'.
Qed.

(** The generator: CRC-32/ISO-HDLC's published check value. *)
Example crc32_check_value :
  u32_not (crc_bytes 0xffffffff [49;50;51;52;53;54;55;56;57]) = 0xcbf43926.
Proof. vm_compute. reflexivity. Qed.

(** * Payload integers

    The driver, the firmware and the userspace tools all move a [u32] in and
    out of a payload with the same two byte loops; the four array cells are
    inside the fixed-size payload at every use. *)
Definition byte_at (bytes : list Z) (i : Z) : Z := default 0 (zget bytes i).

Definition load_u32 (bytes : list Z) (off : Z) : Z :=
  Z.lor (Z.lor (Z.lor (byte_at bytes off)
    (u32 (Z.shiftl (byte_at bytes (off + 1)) 8)))
    (u32 (Z.shiftl (byte_at bytes (off + 2)) 16)))
    (u32 (Z.shiftl (byte_at bytes (off + 3)) 24)).

Definition store_u32 (bytes : list Z) (off value : Z) : list Z :=
  zset (off + 3) (u8 (Z.shiftr value 24))
    (zset (off + 2) (u8 (Z.shiftr value 16))
      (zset (off + 1) (u8 (Z.shiftr value 8))
        (zset off (u8 value) bytes))).

Lemma length_store_u32 bytes off v : length (store_u32 bytes off v) = length bytes.
Proof. unfold store_u32. by rewrite !length_zset. Qed.
#[export] Hint Rewrite length_store_u32 : arr.

Lemma shiftr_byte_bit v k n :
  0 <= k -> Z.testbit (u32 (Z.shiftl (u8 (Z.shiftr v k)) k)) n =
  (k <=? n) && (n <? k + 8) && (n <? 32) && Z.testbit v n.
Proof.
  intros Hk. destruct (decide (n < 0)).
  { rewrite (Z.testbit_neg_r _ n), (Z.testbit_neg_r v n) by lia. by rewrite andb_false_r. }
  unfold u8, u32. rewrite <-!Z.land_ones, Z.land_spec, Z.shiftl_spec by lia.
  rewrite (Z.testbit_ones_nonneg 32) by lia.
  destruct (Z.leb_spec k n).
  - rewrite Z.land_spec, Z.shiftr_spec, Z.testbit_ones_nonneg by lia.
    replace (n - k + k) with n by lia.
    replace (n - k <? 8) with (n <? k + 8) by lia.
    destruct (Z.testbit v n), (n <? k + 8), (n <? 32); reflexivity.
  - by rewrite (Z.testbit_neg_r _ (n - k)) by lia.
Qed.

Lemma u8_byte_bit v n : 0 <= n -> Z.testbit (u8 v) n = (n <? 8) && Z.testbit v n.
Proof.
  intros Hn. unfold u8. rewrite <-Z.land_ones, Z.land_spec, Z.testbit_ones_nonneg by lia.
  apply andb_comm.
Qed.

Lemma le_recompose v : is_u32 v ->
  Z.lor (Z.lor (Z.lor (u8 v) (u32 (Z.shiftl (u8 (Z.shiftr v 8)) 8)))
    (u32 (Z.shiftl (u8 (Z.shiftr v 16)) 16))) (u32 (Z.shiftl (u8 (Z.shiftr v 24)) 24)) = v.
Proof.
  intros Hv. apply Z.bits_inj'. intros n Hn.
  apply is_u32_iff_bits in Hv as [_ Hv].
  rewrite !Z.lor_spec, !shiftr_byte_bit, u8_byte_bit by lia.
  destruct (decide (32 <= n)); [rewrite (Hv n) by done; by rewrite !andb_false_r|].
  destruct (Z.testbit v n); rewrite ?andb_false_r; [|done]. lia.
Qed.

Lemma store_load_u32 bytes off v :
  is_u32 v -> 0 <= off -> off + 4 <= Z.of_nat (length bytes) ->
  load_u32 (store_u32 bytes off v) off = v.
Proof.
  intros Hv Ho Hl. unfold load_u32, store_u32, byte_at.
  repeat first
    [ rewrite zget_zset by (rewrite ?length_zset; lia)
    | rewrite zget_zset_ne by lia ].
  by apply le_recompose.
Qed.

(** Storing at one offset leaves the word at a disjoint offset alone. *)
Lemma store_load_u32_ne bytes off off' v :
  off + 4 <= off' \/ off' + 4 <= off ->
  load_u32 (store_u32 bytes off v) off' = load_u32 bytes off'.
Proof.
  intros H. unfold load_u32, store_u32, byte_at.
  by rewrite !zget_zset_ne by lia.
Qed.

Lemma Forall_zset {A} (P : A -> Prop) i x (l : list A) :
  P x -> Forall P l -> Forall P (zset i x l).
Proof. intros. unfold zset. destruct (0 <=? i); [by apply Forall_insert|done]. Qed.

Lemma store_u32_u8 bytes off v :
  Forall is_u8 bytes -> Forall is_u8 (store_u32 bytes off v).
Proof. intros. unfold store_u32. repeat (apply Forall_zset; [apply u8_range|]). done. Qed.
