(* ===== verification/Ring.v ===== *)
(** The single-producer/single-consumer rings of [mailmsg.c].

    The four ring operations over the shared block, the bounded FIFO queue
    they promise ([Queue]) and the proof that they implement it. *)
From S2P Require Import Prelude Protocol.

(** * Shared memory and the platform hooks *)

(** [struct mailmsg_ring *]: the rings live in the two arrays of
    [struct mailmsg_shared]; a pointer is the array and the index. *)
Inductive direction := LinuxToCpu3 | Cpu3ToLinux.
#[export] Instance direction_eq_dec : EqDecision direction.
Proof. solve_decision. Defined.

Record ring_ptr := mk_ring_ptr { ring_dir : direction; ring_index : Z }.
#[export] Instance ring_ptr_eq_dec : EqDecision ring_ptr.
Proof. solve_decision. Defined.

(** The address ranges the protocol passes to the memory hooks. *)
Inductive region :=
| RegHeader                       (* magic, version, generation *)
| RegShared                       (* the whole block *)
| RegProducer (ring : ring_ptr)
| RegConsumer (ring : ring_ptr)
| RegSlot (ring : ring_ptr) (i : Z)
| RegCommit (ring : ring_ptr) (i : Z).

(** [struct mailmsg_memory_ops]: the hooks are platform code (cache
    maintenance and barriers); a hook may change what the CPU sees of the
    shared block, never anything else. *)
Definition hook : Type := region -> mailmsg_shared -> mailmsg_shared.
Record mailmsg_memory_ops := mk_memory_ops {
  publish : option hook;
  acquire : option hook;
}.

Definition ops_publish (ops : option mailmsg_memory_ops) (rg : region) : M mailmsg_shared unit :=
  match ops with
  | Some o => match publish o with Some f => modify (f rg) | None => ub end
  | None => ub
  end.
Definition ops_acquire (ops : option mailmsg_memory_ops) (rg : region) : M mailmsg_shared unit :=
  match ops with
  | Some o => match acquire o with Some f => modify (f rg) | None => ub end
  | None => ub
  end.

(** [!ops || !ops->acquire] *)
Definition no_acquire (ops : option mailmsg_memory_ops) : bool :=
  match ops with
  | Some o => match acquire o with Some _ => false | None => true end
  | None => true
  end.

Definition rings (d : direction) (sh : mailmsg_shared) : list mailmsg_ring :=
  match d with LinuxToCpu3 => linux_to_cpu3 sh | Cpu3ToLinux => cpu3_to_linux sh end.
Definition set_rings (d : direction) (l : list mailmsg_ring) (sh : mailmsg_shared) : mailmsg_shared :=
  match d with
  | LinuxToCpu3 => sh <| linux_to_cpu3 := l |>
  | Cpu3ToLinux => sh <| cpu3_to_linux := l |>
  end.

Definition ring_at (p : ring_ptr) (sh : mailmsg_shared) : option mailmsg_ring :=
  zget (rings (ring_dir p) sh) (ring_index p).
Definition ring_set (p : ring_ptr) (r : mailmsg_ring) (sh : mailmsg_shared) : mailmsg_shared :=
  set_rings (ring_dir p) (zset (ring_index p) r (rings (ring_dir p) sh)) sh.

Definition load_ring (p : ring_ptr) : M mailmsg_shared mailmsg_ring :=
  sh ← get; from_option_ub (ring_at p sh).
Definition store_ring (p : ring_ptr) (r : mailmsg_ring) : M mailmsg_shared unit :=
  load_ring p ;; modify (ring_set p r).
Definition load_slot (p : ring_ptr) (i : Z) : M mailmsg_shared mailmsg_message :=
  r ← load_ring p; from_option_ub (zget (slot r) i).
Definition store_slot (p : ring_ptr) (i : Z) (m : mailmsg_message) : M mailmsg_shared unit :=
  load_slot p i ;; r ← load_ring p; store_ring p (r <| slot := zset i m (slot r) |>).

(** * The operations of [mailmsg.c] *)
Definition mailmsg_next (value : Z) : Z := u32 (value + 1) mod MAILMSG_RING_SLOTS.

(** [!message->generation || !message->sequence ||
     message->length > MAILMSG_PAYLOAD_BYTES] *)
Definition frame_invalid (message : mailmsg_message) : bool :=
  (generation message =? 0) || (sequence message =? 0) ||
  (MAILMSG_PAYLOAD_BYTES <? length_ message).

Definition mailmsg_ring_push (ring : ring_ptr) (ops : option mailmsg_memory_ops)
    (message : mailmsg_message) : M mailmsg_shared Z :=
  r ← load_ring ring;
  let prod := producer r in
  let next := mailmsg_next prod in
  if frame_invalid message then mret MAILMSG_RING_INVALID else
  ops_acquire ops (RegConsumer ring) ;;
  r ← load_ring ring;
  if next =? consumer r then mret MAILMSG_RING_FULL else
  (* *slot = *message; slot->commit = 0; *)
  store_slot ring prod (message <| commit := 0 |>) ;;
  s ← load_slot ring prod;
  store_slot ring prod (s <| crc32 := mailmsg_frame_crc32 s |>) ;;
  ops_publish ops (RegSlot ring prod) ;;
  s ← load_slot ring prod;
  store_slot ring prod (s <| commit := sequence message |>) ;;
  ops_publish ops (RegCommit ring prod) ;;
  r ← load_ring ring;
  store_ring ring (r <| producer := next |>) ;;
  ops_publish ops (RegProducer ring) ;;
  mret 0.

(** The out-parameter [message] is passed in and handed back. *)
Definition mailmsg_ring_pop (ring : ring_ptr) (ops : option mailmsg_memory_ops)
    (message : mailmsg_message) : M mailmsg_shared (Z * mailmsg_message) :=
  r ← load_ring ring;
  let cons := consumer r in
  ops_acquire ops (RegProducer ring) ;;
  r ← load_ring ring;
  if cons =? producer r then mret (MAILMSG_RING_EMPTY, message) else
  ops_acquire ops (RegSlot ring cons) ;;
  s ← load_slot ring cons;
  if negb (commit s =? sequence s) then mret (MAILMSG_RING_INCOMPLETE, message) else
  let message := s in
  r ← load_ring ring;
  store_ring ring (r <| consumer := mailmsg_next cons |>) ;;
  ops_publish ops (RegConsumer ring) ;;
  if frame_invalid message then mret (MAILMSG_RING_INVALID, message) else
  if negb (crc32 message =? mailmsg_frame_crc32 message)
  then mret (MAILMSG_RING_BAD_CRC, message)
  else mret (0, message).

Definition mailmsg_ring_has_data (ring : option ring_ptr) (ops : option mailmsg_memory_ops)
    : M mailmsg_shared Z :=
  match ring with
  | None => mret MAILMSG_RING_INVALID
  | Some ring =>
      if no_acquire ops then mret MAILMSG_RING_INVALID else
      ops_acquire ops (RegProducer ring) ;;
      r ← load_ring ring;
      mret (if producer r =? consumer r then 0 else 1)
  end.

Definition mailmsg_ring_count (ring : option ring_ptr) (ops : option mailmsg_memory_ops)
    : M mailmsg_shared Z :=
  match ring with
  | None => mret MAILMSG_RING_INVALID
  | Some ring =>
      if no_acquire ops then mret MAILMSG_RING_INVALID else
      ops_acquire ops (RegProducer ring) ;;
      ops_acquire ops (RegConsumer ring) ;;
      r ← load_ring ring;
      let prod := producer r in
      let cons := consumer r in
      if (MAILMSG_RING_SLOTS <=? prod) || (MAILMSG_RING_SLOTS <=? cons)
      then mret MAILMSG_RING_INVALID
      else mret (if cons <=? prod then prod - cons
                 else u32 (MAILMSG_RING_SLOTS - cons + prod))
  end.

Arguments mailmsg_ring_push : simpl never.
Arguments mailmsg_ring_pop : simpl never.
Arguments mailmsg_ring_has_data : simpl never.
Arguments mailmsg_ring_count : simpl never.

(** * Lemmas on the shared block *)
Lemma rings_set_rings d l sh : rings d (set_rings d l sh) = l.
Proof. by destruct d. Qed.
Lemma rings_set_rings_ne d d' l sh : d <> d' -> rings d (set_rings d' l sh) = rings d sh.
Proof. by destruct d, d'. Qed.

Lemma ring_at_set p r r0 sh : ring_at p sh = Some r0 -> ring_at p (ring_set p r sh) = Some r.
Proof.
  unfold ring_at, ring_set. intros H. rewrite rings_set_rings.
  apply zget_zset. by eapply zget_Some_range.
Qed.
Lemma ring_at_set_ne p q r sh : p <> q -> ring_at q (ring_set p r sh) = ring_at q sh.
Proof.
  destruct p as [d i], q as [d' j]. unfold ring_at, ring_set. cbn. intros H.
  destruct (decide (d' = d)) as [->|].
  - rewrite rings_set_rings, zget_zset_ne; [done|congruence].
  - by rewrite rings_set_rings_ne.
Qed.
Lemma set_rings_set_rings d l l' sh : set_rings d l (set_rings d l' sh) = set_rings d l sh.
Proof. by destruct d, sh. Qed.
Lemma ring_set_set p r r' sh : ring_set p r (ring_set p r' sh) = ring_set p r sh.
Proof.
  unfold ring_set. by rewrite rings_set_rings, set_rings_set_rings, zset_zset.
Qed.
Lemma ring_set_id p r sh : ring_at p sh = Some r -> ring_set p r sh = sh.
Proof.
  unfold ring_at, ring_set. intros H. rewrite zset_id by done.
  by destruct (ring_dir p), sh.
Qed.
Lemma ring_set_header p r sh :
  magic (ring_set p r sh) = magic sh /\ version (ring_set p r sh) = version sh /\
  shared_generation (ring_set p r sh) = shared_generation sh.
Proof. unfold ring_set. by destruct (ring_dir p). Qed.

(** * Coherent hooks

    On the cache-coherent platform the rings are shared on, a hook orders
    accesses and leaves the contents alone. *)
Class CoherentOps (ops : mailmsg_memory_ops) : Prop := {
  coherent_publish : publish ops = Some (fun _ sh => sh) ;
  coherent_acquire : acquire ops = Some (fun _ sh => sh) ;
}.

(** Well-formed ring: both indices inside the slot array. *)
Record ring_wf (r : mailmsg_ring) : Prop := {
  wf_producer : 0 <= producer r < 8;
  wf_consumer : 0 <= consumer r < 8;
  wf_slots : length (slot r) = 8%nat;
}.

Definition shared_wf (sh : mailmsg_shared) : Prop :=
  length (linux_to_cpu3 sh) = 4%nat /\ length (cpu3_to_linux sh) = 4%nat /\
  Forall ring_wf (linux_to_cpu3 sh) /\ Forall ring_wf (cpu3_to_linux sh).

Lemma shared_wf_ring_at sh d i :
  shared_wf sh -> 0 <= i < 4 -> exists r, ring_at (mk_ring_ptr d i) sh = Some r /\ ring_wf r.
Proof.
  intros (H1 & H2 & H3 & H4) Hi.
  assert (exists r, ring_at (mk_ring_ptr d i) sh = Some r) as [r Hr].
  { apply zget_is_Some. destruct d; cbn; lia. }
  exists r. split; [done|]. unfold ring_at, zget in Hr. cbn in Hr.
  destruct (0 <=? i); [|done].
  destruct d; cbn in Hr; by apply (Forall_lookup_1 ring_wf) in Hr.
Qed.

Lemma shared_wf_ring_set sh p r : shared_wf sh -> ring_wf r -> shared_wf (ring_set p r sh).
Proof.
  intros (H1 & H2 & H3 & H4) Hr. unfold shared_wf, ring_set.
  destruct (ring_dir p); cbn; rewrite length_zset; repeat split; try done;
    by apply Forall_zset.
Qed.

Lemma shared_zero_wf : shared_wf shared_zero.
Proof.
  assert (ring_wf ring_zero) by (split; cbn; lia || done).
  repeat split; by repeat constructor.
Qed.

(** ** The operations under coherent hooks, as functions of the ring *)

(** What a push leaves in the slot. *)
Definition committed (m : mailmsg_message) : mailmsg_message :=
  mk_message (generation m) (type_ m) (sequence m) (length_ m) (payload m)
    (mailmsg_frame_crc32 m) (sequence m).

(** The ring with a frame put into the free slot. *)
Definition put_frame (x : mailmsg_message) (r : mailmsg_ring) : mailmsg_ring :=
  mk_ring (mailmsg_next (producer r)) (consumer r) (zset (producer r) x (slot r)).
Definition pushed (m : mailmsg_message) (r : mailmsg_ring) : mailmsg_ring := put_frame (committed m) r.
Definition popped (r : mailmsg_ring) : mailmsg_ring :=
  mk_ring (producer r) (mailmsg_next (consumer r)) (slot r).

(** The verdict on a released frame. *)
Definition frame_verdict (m : mailmsg_message) : Z :=
  if frame_invalid m then MAILMSG_RING_INVALID
  else if crc32 m =? mailmsg_frame_crc32 m then MAILMSG_RING_OK
  else MAILMSG_RING_BAD_CRC.

Lemma mailmsg_next_eq v : 0 <= v < 8 -> mailmsg_next v = (v + 1) mod 8.
Proof.
  intros H. unfold mailmsg_next. rewrite u32_small by (unfold is_u32; lia). done.
Qed.
Lemma mailmsg_next_range v : 0 <= mailmsg_next v < 8.
Proof. apply Z.mod_pos_bound. done. Qed.

Lemma committed_crc m : mailmsg_frame_crc32 (committed m) = mailmsg_frame_crc32 m.
Proof. reflexivity. Qed.

Section Coherent.
Context (ops : mailmsg_memory_ops) `{!CoherentOps ops}.

Lemma run_publish rg sh : ops_publish (Some ops) rg sh = Some (tt, sh).
Proof. unfold ops_publish. by rewrite coherent_publish. Qed.
Lemma run_acquire rg sh : ops_acquire (Some ops) rg sh = Some (tt, sh).
Proof. unfold ops_acquire. by rewrite coherent_acquire. Qed.
Lemma no_acquire_coherent : no_acquire (Some ops) = false.
Proof. unfold no_acquire. by rewrite coherent_acquire. Qed.

Lemma run_load_ring p r sh : ring_at p sh = Some r -> load_ring p sh = Some (r, sh).
Proof. intros H. unfold load_ring. run. by rewrite H. Qed.
Lemma run_store_ring p r r0 sh :
  ring_at p sh = Some r0 -> store_ring p r sh = Some (tt, ring_set p r sh).
Proof. intros H. unfold store_ring. run. by rewrite (run_load_ring _ _ _ H). Qed.
Lemma run_load_slot p r i m sh :
  ring_at p sh = Some r -> zget (slot r) i = Some m -> load_slot p i sh = Some (m, sh).
Proof. intros H Hm. unfold load_slot. run. rewrite (run_load_ring _ _ _ H), Hm. done. Qed.
Lemma run_store_slot p r i m m0 sh :
  ring_at p sh = Some r -> zget (slot r) i = Some m0 ->
  store_slot p i m sh = Some (tt, ring_set p (r <| slot := zset i m (slot r) |>) sh).
Proof.
  intros H Hm. unfold store_slot. run.
  rewrite (run_load_slot _ _ _ _ _ H Hm), (run_load_ring _ _ _ H).
  by rewrite (run_store_ring _ _ _ _ H).
Qed.

Lemma run_push p r m sh :
  ring_at p sh = Some r -> ring_wf r ->
  mailmsg_ring_push p (Some ops) m sh =
  Some (if frame_invalid m then (MAILMSG_RING_INVALID, sh)
        else if mailmsg_next (producer r) =? consumer r then (MAILMSG_RING_FULL, sh)
        else (0, ring_set p (pushed m r) sh)).
Proof.
  intros H Hwf. unfold mailmsg_ring_push.
  rewrite (run_bind_some _ _ _ _ _ (run_load_ring _ _ _ H)).
  destruct (frame_invalid m); [done|].
  rewrite (run_bind_some _ _ _ _ _ (run_acquire _ _)).
  rewrite (run_bind_some _ _ _ _ _ (run_load_ring _ _ _ H)).
  destruct (_ =? _); [done|].
  destruct (zget_is_Some (slot r) (producer r)) as [m0 Hm0].
  { rewrite (wf_slots _ Hwf). apply (wf_producer _ Hwf). }
  assert (Hp : 0 <= producer r < Z.of_nat (length (slot r))) by by eapply zget_Some_range.
  rewrite (run_bind_some _ _ _ _ _ (run_store_slot _ _ _ _ _ _ H Hm0)).
  set (sh1 := ring_set p _ sh).
  assert (H1 : ring_at p sh1 = Some _) by by eapply ring_at_set.
  erewrite run_bind_some by (eapply run_load_slot; [exact H1|by apply zget_zset]).
  erewrite run_bind_some by (eapply run_store_slot; [exact H1|by apply zget_zset]).
  set (sh2 := ring_set p _ sh1).
  assert (H2 : ring_at p sh2 = Some _) by by eapply ring_at_set.
  rewrite (run_bind_some _ _ _ _ _ (run_publish _ _)).
  assert (Hp2 : 0 <= producer r < Z.of_nat (length (zset (producer r) (m <| commit := 0 |>) (slot r))))
    by by rewrite length_zset.
  erewrite run_bind_some by (eapply run_load_slot; [exact H2|by apply zget_zset]).
  erewrite run_bind_some by (eapply run_store_slot; [exact H2|by apply zget_zset]).
  set (sh3 := ring_set p _ sh2).
  assert (H3 : ring_at p sh3 = Some _) by by eapply ring_at_set.
  rewrite (run_bind_some _ _ _ _ _ (run_publish _ _)).
  rewrite (run_bind_some _ _ _ _ _ (run_load_ring _ _ _ H3)).
  erewrite run_bind_some by (eapply run_store_ring; exact H3).
  rewrite (run_bind_some _ _ _ _ _ (run_publish _ _)).
  unfold sh3, sh2, sh1. rewrite !ring_set_set. cbn. by rewrite !zset_zset.
Qed.

Lemma run_pop p r m0 buf sh :
  ring_at p sh = Some r -> ring_wf r -> zget (slot r) (consumer r) = Some m0 ->
  mailmsg_ring_pop p (Some ops) buf sh =
  Some (if consumer r =? producer r then ((MAILMSG_RING_EMPTY, buf), sh)
        else if commit m0 =? sequence m0
        then ((frame_verdict m0, m0), ring_set p (popped r) sh)
        else ((MAILMSG_RING_INCOMPLETE, buf), sh)).
Proof.
  intros H Hwf Hm0. unfold mailmsg_ring_pop.
  rewrite (run_bind_some _ _ _ _ _ (run_load_ring _ _ _ H)).
  rewrite (run_bind_some _ _ _ _ _ (run_acquire _ _)).
  rewrite (run_bind_some _ _ _ _ _ (run_load_ring _ _ _ H)).
  destruct (_ =? producer r); [done|].
  rewrite (run_bind_some _ _ _ _ _ (run_acquire _ _)).
  rewrite (run_bind_some _ _ _ _ _ (run_load_slot _ _ _ _ _ H Hm0)).
  destruct (commit m0 =? sequence m0); [cbn [negb]|done].
  rewrite (run_bind_some _ _ _ _ _ (run_load_ring _ _ _ H)).
  erewrite run_bind_some by (eapply run_store_ring; exact H).
  rewrite (run_bind_some _ _ _ _ _ (run_publish _ _)).
  unfold frame_verdict. destruct (frame_invalid m0); [done|].
  by destruct (_ =? _).
Qed.

Lemma run_has_data p r sh :
  ring_at p sh = Some r ->
  mailmsg_ring_has_data (Some p) (Some ops) sh =
  Some (if producer r =? consumer r then 0 else 1, sh).
Proof.
  intros H. unfold mailmsg_ring_has_data. rewrite no_acquire_coherent.
  rewrite (run_bind_some _ _ _ _ _ (run_acquire _ _)).
  by rewrite (run_bind_some _ _ _ _ _ (run_load_ring _ _ _ H)).
Qed.

Lemma run_count p r sh :
  ring_at p sh = Some r -> ring_wf r ->
  mailmsg_ring_count (Some p) (Some ops) sh = Some ((producer r - consumer r) mod 8, sh).
Proof.
  intros H [Hp Hc _]. unfold mailmsg_ring_count. rewrite no_acquire_coherent.
  rewrite (run_bind_some _ _ _ _ _ (run_acquire _ _)).
  rewrite (run_bind_some _ _ _ _ _ (run_acquire _ _)).
  rewrite (run_bind_some _ _ _ _ _ (run_load_ring _ _ _ H)).
  unfold MAILMSG_RING_SLOTS.
  destruct (Z.leb_spec 8 (producer r)); [lia|].
  destruct (Z.leb_spec 8 (consumer r)); [lia|]. cbn [orb].
  unfold mret, M_ret. do 2 f_equal. destruct (Z.leb_spec (consumer r) (producer r)).
  - lia.
  - rewrite u32_small by (unfold is_u32; lia). lia.
Qed.
End Coherent.

(** * The queue a ring implements *)

(** The frames between the consumer and the producer index, oldest first. *)
Definition ring_length (r : mailmsg_ring) : nat := Z.to_nat ((producer r - consumer r) mod 8).
Definition frame_at (r : mailmsg_ring) (k : nat) : mailmsg_message :=
  default message_zero (zget (slot r) ((consumer r + Z.of_nat k) mod 8)).
Definition ring_contents (r : mailmsg_ring) : list mailmsg_message :=
  frame_at r <$> seq 0 (ring_length r).

Lemma length_ring_contents r : length (ring_contents r) = ring_length r.
Proof. unfold ring_contents. by rewrite length_fmap, length_seq. Qed.

Lemma ring_length_bound r : (ring_length r <= 7)%nat.
Proof. unfold ring_length. lia. Qed.

Lemma ring_empty_iff r : ring_wf r -> (producer r =? consumer r) = true <-> ring_contents r = [].
Proof.
  intros [Hp Hc _]. rewrite Z.eqb_eq, <-length_zero_iff_nil, length_ring_contents.
  unfold ring_length. lia.
Qed.

Lemma ring_full_iff r :
  ring_wf r -> (mailmsg_next (producer r) =? consumer r) = true <-> length (ring_contents r) = 7%nat.
Proof.
  intros [Hp Hc _]. rewrite mailmsg_next_eq, Z.eqb_eq, length_ring_contents by done.
  unfold ring_length. lia.
Qed.

Lemma put_wf x r : ring_wf r -> ring_wf (put_frame x r).
Proof.
  intros [Hp Hc Hs]. split; cbn; [apply mailmsg_next_range|done|by rewrite length_zset].
Qed.
Lemma popped_wf r : ring_wf r -> ring_wf (popped r).
Proof. intros [Hp Hc Hs]. split; cbn; [done|apply mailmsg_next_range|done]. Qed.

Lemma put_contents x r :
  ring_wf r -> (mailmsg_next (producer r) =? consumer r) = false ->
  ring_contents (put_frame x r) = ring_contents r ++ [x].
Proof.
  intros Hwf Hn. pose proof Hwf as [Hp Hc Hs]. apply Z.eqb_neq in Hn.
  rewrite mailmsg_next_eq in Hn by done.
  assert (Hl : ring_length (put_frame x r) = S (ring_length r)).
  { unfold ring_length. cbn. rewrite mailmsg_next_eq by done. lia. }
  unfold ring_contents. rewrite Hl, seq_S, fmap_app. f_equal.
  - apply list_fmap_ext. intros i k Hk. apply lookup_seq in Hk as [-> Hk].
    unfold frame_at. cbn. rewrite zget_zset_ne; [done|].
    unfold ring_length in Hk. lia.
  - cbn. f_equal. unfold frame_at. cbn.
    replace ((consumer r + Z.of_nat (ring_length r)) mod 8) with (producer r).
    + rewrite zget_zset by lia. done.
    + unfold ring_length. lia.
Qed.

Lemma popped_contents r :
  ring_wf r -> (consumer r =? producer r) = false ->
  ring_contents r = frame_at r 0 :: ring_contents (popped r).
Proof.
  intros Hwf Hn. pose proof Hwf as [Hp Hc Hs]. apply Z.eqb_neq in Hn.
  assert (Hl : ring_length r = S (ring_length (popped r))).
  { unfold ring_length. cbn. rewrite mailmsg_next_eq by done. lia. }
  unfold ring_contents. rewrite Hl. cbn [seq]. rewrite fmap_cons. f_equal.
  rewrite <-fmap_S_seq, <-list_fmap_compose. apply list_fmap_ext.
  intros i k Hk. apply lookup_seq in Hk as [-> Hk]. unfold compose, frame_at. cbn.
  do 2 f_equal. rewrite mailmsg_next_eq by done. lia.
Qed.

Lemma frame_at_0 r : ring_wf r -> zget (slot r) (consumer r) = Some (frame_at r 0).
Proof.
  intros [Hp Hc Hs]. unfold frame_at.
  replace ((consumer r + Z.of_nat 0) mod 8) with (consumer r) by lia.
  destruct (zget_is_Some (slot r) (consumer r)) as [x ->]; [lia|done].
Qed.

(** ** Specification: a FIFO queue of at most seven committed frames *)
Module Queue.
Definition capacity : nat := 7.

Definition push (m : mailmsg_message) (q : list mailmsg_message) : Z * list mailmsg_message :=
  if frame_invalid m then (MAILMSG_RING_INVALID, q)
  else if (length q =? capacity)%nat then (MAILMSG_RING_FULL, q)
  else (MAILMSG_RING_OK, q ++ [committed m]).

Definition pop (buf : mailmsg_message) (q : list mailmsg_message) :
    (Z * mailmsg_message) * list mailmsg_message :=
  match q with
  | [] => ((MAILMSG_RING_EMPTY, buf), [])
  | m :: q => ((frame_verdict m, m), q)
  end.
End Queue.

(** The ring at [p] holds the queue [q], every frame of it committed. *)
Definition represents (p : ring_ptr) (sh : mailmsg_shared) (q : list mailmsg_message) : Prop :=
  exists r, ring_at p sh = Some r /\ ring_wf r /\ ring_contents r = q /\
    Forall (fun m => commit m = sequence m) q.

(** Everything of the block but the ring at [p] is the same. *)
Definition same_but (p : ring_ptr) (sh sh' : mailmsg_shared) : Prop :=
  magic sh' = magic sh /\ version sh' = version sh /\
  shared_generation sh' = shared_generation sh /\
  forall q, q <> p -> ring_at q sh' = ring_at q sh.

Lemma same_but_refl p sh : same_but p sh sh.
Proof. done. Qed.
Lemma same_but_set p r sh : same_but p sh (ring_set p r sh).
Proof.
  destruct (ring_set_header p r sh) as (?&?&?). repeat split; try done.
  intros q Hq. by apply ring_at_set_ne.
Qed.
Lemma same_but_trans p s1 s2 s3 : same_but p s1 s2 -> same_but p s2 s3 -> same_but p s1 s3.
Proof.
  intros (?&?&?&Ha) (?&?&?&Hb). repeat split; try congruence.
  intros q Hq. by rewrite Hb, Ha.
Qed.
#[export] Hint Resolve same_but_refl same_but_set : core.

Lemma represents_length p sh q : represents p sh q -> (length q <= 7)%nat.
Proof. intros (r & _ & _ & <- & _). rewrite length_ring_contents. apply ring_length_bound. Qed.
Lemma represents_unique p sh q q' : represents p sh q -> represents p sh q' -> q = q'.
Proof. intros (r&?&?&?&?) (r'&?&?&?&?). congruence. Qed.

Lemma represents_other p p' sh sh' q :
  p <> p' -> same_but p' sh sh' -> represents p sh q -> represents p sh' q.
Proof. intros Hne (_ & _ & _ & H) (r & Hr & ?). exists r. by rewrite H. Qed.

Lemma represents_zero d i : 0 <= i < 4 -> represents (mk_ring_ptr d i) shared_zero [].
Proof.
  intros Hi. exists ring_zero. split; [|split; [split; cbn; lia || done|done]].
  assert (i = 0 \/ i = 1 \/ i = 2 \/ i = 3) as [->|[->|[->| ->]]] by lia; by destruct d.
Qed.

(** Storing a committed frame appends it to the queue. *)
Lemma represents_put p sh r x :
  ring_at p sh = Some r -> ring_wf r -> (mailmsg_next (producer r) =? consumer r) = false ->
  commit x = sequence x -> forall q, represents p sh q ->
  represents p (ring_set p (put_frame x r) sh) (q ++ [x]).
Proof.
  intros Hr Hwf Hn Hx q (r' & Hr' & _ & <- & Hc). rewrite Hr in Hr'. injection Hr' as <-.
  exists (put_frame x r). split; [by eapply ring_at_set|]. split; [by apply put_wf|].
  split; [by apply put_contents|]. apply Forall_app. split; [done|]. by constructor.
Qed.

Section Refinement.
Context (ops : mailmsg_memory_ops) `{!CoherentOps ops}.

Lemma push_refines p m sh q :
  represents p sh q ->
  exists sh', mailmsg_ring_push p (Some ops) m sh = Some (fst (Queue.push m q), sh') /\
    represents p sh' (snd (Queue.push m q)) /\ same_but p sh sh' /\
    (fst (Queue.push m q) <> MAILMSG_RING_OK -> sh' = sh).
Proof.
  intros (r & Hr & Hwf & Hq & Hc). rewrite (run_push ops p r m sh Hr Hwf).
  unfold Queue.push. destruct (frame_invalid m).
  { exists sh. repeat split; try done. by exists r. }
  pose proof (ring_full_iff r Hwf) as Hf. rewrite Hq in Hf.
  destruct (mailmsg_next (producer r) =? consumer r) eqn:En.
  - rewrite (proj2 (Nat.eqb_eq _ _)) by by apply Hf. exists sh.
    repeat split; try done. by exists r.
  - rewrite (proj2 (Nat.eqb_neq _ _)).
    2:{ intros E. apply Hf in E. congruence. }
    eexists. split; [reflexivity|]. split; [|split; [auto|done]].
    apply represents_put; [done..|]. by exists r.
Qed.

Lemma pop_refines p buf sh q :
  represents p sh q ->
  exists sh', mailmsg_ring_pop p (Some ops) buf sh = Some (fst (Queue.pop buf q), sh') /\
    represents p sh' (snd (Queue.pop buf q)) /\ same_but p sh sh'.
Proof.
  intros (r & Hr & Hwf & Hq & Hc).
  rewrite (run_pop ops p r (frame_at r 0) buf sh Hr Hwf (frame_at_0 r Hwf)).
  destruct (consumer r =? producer r) eqn:E.
  - pose proof (ring_empty_iff r Hwf) as He. rewrite Z.eqb_sym, E in He.
    rewrite Hq in He. assert (q = []) as -> by by apply He.
    exists sh. repeat split; try done. by exists r.
  - rewrite popped_contents in Hq by done. subst q.
    apply Forall_cons in Hc as [Hc0 Hc]. rewrite (proj2 (Z.eqb_eq _ _) Hc0).
    eexists. split; [reflexivity|]. split; [|auto].
    exists (popped r). split; [by eapply ring_at_set|].
    split; [by apply popped_wf|]. done.
Qed.

Lemma has_data_refines p sh q :
  represents p sh q ->
  mailmsg_ring_has_data (Some p) (Some ops) sh =
  Some (match q with [] => 0 | _ => 1 end, sh).
Proof.
  intros (r & Hr & Hwf & Hq & _). rewrite (run_has_data ops p r sh Hr).
  pose proof (ring_empty_iff r Hwf) as He. rewrite Hq in He.
  destruct (producer r =? consumer r), q; try done; exfalso;
    [by discriminate (proj1 He eq_refl)|by discriminate (proj2 He eq_refl)].
Qed.

Lemma count_refines p sh q :
  represents p sh q ->
  mailmsg_ring_count (Some p) (Some ops) sh = Some (Z.of_nat (length q), sh).
Proof.
  intros (r & Hr & Hwf & Hq & _). rewrite (run_count ops p r sh Hr Hwf).
  rewrite <-Hq, length_ring_contents. unfold ring_length. do 2 f_equal. lia.
Qed.
End Refinement.

(** The hooks of a coherent platform, as the host tests supply them. *)
Definition noop_ops : mailmsg_memory_ops :=
  mk_memory_ops (Some (fun _ sh => sh)) (Some (fun _ sh => sh)).
#[export] Instance noop_ops_coherent : CoherentOps noop_ops.
Proof. by split. Qed.

(** ** Sequences of calls on one ring *)
Inductive ring_call :=
| CallPush (m : mailmsg_message)
| CallPop (buf : mailmsg_message)
| CallHasData
| CallCount.

Definition exec_call (p : ring_ptr) (ops : option mailmsg_memory_ops) (c : ring_call) :
    M mailmsg_shared (Z * mailmsg_message) :=
  match c with
  | CallPush m => z ← mailmsg_ring_push p ops m; mret (z, message_zero)
  | CallPop buf => mailmsg_ring_pop p ops buf
  | CallHasData => z ← mailmsg_ring_has_data (Some p) ops; mret (z, message_zero)
  | CallCount => z ← mailmsg_ring_count (Some p) ops; mret (z, message_zero)
  end.
Fixpoint exec_calls (p : ring_ptr) (ops : option mailmsg_memory_ops) (l : list ring_call) :
    M mailmsg_shared (list (Z * mailmsg_message)) :=
  match l with
  | [] => mret []
  | c :: l => z ← exec_call p ops c; zs ← exec_calls p ops l; mret (z :: zs)
  end.

(** The same calls on the specification. *)
Definition queue_call (c : ring_call) (q : list mailmsg_message) :
    (Z * mailmsg_message) * list mailmsg_message :=
  match c with
  | CallPush m => ((fst (Queue.push m q), message_zero), snd (Queue.push m q))
  | CallPop buf => Queue.pop buf q
  | CallHasData => ((match q with [] => 0 | _ => 1 end, message_zero), q)
  | CallCount => ((Z.of_nat (length q), message_zero), q)
  end.
Fixpoint queue_calls (l : list ring_call) (q : list mailmsg_message) :
    list (Z * mailmsg_message) * list mailmsg_message :=
  match l with
  | [] => ([], q)
  | c :: l => let '(z, q) := queue_call c q in
              let '(zs, q) := queue_calls l q in (z :: zs, q)
  end.

Lemma exec_call_refines ops `{!CoherentOps ops} p c sh q :
  represents p sh q ->
  exists sh', exec_call p (Some ops) c sh = Some (fst (queue_call c q), sh') /\
    represents p sh' (snd (queue_call c q)) /\ same_but p sh sh'.
Proof.
  intros H. destruct c as [m|buf| |]; cbn [exec_call queue_call fst snd].
  - destruct (push_refines ops p m sh q H) as (sh' & Hr & Hrep & Hs & _).
    exists sh'. by rewrite (run_bind_some _ _ _ _ _ Hr).
  - destruct (pop_refines ops p buf sh q H) as (sh' & Hr & Hrep & Hs). by exists sh'.
  - exists sh. by rewrite (run_bind_some _ _ _ _ _ (has_data_refines ops p sh q H)).
  - exists sh. by rewrite (run_bind_some _ _ _ _ _ (count_refines ops p sh q H)).
Qed.

(** * Properties *)

(** C1. A ring is a FIFO queue of at most seven frames: whatever the sequence
    of push, pop, has_data and count calls, every result and every delivered
    frame is the one the abstract queue gives, no call has undefined
    behaviour, and nothing of the shared block but this ring changes. *)
Theorem ring_refines_queue ops p l sh q :
  CoherentOps ops -> represents p sh q ->
  exists sh', exec_calls p (Some ops) l sh = Some (fst (queue_calls l q), sh') /\
    represents p sh' (snd (queue_calls l q)) /\ same_but p sh sh'.
Proof.
  intros Hops. revert sh q. induction l as [|c l IH]; intros sh q H; [by exists sh|].
  destruct (exec_call_refines ops p c sh q H) as (sh1 & Hr & Hrep & Hs).
  cbn [exec_calls queue_calls]. rewrite (run_bind_some _ _ _ _ _ Hr).
  destruct (queue_call c q) as [z q1]. cbn [fst snd] in *.
  destruct (IH _ _ Hrep) as (sh2 & Hr2 & Hrep2 & Hs2).
  rewrite (run_bind_some _ _ _ _ _ Hr2).
  destruct (queue_calls l q1) as [zs q2]. cbn [fst snd] in *.
  exists sh2. split; [done|]. split; [done|]. by eapply same_but_trans.
Qed.

(** Eight pushes and three pops on an empty ring: the eighth push is FULL. *)
Definition demo_calls : list ring_call :=
  ((fun n => CallPush (mk_message 1 1 n 4 (replicate 28 n) 0 0)) <$> [1;2;3;4;5;6;7;8]) ++
  [CallCount; CallPop message_zero; CallPop message_zero; CallHasData].

Lemma ring_refines_queue_witness :
  let p := mk_ring_ptr Cpu3ToLinux 2 in
  (fst <$> fst (queue_calls demo_calls [])) = [0;0;0;0;0;0;0;-2;7;0;0;1] /\
  exists sh', exec_calls p (Some noop_ops) demo_calls shared_zero =
      Some (fst (queue_calls demo_calls []), sh') /\
    represents p sh' (snd (queue_calls demo_calls [])) /\ same_but p shared_zero sh'.
Proof.
  split; [vm_compute; reflexivity|].
  apply (ring_refines_queue noop_ops _ demo_calls shared_zero []); [exact _|].
  apply represents_zero. lia.
Defined.

(** C4. A corrupted frame is never delivered.  Let [m] be a committed frame -
    its [crc32] is the CRC of its bytes, its [commit] its sequence number - and
    let the 52 bytes of its slot change in at most four consecutive places,
    wherever they lie: in the header, the payload, the CRC, the commit word or
    across their borders.  If the change reaches the sequence number or the
    commit word, the pop takes the slot for one still being written: it answers
    INCOMPLETE and leaves the ring as it is.  Otherwise it releases the slot and
    answers INVALID where the header fails the format checks now, and BAD_CRC
    where it does not. *)
Theorem pop_detects_burst ops p sh r m m' pre a b post buf :
  CoherentOps ops -> ring_at p sh = Some r -> ring_wf r -> consumer r <> producer r ->
  slot_wt m -> slot_wt m' -> crc32 m = mailmsg_frame_crc32 m -> commit m = sequence m ->
  slot_bytes m = pre ++ a ++ post -> slot_bytes m' = pre ++ b ++ post ->
  length a = length b -> (length a <= 4)%nat -> a <> b ->
  zget (slot r) (consumer r) = Some m' ->
  mailmsg_ring_pop p (Some ops) buf sh =
    Some (if (sequence m' =? sequence m) && (commit m' =? commit m)
          then (if frame_invalid m' then MAILMSG_RING_INVALID else MAILMSG_RING_BAD_CRC, m', ring_set p (popped r) sh)
          else (MAILMSG_RING_INCOMPLETE, buf, sh)).
Proof.
  intros Hops Hr Hwf Hne Hm Hm' Hcrc Hcommit E E' Hl H4 Hab Hs. apply Z.eqb_neq in Hne.
  rewrite (run_pop ops p r _ buf sh Hr Hwf Hs), Hne.
  pose proof (burst_spares_seq_or_commit m m' pre a b post Hm Hm' E E' Hl H4) as Hone.
  destruct (Z.eqb_spec (sequence m') (sequence m)) as [Hq|Hq], (Z.eqb_spec (commit m') (commit m)) as [Hk|Hk]; cbn [andb].
  - rewrite Hk, Hcommit, <-Hq, Z.eqb_refl. unfold frame_verdict. destruct (frame_invalid m'); [done|].
    rewrite (proj2 (Z.eqb_neq _ _)); [done|]. by apply (burst_breaks_crc m m' pre a b post).
  - rewrite (proj2 (Z.eqb_neq _ _)); [done|congruence].
  - rewrite (proj2 (Z.eqb_neq _ _)); [done|congruence].
  - by destruct Hone.
Qed.

(** The last two payload bytes inverted together with the first two of the CRC. *)
Lemma pop_detects_burst_witness :
  let m := mk_message 3 1 9 4 (replicate 28 7) 0 0 in
  let m := m <| crc32 := mailmsg_frame_crc32 m |> <| commit := 9 |> in
  let m' := m <| payload := replicate 26 7 ++ [248; 248] |> <| crc32 := Z.lxor 0xffff (crc32 m) |> in
  let r := mk_ring 1 0 (m' :: replicate 7 message_zero) in
  let p := mk_ring_ptr LinuxToCpu3 1 in
  let sh := ring_set p r shared_zero in
  mailmsg_ring_pop p (Some noop_ops) message_zero sh = Some (MAILMSG_RING_BAD_CRC, m', ring_set p (popped r) sh).
Proof.
  intros m0 m m' r p sh.
  assert (Hwt : slot_wt m /\ slot_wt m').
  { split; (split; [split_and!|..]); vm_compute; repeat constructor; done || (intros [=]). }
  apply (pop_detects_burst noop_ops p sh r m m' (take 42 (slot_bytes m)) (take 4 (drop 42 (slot_bytes m)))
    (take 4 (drop 42 (slot_bytes m'))) (drop 46 (slot_bytes m))).
  - exact _.
  - reflexivity.
  - split; cbn; lia || done.
  - cbn. lia.
  - apply Hwt.
  - apply Hwt.
  - vm_compute. reflexivity.
  - reflexivity.
  - vm_compute. reflexivity.
  - vm_compute. reflexivity.
  - vm_compute. reflexivity.
  - vm_compute. repeat constructor.
  - vm_compute. discriminate.
  - reflexivity.
Defined.
