(* ===== verification/RingConc.v ===== *)
(** Concurrency of one ring: [mailmsg_ring_push] and [mailmsg_ring_pop]
    running on two CPUs that do not share a cache.

    Each side works on its own copy of the ring; [acquire] refreshes the named
    range of the copy from memory and [publish] writes the named range back.
    The two functions are cut into one step per memory operation, in source
    order, and interleaved freely. *)
From S2P Require Import Prelude Protocol Ring.

(** * The micro-steps *)

(** Where the producer stands inside [mailmsg_ring_push]. *)
Inductive push_pc :=
| PIdle
| PAcquire (m : mailmsg_message)     (* before ops->acquire(&ring->consumer) *)
| PWrite (m : mailmsg_message)       (* before *slot = *message *)
| PPubSlot (m : mailmsg_message)     (* before publish(slot, sizeof *slot) *)
| PCommit (m : mailmsg_message)      (* before slot->commit = message->sequence *)
| PPubCommit (m : mailmsg_message)   (* before publish(&slot->commit) *)
| PAdvance (m : mailmsg_message)     (* before ring->producer = next *)
| PPubProducer (m : mailmsg_message) (* before publish(&ring->producer) *).

(** Where the consumer stands inside [mailmsg_ring_pop]. *)
Inductive pop_pc :=
| CIdle
| CAcqSlot       (* ring not empty; before acquire(slot, sizeof *slot) *)
| CRead          (* before the commit test and the copy *)
| CPubConsumer   (* before publish(&ring->consumer) *).

Record spsc := mk_spsc {
  mem : mailmsg_ring;        (* main memory *)
  pview : mailmsg_ring;      (* the producer CPU's copy *)
  cview : mailmsg_ring;      (* the consumer CPU's copy *)
  ppc : push_pc;
  cpc : pop_pc;
  sent : list mailmsg_message;                 (* pushes that returned OK *)
  received : list (Z * mailmsg_message);       (* verdict and frame of each pop *)
  incomplete : nat;                            (* pops that returned INCOMPLETE *)
  push_results : list Z;                       (* what the pushes returned *)
}.
#[export] Instance eta_spsc : Eta spsc := fun s =>
  mk_spsc (mem s) (pview s) (cview s) (ppc s) (cpc s) (sent s) (received s)
    (incomplete s) (push_results s).

Definition slot_of (r : mailmsg_ring) (i : Z) : mailmsg_message :=
  default message_zero (zget (slot r) i).
Definition with_slot (i : Z) (m : mailmsg_message) (r : mailmsg_ring) : mailmsg_ring :=
  r <| slot := zset i m (slot r) |>.

(** The slot after [*slot = *message; slot->commit = 0; slot->crc32 = ...]. *)
Definition filled (m : mailmsg_message) : mailmsg_message :=
  m <| commit := 0 |> <| crc32 := mailmsg_frame_crc32 (m <| commit := 0 |>) |>.

(** One memory operation of the producer. *)
Definition producer_step (s : spsc) : spsc :=
  let i := producer (pview s) in
  match ppc s with
  | PIdle => s
  | PAcquire m =>
      let v := pview s <| consumer := consumer (mem s) |> in
      if mailmsg_next i =? consumer v
      then s <| pview := v |> <| ppc := PIdle |>
             <| push_results := push_results s ++ [MAILMSG_RING_FULL] |>
      else s <| pview := v |> <| ppc := PWrite m |>
  | PWrite m =>
      s <| pview := with_slot i (filled m) (pview s) |> <| ppc := PPubSlot m |>
  | PPubSlot m =>
      s <| mem := with_slot i (slot_of (pview s) i) (mem s) |> <| ppc := PCommit m |>
  | PCommit m =>
      s <| pview := with_slot i (slot_of (pview s) i <| commit := sequence m |>) (pview s) |>
        <| ppc := PPubCommit m |>
  | PPubCommit m =>
      s <| mem := with_slot i (slot_of (mem s) i <| commit := commit (slot_of (pview s) i) |>)
                    (mem s) |>
        <| ppc := PAdvance m |>
  | PAdvance m =>
      s <| pview := pview s <| producer := mailmsg_next i |> |> <| ppc := PPubProducer m |>
  | PPubProducer m =>
      s <| mem := mem s <| producer := producer (pview s) |> |> <| ppc := PIdle |>
        <| sent := sent s ++ [m] |> <| push_results := push_results s ++ [MAILMSG_RING_OK] |>
  end.

(** One memory operation of the consumer. *)
Definition consumer_step (s : spsc) : spsc :=
  let i := consumer (cview s) in
  match cpc s with
  | CIdle =>
      let v := cview s <| producer := producer (mem s) |> in
      if i =? producer v then s <| cview := v |>   (* EMPTY *)
      else s <| cview := v |> <| cpc := CAcqSlot |>
  | CAcqSlot =>
      s <| cview := with_slot i (slot_of (mem s) i) (cview s) |> <| cpc := CRead |>
  | CRead =>
      let m := slot_of (cview s) i in
      if commit m =? sequence m
      then s <| cview := cview s <| consumer := mailmsg_next i |> |>
             <| received := received s ++ [(frame_verdict m, m)] |>
             <| cpc := CPubConsumer |>
      else s <| cpc := CIdle |> <| incomplete := S (incomplete s) |>
  | CPubConsumer =>
      s <| mem := mem s <| consumer := consumer (cview s) |> |> <| cpc := CIdle |>
  end.

(** While the slot is dirty in the producer's cache and not yet published as a
    whole, any part of it may already have reached memory. *)
Definition slot_in_flight (s : spsc) : Prop :=
  match ppc s with PWrite _ | PPubSlot _ => True | _ => False end.

Inductive spsc_step (s : spsc) : spsc -> Prop :=
| step_call m :
    ppc s = PIdle -> frame_invalid m = false -> spsc_step s (s <| ppc := PAcquire m |>)
| step_producer : spsc_step s (producer_step s)
| step_consumer : spsc_step s (consumer_step s)
| step_torn junk :
    slot_in_flight s ->
    spsc_step s (s <| mem := with_slot (producer (pview s)) junk (mem s) |>).

(** Start of a session: every copy is the zeroed ring. *)
Definition spsc_init : spsc :=
  mk_spsc ring_zero ring_zero ring_zero PIdle CIdle [] [] 0 [].

(** * The invariant *)

(** The position of the [k]-th frame of the session. *)
Definition pos (k : nat) : Z := Z.of_nat k mod 8.

Lemma pos_range k : 0 <= pos k < 8.
Proof. unfold pos. lia. Qed.
Lemma mailmsg_next_pos k : mailmsg_next (pos k) = pos (S k).
Proof. unfold mailmsg_next, pos, u32, MAILMSG_RING_SLOTS. lia. Qed.

(** What memory and the producer's copy hold of the frame in preparation. *)
Definition producer_inv (s : spsc) : Prop :=
  let P := length (sent s) in
  producer (mem s) = pos P /\
  match ppc s with
  | PIdle | PAcquire _ => producer (pview s) = pos P
  | PWrite m => producer (pview s) = pos P
  | PPubSlot m => producer (pview s) = pos P /\ slot_of (pview s) (pos P) = filled m
  | PCommit m => producer (pview s) = pos P /\ slot_of (pview s) (pos P) = filled m /\
      slot_of (mem s) (pos P) = filled m
  | PPubCommit m => producer (pview s) = pos P /\ slot_of (pview s) (pos P) = committed m /\
      slot_of (mem s) (pos P) = filled m
  | PAdvance m => producer (pview s) = pos P /\ slot_of (mem s) (pos P) = committed m
  | PPubProducer m => producer (pview s) = pos (S P) /\ slot_of (mem s) (pos P) = committed m
  end.

(** The message being pushed passed the validity test. *)
Definition current_valid (s : spsc) : Prop :=
  match ppc s with
  | PIdle => True
  | PAcquire m | PWrite m | PPubSlot m | PCommit m | PPubCommit m | PAdvance m
  | PPubProducer m => frame_invalid m = false
  end.

(** The number of frames whose release has reached memory. *)
Definition released (s : spsc) : nat :=
  match cpc s with CPubConsumer => length (received s) - 1 | _ => length (received s) end.

Definition past_check (s : spsc) : bool :=
  match ppc s with PIdle | PAcquire _ => false | _ => true end.

Record spsc_inv (s : spsc) : Prop := {
  inv_slots : length (slot (mem s)) = 8%nat /\ length (slot (pview s)) = 8%nat /\
    length (slot (cview s)) = 8%nat;
  inv_consumer : consumer (cview s) = pos (length (received s)) /\
    consumer (mem s) = pos (released s);
  inv_cpub : cpc s = CPubConsumer -> (1 <= length (received s))%nat;
  inv_order : (length (received s) <= length (sent s))%nat;
  inv_room : (length (sent s) - released s + (if past_check s then 1 else 0) <= 7)%nat;
  inv_nonempty : (cpc s = CAcqSlot \/ cpc s = CRead) ->
    (length (received s) < length (sent s))%nat;
  inv_producer : producer_inv s;
  inv_valid : current_valid s /\ Forall (fun m => frame_invalid m = false) (sent s);
  inv_mem : forall k m, (released s <= k)%nat -> sent s !! k = Some m ->
    slot_of (mem s) (pos k) = committed m;
  inv_cview : cpc s = CRead -> forall m, sent s !! length (received s) = Some m ->
    slot_of (cview s) (pos (length (received s))) = committed m;
  inv_received : received s =
    (fun m => (MAILMSG_RING_OK, committed m)) <$> take (length (received s)) (sent s);
  inv_complete : incomplete s = 0%nat;
}.

(** ** Helper lemmas *)
Lemma pos_inj a b : pos a = pos b -> (a <= b)%nat -> (b - a <= 7)%nat -> a = b.
Proof. unfold pos. intros. lia. Qed.

Lemma slot_of_with i m r :
  0 <= i < 8 -> length (slot r) = 8%nat -> slot_of (with_slot i m r) i = m.
Proof. intros Hi Hl. unfold slot_of, with_slot. cbn. by rewrite zget_zset by lia. Qed.
Lemma slot_of_with_ne i j m r : i <> j -> slot_of (with_slot i m r) j = slot_of r j.
Proof. intros H. unfold slot_of, with_slot. cbn. by rewrite zget_zset_ne. Qed.
Lemma length_with_slot i m r : length (slot (with_slot i m r)) = length (slot r).
Proof. unfold with_slot. cbn. apply length_zset. Qed.

Lemma frame_verdict_committed m : frame_invalid m = false -> frame_verdict (committed m) = MAILMSG_RING_OK.
Proof.
  intros H. unfold frame_verdict. change (frame_invalid (committed m)) with (frame_invalid m).
  rewrite H. cbn [crc32 committed]. by rewrite committed_crc, Z.eqb_refl.
Qed.

Lemma filled_committed m : filled m <| commit := sequence m |> = committed m.
Proof. by destruct m. Qed.

Lemma length_received s :
  spsc_inv s -> (length (received s) <= length (sent s))%nat.
Proof. apply inv_order. Qed.

Lemma released_le s : (released s <= length (received s))%nat.
Proof. unfold released. destruct (cpc s); lia. Qed.

(** Overwriting the slot in preparation touches no frame still to be read. *)
Lemma mem_slot_free s k x :
  spsc_inv s -> past_check s = true -> (released s <= k < length (sent s))%nat ->
  slot_of (with_slot (pos (length (sent s))) x (mem s)) (pos k) = slot_of (mem s) (pos k).
Proof.
  intros Hi Hp Hk. apply slot_of_with_ne. intros E. symmetry in E.
  pose proof (inv_room _ Hi) as Hr. rewrite Hp in Hr.
  apply pos_inj in E; lia.
Qed.

Ltac spsc_open H :=
  let Hi := fresh "Hi" in pose proof H as Hi;
  destruct H as [[Hs1 [Hs2 Hs3]] [Hc1 Hc2] Hcp Ho Hr Hne Hpr [Hv Hvs] Hm Hcv Hrec Hinc].

Lemma lookup_sent_lt (l : list mailmsg_message) k m : l !! k = Some m -> (k < length l)%nat.
Proof. apply lookup_lt_Some. Qed.
#[local] Hint Resolve lookup_sent_lt : core.

(** The producer's steps keep the invariant. *)
Ltac producer_case :=
  split; unfold producer_inv, current_valid, past_check, released; cbn;
  rewrite ?length_with_slot, ?length_zset; try done.

Lemma producer_step_inv s : spsc_inv s -> spsc_inv (producer_step s).
Proof.
  intros H. spsc_open H. pose proof (released_le s) as Hle.
  pose proof (mem_slot_free s) as Hfree.
  unfold producer_step.
  destruct s as [mm pv cv pp cp snt rcv inc res]. cbn in *.
  unfold producer_inv, current_valid, past_check, released in *. cbn in *.
  set (rel := match cp with CPubConsumer => _ | _ => _ end) in *.
  pose proof (pos_range (length snt)) as Hpos.
  destruct pp as [|m|m|m|m|m|m|m]; cbn in *; destruct Hpr as [Hp1 Hp2].
  - done.
  - (* PAcquire *)
    rewrite Hp2, mailmsg_next_pos, Hc2.
    destruct (Z.eqb_spec (pos (S (length snt))) (pos rel)) as [E|E]; producer_case.
    destruct (decide (length snt - rel = 7)%nat); [|lia].
    exfalso. apply E. unfold pos. lia.
  - (* PWrite *)
    rewrite Hp2. producer_case. split; [done|]. split; [done|].
    by apply slot_of_with.
  - (* PPubSlot *)
    destruct Hp2 as [Hp2 Hsl]. rewrite Hp2, Hsl. producer_case.
    + split; [done|]. repeat split; try done. by apply slot_of_with.
    + intros k m' Hk Hm'. rewrite Hfree; eauto.
  - (* PCommit *)
    destruct Hp2 as (Hp2 & Hsl & Hml). rewrite Hp2, Hsl. producer_case.
    split; [done|]. repeat split; try done.
    rewrite slot_of_with by done. apply filled_committed.
  - (* PPubCommit *)
    destruct Hp2 as (Hp2 & Hsl & Hml). rewrite Hp2, Hsl, Hml. producer_case.
    + split; [done|]. split; [done|]. rewrite slot_of_with by done. apply filled_committed.
    + intros k m' Hk Hm'. rewrite Hfree; eauto.
  - (* PAdvance *)
    destruct Hp2 as (Hp2 & Hml). rewrite Hp2, mailmsg_next_pos. producer_case.
  - (* PPubProducer *)
    destruct Hp2 as (Hp2 & Hml). rewrite Hp2. producer_case.
    all: rewrite ?length_app; cbn [length]; replace (length snt + 1)%nat with (S (length snt)) by lia; try done; try lia.
    + split; [done|]. apply Forall_app; auto.
    + intros k m' Hk Hm'. apply lookup_app_Some in Hm' as [Hm'|[Hlt Hm']]; [eauto|].
      apply list_lookup_singleton_Some in Hm' as [Hk0 <-].
      by replace k with (length snt) by lia.
    + intros Hcr m' Hm'. apply Hcv; [done|]. rewrite lookup_app_l in Hm'; [done|].
      apply Hne. by right.
    + rewrite take_app_le by done. done.
Qed.

(** The consumer's steps keep the invariant. *)
Lemma consumer_step_inv s : spsc_inv s -> spsc_inv (consumer_step s).
Proof.
  intros H. spsc_open H. unfold consumer_step.
  destruct s as [mm pv cv pp cp snt rcv inc res]. cbn in *.
  unfold producer_inv, current_valid, released in *. cbn in *.
  destruct cp; cbn in *; rewrite Hc1.
  - (* CIdle *)
    rewrite (proj1 Hpr).
    destruct (Z.eqb_spec (pos (length rcv)) (pos (length snt))) as [E|E]; producer_case.
    intros _. destruct (decide (length rcv = length snt)); [congruence|lia].
  - (* CAcqSlot *)
    destruct (lookup_lt_is_Some_2 snt (length rcv)) as [m Hlk]; [by apply Hne; left|].
    producer_case.
    + intros _. apply Hne. by left.
    + intros _ m' Hm'. rewrite slot_of_with by (apply pos_range || done). by apply Hm.
  - (* CRead *)
    destruct (lookup_lt_is_Some_2 snt (length rcv)) as [m Hlk]; [by apply Hne; right|].
    rewrite (Hcv eq_refl m Hlk). cbn. rewrite Z.eqb_refl, mailmsg_next_pos.
    assert (Hlt : (length rcv < length snt)%nat) by by apply Hne; right.
    rewrite Forall_lookup in Hvs.
    rewrite frame_verdict_committed by by eapply Hvs. producer_case.
    all: rewrite ?length_app; cbn [length];
      replace (length rcv + 1)%nat with (S (length rcv)) by lia;
      rewrite ?Nat.sub_succ, ?Nat.sub_0_r; try done; try lia.
    + by intros [?|?].
    + by rewrite Forall_lookup.
    + rewrite (take_S_r _ _ m) by done. rewrite fmap_app, <-Hrec. done.
  - (* CPubConsumer *)
    producer_case; try lia.
    + clear -Hr. destruct pp; cbn in *; lia.
    + intros [?|?]; done.
    + intros k m' Hk Hm'. apply Hm; [lia|done].
Qed.

Lemma torn_step_inv s junk :
  slot_in_flight s -> spsc_inv s ->
  spsc_inv (s <| mem := with_slot (producer (pview s)) junk (mem s) |>).
Proof.
  intros Hf H. spsc_open H. pose proof (mem_slot_free s) as Hfree.
  destruct s as [mm pv cv pp cp snt rcv inc res]. cbn in *.
  unfold slot_in_flight, producer_inv, current_valid, released, past_check in *. cbn in *.
  assert (Hp : producer pv = pos (length snt)).
  { destruct pp; try done; apply Hpr. }
  rewrite Hp. producer_case.
  - by destruct pp.
  - intros k m' Hk Hm'. rewrite Hfree; eauto. by destruct pp.
Qed.

Lemma call_step_inv s m :
  ppc s = PIdle -> frame_invalid m = false -> spsc_inv s -> spsc_inv (s <| ppc := PAcquire m |>).
Proof.
  intros Hpc Hm' H. spsc_open H.
  destruct s as [mm pv cv pp cp snt rcv inc res]. cbn in *. subst pp.
  unfold producer_inv, current_valid, released, past_check in *. cbn in *. producer_case.
Qed.

Lemma spsc_init_inv : spsc_inv spsc_init.
Proof. split; cbn; try done; try lia. by intros [?|?]. Qed.

Lemma spsc_reachable_inv s : star spsc_step spsc_init s -> spsc_inv s.
Proof.
  intros H. eapply star_invariant; [|exact H|exact spsc_init_inv].
  intros a b Ha Hab. destruct Hab; auto using call_step_inv, producer_step_inv,
    consumer_step_inv, torn_step_inv.
Qed.

(** ** Alone, the micro-steps are the sequential functions *)
Lemma with_slot_with_slot i m m' r : with_slot i m (with_slot i m' r) = with_slot i m r.
Proof. unfold with_slot. cbn. by rewrite zset_zset. Qed.

(** Evaluate the next micro-step of the goal, keeping the state in normal form. *)
Ltac eval_step :=
  rewrite Nat.iter_succ_r;
  match goal with
  | |- context [Nat.iter _ ?f (?f ?x)] =>
      let y := eval lazy beta iota zeta delta
        [producer_step consumer_step set_field mem pview cview ppc cpc sent received
         incomplete push_results producer consumer slot with_slot slot_of] in (f x) in
      change (f x) with y
  end.

Lemma producer_solo s m :
  ppc s = PAcquire m -> pview s = mem s -> ring_wf (mem s) ->
  Nat.iter 7 producer_step s =
  if mailmsg_next (producer (mem s)) =? consumer (mem s)
  then s <| ppc := PIdle |> <| push_results := push_results s ++ [MAILMSG_RING_FULL] |>
  else s <| mem := pushed m (mem s) |> <| pview := pushed m (mem s) |> <| ppc := PIdle |>
         <| sent := sent s ++ [m] |> <| push_results := push_results s ++ [MAILMSG_RING_OK] |>.
Proof.
  destruct s as [mm pv cv pp cp snt rcv inc res]. cbn [ppc pview mem]. intros -> -> Hwf.
  destruct mm as [p c sl]. pose proof Hwf as [Hp _ Hl]. cbn in Hp, Hl.
  eval_step. cbn [producer consumer]. destruct (mailmsg_next p =? c); [by repeat eval_step|].
  do 6 (eval_step; rewrite ?zget_zset by (rewrite ?length_zset; lia); cbn [default id from_option]).
  cbn. unfold set_field; cbn. by rewrite !zset_zset.
Qed.

Lemma consumer_solo s :
  cpc s = CIdle -> cview s = mem s -> ring_wf (mem s) ->
  (consumer (mem s) =? producer (mem s)) = false ->
  let m := frame_at (mem s) 0 in
  commit m = sequence m ->
  Nat.iter 4 consumer_step s =
  s <| mem := popped (mem s) |> <| cview := popped (mem s) |>
    <| received := received s ++ [(frame_verdict m, m)] |>.
Proof.
  destruct s as [mm pv cv pp cp snt rcv inc res]. cbn [cpc cview mem]. intros -> -> Hwf He.
  pose proof (frame_at_0 mm Hwf) as Hm. destruct mm as [p c sl]. cbn [consumer producer slot] in *.
  revert Hm. generalize (frame_at (mk_ring p c sl) 0). intros m Hm Ec.
  assert (Hid : zset c m sl = sl) by by apply zset_id.
  apply Z.eqb_eq in Ec.
  eval_step. rewrite He. eval_step. rewrite Hm. cbn [default id from_option]. rewrite Hid.
  eval_step. rewrite Hm. cbn [default id from_option]. rewrite Ec. eval_step. done.
Qed.

(** ** Schedules: executable interleavings *)
Inductive action :=
| ACall (m : mailmsg_message)
| AProducer
| AConsumer
| ATorn (junk : mailmsg_message).

Definition run_action (a : action) (s : spsc) : option spsc :=
  match a with
  | ACall m =>
      match ppc s with
      | PIdle => if frame_invalid m then None else Some (s <| ppc := PAcquire m |>)
      | _ => None
      end
  | AProducer => Some (producer_step s)
  | AConsumer => Some (consumer_step s)
  | ATorn junk =>
      match ppc s with
      | PWrite _ | PPubSlot _ =>
          Some (s <| mem := with_slot (producer (pview s)) junk (mem s) |>)
      | _ => None
      end
  end.

Fixpoint run_schedule (l : list action) (s : spsc) : option spsc :=
  match l with
  | [] => Some s
  | a :: l => s' ← run_action a s; run_schedule l s'
  end.

Lemma run_action_sound a s s' : run_action a s = Some s' -> spsc_step s s'.
Proof.
  destruct a; cbn.
  - destruct (ppc s) eqn:E; try done. destruct (frame_invalid m) eqn:Em; [done|].
    intros [= <-]. by apply step_call.
  - intros [= <-]. apply step_producer.
  - intros [= <-]. apply step_consumer.
  - destruct (ppc s) eqn:E; try done; intros [= <-]; apply step_torn;
      unfold slot_in_flight; by rewrite E.
Qed.

Lemma run_schedule_sound_from l : forall s0 s s',
  star spsc_step s0 s -> run_schedule l s = Some s' -> star spsc_step s0 s'.
Proof.
  induction l as [|a l IH]; intros s0 s s' Hs H; cbn in H; [by injection H as <-|].
  destruct (run_action a s) as [s1|] eqn:E; cbn in H; [|done].
  eapply IH; [|exact H]. eapply star_snoc; [exact Hs|]. by eapply run_action_sound.
Qed.

Lemma run_schedule_sound l s' : run_schedule l spsc_init = Some s' -> star spsc_step spsc_init s'.
Proof. intros H. eapply run_schedule_sound_from; [apply star_refl|exact H]. Qed.

Definition demo_message (n : Z) : mailmsg_message :=
  mk_message 1 MAILMSG_MSG_PING n 0 (replicate 28 0) 0 0.

(** Three pushes; the second starts with a torn slot in memory while the
    consumer takes the first frame, the third is cut off half-way. *)
Definition demo_schedule : list action :=
  ACall (demo_message 1) :: replicate 7 AProducer ++
  [ACall (demo_message 2); AProducer; AConsumer; AProducer; ATorn (demo_message 9);
   AConsumer; AProducer; AConsumer; AProducer; AConsumer; AProducer; AConsumer; AProducer;
   AProducer; AConsumer; ACall (demo_message 3); AProducer; AConsumer; AProducer; AConsumer].
Definition demo_run : spsc := default spsc_init (run_schedule demo_schedule spsc_init).

(** * Properties *)

(** C2. In every interleaving of the two sides' memory operations, with torn
    slot write-backs included, the consumer receives exactly the frames the
    producer pushed, each complete, valid, once and in order; it never sees an
    uncommitted slot; and never more than seven frames are in flight. *)
Theorem spsc_delivery s :
  star spsc_step spsc_init s ->
  received s = (fun m => (MAILMSG_RING_OK, committed m)) <$> take (length (received s)) (sent s) /\
  incomplete s = 0%nat /\
  (length (received s) <= length (sent s) <= length (received s) + 7)%nat.
Proof.
  intros H. apply spsc_reachable_inv in H. pose proof (released_le s).
  pose proof (inv_room _ H). split; [apply H|]. split; [apply H|].
  split; [apply H|lia].
Qed.

Lemma spsc_delivery_witness :
  length (received demo_run) = 2%nat /\
  received demo_run =
    (fun m => (MAILMSG_RING_OK, committed m)) <$> take (length (received demo_run)) (sent demo_run) /\
  incomplete demo_run = 0%nat /\
  (length (received demo_run) <= length (sent demo_run) <= length (received demo_run) + 7)%nat.
Proof.
  split; [vm_compute; reflexivity|].
  apply (spsc_delivery demo_run). apply (run_schedule_sound demo_schedule). vm_compute. reflexivity.
Defined.

(** C3. Run without interference from a state in which the copies agree with
    memory, the micro-steps of each side have exactly the effect and result of
    the sequential [mailmsg_ring_push] and [mailmsg_ring_pop]. *)
Theorem spsc_solo_equiv ops p sh s m buf :
  CoherentOps ops -> ring_at p sh = Some (mem s) -> ring_wf (mem s) ->
  pview s = mem s -> cview s = mem s -> frame_invalid m = false ->
  (ppc s = PAcquire m -> exists z,
     mailmsg_ring_push p (Some ops) m sh =
       Some (z, ring_set p (mem (Nat.iter 7 producer_step s)) sh) /\
     push_results (Nat.iter 7 producer_step s) = push_results s ++ [z]) /\
  (cpc s = CIdle -> consumer (mem s) <> producer (mem s) ->
   commit (frame_at (mem s) 0) = sequence (frame_at (mem s) 0) -> exists z,
     mailmsg_ring_pop p (Some ops) buf sh =
       Some (z, ring_set p (mem (Nat.iter 4 consumer_step s)) sh) /\
     received (Nat.iter 4 consumer_step s) = received s ++ [z]).
Proof.
  intros Hops Hat Hwf Hp Hc Hm. split.
  - intros Hpc. rewrite (producer_solo s m Hpc Hp Hwf), (run_push ops p _ m sh Hat Hwf), Hm.
    destruct (_ =? _); eexists; (split; [|reflexivity]); cbn; [|done].
    by rewrite (ring_set_id _ _ _ Hat).
  - intros Hpc Hne Hcm. rewrite <-Z.eqb_neq in Hne.
    rewrite (consumer_solo s Hpc Hc Hwf Hne Hcm).
    rewrite (run_pop ops p _ _ buf sh Hat Hwf (frame_at_0 _ Hwf)), Hne, Hcm, Z.eqb_refl.
    by eexists.
Qed.

(** Both sides idle on agreeing copies that hold one frame. *)
Definition demo_agree : spsc :=
  let r := pushed (demo_message 1) ring_zero in
  mk_spsc r r r (PAcquire (demo_message 2)) CIdle [] [] 0 [].
Definition demo_ptr : ring_ptr := mk_ring_ptr LinuxToCpu3 0.
Definition demo_shared : mailmsg_shared := ring_set demo_ptr (mem demo_agree) shared_zero.

Lemma spsc_solo_equiv_witness :
  exists z z',
    mailmsg_ring_push demo_ptr (Some noop_ops) (demo_message 2) demo_shared =
      Some (z, ring_set demo_ptr (mem (Nat.iter 7 producer_step demo_agree)) demo_shared) /\
    z = 0 /\
    mailmsg_ring_pop demo_ptr (Some noop_ops) message_zero demo_shared =
      Some (z', ring_set demo_ptr (mem (Nat.iter 4 consumer_step demo_agree)) demo_shared) /\
    z' = (0, committed (demo_message 1)).
Proof.
  destruct (spsc_solo_equiv noop_ops demo_ptr demo_shared demo_agree (demo_message 2) message_zero)
    as [Hpush Hpop].
  - exact _.
  - vm_compute. reflexivity.
  - apply put_wf. split; cbn; lia || done.
  - reflexivity.
  - reflexivity.
  - reflexivity.
  - destruct (Hpush eq_refl) as (z & Hz & Hr).
    destruct Hpop as (z' & Hz' & Hr'); [reflexivity|done|vm_compute; reflexivity|].
    exists z, z'. split; [exact Hz|]. vm_compute in Hr. split; [by injection Hr as <-|].
    split; [exact Hz'|]. vm_compute in Hr'. injection Hr' as <-. vm_compute. reflexivity.
Defined.
