(* ===== verification/Notify.v ===== *)
(** The doorbell interface of [mailmsg_notify.h] and the mailbox0 adapter of
    [mailmsg_mailbox0.c].

    A backend is a function pointer taking its own context; here the context
    [C] is the state its computation runs on. *)
From S2P Require Import Prelude Protocol.

Definition MAILMSG_NOTIFY_SENT : Z := 0.
Definition MAILMSG_NOTIFY_COALESCED : Z := 1.

Inductive mailmsg_notify_state :=
| MAILMSG_NOTIFY_STATE_SENT
| MAILMSG_NOTIFY_STATE_COALESCED
| MAILMSG_NOTIFY_STATE_FAILED.

Definition mailmsg_notify_state_from_result (result : Z) : mailmsg_notify_state :=
  if result =? MAILMSG_NOTIFY_SENT then MAILMSG_NOTIFY_STATE_SENT
  else if result =? MAILMSG_NOTIFY_COALESCED then MAILMSG_NOTIFY_STATE_COALESCED
  else MAILMSG_NOTIFY_STATE_FAILED.

Definition mailmsg_notify_accepted (result : Z) : bool :=
  (result =? MAILMSG_NOTIFY_SENT) || (result =? MAILMSG_NOTIFY_COALESCED).

(** [struct mailmsg_notify_ops]; either pointer may be NULL. *)
Record mailmsg_notify_ops (C : Type) := mk_notify_ops {
  notify : option (Z -> M C Z);
  enable_rx : option (Z -> M C Z);
}.
Arguments mk_notify_ops {C}.
Arguments notify {C}.
Arguments enable_rx {C}.

(** [struct mailmsg_notify_endpoint]: the operations, NULL or not; the context
    is the state. *)
Record mailmsg_notify_endpoint (C : Type) := mk_notify_endpoint {
  notify_ops : option (mailmsg_notify_ops C);
}.
Arguments mk_notify_endpoint {C}.
Arguments notify_ops {C}.

(** The [notify] pointer of an endpoint, if the chain of pointers is there. *)
Definition notify_fn {C} (endpoint : option (mailmsg_notify_endpoint C)) : option (Z -> M C Z) :=
  e ← endpoint; o ← notify_ops e; notify o.

Definition mailmsg_notify {C} (endpoint : option (mailmsg_notify_endpoint C)) (priority : Z) :
    M C Z :=
  match notify_fn endpoint with
  | None => mret (-1)
  | Some f => if MAILMSG_PRIORITY_COUNT <=? priority then mret (-1) else f priority
  end.

(** * The mailbox0 adapter *)
Definition MAILMSG_MAILBOX0_DOORBELL : Z := 0xa2b10000.

(** [struct mailmsg_mailbox0]: [send(context, channel, command, data)]. *)
Record mailmsg_mailbox0 (C : Type) := mk_mailbox0 {
  send : option (Z -> Z -> Z -> M C Z);
}.
Arguments mk_mailbox0 {C}.
Arguments send {C}.

Definition mailmsg_mailbox0_notify {C} (adapter : option (mailmsg_mailbox0 C)) (priority : Z) :
    M C Z :=
  match adapter ≫= send with
  | None => mret (-1)
  | Some f =>
      if MAILMSG_PRIORITY_COUNT <=? priority then mret (-1)
      else f priority (Z.lor MAILMSG_MAILBOX0_DOORBELL priority) priority
  end.

Definition mailmsg_mailbox0_notify_ops {C} (adapter : option (mailmsg_mailbox0 C)) :
    mailmsg_notify_ops C :=
  mk_notify_ops (Some (mailmsg_mailbox0_notify adapter)) None.

(** The two classifications of a backend result agree. *)
Lemma accepted_iff_not_failed r :
  mailmsg_notify_accepted r = true <->
  mailmsg_notify_state_from_result r <> MAILMSG_NOTIFY_STATE_FAILED.
Proof.
  unfold mailmsg_notify_accepted, mailmsg_notify_state_from_result.
  destruct (r =? _); [done|]. by destruct (r =? _).
Qed.

Lemma priority_cases p : 0 <= p < MAILMSG_PRIORITY_COUNT -> p = 0 \/ p = 1 \/ p = 2 \/ p = 3.
Proof. unfold MAILMSG_PRIORITY_COUNT. lia. Qed.
