(* ===== verification/Endpoint.v ===== *)
(** The MailMsg endpoint of [mailmsg_endpoint.c]: binding to a session,
    sending, receiving and polling, over the rings and a notification backend. *)
From S2P Require Import Prelude Protocol Ring Notify.

Definition MAILMSG_ENDPOINT_OK : Z := 0.
Definition MAILMSG_ENDPOINT_INVALID : Z := -100.
Definition MAILMSG_ENDPOINT_PROTOCOL_MISMATCH : Z := -101.
Definition MAILMSG_ENDPOINT_STALE_SESSION : Z := -102.
Definition MAILMSG_ENDPOINT_STALE_FRAME : Z := -103.

(** [enum mailmsg_endpoint_role], as the integer the C code range-checks. *)
Definition MAILMSG_ENDPOINT_LINUX : Z := 0.
Definition MAILMSG_ENDPOINT_CPU3 : Z := 1.

Record mailmsg_priority_stats := mk_stats {
  tx_enqueued : Z;
  tx_full : Z;
  tx_high_water : Z;
  notify_sent : Z;
  notify_coalesced : Z;
  notify_failed : Z;
  rx_ok : Z;
  rx_incomplete : Z;
  rx_bad_crc : Z;
  rx_invalid : Z;
  rx_stale : Z;
}.
#[export] Instance eta_stats : Eta mailmsg_priority_stats := fun s =>
  mk_stats (tx_enqueued s) (tx_full s) (tx_high_water s) (notify_sent s)
    (notify_coalesced s) (notify_failed s) (rx_ok s) (rx_incomplete s)
    (rx_bad_crc s) (rx_invalid s) (rx_stale s).
Definition stats_zero : mailmsg_priority_stats := mk_stats 0 0 0 0 0 0 0 0 0 0 0.

Record mailmsg_send_result := mk_send_result {
  queue_result : Z;
  notify_result : Z;
  notify_attempted : Z;
  sr_sequence : Z;
}.
#[export] Instance eta_send_result : Eta mailmsg_send_result := fun r =>
  mk_send_result (queue_result r) (notify_result r) (notify_attempted r) (sr_sequence r).
(** [struct mailmsg_send_result send_result = { }] *)
Definition send_result_zero : mailmsg_send_result := mk_send_result 0 0 0 0.

(** [struct mailmsg_endpoint].  [shared] is NULL or the one shared block; [tx]
    and [rx] point to the first ring of one of its two arrays. *)
Record mailmsg_endpoint (C : Type) := mk_endpoint {
  ep_shared : bool;
  tx : option direction;
  rx : option direction;
  memory_ops : option mailmsg_memory_ops;
  ep_notify : option (mailmsg_notify_endpoint C);
  next_sequence : Z;
  ep_generation : Z;
  stats : list mailmsg_priority_stats;   (* [MAILMSG_PRIORITY_COUNT] *)
}.
Arguments mk_endpoint {C}.
Arguments ep_shared {C}.
Arguments tx {C}.
Arguments rx {C}.
Arguments memory_ops {C}.
Arguments ep_notify {C}.
Arguments next_sequence {C}.
Arguments ep_generation {C}.
Arguments stats {C}.
#[export] Instance eta_endpoint C : Eta (mailmsg_endpoint C) := fun e =>
  mk_endpoint (ep_shared e) (tx e) (rx e) (memory_ops e) (ep_notify e)
    (next_sequence e) (ep_generation e) (stats e).

(** [memset(endpoint, 0, sizeof *endpoint)] *)
Definition endpoint_zero {C} : mailmsg_endpoint C :=
  mk_endpoint false None None None None 0 0 (replicate 4 stats_zero).

(** What the endpoint functions work on: the endpoint itself (the [endpoint]
    argument, so its own NULL test has no counterpart), the shared block it
    points to and the context of its notification backend. *)
Record ep_world (C : Type) := mk_ep_world {
  ep : mailmsg_endpoint C;
  shm : mailmsg_shared;
  ctx : C;
}.
Arguments mk_ep_world {C}.
Arguments ep {C}.
Arguments shm {C}.
Arguments ctx {C}.
#[export] Instance eta_ep_world C : Eta (ep_world C) := fun w => mk_ep_world (ep w) (shm w) (ctx w).

Section Endpoint.
Context {C : Type}.
Implicit Types (e : mailmsg_endpoint C) (w : ep_world C).

Definition on_shared {A} (m : M mailmsg_shared A) : M (ep_world C) A :=
  zoom shm (fun s w => w <| shm := s |>) m.
Definition on_ctx {A} (m : M C A) : M (ep_world C) A :=
  zoom ctx (fun c w => w <| ctx := c |>) m.
Definition upd_ep (f : mailmsg_endpoint C -> mailmsg_endpoint C) : M (ep_world C) unit :=
  modify (fun w => w <| ep ::= f |>).
(** [endpoint->stats.priority[priority].field...] *)
Definition upd_stats (priority : Z) (f : mailmsg_priority_stats -> mailmsg_priority_stats) :
    M (ep_world C) unit :=
  upd_ep (fun e => e <| stats := zupd priority f (stats e) |>).

(** [endpoint->next_sequence++] until it is not zero. *)
Definition next_seq (n : Z) : Z :=
  let n := u32 (n + 1) in if n =? 0 then u32 (n + 1) else n.
Definition mailmsg_endpoint_next_sequence : M (ep_world C) Z :=
  upd_ep (fun e => e <| next_sequence := next_seq (next_sequence e) |>) ;;
  gets (fun w => next_sequence (ep w)).

Definition mailmsg_endpoint_reset_stats : M (ep_world C) unit :=
  for_each priorities (fun priority => upd_stats priority (fun _ => stats_zero)).

Definition mailmsg_endpoint_session_valid : M (ep_world C) Z :=
  e ← gets ep;
  if negb (ep_shared e) || no_acquire (memory_ops e) || (ep_generation e =? 0)
  then mret MAILMSG_ENDPOINT_INVALID else
  on_shared (ops_acquire (memory_ops e) RegHeader) ;;
  sh ← gets shm;
  if negb (magic sh =? MAILMSG_PROTOCOL_MAGIC) || negb (version sh =? MAILMSG_PROTOCOL_VERSION)
  then mret MAILMSG_ENDPOINT_PROTOCOL_MISMATCH else
  if negb (shared_generation sh =? ep_generation e)
  then mret MAILMSG_ENDPOINT_STALE_SESSION
  else mret MAILMSG_ENDPOINT_OK.

(** [!memory_ops || !memory_ops->publish || !memory_ops->acquire] *)
Definition no_memory_ops (o : option mailmsg_memory_ops) : bool :=
  match o with
  | Some o => match publish o, acquire o with Some _, Some _ => false | _, _ => true end
  | None => true
  end.

(** [shared] is [false] for a NULL argument. *)
Definition mailmsg_endpoint_bind (shared : bool) (mops : option mailmsg_memory_ops)
    (notify : option (mailmsg_notify_endpoint C)) (role : Z) : M (ep_world C) Z :=
  if negb shared || no_memory_ops mops ||
     (match notify_fn notify with Some _ => false | None => true end) ||
     (role <? MAILMSG_ENDPOINT_LINUX) || (MAILMSG_ENDPOINT_CPU3 <? role)
  then mret MAILMSG_ENDPOINT_INVALID else
  on_shared (ops_acquire mops RegHeader) ;;
  sh ← gets shm;
  if negb (magic sh =? MAILMSG_PROTOCOL_MAGIC) || negb (version sh =? MAILMSG_PROTOCOL_VERSION)
  then mret MAILMSG_ENDPOINT_PROTOCOL_MISMATCH else
  if shared_generation sh =? 0 then mret MAILMSG_ENDPOINT_STALE_SESSION else
  upd_ep (fun e => e <| ep_shared := true |> <| memory_ops := mops |> <| ep_notify := notify |>
                     <| next_sequence := 0 |> <| ep_generation := shared_generation sh |>) ;;
  mailmsg_endpoint_reset_stats ;;
  (if role =? MAILMSG_ENDPOINT_LINUX
   then upd_ep (fun e => e <| tx := Some LinuxToCpu3 |> <| rx := Some Cpu3ToLinux |>)
   else upd_ep (fun e => e <| tx := Some Cpu3ToLinux |> <| rx := Some LinuxToCpu3 |>)) ;;
  mret MAILMSG_ENDPOINT_OK.

(** [for (index = 0; index < length; index++) dst[index] = src[index];] *)
Fixpoint copy_bytes (length : nat) (index : Z) (src dst : list Z) : option (list Z) :=
  match length with
  | O => Some dst
  | S n => b ← zget src index; copy_bytes n (index + 1) src (zset index b dst)
  end.

Definition mailmsg_endpoint_send (priority type : Z) (payload_ : option (list Z)) (length : Z)
    (result : mailmsg_send_result) : M (ep_world C) (Z * mailmsg_send_result) :=
  e ← gets ep;
  match tx e, memory_ops e with
  | Some dir, Some _ =>
    if (MAILMSG_PRIORITY_COUNT <=? priority) || (MAILMSG_PAYLOAD_BYTES <? length) ||
       (negb (length =? 0) && (match payload_ with Some _ => false | None => true end))
    then mret (MAILMSG_ENDPOINT_INVALID, result) else
    let result := mk_send_result MAILMSG_RING_INVALID (-1) 0 0 in
    session_result ← mailmsg_endpoint_session_valid;
    if negb (session_result =? 0) then mret (session_result, result) else
    seq ← mailmsg_endpoint_next_sequence;
    bytes ← from_option_ub
              (copy_bytes (Z.to_nat length) 0 (default [] payload_) (payload message_zero));
    let message := mk_message (ep_generation e) type seq length bytes 0 0 in
    let ring := mk_ring_ptr dir priority in
    qr ← on_shared (mailmsg_ring_push ring (memory_ops e) message);
    let result := result <| queue_result := qr |> in
    if negb (qr =? 0) then
      when (qr =? MAILMSG_RING_FULL)
        (upd_stats priority (fun s => s <| tx_full := u32 (tx_full s + 1) |>)) ;;
      mret (qr, result <| sr_sequence := 0 |>)
    else
    upd_stats priority (fun s => s <| tx_enqueued := u32 (tx_enqueued s + 1) |>) ;;
    depth ← on_shared (mailmsg_ring_count (Some ring) (memory_ops e));
    upd_stats priority (fun s =>
      if (0 <? depth) && (tx_high_water s <? depth) then s <| tx_high_water := depth |> else s) ;;
    let result := result <| sr_sequence := seq |> <| notify_attempted := 1 |> in
    nr ← on_ctx (mailmsg_notify (ep_notify e) priority);
    let result := result <| notify_result := nr |> in
    (if nr =? MAILMSG_NOTIFY_SENT
     then upd_stats priority (fun s => s <| notify_sent := u32 (notify_sent s + 1) |>)
     else if nr =? MAILMSG_NOTIFY_COALESCED
     then upd_stats priority (fun s => s <| notify_coalesced := u32 (notify_coalesced s + 1) |>)
     else upd_stats priority (fun s => s <| notify_failed := u32 (notify_failed s + 1) |>)) ;;
    mret (MAILMSG_ENDPOINT_OK, result)
  | _, _ => mret (MAILMSG_ENDPOINT_INVALID, result)
  end.

Definition mailmsg_endpoint_receive (priority : Z) (message : mailmsg_message) :
    M (ep_world C) (Z * mailmsg_message) :=
  e ← gets ep;
  match rx e, memory_ops e with
  | Some dir, Some _ =>
    if MAILMSG_PRIORITY_COUNT <=? priority then mret (MAILMSG_ENDPOINT_INVALID, message) else
    ret ← mailmsg_endpoint_session_valid;
    if negb (ret =? 0) then mret (ret, message) else
    '(ret, message) ← on_shared (mailmsg_ring_pop (mk_ring_ptr dir priority) (memory_ops e) message);
    ret ← (if (ret =? 0) && negb (generation message =? ep_generation e)
           then upd_stats priority (fun s => s <| rx_stale := u32 (rx_stale s + 1) |>) ;;
                mret MAILMSG_ENDPOINT_STALE_FRAME
           else mret ret);
    (if ret =? 0
     then upd_stats priority (fun s => s <| rx_ok := u32 (rx_ok s + 1) |>)
     else if ret =? MAILMSG_RING_INCOMPLETE
     then upd_stats priority (fun s => s <| rx_incomplete := u32 (rx_incomplete s + 1) |>)
     else if ret =? MAILMSG_RING_BAD_CRC
     then upd_stats priority (fun s => s <| rx_bad_crc := u32 (rx_bad_crc s + 1) |>)
     else when (ret =? MAILMSG_RING_INVALID)
            (upd_stats priority (fun s => s <| rx_invalid := u32 (rx_invalid s + 1) |>))) ;;
    mret (ret, message)
  | _, _ => mret (MAILMSG_ENDPOINT_INVALID, message)
  end.

Definition mailmsg_endpoint_has_received (priority : Z) : M (ep_world C) Z :=
  e ← gets ep;
  match rx e, memory_ops e with
  | Some dir, Some _ =>
    if MAILMSG_PRIORITY_COUNT <=? priority then mret MAILMSG_RING_INVALID else
    ret ← mailmsg_endpoint_session_valid;
    if negb (ret =? 0) then mret MAILMSG_RING_INVALID else
    on_shared (mailmsg_ring_has_data (Some (mk_ring_ptr dir priority)) (memory_ops e))
  | _, _ => mret MAILMSG_RING_INVALID
  end.
End Endpoint.

(** * Lemmas *)
Definition opposite (d : direction) : direction :=
  match d with LinuxToCpu3 => Cpu3ToLinux | Cpu3ToLinux => LinuxToCpu3 end.

Lemma next_seq_u32 n : is_u32 (next_seq n).
Proof. unfold next_seq. destruct (u32 (n + 1) =? 0); apply u32_range. Qed.
Lemma next_seq_nonzero n : next_seq n <> 0.
Proof. unfold next_seq, u32. destruct (Z.eqb_spec ((n + 1) mod 2 ^ 32) 0); lia. Qed.
#[export] Hint Resolve next_seq_u32 next_seq_nonzero : word.
(** The generator walks through 1 .. 2^32-1 and starts again at 1. *)
Lemma next_seq_iter n k :
  is_u32 n -> Nat.iter (S k) next_seq n = (n + Z.of_nat k) mod (2 ^ 32 - 1) + 1.
Proof.
  assert (Hstep : forall x, is_u32 x -> next_seq x = x mod (2 ^ 32 - 1) + 1).
  { intros x Hx. unfold next_seq, u32, is_u32 in *. destruct (Z.eqb_spec ((x + 1) mod 2 ^ 32) 0); lia. }
  intros Hn. induction k as [|k IH]; [rewrite Z.add_0_r; by apply Hstep|].
  rewrite Nat.iter_succ, IH, Hstep by (unfold is_u32; lia). f_equal.
  rewrite Zplus_mod_idemp_l. f_equal. lia.
Qed.

Lemma copy_bytes_spec n : forall (i : nat) src dst,
  (i + n <= length src)%nat -> (i + n <= length dst)%nat ->
  copy_bytes n (Z.of_nat i) src dst =
  Some (take i dst ++ take n (drop i src) ++ drop (i + n) dst).
Proof.
  induction n as [|n IH]; intros i src dst Hs Hd; cbn [copy_bytes].
  - by rewrite Nat.add_0_r, take_0, app_nil_l, take_drop.
  - unfold zget. rewrite (proj2 (Z.leb_le 0 _)), Nat2Z.id by lia.
    destruct (lookup_lt_is_Some_2 src i) as [b Hb]; [lia|]. rewrite Hb. cbn.
    replace (Z.of_nat i + 1) with (Z.of_nat (S i)) by lia.
    unfold zset. rewrite (proj2 (Z.leb_le 0 _)), Nat2Z.id by lia.
    rewrite IH by (rewrite ?length_insert; lia). f_equal.
    rewrite (take_S_r _ _ b) by by apply list_lookup_insert_eq; lia.
    rewrite take_insert_ge, drop_insert_lt by lia. rewrite <-app_assoc. cbn.
    rewrite (drop_S src b i) by done. cbn.
    by replace (S (i + n)) with (i + S n)%nat by lia.
Qed.

(** The payload field of a frame built from the first [len] bytes of [p]. *)
Definition padded (len : Z) (p : list Z) : list Z :=
  take (Z.to_nat len) p ++ drop (Z.to_nat len) (payload message_zero).

Lemma copy_payload len p :
  0 <= len <= 28 -> (Z.to_nat len <= length p)%nat ->
  copy_bytes (Z.to_nat len) 0 p (payload message_zero) = Some (padded len p).
Proof.
  intros Hl Hp. change 0 with (Z.of_nat 0).
  rewrite copy_bytes_spec; [done|lia|].
  change (length (payload message_zero)) with 28%nat. lia.
Qed.

Lemma length_padded len p :
  0 <= len <= 28 -> (Z.to_nat len <= length p)%nat -> length (padded len p) = 28%nat.
Proof.
  intros Hl Hp. unfold padded. rewrite length_app, length_take, length_drop.
  change (length (payload message_zero)) with 28%nat. lia.
Qed.

Section EndpointLemmas.
Context {C : Type}.
Implicit Types (e : mailmsg_endpoint C) (w : ep_world C).

(** An endpoint [bind] has set up: it transmits on [d] with the hooks [ops]
    and rings the doorbell [f]. *)
Record ep_ready e (ops : mailmsg_memory_ops) (d : direction) (f : Z -> M C Z) : Prop := {
  ready_shared : ep_shared e = true;
  ready_tx : tx e = Some d;
  ready_rx : rx e = Some (opposite d);
  ready_ops : memory_ops e = Some ops;
  ready_notify : notify_fn (ep_notify e) = Some f;
  ready_generation : ep_generation e <> 0;
  ready_stats : length (stats e) = 4%nat;
}.

(** The block carries the protocol and the session the endpoint is bound to. *)
Definition session_ok e (sh : mailmsg_shared) : Prop :=
  magic sh = MAILMSG_PROTOCOL_MAGIC /\ version sh = MAILMSG_PROTOCOL_VERSION /\
  shared_generation sh = ep_generation e.

(** The verdict of [session_valid] on a bound endpoint. *)
Definition session_code e (sh : mailmsg_shared) : Z :=
  if negb (magic sh =? MAILMSG_PROTOCOL_MAGIC) || negb (version sh =? MAILMSG_PROTOCOL_VERSION)
  then MAILMSG_ENDPOINT_PROTOCOL_MISMATCH
  else if shared_generation sh =? ep_generation e then MAILMSG_ENDPOINT_OK
  else MAILMSG_ENDPOINT_STALE_SESSION.

Lemma session_code_ok e sh : session_code e sh = 0 <-> session_ok e sh.
Proof.
  unfold session_code, session_ok, MAILMSG_ENDPOINT_PROTOCOL_MISMATCH,
    MAILMSG_ENDPOINT_OK, MAILMSG_ENDPOINT_STALE_SESSION.
  destruct (Z.eqb_spec (magic sh) MAILMSG_PROTOCOL_MAGIC),
    (Z.eqb_spec (version sh) MAILMSG_PROTOCOL_VERSION),
    (Z.eqb_spec (shared_generation sh) (ep_generation e)); cbn; intuition (discriminate || congruence).
Qed.

Lemma session_code_neg e sh : session_code e sh <> 0 -> session_code e sh < MAILMSG_ENDPOINT_INVALID.
Proof.
  unfold session_code. destruct (_ || _); [done|]. by destruct (_ =? _).
Qed.

Lemma run_session_valid ops `{!CoherentOps ops} d f w :
  ep_ready (ep w) ops d f ->
  mailmsg_endpoint_session_valid w = Some (session_code (ep w) (shm w), w).
Proof.
  intros H. unfold mailmsg_endpoint_session_valid, on_shared. run.
  rewrite (ready_shared _ _ _ _ H), (ready_ops _ _ _ _ H), no_acquire_coherent by done.
  rewrite (proj2 (Z.eqb_neq _ _) (ready_generation _ _ _ _ H)). cbn [negb orb].
  rewrite run_acquire by done. destruct w as [e sh c]. cbn.
  unfold session_code. destruct (_ || _); [done|]. by destruct (_ =? _).
Qed.

(** The frame a send builds. *)
Definition sent_message e (type : Z) (p : list Z) (len : Z) : mailmsg_message :=
  mk_message (ep_generation e) type (next_seq (next_sequence e)) len (padded len p) 0 0.

Lemma sent_message_valid e type p len :
  ep_generation e <> 0 -> len <= 28 -> frame_invalid (sent_message e type p len) = false.
Proof.
  intros Hg Hl. unfold frame_invalid. cbn.
  rewrite (proj2 (Z.eqb_neq _ _) Hg), (proj2 (Z.eqb_neq _ _) (next_seq_nonzero _)).
  apply Z.ltb_ge. done.
Qed.

Definition bump_seq e : mailmsg_endpoint C := e <| next_sequence := next_seq (next_sequence e) |>.
Definition on_stats (prio : Z) (g : mailmsg_priority_stats -> mailmsg_priority_stats) e :=
  e <| stats := zupd prio g (stats e) |>.
Definition count_notify (nr : Z) (s : mailmsg_priority_stats) : mailmsg_priority_stats :=
  if nr =? MAILMSG_NOTIFY_SENT then s <| notify_sent := u32 (notify_sent s + 1) |>
  else if nr =? MAILMSG_NOTIFY_COALESCED
  then s <| notify_coalesced := u32 (notify_coalesced s + 1) |>
  else s <| notify_failed := u32 (notify_failed s + 1) |>.
Definition count_enqueued (depth : Z) (s : mailmsg_priority_stats) : mailmsg_priority_stats :=
  let s := s <| tx_enqueued := u32 (tx_enqueued s + 1) |> in
  if (0 <? depth) && (tx_high_water s <? depth) then s <| tx_high_water := depth |> else s.
Definition count_received (ret : Z) (s : mailmsg_priority_stats) : mailmsg_priority_stats :=
  if ret =? 0 then s <| rx_ok := u32 (rx_ok s + 1) |>
  else if ret =? MAILMSG_RING_INCOMPLETE then s <| rx_incomplete := u32 (rx_incomplete s + 1) |>
  else if ret =? MAILMSG_RING_BAD_CRC then s <| rx_bad_crc := u32 (rx_bad_crc s + 1) |>
  else if ret =? MAILMSG_RING_INVALID then s <| rx_invalid := u32 (rx_invalid s + 1) |>
  else if ret =? MAILMSG_ENDPOINT_STALE_FRAME then s <| rx_stale := u32 (rx_stale s + 1) |>
  else s.

Lemma zupd_zupd {A} i (g h : A -> A) l : zupd i g (zupd i h l) = zupd i (fun x => g (h x)) l.
Proof.
  unfold zupd. destruct (zget l i) as [x|] eqn:E; [|by rewrite E].
  rewrite zget_zset by (by eapply zget_Some_range). by rewrite zset_zset.
Qed.
Lemma zupd_id {A} i (l : list A) : zupd i (fun x => x) l = l.
Proof. unfold zupd. destruct (zget l i) eqn:E; [by apply zset_id|done]. Qed.
Lemma zupd_ext {A} i (g h : A -> A) l : (forall x, g x = h x) -> zupd i g l = zupd i h l.
Proof. intros H. unfold zupd. destruct (zget l i); [by rewrite H|done]. Qed.

Lemma run_upd_stats prio g w :
  upd_stats prio g w = Some (tt, w <| ep := on_stats prio g (ep w) |>).
Proof. reflexivity. Qed.

(** Sending on a ready endpoint in a valid session. *)
Lemma run_send ops `{!CoherentOps ops} d f w prio type p len r0 q :
  ep_ready (ep w) ops d f -> session_ok (ep w) (shm w) ->
  0 <= prio < 4 -> 0 <= len <= 28 ->
  (len <> 0 -> exists bs, p = Some bs /\ (Z.to_nat len <= length bs)%nat) ->
  represents (mk_ring_ptr d prio) (shm w) q ->
  let e := ep w in
  let msg := sent_message e type (default [] p) len in
  if (length q =? 7)%nat
  then mailmsg_endpoint_send prio type p len r0 w =
    Some ((MAILMSG_RING_FULL, mk_send_result MAILMSG_RING_FULL (-1) 0 0),
      w <| ep := on_stats prio (fun s => s <| tx_full := u32 (tx_full s + 1) |>) (bump_seq e) |>)
  else exists sh', represents (mk_ring_ptr d prio) sh' (q ++ [committed msg]) /\
    same_but (mk_ring_ptr d prio) (shm w) sh' /\
    mailmsg_endpoint_send prio type p len r0 w =
    match f prio (ctx w) with
    | Some (nr, c) =>
        Some ((MAILMSG_ENDPOINT_OK, mk_send_result 0 nr 1 (sequence msg)),
          mk_ep_world
            (on_stats prio (fun s => count_notify nr (count_enqueued (Z.of_nat (S (length q))) s))
               (bump_seq e)) sh' c)
    | None => None
    end.
Proof.
  intros Hr Hs Hprio Hlen Hp Hq e msg. destruct w as [e' sh c]. cbn [ep shm ctx] in *. subst e.
  pose proof (proj2 (session_code_ok _ _) Hs) as Hcode.
  pose proof (run_session_valid ops d f (mk_ep_world e' sh c) Hr) as Hsv. cbn in Hsv.
  rewrite Hcode in Hsv.
  assert (Hbytes : copy_bytes (Z.to_nat len) 0 (default [] p) (payload message_zero)
                   = Some (padded len (default [] p))).
  { destruct (decide (len = 0)) as [->|Hn]; [done|].
    destruct (Hp Hn) as (bs & -> & Hb). by apply copy_payload. }
  assert (Hguard : (MAILMSG_PRIORITY_COUNT <=? prio) || (MAILMSG_PAYLOAD_BYTES <? len) ||
    (negb (len =? 0) && (match p with Some _ => false | None => true end)) = false).
  { rewrite (proj2 (Z.leb_gt _ _)), (proj2 (Z.ltb_ge _ _)) by
      (unfold MAILMSG_PRIORITY_COUNT, MAILMSG_PAYLOAD_BYTES; lia).
    destruct (Z.eqb_spec len 0) as [|Hn]; [done|]. by destruct (Hp Hn) as (bs & -> & _). }
  destruct (push_refines ops _ msg sh q Hq) as (sh' & Hpush & Hrep & Hsame & Hfull).
  assert (Hmv : frame_invalid msg = false)
    by (apply sent_message_valid; [apply (ready_generation _ _ _ _ Hr)|lia]).
  unfold Queue.push, Queue.capacity in *. rewrite Hmv in *.
  unfold mailmsg_endpoint_send. step. cbn [ep].
  rewrite (ready_tx _ _ _ _ Hr), (ready_ops _ _ _ _ Hr), Hguard.
  step_with Hsv. cbn [negb Z.eqb]. step. rewrite Hbytes. step.
  cbn [ep set_field next_sequence].
  change (mk_message (ep_generation e') type _ len (padded len (default [] p)) 0 0) with msg.
  erewrite run_bind_some by (unfold on_shared, zoom; cbn [shm set_field]; rewrite Hpush; reflexivity).
  destruct (length q =? 7)%nat; cbn [fst snd] in *.
  - rewrite (Hfull ltac:(done)). done.
  - exists sh'. split; [done|]. split; [done|]. cbn [negb Z.eqb MAILMSG_RING_OK]. step.
    erewrite run_bind_some by (unfold on_shared, zoom; cbn [shm set_field];
      rewrite (count_refines ops _ _ _ Hrep); reflexivity).
    step. rewrite run_bind. unfold on_ctx, zoom at 1. cbn [ctx set_field].
    unfold mailmsg_notify at 1. cbn [ep set_field ep_notify]. rewrite (ready_notify _ _ _ _ Hr).
    rewrite (proj2 (Z.leb_gt _ _)) by (unfold MAILMSG_PRIORITY_COUNT; lia).
    destruct (f prio c) as [[nr c']|]; [|done].
    rewrite length_app. cbn [length]. replace (length q + 1)%nat with (S (length q)) by lia.
    unfold count_notify.
    destruct (nr =? MAILMSG_NOTIFY_SENT); [|destruct (nr =? MAILMSG_NOTIFY_COALESCED)];
      step; unfold on_stats, set_field; cbn; rewrite !zupd_zupd; reflexivity.
Qed.

(** What the receiver makes of a committed frame. *)
Definition received_code e (m : mailmsg_message) : Z :=
  if (frame_verdict m =? 0) && negb (generation m =? ep_generation e)
  then MAILMSG_ENDPOINT_STALE_FRAME else frame_verdict m.

(** Receiving on a ready endpoint in a valid session. *)
Lemma run_receive ops `{!CoherentOps ops} d f w prio buf q :
  ep_ready (ep w) ops d f -> session_ok (ep w) (shm w) -> 0 <= prio < 4 ->
  represents (mk_ring_ptr (opposite d) prio) (shm w) q ->
  match q with
  | [] => mailmsg_endpoint_receive prio buf w = Some ((MAILMSG_RING_EMPTY, buf), w)
  | m :: q' => exists sh', represents (mk_ring_ptr (opposite d) prio) sh' q' /\
      same_but (mk_ring_ptr (opposite d) prio) (shm w) sh' /\
      mailmsg_endpoint_receive prio buf w =
      Some ((received_code (ep w) m, m),
        mk_ep_world (on_stats prio (count_received (received_code (ep w) m)) (ep w)) sh' (ctx w))
  end.
Proof.
  intros Hr Hs Hprio Hq. destruct w as [e sh c]. cbn [ep shm ctx] in *.
  pose proof (proj2 (session_code_ok _ _) Hs) as Hcode.
  pose proof (run_session_valid ops d f (mk_ep_world e sh c) Hr) as Hsv. cbn [ep shm] in Hsv.
  rewrite Hcode in Hsv.
  destruct (pop_refines ops _ buf sh q Hq) as (sh' & Hpop & Hrep & Hsame).
  unfold mailmsg_endpoint_receive.
  assert (Hp : (MAILMSG_PRIORITY_COUNT <=? prio) = false)
    by (apply Z.leb_gt; unfold MAILMSG_PRIORITY_COUNT; lia).
  destruct q as [|m q']; cbn [Queue.pop fst snd] in *; [|exists sh'; split; [done|]; split; [done|]];
    step; cbn [ep]; rewrite (ready_rx _ _ _ _ Hr), (ready_ops _ _ _ _ Hr), Hp;
    step_with Hsv; cbn [negb Z.eqb];
    erewrite run_bind_some by (unfold on_shared, zoom; cbn [shm]; rewrite Hpop; reflexivity);
    cbv beta iota.
  - (* the pop leaves an empty ring alone *)
    assert (sh' = sh) as ->; [|by repeat step].
    destruct Hq as (r & Hat & Hwf & Hc & _).
    pose proof (run_pop ops _ r _ buf sh Hat Hwf (frame_at_0 r Hwf)) as Hrun.
    rewrite Z.eqb_sym, (proj2 (ring_empty_iff r Hwf) Hc), Hpop in Hrun. by injection Hrun.
  - unfold received_code. unfold frame_verdict.
    destruct (frame_invalid m); [by repeat step|].
    destruct (crc32 m =? mailmsg_frame_crc32 m); [|by repeat step]. cbn [Z.eqb andb MAILMSG_RING_OK].
    destruct (generation m =? ep_generation e); by repeat step.
Qed.

Lemma run_receive_bad_session ops `{!CoherentOps ops} d f w prio buf :
  ep_ready (ep w) ops d f -> ~ session_ok (ep w) (shm w) -> 0 <= prio < 4 ->
  mailmsg_endpoint_receive prio buf w = Some ((session_code (ep w) (shm w), buf), w).
Proof.
  intros Hr Hs Hprio. rewrite <-session_code_ok, <-Z.eqb_neq in Hs.
  unfold mailmsg_endpoint_receive. step.
  rewrite (ready_rx _ _ _ _ Hr), (ready_ops _ _ _ _ Hr).
  rewrite (proj2 (Z.leb_gt _ _)) by (unfold MAILMSG_PRIORITY_COUNT; lia).
  step_with (run_session_valid ops d f w Hr). by rewrite Hs.
Qed.

Lemma run_has_received ops `{!CoherentOps ops} d f w prio q :
  ep_ready (ep w) ops d f -> session_ok (ep w) (shm w) -> 0 <= prio < 4 ->
  represents (mk_ring_ptr (opposite d) prio) (shm w) q ->
  mailmsg_endpoint_has_received prio w = Some (match q with [] => 0 | _ => 1 end, w).
Proof.
  intros Hr Hs Hprio Hq. destruct w as [e sh c]. cbn [ep shm] in *.
  pose proof (proj2 (session_code_ok _ _) Hs) as Hcode.
  pose proof (run_session_valid ops d f (mk_ep_world e sh c) Hr) as Hsv. cbn [ep shm] in Hsv.
  rewrite Hcode in Hsv. unfold mailmsg_endpoint_has_received. step. cbn [ep].
  rewrite (ready_rx _ _ _ _ Hr), (ready_ops _ _ _ _ Hr).
  rewrite (proj2 (Z.leb_gt _ _)) by (unfold MAILMSG_PRIORITY_COUNT; lia).
  step_with Hsv. cbn [negb Z.eqb]. unfold on_shared, zoom. cbn [shm].
  by rewrite (has_data_refines ops _ sh q Hq).
Qed.

Lemma run_has_received_bad_session ops `{!CoherentOps ops} d f w prio :
  ep_ready (ep w) ops d f -> ~ session_ok (ep w) (shm w) -> 0 <= prio < 4 ->
  mailmsg_endpoint_has_received prio w = Some (MAILMSG_RING_INVALID, w).
Proof.
  intros Hr Hs Hprio. rewrite <-session_code_ok, <-Z.eqb_neq in Hs.
  unfold mailmsg_endpoint_has_received. step.
  rewrite (ready_rx _ _ _ _ Hr), (ready_ops _ _ _ _ Hr).
  rewrite (proj2 (Z.leb_gt _ _)) by (unfold MAILMSG_PRIORITY_COUNT; lia).
  step_with (run_session_valid ops d f w Hr). by rewrite Hs.
Qed.

Lemma run_send_bad_session ops `{!CoherentOps ops} d f w prio type p len r0 :
  ep_ready (ep w) ops d f -> ~ session_ok (ep w) (shm w) -> 0 <= prio < 4 -> len <= 28 ->
  (len <> 0 -> is_Some p) ->
  mailmsg_endpoint_send prio type p len r0 w =
  Some ((session_code (ep w) (shm w), mk_send_result MAILMSG_RING_INVALID (-1) 0 0), w).
Proof.
  intros Hr Hs Hprio Hlen Hp. rewrite <-session_code_ok, <-Z.eqb_neq in Hs.
  unfold mailmsg_endpoint_send. step.
  rewrite (ready_tx _ _ _ _ Hr), (ready_ops _ _ _ _ Hr).
  rewrite (proj2 (Z.leb_gt _ _)), (proj2 (Z.ltb_ge _ _)) by
      (unfold MAILMSG_PRIORITY_COUNT, MAILMSG_PAYLOAD_BYTES; lia).
  assert ((negb (len =? 0) && match p with Some _ => false | None => true end) = false) as ->.
  { destruct (Z.eqb_spec len 0) as [|Hn]; [done|]. by destruct (Hp Hn) as [bs ->]. }
  cbn [orb]. step_with (run_session_valid ops d f w Hr). by rewrite Hs.
Qed.

(** Receiving and sending do not move the endpoint's pointers. *)
Lemma on_stats_ready prio g e ops d f :
  ep_ready e ops d f -> ep_ready (on_stats prio g e) ops d f.
Proof. intros []. split; cbn; try done. by rewrite length_zupd. Qed.
Lemma bump_seq_ready e ops d f : ep_ready e ops d f -> ep_ready (bump_seq e) ops d f.
Proof. by intros []. Qed.
End EndpointLemmas.

Section Bind.
Context {C : Type}.
Implicit Types (e : mailmsg_endpoint C) (w : ep_world C).

Definition role_tx (role : Z) : direction :=
  if role =? MAILMSG_ENDPOINT_LINUX then LinuxToCpu3 else Cpu3ToLinux.

(** The endpoint a successful bind leaves. *)
Definition bound_endpoint (mops : option mailmsg_memory_ops)
    (ne : option (mailmsg_notify_endpoint C)) (role gen : Z) : mailmsg_endpoint C :=
  mk_endpoint true (Some (role_tx role)) (Some (opposite (role_tx role))) mops ne 0 gen
    (replicate 4 stats_zero).

Lemma run_reset_stats w :
  length (stats (ep w)) = 4%nat ->
  mailmsg_endpoint_reset_stats w = Some (tt, w <| ep := ep w <| stats := replicate 4 stats_zero |> |>).
Proof.
  destruct w as [[sh t r mo ne ns g st] m c]. cbn. intros H.
  destruct st as [|a [|b [|c' [|d [|? ?]]]]]; done.
Qed.

Lemma run_bind_endpoint ops `{!CoherentOps ops} ne f role w :
  notify_fn ne = Some f -> role = MAILMSG_ENDPOINT_LINUX \/ role = MAILMSG_ENDPOINT_CPU3 ->
  length (stats (ep w)) = 4%nat ->
  mailmsg_endpoint_bind true (Some ops) ne role w =
  Some (if negb (magic (shm w) =? MAILMSG_PROTOCOL_MAGIC) ||
           negb (version (shm w) =? MAILMSG_PROTOCOL_VERSION)
        then (MAILMSG_ENDPOINT_PROTOCOL_MISMATCH, w)
        else if shared_generation (shm w) =? 0 then (MAILMSG_ENDPOINT_STALE_SESSION, w)
        else (MAILMSG_ENDPOINT_OK,
              w <| ep := bound_endpoint (Some ops) ne role (shared_generation (shm w)) |>)).
Proof.
  intros Hf Hrole Hst. destruct w as [e sh c]. cbn [ep shm] in *.
  assert (Hm : no_memory_ops (Some ops) = false).
  { unfold no_memory_ops. by rewrite coherent_publish, coherent_acquire. }
  assert (Hro : (role <? MAILMSG_ENDPOINT_LINUX) = false /\ (MAILMSG_ENDPOINT_CPU3 <? role) = false)
    by (destruct Hrole as [-> | ->]; done).
  unfold mailmsg_endpoint_bind. rewrite Hm, Hf, (proj1 Hro), (proj2 Hro). cbn [negb orb].
  erewrite run_bind_some by (unfold on_shared, zoom; cbn [shm]; rewrite run_acquire by done; reflexivity).
  cbv beta iota. step. cbn [shm set_field].
  destruct (_ || _); [done|]. destruct (_ =? 0); [done|]. step.
  erewrite run_bind_some by (apply run_reset_stats; exact Hst). cbv beta iota.
  unfold bound_endpoint, role_tx. destruct (role =? _); step; reflexivity.
Qed.

Lemma bound_endpoint_ready ops ne f role gen :
  notify_fn ne = Some f -> gen <> 0 ->
  ep_ready (bound_endpoint (Some ops) ne role gen) ops (role_tx role) f.
Proof. by split. Qed.
End Bind.
