(* ===== verification/Frame.v ===== *)
(** Frame reasoning: what a computation leaves alone.

    [pres v m]: no defined run of [m] changes the view [v] of the state.  The
    hint database [pres] and the tactic [pres_auto] go through a computation
    step by step; the endpoint operations keep the binding [ep_key]. *)
From S2P Require Import Prelude Protocol Ring Notify Endpoint.

(** * Views a computation leaves alone *)
Definition pres {S A T} (v : S -> T) (m : M S A) : Prop := keeps (fun s s' => v s' = v s) m.

Section Pres.
Context {S T : Type} (v : S -> T).

Lemma pres_ret {A} (a : A) : pres v (mret a).
Proof. by intros s b s' [= <- <-]. Qed.
Lemma pres_bind {A B} (m : M S A) (k : A -> M S B) :
  pres v m -> (forall a, pres v (k a)) -> pres v (x ← m; k x).
Proof.
  intros Hm Hk s b s'' H. apply run_bind_inv in H as (a & s' & H1 & H2).
  etransitivity; [by eapply Hk|by eapply Hm].
Qed.
Lemma pres_gets {A} (f : S -> A) : pres v (gets f).
Proof. by intros s a s' [= <- <-]. Qed.
Lemma pres_get : pres v get.
Proof. by intros s a s' [= <- <-]. Qed.
Lemma pres_ub {A} : pres v (@ub S A).
Proof. done. Qed.
Lemma pres_from_option {A} (o : option A) : pres v (from_option_ub o).
Proof. destruct o; [apply pres_ret|apply pres_ub]. Qed.
Lemma pres_modify f : (forall s, v (f s) = v s) -> pres v (modify f).
Proof. by intros H s a s' [= <- <-]. Qed.
Lemma pres_when b (m : M S unit) : pres v m -> pres v (when b m).
Proof. destruct b; [done|intros _; apply pres_ret]. Qed.
Lemma pres_for_each {A} (l : list A) (body : A -> M S unit) :
  (forall a, pres v (body a)) -> pres v (for_each l body).
Proof.
  intros H. induction l as [|x l IH]; [apply pres_ret|].
  by apply pres_bind; [apply H|].
Qed.
(** Working on a component the view does not look into. *)
Lemma pres_zoom {U A} (getc : S -> U) setc (m : M U A) :
  (forall u s, v (setc u s) = v s) -> pres v (zoom getc setc m).
Proof.
  intros H s a s'. unfold zoom. destruct (m (getc s)) as [[b u]|]; [|done].
  by intros [= -> <-].
Qed.
End Pres.

Create HintDb pres.
#[export] Hint Resolve pres_ret pres_gets pres_get pres_ub pres_from_option pres_when : pres.

(** Go through a computation whose steps leave [v] alone. *)
Ltac pres_step :=
  match goal with
  | |- pres _ (mbind _ _) => apply pres_bind; [|intros ?]
  | |- pres _ (modify _) => apply pres_modify; intros ?; reflexivity
  | |- pres _ (when _ _) => apply pres_when
  | |- pres _ (for_each _ _) => apply pres_for_each; intros ?
  | |- pres _ (zoom _ _ _) => apply pres_zoom; intros ? ?; reflexivity
  | |- pres _ (match ?x with _ => _ end) => destruct x
  | |- pres _ (let _ := _ in _) => cbv zeta
  | |- pres _ _ => solve [auto with pres]
  end.
Ltac pres_auto := repeat (cbv beta; pres_step).

(** * The endpoint operations keep the binding *)
Definition ep_key {C} (e : mailmsg_endpoint C) :=
  (ep_shared e, tx e, rx e, memory_ops e, ep_notify e, ep_generation e, length (stats e)).

Section EndpointKey.
Context {C : Type}.
Implicit Types (w : ep_world C).
#[local] Abbreviation key := (fun w : ep_world C => ep_key (ep w)).

Lemma pres_upd_stats prio g : pres key (upd_stats (C := C) prio g).
Proof.
  apply pres_modify. intros w. unfold ep_key. cbn. by rewrite length_zupd.
Qed.
Lemma pres_on_shared {A} (m : M mailmsg_shared A) : pres key (on_shared (C := C) m).
Proof. unfold on_shared. pres_auto. Qed.
Lemma pres_on_ctx {A} (m : M C A) : pres key (on_ctx m).
Proof. unfold on_ctx. pres_auto. Qed.
#[local] Hint Resolve pres_upd_stats pres_on_shared pres_on_ctx : pres.

Lemma pres_session_valid : pres key (mailmsg_endpoint_session_valid (C := C)).
Proof. unfold mailmsg_endpoint_session_valid. pres_auto. Qed.
Lemma pres_next_sequence : pres key (mailmsg_endpoint_next_sequence (C := C)).
Proof. unfold mailmsg_endpoint_next_sequence, upd_ep. pres_auto. Qed.
#[local] Hint Resolve pres_session_valid pres_next_sequence : pres.

Lemma pres_send prio type p len r : pres key (mailmsg_endpoint_send (C := C) prio type p len r).
Proof. unfold mailmsg_endpoint_send. pres_auto. Qed.
Lemma pres_receive prio buf : pres key (mailmsg_endpoint_receive (C := C) prio buf).
Proof. unfold mailmsg_endpoint_receive. pres_auto. Qed.
Lemma pres_has_received prio : pres key (mailmsg_endpoint_has_received (C := C) prio).
Proof. unfold mailmsg_endpoint_has_received. pres_auto. Qed.
End EndpointKey.

(** * Computations that are defined in every state *)
Definition total {S A} (m : M S A) : Prop := forall s, exists a s', m s = Some (a, s').

Section Total.
Context {S : Type}.
Lemma total_ret {A} (a : A) : total (mret (M := M S) a).
Proof. intros s. by do 2 eexists. Qed.
Lemma total_gets {A} (f : S -> A) : total (gets f).
Proof. intros s. by do 2 eexists. Qed.
Lemma total_get : total (@get S).
Proof. intros s. by do 2 eexists. Qed.
Lemma total_modify f : total (modify (S := S) f).
Proof. intros s. by do 2 eexists. Qed.
Lemma total_bind {A B} (m : M S A) (k : A -> M S B) :
  total m -> (forall a, total (k a)) -> total (x ← m; k x).
Proof.
  intros Hm Hk s. destruct (Hm s) as (a & s1 & E1). destruct (Hk a s1) as (b & s2 & E2).
  exists b, s2. by rewrite (run_bind_some _ _ _ _ _ E1).
Qed.
Lemma total_when b (m : M S unit) : total m -> total (when b m).
Proof. destruct b; [done|intros _; apply total_ret]. Qed.
End Total.

Create HintDb total.
#[export] Hint Resolve total_ret total_gets total_get total_modify : total.
Ltac total_auto :=
  repeat (cbv beta zeta; match goal with
  | |- total (mbind _ _) => apply total_bind; [|intros ?]
  | |- total (when _ _) => apply total_when
  | |- total (match ?x with _ => _ end) => destruct x
  | |- total _ => solve [auto with total]
  end).

(** * Computations that run to a known result and leave a view alone *)
Definition silent {S T A} (v : S -> T) (m : M S A) (x : A) : Prop :=
  forall s, exists s', m s = Some (x, s') /\ v s' = v s.

Section Silent.
Context {S T : Type} (v : S -> T).
Lemma silent_unit (m : M S unit) : total m -> pres v m -> silent v m tt.
Proof. intros Ht Hp s. destruct (Ht s) as ([] & s' & E). exists s'. split; [done|by eapply Hp]. Qed.
Lemma silent_modify f : (forall s, v (f s) = v s) -> silent v (modify f) tt.
Proof. intros H s. exists (f s). by split. Qed.
Lemma silent_bind {A B} (m : M S A) x (k : A -> M S B) y :
  silent v m x -> silent v (k x) y -> silent v (z ← m; k z) y.
Proof.
  intros Hm Hk s. destruct (Hm s) as (s1 & R1 & V1). destruct (Hk s1) as (s2 & R2 & V2).
  exists s2. split; [by rewrite (run_bind_some _ _ _ _ _ R1)|congruence].
Qed.
Lemma silent_when b (m : M S unit) : silent v m tt -> silent v (when b m) tt.
Proof. destruct b; [done|]. intros _ s. exists s. by split. Qed.
End Silent.

(** * Invariants a computation maintains *)
Definition stable {S A} (P : S -> Prop) (m : M S A) : Prop := keeps (fun s s' => P s -> P s') m.

Section Stable.
Context {S : Type} (P : S -> Prop).

Lemma stable_ret {A} (a : A) : stable P (mret a).
Proof. by intros s b s' [= <- <-]. Qed.
Lemma stable_bind {A B} (m : M S A) (k : A -> M S B) :
  stable P m -> (forall a, stable P (k a)) -> stable P (x ← m; k x).
Proof.
  intros Hm Hk s b s'' H Hs. apply run_bind_inv in H as (a & s' & H1 & H2).
  eapply Hk; [exact H2|]. by eapply Hm.
Qed.
(** What is read is read from a state that satisfies the invariant. *)
Lemma stable_bind_gets {A B} (f : S -> A) (k : A -> M S B) :
  (forall s, P s -> stable P (k (f s))) -> stable P (x ← gets f; k x).
Proof. intros H s b s' E Hs. by apply (H s Hs s b s'). Qed.
Lemma stable_bind_get {B} (k : S -> M S B) :
  (forall s, P s -> stable P (k s)) -> stable P (x ← get; k x).
Proof. intros H s b s' E Hs. by apply (H s Hs s b s'). Qed.
Lemma stable_gets {A} (f : S -> A) : stable P (gets f).
Proof. by intros s a s' [= <- <-]. Qed.
Lemma stable_get : stable P get.
Proof. by intros s a s' [= <- <-]. Qed.
Lemma stable_ub {A} : stable P (@ub S A).
Proof. done. Qed.
Lemma stable_from_option {A} (o : option A) : stable P (from_option_ub o).
Proof. destruct o; [apply stable_ret|apply stable_ub]. Qed.
Lemma stable_modify f : (forall s, P s -> P (f s)) -> stable P (modify f).
Proof. by intros H s a s' [= <- <-]; apply H. Qed.
Lemma stable_when b (m : M S unit) : stable P m -> stable P (when b m).
Proof. destruct b; [done|intros _; apply stable_ret]. Qed.
Lemma stable_for_each {A} (l : list A) (body : A -> M S unit) :
  (forall a, stable P (body a)) -> stable P (for_each l body).
Proof.
  intros H. induction l as [|x l IH]; [apply stable_ret|].
  by apply stable_bind; [apply H|].
Qed.
(** Working on a component, given the invariant it inherits. *)
Lemma stable_zoom {U A} (Q : U -> Prop) (getc : S -> U) setc (m : M U A) :
  stable Q m -> (forall s, P s -> Q (getc s)) -> (forall u s, P s -> Q u -> P (setc u s)) ->
  stable P (zoom getc setc m).
Proof.
  intros Hm Hg Hset s a s'. unfold zoom. destruct (m (getc s)) as [[b u]|] eqn:E; [|done].
  intros [= -> <-] Hs. apply Hset; [done|]. eapply Hm; [exact E|]. by apply Hg.
Qed.
Lemma stable_pres {T A} (v : S -> T) (m : M S A) :
  pres v m -> (forall s s', v s' = v s -> P s -> P s') -> stable P m.
Proof. intros Hv HP s a s' E. apply HP. by eapply Hv. Qed.
End Stable.

Create HintDb stable.
#[export] Hint Resolve stable_ret stable_gets stable_get stable_ub stable_from_option : stable.

(** Go through a computation whose plain updates keep [P] by conversion. *)
Ltac stable_step :=
  match goal with
  | |- stable _ (mbind _ _) => apply stable_bind; [|intros ?]
  | |- stable _ (modify _) => apply stable_modify; intros ? ?; assumption
  | |- stable _ (when _ _) => apply stable_when
  | |- stable _ (for_each _ _) => apply stable_for_each; intros ?
  | |- stable _ (match ?x with _ => _ end) => destruct x
  | |- stable _ (let _ := _ in _) => cbv zeta
  | |- stable _ _ => solve [auto with stable]
  end.
Ltac stable_auto := repeat (cbv beta; stable_step).
