(* ===== verification/EndpointSpec.v ===== *)
(** What an endpoint promises to its users: the properties of
    [mailmsg_endpoint.c] as theorems. *)
From S2P Require Import Prelude Protocol Ring Notify Endpoint.

(** * Inversion lemmas for arbitrary hooks and memory contents *)

(** A pop that reports OK has verified the frame it hands over. *)
Lemma pop_ok_valid p ops buf sh m sh' :
  mailmsg_ring_pop p ops buf sh = Some ((0, m), sh') ->
  frame_invalid m = false /\ crc32 m = mailmsg_frame_crc32 m /\ commit m = sequence m.
Proof.
  unfold mailmsg_ring_pop. intros H.
  apply run_bind_inv in H as (r & s1 & _ & H). cbv beta zeta in H.
  apply run_bind_inv in H as ([] & s2 & _ & H).
  apply run_bind_inv in H as (r2 & s3 & _ & H). cbv beta in H.
  destruct (_ =? producer r2); [done|].
  apply run_bind_inv in H as ([] & s4 & _ & H).
  apply run_bind_inv in H as (s & s5 & _ & H). cbv beta zeta in H.
  destruct (Z.eqb_spec (commit s) (sequence s)) as [Hc|]; cbn [negb] in H; [|done].
  apply run_bind_inv in H as (r3 & s6 & _ & H).
  apply run_bind_inv in H as ([] & s7 & _ & H).
  apply run_bind_inv in H as ([] & s8 & _ & H). cbv beta in H.
  destruct (frame_invalid s) eqn:Hi; [done|].
  destruct (Z.eqb_spec (crc32 s) (mailmsg_frame_crc32 s)) as [Hcrc|]; cbn [negb] in H; [|done].
  injection H as <- <-. done.
Qed.

(** C5. Whatever the memory hooks do and whatever the peer left in shared
    memory, a frame that [receive] reports OK belongs to the endpoint's own
    session, has a non-zero sequence, a length within the payload, and a
    matching CRC: stale, torn, oversized and corrupted frames are never
    delivered. *)
Theorem receive_ok_trusted {C} (w : ep_world C) prio buf m w' :
  mailmsg_endpoint_receive prio buf w = Some ((0, m), w') ->
  generation m = ep_generation (ep w) /\ generation m <> 0 /\ sequence m <> 0 /\
  length_ m <= MAILMSG_PAYLOAD_BYTES /\ crc32 m = mailmsg_frame_crc32 m /\
  commit m = sequence m /\ prio < MAILMSG_PRIORITY_COUNT.
Proof.
  unfold mailmsg_endpoint_receive. intros H.
  apply run_bind_inv in H as (e & w1 & He & H). injection He as <- <-.
  destruct (rx (ep w)) as [dir|]; [|done]. destruct (memory_ops (ep w)) as [mo|]; [|done].
  destruct (Z.leb_spec MAILMSG_PRIORITY_COUNT prio); [done|].
  apply run_bind_inv in H as (ret & w2 & _ & H). cbv beta in H.
  destruct (Z.eqb_spec ret 0) as [->|]; cbn [negb] in H; [|by injection H].
  apply run_bind_inv in H as ([z m1] & w3 & Hpop & H). cbv beta iota in H.
  apply run_bind_inv in H as (z2 & w4 & Hz & H). cbv beta in H.
  apply run_bind_inv in H as ([] & w5 & _ & H). injection H as -> -> _.
  destruct (Z.eqb_spec z 0) as [->|]; cbn [andb] in Hz; [|by injection Hz].
  destruct (Z.eqb_spec (generation m) (ep_generation (ep w))) as [Hg|]; cbn [negb] in Hz;
    [|apply run_bind_inv in Hz as (u & s & _ & Hz); discriminate Hz].
  unfold on_shared, zoom in Hpop.
  destruct (mailmsg_ring_pop _ _ _ _) as [[[z' m'] sh']|] eqn:E; [|done].
  injection Hpop as -> -> _. apply pop_ok_valid in E as (Hi & Hcrc & Hcm).
  unfold frame_invalid in Hi. bool_to_prop. by repeat split.
Qed.

(** * A host-side pair of endpoints, for the witnesses *)
Definition host_notify (r : Z) : option (mailmsg_notify_endpoint Z) :=
  Some (mk_notify_endpoint (Some (mk_notify_ops (Some (fun _ n => Some (r, n + 1))) None))).
Definition host_shared (gen : Z) : mailmsg_shared :=
  shared_zero <| magic := MAILMSG_PROTOCOL_MAGIC |> <| version := MAILMSG_PROTOCOL_VERSION |>
    <| shared_generation := gen |>.
Definition host_endpoint (role gen : Z) : mailmsg_endpoint Z :=
  bound_endpoint (Some noop_ops) (host_notify MAILMSG_NOTIFY_SENT) role gen.
Definition host_world (role gen : Z) (sh : mailmsg_shared) : ep_world Z :=
  mk_ep_world (host_endpoint role gen) sh 0.

Lemma host_ready role gen :
  gen <> 0 -> ep_ready (host_endpoint role gen) noop_ops (role_tx role) (fun _ n => Some (0, n + 1)).
Proof. intros H. by apply bound_endpoint_ready. Qed.
Lemma host_represents d i gen : 0 <= i < 4 -> represents (mk_ring_ptr d i) (host_shared gen) [].
Proof.
  intros Hi. destruct (represents_zero d i Hi) as (r & Hr & ?). exists r. split; [|done].
  by destruct d.
Qed.

(** The world after Linux sent a 4-byte PING on priority 1. *)
Definition host_after_send : option (Z * mailmsg_send_result * ep_world Z) :=
  mailmsg_endpoint_send 1 MAILMSG_MSG_PING (Some [41;0;0;0]) 4 send_result_zero
    (host_world MAILMSG_ENDPOINT_LINUX 7 (host_shared 7)).
Definition host_shared_after : mailmsg_shared :=
  match host_after_send with Some (_, w) => shm w | None => shared_zero end.

Lemma receive_ok_trusted_witness :
  exists m w', mailmsg_endpoint_receive 1 message_zero
      (host_world MAILMSG_ENDPOINT_CPU3 7 host_shared_after) = Some ((0, m), w') /\
    generation m = 7 /\ generation m <> 0 /\ sequence m <> 0 /\
    length_ m <= MAILMSG_PAYLOAD_BYTES /\ crc32 m = mailmsg_frame_crc32 m /\
    commit m = sequence m /\ 1 < MAILMSG_PRIORITY_COUNT.
Proof.
  destruct (mailmsg_endpoint_receive 1 message_zero
    (host_world MAILMSG_ENDPOINT_CPU3 7 host_shared_after)) as [[[z m] w']|] eqn:E;
    [|vm_compute in E; discriminate E].
  assert (z = 0) as -> by (vm_compute in E; by injection E).
  exists m, w'. split; [reflexivity|]. apply (receive_ok_trusted _ _ _ _ _ E).
Defined.

(** * Functional properties *)

(** C6. Send then receive is the identity on a message: on an empty ring of a
    valid session, what one endpoint sends on a priority the opposite endpoint
    receives on that priority, with the type, length and payload given to
    [send], the session generation, and the sequence number [send] returned. *)
Theorem send_receive_roundtrip {C D} opsA opsB dirA fA fB (wa : ep_world C) (eb : mailmsg_endpoint D)
    (cb : D) prio type p len r0 buf nr ca :
  CoherentOps opsA -> CoherentOps opsB ->
  ep_ready (ep wa) opsA dirA fA -> ep_ready eb opsB (opposite dirA) fB ->
  session_ok (ep wa) (shm wa) -> ep_generation eb = ep_generation (ep wa) ->
  0 <= prio < 4 -> 0 <= len <= 28 -> (Z.to_nat len <= length p)%nat ->
  represents (mk_ring_ptr dirA prio) (shm wa) [] ->
  fA prio (ctx wa) = Some (nr, ca) ->
  exists res wa', mailmsg_endpoint_send prio type (Some p) len r0 wa =
      Some ((MAILMSG_ENDPOINT_OK, res), wa') /\
    exists m wb', mailmsg_endpoint_receive prio buf (mk_ep_world eb (shm wa') cb) =
        Some ((0, m), wb') /\
      type_ m = type /\ length_ m = len /\ take (Z.to_nat len) (payload m) = take (Z.to_nat len) p /\
      generation m = ep_generation (ep wa) /\ sequence m = sr_sequence res /\
      represents (mk_ring_ptr dirA prio) (shm wb') [].
Proof.
  intros HcA HcB HrA HrB Hs Hg Hprio Hlen Hp Hq Hf.
  pose proof (run_send opsA dirA fA wa prio type (Some p) len r0 [] HrA Hs Hprio Hlen) as Hsend.
  specialize (Hsend ltac:(eauto) Hq). cbn [length Nat.eqb] in Hsend.
  destruct Hsend as (sh' & Hrep & Hsame & Hsend). rewrite Hf in Hsend.
  do 2 eexists. split; [exact Hsend|]. cbn [shm].
  assert (Hsb : session_ok eb sh').
  { destruct Hs as (?&?&?), Hsame as (?&?&?&_). repeat split; congruence. }
  set (msg := committed _) in Hrep.
  assert (Hd : dirA = opposite (opposite dirA)) by by destruct dirA.
  rewrite Hd in Hrep. cbn [app] in Hrep.
  pose proof (run_receive opsB _ fB (mk_ep_world eb sh' cb) prio buf _ HrB Hsb Hprio Hrep) as Hrcv.
  destruct Hrcv as (sh'' & Hrep' & Hsame' & Hrcv). cbn [ep ctx] in Hrcv.
  assert (Hv : received_code eb msg = 0).
  { unfold received_code. unfold frame_verdict.
    change (frame_invalid msg) with (frame_invalid (sent_message (ep wa) type p len)).
    rewrite sent_message_valid by (apply (ready_generation _ _ _ _ HrA) || lia).
    change (crc32 msg =? mailmsg_frame_crc32 msg) with
      (mailmsg_frame_crc32 (sent_message (ep wa) type p len) =?
       mailmsg_frame_crc32 (sent_message (ep wa) type p len)).
    rewrite Z.eqb_refl. cbn. by rewrite Hg, Z.eqb_refl. }
  rewrite Hv in Hrcv. do 2 eexists. split; [exact Hrcv|].
  repeat split; try done.
  - cbn. unfold padded. rewrite take_app_le by (rewrite length_take; lia).
    by rewrite take_take, Nat.min_id.
  - rewrite <-Hd in Hrep'. exact Hrep'.
Qed.

Lemma send_receive_roundtrip_witness :
  exists res wa', mailmsg_endpoint_send 1 MAILMSG_MSG_PING (Some [41;0;0;0]) 4 send_result_zero
      (host_world MAILMSG_ENDPOINT_LINUX 7 (host_shared 7)) = Some ((MAILMSG_ENDPOINT_OK, res), wa') /\
    exists m wb', mailmsg_endpoint_receive 1 message_zero
        (mk_ep_world (host_endpoint MAILMSG_ENDPOINT_CPU3 7) (shm wa') 0) = Some ((0, m), wb') /\
      type_ m = MAILMSG_MSG_PING /\ length_ m = 4 /\
      take (Z.to_nat 4) (payload m) = take (Z.to_nat 4) [41;0;0;0] /\
      generation m = 7 /\ sequence m = sr_sequence res /\
      represents (mk_ring_ptr LinuxToCpu3 1) (shm wb') [].
Proof.
  apply (send_receive_roundtrip noop_ops noop_ops LinuxToCpu3 (fun _ n => Some (0, n + 1))
    (fun _ n => Some (0, n + 1)) (host_world MAILMSG_ENDPOINT_LINUX 7 (host_shared 7))
    (host_endpoint MAILMSG_ENDPOINT_CPU3 7) 0 1 MAILMSG_MSG_PING [41;0;0;0] 4
    send_result_zero message_zero 0 1); try exact _; try reflexivity; try lia.
  - apply (host_ready MAILMSG_ENDPOINT_LINUX). lia.
  - apply (host_ready MAILMSG_ENDPOINT_CPU3). lia.
  - repeat split; reflexivity.
  - apply host_represents. lia.
Defined.

(** C7. The outcome of a send, branch by branch.  Out of session nothing is
    written and the result record says so; on a full ring only the sequence
    generator and [tx_full] move, and no doorbell is rung; otherwise the frame
    is queued behind the others, the doorbell is rung exactly once, and its
    outcome, failure included, is reported without withdrawing the frame. *)
Theorem send_outcome {C} ops d f (w : ep_world C) prio type p len r0 q :
  CoherentOps ops -> ep_ready (ep w) ops d f ->
  0 <= prio < 4 -> 0 <= len <= 28 -> (Z.to_nat len <= length p)%nat ->
  represents (mk_ring_ptr d prio) (shm w) q ->
  (~ session_ok (ep w) (shm w) -> mailmsg_endpoint_send prio type (Some p) len r0 w =
     Some ((session_code (ep w) (shm w), mk_send_result MAILMSG_RING_INVALID (-1) 0 0), w)) /\
  (session_ok (ep w) (shm w) -> length q = 7%nat ->
   mailmsg_endpoint_send prio type (Some p) len r0 w =
     Some ((MAILMSG_RING_FULL, mk_send_result MAILMSG_RING_FULL (-1) 0 0),
       w <| ep := on_stats prio (fun s => s <| tx_full := u32 (tx_full s + 1) |>) (bump_seq (ep w)) |>)) /\
  (session_ok (ep w) (shm w) -> (length q < 7)%nat -> forall nr c, f prio (ctx w) = Some (nr, c) ->
   exists sh', let msg := sent_message (ep w) type p len in
     mailmsg_endpoint_send prio type (Some p) len r0 w =
       Some ((MAILMSG_ENDPOINT_OK, mk_send_result 0 nr 1 (sequence msg)),
         mk_ep_world
           (on_stats prio (fun s => count_notify nr (count_enqueued (Z.of_nat (S (length q))) s))
              (bump_seq (ep w))) sh' c) /\
     represents (mk_ring_ptr d prio) sh' (q ++ [committed msg]) /\
     same_but (mk_ring_ptr d prio) (shm w) sh').
Proof.
  intros Hc Hr Hprio Hlen Hp Hq. split.
  { intros Hs. apply (run_send_bad_session ops d f); eauto. lia. }
  pose proof (fun Hs => run_send ops d f w prio type (Some p) len r0 q Hr Hs Hprio Hlen
    ltac:(eauto) Hq) as Hsend. split.
  - intros Hs H7. specialize (Hsend Hs). rewrite H7 in Hsend. exact Hsend.
  - intros Hs H7 nr c Hf. specialize (Hsend Hs).
    rewrite (proj2 (Nat.eqb_neq _ _)) in Hsend by lia.
    destruct Hsend as (sh' & Hrep & Hsame & Hsend). rewrite Hf in Hsend. by exists sh'.
Qed.

(** A ring filled by seven pushes, under a Linux endpoint of session 7. *)
Definition full_calls : list ring_call :=
  (fun n => CallPush (mk_message 7 1 n 4 (replicate 28 n) 0 0)) <$> [1;2;3;4;5;6;7].
Definition full_ptr : ring_ptr := mk_ring_ptr LinuxToCpu3 2.
Definition full_shared : mailmsg_shared :=
  match exec_calls full_ptr (Some noop_ops) full_calls (host_shared 7) with
  | Some (_, sh) => sh
  | None => host_shared 7
  end.
Definition full_queue : list mailmsg_message := snd (queue_calls full_calls []).

Lemma full_represents : represents full_ptr full_shared full_queue.
Proof.
  unfold represents, ring_at. eexists. split; [vm_compute; reflexivity|].
  split; [split; cbn; lia || done|]. split; [vm_compute; reflexivity|].
  by repeat constructor.
Qed.

Lemma send_outcome_witness :
  let w := host_world MAILMSG_ENDPOINT_LINUX 7 full_shared in
  mailmsg_endpoint_send 2 MAILMSG_MSG_PING (Some [1;2;3;4]) 4 send_result_zero w =
    Some ((MAILMSG_RING_FULL, mk_send_result MAILMSG_RING_FULL (-1) 0 0),
      w <| ep := on_stats 2 (fun s => s <| tx_full := u32 (tx_full s + 1) |>) (bump_seq (ep w)) |>).
Proof.
  intros w.
  destruct (send_outcome noop_ops LinuxToCpu3 (fun _ n => Some (0, n + 1)) w 2 MAILMSG_MSG_PING
    [1;2;3;4] 4 send_result_zero full_queue) as (_ & Hfull & _).
  - exact _.
  - apply (host_ready MAILMSG_ENDPOINT_LINUX). lia.
  - lia.
  - lia.
  - reflexivity.
  - exact full_represents.
  - apply Hfull; [repeat split; reflexivity|reflexivity].
Defined.

(** C8. Sequence numbers are never zero and do not repeat within 2^32 - 1
    consecutive sends, the wrap-around past 0xffffffff included. *)
Theorem sequence_unique n i j :
  is_u32 n -> (i < j)%nat -> Z.of_nat j - Z.of_nat i < 2 ^ 32 - 1 -> (1 <= i)%nat ->
  Nat.iter i next_seq n <> 0 /\ is_u32 (Nat.iter i next_seq n) /\
  Nat.iter i next_seq n <> Nat.iter j next_seq n.
Proof.
  intros Hn Hij Hd Hi. destruct i as [|i]; [lia|]. destruct j as [|j]; [lia|].
  rewrite !next_seq_iter by done. unfold is_u32. lia.
Qed.

Lemma sequence_unique_witness :
  next_seq 0xfffffffe = 0xffffffff /\ next_seq 0xffffffff = 1 /\
  Nat.iter 1 next_seq 0xfffffffe <> 0 /\ is_u32 (Nat.iter 1 next_seq 0xfffffffe) /\
  Nat.iter 1 next_seq 0xfffffffe <> Nat.iter 2 next_seq 0xfffffffe.
Proof.
  split; [reflexivity|]. split; [reflexivity|].
  apply (sequence_unique 0xfffffffe 1 2); unfold is_u32; lia.
Defined.
