(* ===== verification/DriverState.v ===== *)
(** The Linux driver [lzamp_amp_mailmsg.c]: its data, the kernel services it
    relies on, the mailbox doorbell path and the data-plane gate. *)
From S2P Require Import Prelude Protocol Ring Notify Endpoint.

(** * Error numbers of the Linux ABI *)
Definition EIO : Z := 5.
Definition EAGAIN : Z := 11.
Definition ENOMEM : Z := 12.
Definition EFAULT : Z := 14.
Definition EBUSY : Z := 16.
Definition ENODEV : Z := 19.
Definition EINVAL : Z := 22.
Definition EFBIG : Z := 27.
Definition ENOSPC : Z := 28.
Definition ESPIPE : Z := 29.
Definition ENODATA : Z := 61.
Definition ENOLINK : Z := 67.
Definition EPROTO : Z := 71.
Definition EBADMSG : Z := 74.
Definition EOPNOTSUPP : Z := 95.
Definition ESHUTDOWN : Z := 108.
Definition ETIMEDOUT : Z := 110.
Definition EALREADY : Z := 114.
Definition EINPROGRESS : Z := 115.
Definition ESTALE : Z := 116.
Definition ECANCELED : Z := 125.
Definition MAX_ERRNO : Z := 4095.

(** PSCI AFFINITY_INFO results. *)
Definition PSCI_0_2_AFFINITY_LEVEL_ON : Z := 0.
Definition PSCI_0_2_AFFINITY_LEVEL_OFF : Z := 1.
Definition PSCI_0_2_AFFINITY_LEVEL_ON_PENDING : Z := 2.

(** * The driver's own constants *)
Definition R1_AMP_A55_CORE3_MPIDR : Z := 0x300.
Definition R1_AMP_CMD_PING : Z := 1.
Definition R1_AMP_MAILMSG_DOORBELL : Z := 0xa2b10000.
Definition R1_AMP_MBOX_A2B_STATUS : Z := 0x04.
Definition R1_AMP_MBOX_A2B_CMD (ch : Z) : Z := 0x08 + ch * 8.
Definition R1_AMP_MBOX_A2B_DAT (ch : Z) : Z := 0x0c + ch * 8.
Definition R1_AMP_MBOX_TX_CHANNEL : Z := 3.
Definition R1_AMP_MBOX_CONTROLLERS : Z := 1.
Definition R1_AMP_MBOX_CHANNELS_PER_CONTROLLER : Z := 4.
Definition R1_AMP_MBOX_CHANNELS : Z :=
  R1_AMP_MBOX_CONTROLLERS * R1_AMP_MBOX_CHANNELS_PER_CONTROLLER.
Definition R1_AMP_AFFINITY_MONITOR_MS : Z := 1000.
Definition R1_AMP_LIFECYCLE_TIMEOUT_MS : Z := 5000.
Definition R1_AMP_MAILMSG_OFF : Z := 0x200.
(** [R1_AMP_MAILMSG_OFF + sizeof(struct mailmsg_shared)]: a header of three
    words and eight rings of two words and eight 52-byte frames. *)
Definition sizeof_message : Z := 4 * 4 + 28 + 2 * 4.
Definition sizeof_ring : Z := 2 * 4 + 8 * sizeof_message.
Definition sizeof_shared : Z := 3 * 4 + 8 * sizeof_ring.
Definition R1_AMP_STATE_SIZE : Z := R1_AMP_MAILMSG_OFF + sizeof_shared.

Inductive r1_amp_mailmsg_session_state :=
| R1_AMP_MAILMSG_UNARMED
| R1_AMP_MAILMSG_STARTING
| R1_AMP_MAILMSG_START_TIMEOUT
| R1_AMP_MAILMSG_ACTIVE
| R1_AMP_MAILMSG_STOPPING
| R1_AMP_MAILMSG_STOP_TIMEOUT
| R1_AMP_MAILMSG_OFFLINE.
#[export] Instance session_state_eq_dec : EqDecision r1_amp_mailmsg_session_state.
Proof. solve_decision. Defined.
Definition state_is (a b : r1_amp_mailmsg_session_state) : bool := bool_decide (a = b).

(** * Kernel services

    Functions of the kernel and of the hardware the driver calls.  They are
    parameters; what a property needs of them is named in [PlatformLaws]. *)
Class Platform := {
  (* writel_relaxed(value, base + offset) and its effect on the register file *)
  mmio_write : Z -> Z -> (Z -> Z) -> (Z -> Z);
  (* dcache_clean_poc / dcache_inval_poc followed by dsb(sy) on a range *)
  dcache_clean : hook;
  dcache_inval : hook;
  (* linux/jiffies.h *)
  time_after_eq : Z -> Z -> bool;
  time_before : Z -> Z -> bool;
  msecs_to_jiffies : Z -> Z;
  (* parsers of sysfs input *)
  sysfs_streq : string -> string -> bool;
  sscanf_u_u : string -> option (Z * Z);
  sscanf_u_d_u : string -> option (Z * Z * Z);
  kstrtou32 : string -> Z + Z;       (* the value, or a negative errno *)
}.

(** What the environment answers during one invocation of a handler. *)
Record kenv := mk_kenv {
  jiffies : nat -> Z;                        (* the n-th read of jiffies *)
  psci_affinity_info : option (Z -> Z -> Z); (* psci_ops.affinity_info(mpidr, level) *)
  psci_cpu_on : option (Z -> Z -> Z);        (* psci_ops.cpu_on(mpidr, entry) *)
}.

(** * Data *)
Record r1_amp_mbox_channel := mk_mbox_channel {
  mc_index : Z;
  controller : Z;
  controller_channel : Z;
  rx_count : Z;
  rx_last_cmd : Z;
  rx_last_data : Z;
  tx_msg_cmd : Z;
  tx_msg_data : Z;
  tx_ret : Z;
  tx_count : Z;
  mc_notify_result : Z;
  notify_sent_count : Z;
  notify_coalesced_count : Z;
  notify_failed_count : Z;
}.
#[export] Instance eta_mbox_channel : Eta r1_amp_mbox_channel := fun c =>
  mk_mbox_channel (mc_index c) (controller c) (controller_channel c) (rx_count c)
    (rx_last_cmd c) (rx_last_data c) (tx_msg_cmd c) (tx_msg_data c) (tx_ret c) (tx_count c)
    (mc_notify_result c) (notify_sent_count c) (notify_coalesced_count c)
    (notify_failed_count c).

(** The part of [struct r1_amp_cpu_on_data] the doorbell path works on: the
    context of the driver's notification backend. *)
Record mbox_state := mk_mbox_state {
  mbox : list r1_amp_mbox_channel;      (* [R1_AMP_MBOX_CHANNELS] *)
  mbox_regs : list (Z -> Z);            (* [R1_AMP_MBOX_CONTROLLERS] register files *)
  notify_inject_priority : Z;
  notify_inject_errno : Z;
  notify_inject_remaining : Z;
  lifecycle_notify_bypass : bool;
  mailmsg_last_notify_result : Z;
}.
#[export] Instance eta_mbox_state : Eta mbox_state := fun b =>
  mk_mbox_state (mbox b) (mbox_regs b) (notify_inject_priority b) (notify_inject_errno b)
    (notify_inject_remaining b) (lifecycle_notify_bypass b) (mailmsg_last_notify_result b).

Record r1_amp_payload_line := mk_payload_line {
  pl_command : Z; pl_value : Z; pl_status : Z; pl_result : Z;
}.
#[export] Instance eta_payload_line : Eta r1_amp_payload_line := fun l =>
  mk_payload_line (pl_command l) (pl_value l) (pl_status l) (pl_result l).
Record r1_amp_commit_line := mk_commit_line { cl_sequence : Z; cl_sequence_inv : Z }.
#[export] Instance eta_commit_line : Eta r1_amp_commit_line := fun l =>
  mk_commit_line (cl_sequence l) (cl_sequence_inv l).
Record r1_amp_mbox_observation_line := mk_observation_line {
  ob_magic : Z; ob_a2b_status : Z; ob_command : Z; ob_data : Z;
}.
#[export] Instance eta_observation_line : Eta r1_amp_mbox_observation_line := fun l =>
  mk_observation_line (ob_magic l) (ob_a2b_status l) (ob_command l) (ob_data l).
Record r1_amp_mailmsg_worker_observation_line := mk_worker_observation {
  wo_magic : Z; wo_commit : Z; wo_commit_inv : Z; wo_irq_count : Z; wo_wake_count : Z;
  wo_drain_count : Z; wo_message_count : Z; wo_empty_wake_count : Z; wo_last_pending : Z;
  wo_pending_now : Z; wo_last_priority : Z;
}.
#[export] Instance eta_worker_observation : Eta r1_amp_mailmsg_worker_observation_line := fun l =>
  mk_worker_observation (wo_magic l) (wo_commit l) (wo_commit_inv l) (wo_irq_count l)
    (wo_wake_count l) (wo_drain_count l) (wo_message_count l) (wo_empty_wake_count l)
    (wo_last_pending l) (wo_pending_now l) (wo_last_priority l).

Definition payload_line_zero := mk_payload_line 0 0 0 0.
Definition commit_line_zero := mk_commit_line 0 0.
Definition observation_zero := mk_observation_line 0 0 0 0.
Definition tx_full_zero := mk_tx_full_observation 0 0 0 0 0 0 0.
Definition worker_observation_zero := mk_worker_observation 0 0 0 0 0 0 0 0 0 0 0.

(** The reserved memory the two CPUs share, at the offsets of the source: the
    CPU3 image, then at [status_offset] the status words, the legacy request
    and response lines, the observations, and the MailMsg block. *)
Record carveout_mem := mk_carveout {
  image : list Z;
  status_words : list Z;                                    (* 0x000 *)
  req_payload : r1_amp_payload_line;                        (* 0x040 *)
  req_commit : r1_amp_commit_line;                          (* 0x080 *)
  rsp_payload : r1_amp_payload_line;                        (* 0x0c0 *)
  rsp_commit : r1_amp_commit_line;                          (* 0x100 *)
  mbox_observation : r1_amp_mbox_observation_line;          (* 0x140 *)
  tx_full_observation : mailmsg_tx_full_observation;        (* 0x180 *)
  worker_observation : r1_amp_mailmsg_worker_observation_line; (* 0x1c0 *)
  c_shared : mailmsg_shared;                                (* 0x200 *)
}.
#[export] Instance eta_carveout : Eta carveout_mem := fun c =>
  mk_carveout (image c) (status_words c) (req_payload c) (req_commit c) (rsp_payload c)
    (rsp_commit c) (mbox_observation c) (tx_full_observation c) (worker_observation c)
    (c_shared c).
(** [memset(r1_amp_status_ptr(data), 0, R1_AMP_STATE_SIZE)] *)
Definition carveout_clear_state (c : carveout_mem) : carveout_mem :=
  mk_carveout (image c) [0; 0] payload_line_zero commit_line_zero payload_line_zero
    commit_line_zero observation_zero tx_full_zero worker_observation_zero shared_zero.

Record r1_amp_mailmsg_user_channel := mk_user_channel {
  uc_priority : Z;
  rx_generation : Z;
  reader_open_count : Z;
  registered : bool;
}.
#[export] Instance eta_user_channel : Eta r1_amp_mailmsg_user_channel := fun c =>
  mk_user_channel (uc_priority c) (rx_generation c) (reader_open_count c) (registered c).
Record r1_amp_mailmsg_user_file := mk_user_file {
  channel : Z;              (* index of the channel the file was opened on *)
  reader_claimed : bool;
}.
#[export] Instance eta_user_file : Eta r1_amp_mailmsg_user_file := fun f =>
  mk_user_file (channel f) (reader_claimed f).

(** [struct r1_amp_cpu_on_data].  [mutex lock] is implicit: a handler's
    critical section is one transition.  The works are their pending state
    (armed with a delay, or queued); [user_files] are the open files' private
    data; [wakeups] logs the wait queues woken. *)
Record r1_amp_cpu_on_data := mk_data {
  mb : mbox_state;
  mbox_a2b_at_tx : Z * Z * Z;          (* status, cmd, data *)
  carveout : carveout_mem;
  mpidr : Z;
  entry : Z;
  image_size : Z;
  image_written : Z;
  affinity_state : Z;
  cpu_on_ret : Z;
  affinity_queried : bool;
  affinity_seen_on : bool;
  cpu_on_attempted : bool;
  mailmsg_state : r1_amp_mailmsg_session_state;
  affinity_work : option Z;            (* armed with this delay *)
  control_work : bool;                 (* queued *)
  lifecycle_timeout_work : option Z;   (* armed with this delay *)
  affinity_monitor_count : Z;
  affinity_monitor_error_count : Z;
  session_generation : Z;
  peer_generation : Z;
  session_result : Z;
  stop_request_sequence : Z;
  stop_reply_type : Z;
  stop_result : Z;
  stop_notify_result : Z;
  lifecycle_deadline : Z;
  d_next_sequence : Z;                 (* u64 next_sequence of the legacy PING *)
  mailmsg_endpoint_ : mailmsg_endpoint mbox_state;
  mailmsg_user : list r1_amp_mailmsg_user_channel;  (* [MAILMSG_PRIORITY_COUNT] *)
  mailmsg_user_open_count : Z;
  mailmsg_user_removing : bool;
  user_files : gmap nat r1_amp_mailmsg_user_file;
  wakeups : list Z;
}.
#[export] Instance eta_data : Eta r1_amp_cpu_on_data := fun d =>
  mk_data (mb d) (mbox_a2b_at_tx d) (carveout d) (mpidr d) (entry d) (image_size d)
    (image_written d) (affinity_state d) (cpu_on_ret d) (affinity_queried d)
    (affinity_seen_on d) (cpu_on_attempted d) (mailmsg_state d) (affinity_work d)
    (control_work d) (lifecycle_timeout_work d) (affinity_monitor_count d)
    (affinity_monitor_error_count d) (session_generation d) (peer_generation d)
    (session_result d) (stop_request_sequence d) (stop_reply_type d) (stop_result d)
    (stop_notify_result d) (lifecycle_deadline d) (d_next_sequence d) (mailmsg_endpoint_ d)
    (mailmsg_user d) (mailmsg_user_open_count d) (mailmsg_user_removing d) (user_files d)
    (wakeups d).

(** A driver computation, and the endpoint calls it makes on its own endpoint,
    the shared block and its notification context. *)
Abbreviation D := (M r1_amp_cpu_on_data).

Definition endpoint_world (d : r1_amp_cpu_on_data) : ep_world mbox_state :=
  mk_ep_world (mailmsg_endpoint_ d) (c_shared (carveout d)) (mb d).
Definition endpoint_back (w : ep_world mbox_state) (d : r1_amp_cpu_on_data) : r1_amp_cpu_on_data :=
  d <| mailmsg_endpoint_ := ep w |> <| carveout := carveout d <| c_shared := shm w |> |>
    <| mb := ctx w |>.
Definition on_endpoint {A} (m : M (ep_world mbox_state) A) : D A :=
  zoom endpoint_world endpoint_back m.
Definition on_mb {A} (m : M mbox_state A) : D A := zoom mb (fun b d => d <| mb := b |>) m.
Definition on_block {A} (m : M mailmsg_shared A) : D A :=
  zoom (fun d => c_shared (carveout d))
    (fun s d => d <| carveout := carveout d <| c_shared := s |> |>) m.

(** * The mailbox doorbell path *)
Section Mailbox.
Context {platform : Platform}.

(** Cache maintenance of a range, and the hooks of the protocol. *)
Definition lzamp_dcache_clean : hook := dcache_clean.
Definition lzamp_dcache_invalidate : hook := dcache_inval.
Definition mailmsg_linux_publish : hook := lzamp_dcache_clean.
Definition mailmsg_linux_acquire : hook := lzamp_dcache_invalidate.
Definition mailmsg_linux_memory_ops : mailmsg_memory_ops :=
  mk_memory_ops (Some mailmsg_linux_publish) (Some mailmsg_linux_acquire).

Definition get_channel (i : Z) : M mbox_state r1_amp_mbox_channel :=
  b ← get; from_option_ub (zget (mbox b) i).
Definition upd_channel (i : Z) (f : r1_amp_mbox_channel -> r1_amp_mbox_channel) :
    M mbox_state unit :=
  get_channel i ;; modify (fun b => b <| mbox := zupd i f (mbox b) |>).

Definition readl_relaxed (ctl offset : Z) : M mbox_state Z :=
  b ← get; regs ← from_option_ub (zget (mbox_regs b) ctl); mret (regs offset).
Definition writel_relaxed (value ctl offset : Z) : M mbox_state unit :=
  b ← get; from_option_ub (zget (mbox_regs b) ctl) ;;
  modify (fun b => b <| mbox_regs := zupd ctl (mmio_write value offset) (mbox_regs b) |>).

(** [channel] is [&data->mbox[i]]. *)
Definition r1_amp_mbox_direct_send_locked (i command value : Z) : M mbox_state Z :=
  channel ← get_channel i;
  status ← readl_relaxed (controller channel) R1_AMP_MBOX_A2B_STATUS;
  if has_bit status (controller_channel channel) then
    upd_channel i (fun c => c <| tx_ret := - EBUSY |>) ;;
    mret (- EBUSY)
  else
    upd_channel i (fun c => c <| tx_msg_cmd := command |> <| tx_msg_data := value |>) ;;
    writel_relaxed command (controller channel)
      (R1_AMP_MBOX_A2B_CMD (controller_channel channel)) ;;
    writel_relaxed value (controller channel)
      (R1_AMP_MBOX_A2B_DAT (controller_channel channel)) ;;
    upd_channel i (fun c => c <| tx_ret := 0 |> <| tx_count := u32 (tx_count c + 1) |>) ;;
    mret 0.

Definition mailmsg_notify_locked (priority : Z) : M mbox_state Z :=
  get_channel priority ;;
  b ← get;
  if negb (lifecycle_notify_bypass b) && negb (notify_inject_remaining b =? 0) &&
     (notify_inject_priority b =? priority)
  then
    let result := notify_inject_errno b in
    modify (fun b => b <| notify_inject_remaining := u32 (notify_inject_remaining b - 1) |>) ;;
    upd_channel priority (fun c => c <| tx_ret := result |>
      <| notify_failed_count := u32 (notify_failed_count c + 1) |>
      <| mc_notify_result := result |>) ;;
    modify (fun b => b <| mailmsg_last_notify_result := result |>) ;;
    mret result
  else
    result ← r1_amp_mbox_direct_send_locked priority
               (Z.lor R1_AMP_MAILMSG_DOORBELL priority) priority;
    result ←
      (if result =? - EBUSY then
         upd_channel priority (fun c => c <| notify_coalesced_count := u32 (notify_coalesced_count c + 1) |>) ;;
         mret MAILMSG_NOTIFY_COALESCED
       else if result <? 0 then
         upd_channel priority (fun c => c <| notify_failed_count := u32 (notify_failed_count c + 1) |>) ;;
         mret result
       else
         upd_channel priority (fun c => c <| notify_sent_count := u32 (notify_sent_count c + 1) |>) ;;
         mret MAILMSG_NOTIFY_SENT);
    upd_channel priority (fun c => c <| mc_notify_result := result |>) ;;
    modify (fun b => b <| mailmsg_last_notify_result := result |>) ;;
    mret result.

Definition mailmsg_linux_notify (priority : Z) : M mbox_state Z := mailmsg_notify_locked priority.
Definition mailmsg_linux_notify_ops : mailmsg_notify_ops mbox_state :=
  mk_notify_ops (Some mailmsg_linux_notify) None.
(** [data->mailmsg_notify_endpoint], as probe sets it up. *)
Definition mailmsg_notify_endpoint_ : mailmsg_notify_endpoint mbox_state :=
  mk_notify_endpoint (Some mailmsg_linux_notify_ops).
End Mailbox.

(** * Small operations every component of the driver uses *)

(** One gate for every data-plane entry point. *)
Definition data_gate (st : r1_amp_mailmsg_session_state) : Z :=
  match st with
  | R1_AMP_MAILMSG_ACTIVE => 0
  | R1_AMP_MAILMSG_STARTING => - EAGAIN
  | R1_AMP_MAILMSG_START_TIMEOUT => - ETIMEDOUT
  | R1_AMP_MAILMSG_STOPPING => - ESHUTDOWN
  | R1_AMP_MAILMSG_STOP_TIMEOUT => - ETIMEDOUT
  | R1_AMP_MAILMSG_OFFLINE
  | R1_AMP_MAILMSG_UNARMED => - ENOLINK
  end.
Definition r1_amp_mailmsg_data_gate_locked : D Z := gets (fun d => data_gate (mailmsg_state d)).

Definition mailmsg_ring_result_to_errno (result : Z) : Z :=
  if result =? MAILMSG_RING_OK then 0
  else if result =? MAILMSG_RING_EMPTY then - ENODATA
  else if result =? MAILMSG_RING_FULL then - ENOSPC
  else if result =? MAILMSG_RING_INCOMPLETE then - EAGAIN
  else if result =? MAILMSG_RING_BAD_CRC then - EBADMSG
  else if result =? MAILMSG_RING_INVALID then - EPROTO
  else if result =? MAILMSG_ENDPOINT_INVALID then - EINVAL
  else if result =? MAILMSG_ENDPOINT_PROTOCOL_MISMATCH then - EPROTO
  else if (result =? MAILMSG_ENDPOINT_STALE_SESSION) || (result =? MAILMSG_ENDPOINT_STALE_FRAME)
  then - ESTALE
  else - EIO.

Definition mailmsg_payload_u32 (payload : list Z) (off : Z) : Z := load_u32 payload off.
Definition mailmsg_store_payload_u32 (payload : list Z) (off value : Z) : list Z :=
  store_u32 payload off value.

Definition r1_amp_psci_state_name (state : Z) : string :=
  if state =? PSCI_0_2_AFFINITY_LEVEL_ON then "on"
  else if state =? PSCI_0_2_AFFINITY_LEVEL_OFF then "off"
  else if state =? PSCI_0_2_AFFINITY_LEVEL_ON_PENDING then "on-pending"
  else "error".
Definition r1_amp_mailmsg_state_name (state : r1_amp_mailmsg_session_state) : string :=
  match state with
  | R1_AMP_MAILMSG_UNARMED => "unarmed"
  | R1_AMP_MAILMSG_STARTING => "starting"
  | R1_AMP_MAILMSG_START_TIMEOUT => "start-timeout"
  | R1_AMP_MAILMSG_ACTIVE => "active"
  | R1_AMP_MAILMSG_STOPPING => "stopping"
  | R1_AMP_MAILMSG_STOP_TIMEOUT => "stop-timeout"
  | R1_AMP_MAILMSG_OFFLINE => "offline"
  end.

(** [atomic_inc(&user[priority].rx_generation); wake_up_interruptible(...)]: an
    [atomic_t] is a wrapping 32-bit counter. *)
Definition wake_reader (priority : Z) (d : r1_amp_cpu_on_data) : r1_amp_cpu_on_data :=
  d <| mailmsg_user := zupd priority (fun c => c <| rx_generation := u32 (rx_generation c + 1) |>)
         (mailmsg_user d) |>
    <| wakeups := wakeups d ++ [priority] |>.
Definition wake_all_readers (d : r1_amp_cpu_on_data) : r1_amp_cpu_on_data :=
  fold_left (fun d priority => wake_reader priority d) priorities d.

Arguments wake_reader : simpl never.
Arguments wake_all_readers : simpl never.

(** [r1_amp_mbox_rx_callback] for channel [i]; [msg] is NULL or (cmd, data). *)
Definition r1_amp_mbox_rx_callback (i : Z) (msg : option (Z * Z)) : D unit :=
  on_mb (match msg with
         | Some (cmd, dat) =>
             upd_channel i (fun c => c <| rx_last_cmd := cmd |> <| rx_last_data := dat |>)
         | None => mret tt
         end) ;;
  on_mb (upd_channel i (fun c => c <| rx_count := u32 (rx_count c + 1) |>)) ;;
  idx ← on_mb (c ← get_channel i; mret (mc_index c));
  d ← get; from_option_ub (zget (mailmsg_user d) idx) ;;
  modify (wake_reader idx) ;;
  st ← gets mailmsg_state;
  when (state_is st R1_AMP_MAILMSG_STARTING || state_is st R1_AMP_MAILMSG_STOPPING)
    (modify (fun d => d <| control_work := true |>)).
