(* ===== verification/DriverLifecycle.v ===== *)
(** The lifecycle plane of the driver: the session state machine, the PSCI
    affinity monitor, the control work that consumes SESSION_READY and the
    stop replies, the lifecycle timeout, and the sysfs entry points [start],
    [rearm] and [mailmsg_stop]. *)
From S2P Require Import Prelude Protocol Ring Notify Endpoint DriverState.

(** The states in which CPU3 may be running. *)
Definition monitored (st : r1_amp_mailmsg_session_state) : bool :=
  match st with
  | R1_AMP_MAILMSG_STARTING | R1_AMP_MAILMSG_START_TIMEOUT | R1_AMP_MAILMSG_ACTIVE
  | R1_AMP_MAILMSG_STOPPING | R1_AMP_MAILMSG_STOP_TIMEOUT => true
  | R1_AMP_MAILMSG_UNARMED | R1_AMP_MAILMSG_OFFLINE => false
  end.
(** [STARTING || STOPPING]: the lifecycle plane owns p0. *)
Definition lifecycle_pending (st : r1_amp_mailmsg_session_state) : bool :=
  state_is st R1_AMP_MAILMSG_STARTING || state_is st R1_AMP_MAILMSG_STOPPING.

Section Lifecycle.
Context {platform : Platform}.

Definition cancel_lifecycle_timeout (d : r1_amp_cpu_on_data) : r1_amp_cpu_on_data :=
  d <| lifecycle_timeout_work := None |>.
Definition mod_lifecycle_timeout (delay : Z) (d : r1_amp_cpu_on_data) : r1_amp_cpu_on_data :=
  d <| lifecycle_timeout_work := Some delay |>.

Definition r1_amp_mailmsg_mark_offline_locked : D unit :=
  st ← gets mailmsg_state;
  when (monitored st)
    (modify (fun d => wake_all_readers
       (cancel_lifecycle_timeout (d <| mailmsg_state := R1_AMP_MAILMSG_OFFLINE |>)))).

Definition r1_amp_refresh_affinity_locked (env : kenv) : D Z :=
  match psci_affinity_info env with
  | None => ub
  | Some affinity_info =>
      m ← gets mpidr;
      let state := affinity_info m 0 in
      modify (fun d => d <| affinity_state := state |> <| affinity_queried := true |>) ;;
      when ((state =? PSCI_0_2_AFFINITY_LEVEL_ON) || (state =? PSCI_0_2_AFFINITY_LEVEL_ON_PENDING))
        (modify (fun d => d <| affinity_seen_on := true |>)) ;;
      d ← get;
      when ((cpu_on_ret d =? 0) && affinity_seen_on d && (state =? PSCI_0_2_AFFINITY_LEVEL_OFF))
        r1_amp_mailmsg_mark_offline_locked ;;
      mret state
  end.

Definition r1_amp_affinity_work (env : kenv) : D unit :=
  d ← get;
  if negb (monitored (mailmsg_state d)) || mailmsg_user_removing d then mret tt else
  modify (fun d => d <| affinity_monitor_count := u32 (affinity_monitor_count d + 1) |>) ;;
  state ← r1_amp_refresh_affinity_locked env;
  when (state <? 0)
    (modify (fun d => d <| affinity_monitor_error_count := u32 (affinity_monitor_error_count d + 1) |>)) ;;
  d ← get;
  when (lifecycle_pending (mailmsg_state d)) (modify (fun d => d <| control_work := true |>)) ;;
  when (monitored (mailmsg_state d) && negb (mailmsg_user_removing d))
    (modify (fun d => d <| affinity_work := Some (msecs_to_jiffies R1_AMP_AFFINITY_MONITOR_MS) |>)).

Definition r1_amp_mailmsg_set_timeout_locked : D unit :=
  modify (fun d =>
    match mailmsg_state d with
    | R1_AMP_MAILMSG_STARTING =>
        d <| session_result := - ETIMEDOUT |> <| mailmsg_state := R1_AMP_MAILMSG_START_TIMEOUT |>
    | R1_AMP_MAILMSG_STOPPING =>
        d <| stop_result := - ETIMEDOUT |> <| mailmsg_state := R1_AMP_MAILMSG_STOP_TIMEOUT |>
    | _ => d
    end) ;;
  modify wake_all_readers.

(** The frame CPU3 publishes once it has bound this session. *)
Definition session_ready_matches (d : r1_amp_cpu_on_data) (response : mailmsg_message) : bool :=
  (type_ response =? MAILMSG_MSG_SESSION_READY) &&
  (MAILMSG_SESSION_BYTES <=? length_ response) &&
  (mailmsg_payload_u32 (payload response) MAILMSG_SESSION_GENERATION_OFFSET =? session_generation d) &&
  (mailmsg_payload_u32 (payload response) MAILMSG_SESSION_VERSION_OFFSET =? MAILMSG_PROTOCOL_VERSION).

(** A reply to this very stop request. *)
Definition stop_reply_matches (d : r1_amp_cpu_on_data) (response : mailmsg_message) : bool :=
  ((type_ response =? MAILMSG_MSG_STOP_READY) || (type_ response =? MAILMSG_MSG_STOP_REFUSED)) &&
  (MAILMSG_FEEDBACK_BYTES <=? length_ response) &&
  (mailmsg_payload_u32 (payload response) MAILMSG_FEEDBACK_SEQUENCE_OFFSET =? stop_request_sequence d).

(** The loop of [r1_amp_mailmsg_control_work]; [k] counts the reads of
    [jiffies].  The result is [false] when the fuel runs out. *)
Fixpoint control_loop (fuel : nat) (env : kenv) (k : nat) (response : mailmsg_message) : D bool :=
  match fuel with
  | O => mret false
  | S fuel =>
      '(ret, response) ← on_endpoint (mailmsg_endpoint_receive MAILMSG_PRIO_CRITICAL response);
      if (ret =? MAILMSG_RING_EMPTY) || (ret =? MAILMSG_RING_INCOMPLETE) then mret true else
      if negb (ret =? 0) then
        if ret =? MAILMSG_ENDPOINT_STALE_FRAME then control_loop fuel env k response else
        modify (fun d =>
          if state_is (mailmsg_state d) R1_AMP_MAILMSG_STARTING
          then d <| session_result := mailmsg_ring_result_to_errno ret |>
          else d <| stop_result := mailmsg_ring_result_to_errno ret |>) ;;
        if ret <=? MAILMSG_ENDPOINT_INVALID then mret true else control_loop fuel env k response
      else
      d ← get;
      if time_after_eq (jiffies env k) (lifecycle_deadline d) then
        r1_amp_mailmsg_set_timeout_locked ;;
        modify cancel_lifecycle_timeout ;;
        mret true
      else if state_is (mailmsg_state d) R1_AMP_MAILMSG_STARTING then
        if negb (session_ready_matches d response) then control_loop fuel env (S k) response else
        modify (fun d => cancel_lifecycle_timeout
          (d <| peer_generation := session_generation d |> <| session_result := 0 |>
             <| affinity_seen_on := true |> <| mailmsg_state := R1_AMP_MAILMSG_ACTIVE |>)) ;;
        mret true
      else
        if negb (stop_reply_matches d response) then control_loop fuel env (S k) response else
        if type_ response =? MAILMSG_MSG_STOP_READY then
          modify (fun d => mod_lifecycle_timeout (msecs_to_jiffies R1_AMP_LIFECYCLE_TIMEOUT_MS)
            (d <| stop_reply_type := type_ response |> <| stop_result := 0 |>
               <| lifecycle_deadline :=
                    u64 (jiffies env (S k) + msecs_to_jiffies R1_AMP_LIFECYCLE_TIMEOUT_MS) |>)) ;;
          mret true
        else
          modify (fun d => cancel_lifecycle_timeout
            (d <| stop_reply_type := type_ response |> <| stop_result := - ECANCELED |>
               <| mailmsg_state := R1_AMP_MAILMSG_ACTIVE |>)) ;;
          mret true
  end.

Definition r1_amp_mailmsg_control_work (fuel : nat) (env : kenv) : D bool :=
  d ← get;
  if negb (lifecycle_pending (mailmsg_state d)) then mret true else
  if time_after_eq (jiffies env 0) (lifecycle_deadline d) then
    r1_amp_mailmsg_set_timeout_locked ;;
    modify cancel_lifecycle_timeout ;;
    mret true
  else control_loop fuel env 1 message_zero.

Definition r1_amp_mailmsg_lifecycle_timeout_work (env : kenv) : D unit :=
  d ← get;
  if negb (lifecycle_pending (mailmsg_state d)) then mret tt else
  if time_before (jiffies env 0) (lifecycle_deadline d) then
    modify (mod_lifecycle_timeout (u64 (lifecycle_deadline d - jiffies env 1)))
  else
    when (state_is (mailmsg_state d) R1_AMP_MAILMSG_STOPPING &&
          (stop_reply_type d =? MAILMSG_MSG_STOP_READY))
      (r1_amp_refresh_affinity_locked env ;; mret tt) ;;
    st ← gets mailmsg_state;
    if state_is (mailmsg_state d) R1_AMP_MAILMSG_STOPPING &&
       (stop_reply_type d =? MAILMSG_MSG_STOP_READY) && state_is st R1_AMP_MAILMSG_OFFLINE
    then mret tt
    else r1_amp_mailmsg_set_timeout_locked.

(** * The sysfs entry points of the lifecycle *)

(** [mailmsg_linux_shared_ptr(data)->...] after the state area was cleared. *)
Definition new_session_block (gen : Z) : mailmsg_shared :=
  shared_zero <| magic := MAILMSG_PROTOCOL_MAGIC |> <| version := MAILMSG_PROTOCOL_VERSION |>
    <| shared_generation := gen |>.

(** [data->session_generation++] until it is not zero. *)
Definition next_generation (g : Z) : Z :=
  let g := u32 (g + 1) in if g =? 0 then u32 (g + 1) else g.

Definition start_store (env : kenv) (buf : string) (count : Z) : D Z :=
  if negb (sysfs_streq buf "start") then mret (- EINVAL) else
  d ← get;
  if mailmsg_user_removing d then mret (- ENODEV) else
  if cpu_on_attempted d then mret (- EALREADY) else
  if negb (image_written d =? image_size d) then mret (- ENODATA) else
  match psci_affinity_info env, psci_cpu_on env with
  | Some _, Some cpu_on =>
      r1_amp_refresh_affinity_locked env ;;
      d ← get;
      if negb (affinity_state d =? PSCI_0_2_AFFINITY_LEVEL_OFF) then mret (- EBUSY) else
      modify (fun d =>
        let gen := next_generation (session_generation d) in
        d <| session_generation := gen |>
          <| carveout := carveout_clear_state (carveout d) <| c_shared := new_session_block gen |> |>) ;;
      (* clean of the whole state area *)
      on_block (modify (lzamp_dcache_clean RegShared)) ;;
      ret ← on_endpoint (mailmsg_endpoint_bind true (Some mailmsg_linux_memory_ops)
              (Some mailmsg_notify_endpoint_) MAILMSG_ENDPOINT_LINUX);
      if negb (ret =? 0) then mret (- EPROTO) else
      modify (fun d => d <| peer_generation := 0 |> <| session_result := - EINPROGRESS |>
        <| stop_request_sequence := 0 |> <| stop_reply_type := 0 |> <| stop_result := - EAGAIN |>
        <| stop_notify_result := - EAGAIN |> <| mailmsg_state := R1_AMP_MAILMSG_STARTING |>
        <| mb := mb d <| lifecycle_notify_bypass := false |> |>
        <| affinity_seen_on := false |> <| cpu_on_attempted := true |>) ;;
      d ← get;
      let r := cpu_on (mpidr d) (entry d) in
      modify (fun d => d <| cpu_on_ret := r |>) ;;
      (if negb (r =? 0) then
         modify (fun d => d <| mailmsg_state := R1_AMP_MAILMSG_UNARMED |> <| session_result := r |>)
       else
         modify (fun d => mod_lifecycle_timeout (msecs_to_jiffies R1_AMP_LIFECYCLE_TIMEOUT_MS)
           (d <| lifecycle_deadline :=
                   u64 (jiffies env 0 + msecs_to_jiffies R1_AMP_LIFECYCLE_TIMEOUT_MS) |>
              <| affinity_work := Some (msecs_to_jiffies R1_AMP_AFFINITY_MONITOR_MS) |>))) ;;
      mret (if r =? 0 then count else r)
  | _, _ => mret (- EOPNOTSUPP)
  end.

(** [for (controller = 0; ...) if (readl_relaxed(A2B_STATUS)) return -EBUSY] *)
Fixpoint a2b_quiet (ctls : list Z) : M mbox_state bool :=
  match ctls with
  | [] => mret true
  | ctl :: ctls =>
      status ← readl_relaxed ctl R1_AMP_MBOX_A2B_STATUS;
      if negb (status =? 0) then mret false else a2b_quiet ctls
  end.

Definition rearm_store (env : kenv) (buf : string) (count : Z) : D Z :=
  if negb (sysfs_streq buf "rearm") then mret (- EINVAL) else
  d ← get;
  if negb (cpu_on_attempted d) then mret (- EINVAL) else
  if negb (mailmsg_user_open_count d =? 0) then mret (- EBUSY) else
  match psci_affinity_info env with
  | None => mret (- EOPNOTSUPP)
  | Some _ =>
      r1_amp_refresh_affinity_locked env ;;
      d ← get;
      if negb (affinity_state d =? PSCI_0_2_AFFINITY_LEVEL_OFF) then mret (- EBUSY) else
      quiet ← on_mb (a2b_quiet [0]);
      if negb quiet then mret (- EBUSY) else
      modify (fun d => cancel_lifecycle_timeout (d <| mailmsg_endpoint_ := endpoint_zero |>)) ;;
      modify (fun d => d <| image_written := 0 |> <| cpu_on_attempted := false |>
        <| cpu_on_ret := - EAGAIN |> <| affinity_seen_on := false |>
        <| mailmsg_state := R1_AMP_MAILMSG_UNARMED |> <| peer_generation := 0 |>
        <| session_result := - EAGAIN |> <| d_next_sequence := 0 |>
        <| stop_request_sequence := 0 |> <| stop_reply_type := 0 |> <| stop_result := - EAGAIN |>
        <| stop_notify_result := - EAGAIN |>
        <| mb := mb d <| mailmsg_last_notify_result := - EAGAIN |>
                      <| notify_inject_remaining := 0 |> <| lifecycle_notify_bypass := false |> |>) ;;
      mret count
  end.

(** The loop of [r1_amp_mailmsg_stop_preflight_locked] over the priorities:
    [Some ret] when it returns from inside the loop. *)
Fixpoint stop_preflight_rings (ps : list Z) : D (option Z) :=
  match ps with
  | [] => mret None
  | priority :: ps =>
      ret ← on_endpoint (mailmsg_endpoint_has_received priority);
      if negb (ret =? MAILMSG_RING_EMPTY)
      then mret (Some (if 0 <? ret then - EBUSY else mailmsg_ring_result_to_errno ret)) else
      ret ← on_block (mailmsg_ring_has_data (Some (mk_ring_ptr LinuxToCpu3 priority))
                        (Some mailmsg_linux_memory_ops));
      if negb (ret =? MAILMSG_RING_EMPTY)
      then mret (Some (if 0 <? ret then - EBUSY else mailmsg_ring_result_to_errno ret)) else
      stop_preflight_rings ps
  end.

Definition r1_amp_mailmsg_stop_preflight_locked : D Z :=
  d ← get;
  if negb (mailmsg_user_open_count d =? 0) then mret (- EBUSY) else
  match tx (mailmsg_endpoint_ d), rx (mailmsg_endpoint_ d) with
  | Some _, Some _ =>
      r ← stop_preflight_rings priorities;
      match r with
      | Some ret => mret ret
      | None =>
          status ← on_mb (readl_relaxed 0 R1_AMP_MBOX_A2B_STATUS);
          if negb (Z.land status 0xf =? 0) then mret (- EBUSY) else mret 0
      end
  | _, _ => mret (- EPROTO)
  end.

Definition mailmsg_stop_store (env : kenv) (buf : string) (count : Z) : D Z :=
  if negb (sysfs_streq buf "stop") then mret (- EINVAL) else
  d ← get;
  if state_is (mailmsg_state d) R1_AMP_MAILMSG_OFFLINE then mret (- ENOLINK) else
  if negb (state_is (mailmsg_state d) R1_AMP_MAILMSG_ACTIVE) then mret (- EBUSY) else
  ret ← r1_amp_mailmsg_stop_preflight_locked;
  if negb (ret =? 0) then mret ret else
  modify (fun d => d <| mailmsg_state := R1_AMP_MAILMSG_STOPPING |> <| stop_request_sequence := 0 |>
    <| stop_reply_type := 0 |> <| stop_result := - EINPROGRESS |>
    <| stop_notify_result := - EINPROGRESS |>
    <| mb := mb d <| lifecycle_notify_bypass := true |> |>) ;;
  '(ret, send_result) ← on_endpoint (mailmsg_endpoint_send MAILMSG_PRIO_CRITICAL
      MAILMSG_MSG_STOP_REQUEST None 0 send_result_zero);
  modify (fun d => d <| mb := mb d <| lifecycle_notify_bypass := false |> |>) ;;
  if negb (ret =? 0) then
    let r := if ret <=? MAILMSG_ENDPOINT_INVALID then mailmsg_ring_result_to_errno ret
             else mailmsg_ring_result_to_errno (queue_result send_result) in
    modify (fun d => d <| mailmsg_state := R1_AMP_MAILMSG_ACTIVE |> <| stop_result := r |>) ;;
    mret (if r =? 0 then count else r)
  else
  modify (fun d => mod_lifecycle_timeout (msecs_to_jiffies R1_AMP_LIFECYCLE_TIMEOUT_MS)
    (d <| stop_request_sequence := sr_sequence send_result |>
       <| stop_notify_result := notify_result send_result |>
       <| lifecycle_deadline :=
            u64 (jiffies env 0 + msecs_to_jiffies R1_AMP_LIFECYCLE_TIMEOUT_MS) |>)) ;;
  let ret := notify_result send_result in
  let ret := if negb (mailmsg_notify_accepted ret) && (ret <? 0) then ret else 0 in
  mret (if ret =? 0 then count else ret).
End Lifecycle.
