(* ===== verification/DriverUser.v ===== *)
(** The character devices [mailmsg-p0] ... [mailmsg-p3] of the driver: open and
    release, the exclusive reader of a priority, blocking reads, writes and
    poll. *)
From S2P Require Import Prelude Protocol Ring Notify Endpoint DriverState.

Definition EPOLLIN : Z := 0x1.
Definition EPOLLERR : Z := 0x8.
Definition EPOLLHUP : Z := 0x10.
Definition EPOLLRDNORM : Z := 0x40.
Definition sizeof_user_frame : Z := 4 * 4 + 32.

(** The devices' names under /dev. *)
Definition r1_amp_mailmsg_user_names : list string := ["mailmsg-p0"; "mailmsg-p1"; "mailmsg-p2"; "mailmsg-p3"].

(** [user_file->channel], and the file's private data: an operation on a file
    that is not open has no meaning. *)
Definition get_user_channel (i : Z) : D r1_amp_mailmsg_user_channel :=
  d ← get; from_option_ub (zget (mailmsg_user d) i).
Definition upd_user_channel (i : Z) (f : r1_amp_mailmsg_user_channel -> r1_amp_mailmsg_user_channel) :
    D unit :=
  get_user_channel i ;; modify (fun d => d <| mailmsg_user := zupd i f (mailmsg_user d) |>).
Definition get_user_file (file : nat) : D r1_amp_mailmsg_user_file :=
  d ← get; from_option_ub (user_files d !! file).

Section User.
Context {platform : Platform}.

(** Opens [file] on the device of priority [i]; [alloc] is [kzalloc]'s success. *)
Definition r1_amp_mailmsg_user_open (file : nat) (i : Z) (alloc : bool) : D Z :=
  if negb alloc then mret (- ENOMEM) else
  d ← get;
  if mailmsg_user_removing d then mret (- ENODEV) else
  ret ← r1_amp_mailmsg_data_gate_locked;
  if negb (ret =? 0) then mret ret else
  modify (fun d => d <| mailmsg_user_open_count := mailmsg_user_open_count d + 1 |>) ;;
  modify (fun d => d <| user_files := <[file := mk_user_file i false]> (user_files d) |>) ;;
  mret 0.

Definition r1_amp_mailmsg_user_release (file : nat) : D Z :=
  user_file ← get_user_file file;
  when (reader_claimed user_file)
    (upd_user_channel (channel user_file)
       (fun c => c <| reader_open_count := reader_open_count c - 1 |>)) ;;
  modify (fun d => d <| mailmsg_user_open_count := mailmsg_user_open_count d - 1 |>) ;;
  modify (fun d => d <| user_files := delete file (user_files d) |>) ;;
  mret 0.

Definition r1_amp_mailmsg_user_claim_reader (file : nat) : D Z :=
  user_file ← get_user_file file;
  if reader_claimed user_file then mret 0 else
  c ← get_user_channel (channel user_file);
  if negb (reader_open_count c =? 0) then mret (- EBUSY) else
  upd_user_channel (channel user_file)
    (fun c => c <| reader_open_count := reader_open_count c + 1 |>) ;;
  modify (fun d => d <| user_files :=
    <[file := user_file <| reader_claimed := true |>]> (user_files d) |>) ;;
  mret 0.

(** The critical section of one turn of the read loop. *)
Definition user_receive (i : Z) (message : mailmsg_message) : D (Z * mailmsg_message) :=
  ret ← r1_amp_mailmsg_data_gate_locked;
  if negb (ret =? 0) then mret (ret, message) else
  c ← get_user_channel i;
  on_endpoint (mailmsg_endpoint_receive (uc_priority c) message).

(** [memcpy(frame.payload, message.payload, message.length)] and the fields
    before it. *)
Definition user_frame_of (priority : Z) (m : mailmsg_message) : option mailmsg_user_frame :=
  bytes ← copy_bytes (Z.to_nat (length_ m)) 0 (payload m) (uf_payload user_frame_zero);
  Some (mk_user_frame priority (type_ m) (sequence m) (length_ m) bytes).

(** What happens around one [read(2)]: in turn [k] the rest of the system runs
    between the sampling of [rx_generation] and the lock ([re_before]), between
    the unlock and the wait ([re_after]), and while the caller sleeps
    ([re_sleep], with the result [wait_event_interruptible] gives after having
    slept: 0 when woken, -ERESTARTSYS on a signal). *)
Record read_env := mk_read_env {
  re_nonblock : bool;                                  (* O_NONBLOCK *)
  re_copy_fails : bool;                                (* copy_to_user *)
  re_before : nat -> r1_amp_cpu_on_data -> r1_amp_cpu_on_data;
  re_after : nat -> r1_amp_cpu_on_data -> r1_amp_cpu_on_data;
  re_sleep : nat -> r1_amp_cpu_on_data -> Z * r1_amp_cpu_on_data;
}.

(** [wait_event_interruptible(rx_wait, rx_generation != generation)]: the
    condition is tested first, and the caller sleeps only if it is false. *)
Definition wait_rx (k : nat) (env : read_env) (i generation : Z) : D Z :=
  c ← get_user_channel i;
  if negb (rx_generation c =? generation) then mret 0 else
  d ← get;
  let '(ret, d') := re_sleep env k d in
  put d' ;;
  mret ret.

(** One turn of the loop of [r1_amp_mailmsg_user_read]: [Some] what it returns
    with the frame copied to the caller's buffer, or [None] to go round again. *)
Definition read_turn (k : nat) (env : read_env) (i : Z) (message : mailmsg_message) :
    D (option (Z * option mailmsg_user_frame) * mailmsg_message) :=
  c ← get_user_channel i;
  let generation := rx_generation c in
  modify (re_before env k) ;;
  '(ret, message) ← user_receive i message;
  if ret =? 0 then
    c ← get_user_channel i;
    frame ← from_option_ub (user_frame_of (uc_priority c) message);
    if re_copy_fails env then mret (Some (- EFAULT, None), message)
    else mret (Some (sizeof_user_frame, Some frame), message)
  else if ret =? - EAGAIN then mret (Some (ret, None), message)
  else if (ret =? - ENOLINK) || (ret =? - ESHUTDOWN) then mret (Some (ret, None), message)
  else if negb (ret =? MAILMSG_RING_EMPTY)
  then mret (Some (mailmsg_ring_result_to_errno ret, None), message)
  else if re_nonblock env then mret (Some (- EAGAIN, None), message)
  else
    modify (re_after env k) ;;
    ret ← wait_rx k env i generation;
    if negb (ret =? 0) then mret (Some (ret, None), message) else mret (None, message).

(** The loop; [None] when the fuel runs out. *)
Fixpoint user_read_loop (fuel k : nat) (env : read_env) (i : Z) (message : mailmsg_message) :
    D (option (Z * option mailmsg_user_frame)) :=
  match fuel with
  | O => mret None
  | S fuel =>
      '(r, message) ← read_turn k env i message;
      match r with
      | Some result => mret (Some result)
      | None => user_read_loop fuel (S k) env i message
      end
  end.

Definition r1_amp_mailmsg_user_read (fuel : nat) (env : read_env) (file : nat) (count : Z) :
    D (option (Z * option mailmsg_user_frame)) :=
  user_file ← get_user_file file;
  if negb (count =? sizeof_user_frame) then mret (Some (- EINVAL, None)) else
  ret ← r1_amp_mailmsg_user_claim_reader file;
  if negb (ret =? 0) then mret (Some (ret, None)) else
  user_read_loop fuel 0 env (channel user_file) message_zero.

(** [buf] is the caller's record, or [None] when [copy_from_user] fails. *)
Definition r1_amp_mailmsg_user_write (file : nat) (buf : option mailmsg_user_frame) (count : Z) :
    D Z :=
  user_file ← get_user_file file;
  if negb (count =? sizeof_user_frame) then mret (- EINVAL) else
  match buf with
  | None => mret (- EFAULT)
  | Some frame =>
      c ← get_user_channel (channel user_file);
      if negb (uf_priority frame =? uc_priority c) || (MAILMSG_PAYLOAD_BYTES <? uf_length frame)
      then mret (- EINVAL) else
      ret ← r1_amp_mailmsg_data_gate_locked;
      '(ret, send_result) ←
        (if ret =? 0
         then on_endpoint (mailmsg_endpoint_send (uc_priority c) (uf_type frame)
                (Some (uf_payload frame)) (uf_length frame) send_result_zero)
         else mret (ret, send_result_zero));
      if (ret =? - EAGAIN) || (ret =? - ENOLINK) || (ret =? - ESHUTDOWN) then mret ret else
      if negb (ret =? 0) then
        if ret <=? MAILMSG_ENDPOINT_INVALID then mret (mailmsg_ring_result_to_errno ret)
        else mret (mailmsg_ring_result_to_errno (queue_result send_result))
      else mret sizeof_user_frame
  end.

Definition r1_amp_mailmsg_user_poll (file : nat) : D Z :=
  user_file ← get_user_file file;
  ret ← r1_amp_mailmsg_user_claim_reader file;
  if negb (ret =? 0) then mret EPOLLERR else
  st ← gets mailmsg_state;
  if state_is st R1_AMP_MAILMSG_OFFLINE || state_is st R1_AMP_MAILMSG_STOPPING
  then mret (Z.lor EPOLLHUP EPOLLERR)
  else if state_is st R1_AMP_MAILMSG_STARTING then mret EPOLLERR
  else if state_is st R1_AMP_MAILMSG_ACTIVE then
    c ← get_user_channel (channel user_file);
    r ← on_endpoint (mailmsg_endpoint_has_received (uc_priority c));
    mret (if 0 <? r then Z.lor EPOLLIN EPOLLRDNORM else 0)
  else mret 0.
End User.

(** [misc_register]/[misc_deregister] of the four devices; [result i] is
    [misc_register]'s answer for priority [i]. *)
Definition r1_amp_unregister_mailmsg_user : D unit :=
  for_each priorities (fun priority =>
    c ← get_user_channel priority;
    when (registered c) (upd_user_channel priority (fun c => c <| registered := false |>))).

Fixpoint register_from (result : Z -> Z) (ps : list Z) : D Z :=
  match ps with
  | [] => mret 0
  | priority :: ps =>
      let ret := result priority in
      if negb (ret =? 0) then r1_amp_unregister_mailmsg_user ;; mret ret else
      upd_user_channel priority (fun c => c <| registered := true |>) ;;
      register_from result ps
  end.
Definition r1_amp_register_mailmsg_user (result : Z -> Z) : D Z := register_from result priorities.
