(* ===== verification/DriverSysfs.v ===== *)
(** The sysfs entry points of the driver besides the lifecycle ones: the image
    loader, the diagnostics (status, statistics, affinity), the legacy PING
    pair, the raw doorbell, the MailMsg test attributes and the reader of the
    reverse rings. *)
From S2P Require Import Prelude Protocol Ring Notify Endpoint DriverState DriverLifecycle.

Section Sysfs.
Context {platform : Platform}.

(** * The image loader *)

(** [memcpy(carveout + off, buf, count)] inside the image area. *)
Definition memcpy_at (off : Z) (buf dst : list Z) : option (list Z) :=
  if (0 <=? off) && (off + Z.of_nat (length buf) <=? Z.of_nat (length dst))
  then Some (take (Z.to_nat off) dst ++ buf ++ drop (Z.to_nat off + length buf) dst)
  else None.

Definition image_write (buf : list Z) (off : Z) : D Z :=
  let count := Z.of_nat (length buf) in
  d ← get;
  if mailmsg_user_removing d then mret (- ENODEV) else
  if cpu_on_attempted d then mret (- EBUSY) else
  if negb (off =? image_written d) then mret (- ESPIPE) else
  if u64 (image_size d - image_written d) <? count then mret (- EFBIG) else
  img ← from_option_ub (memcpy_at off buf (image (carveout d)));
  modify (fun d => d <| carveout := carveout d <| image := img |> |>
                     <| image_written := u64 (image_written d + count) |>) ;;
  mret count.

(** * Observations written by CPU3 *)

(** CPU3 runs concurrently: before the [k]-th read of shared memory it has
    taken the memory through [peer k]. *)
Definition peer_read {A} (peer : nat -> carveout_mem -> carveout_mem) (k : nat)
    (f : carveout_mem -> A) : D A :=
  modify (fun d => d <| carveout := peer k (carveout d) |>) ;; gets (fun d => f (carveout d)).

(** The TX-full snapshot [status_show] takes: (valid, the line as read). *)
Definition read_tx_full (peer : nat -> carveout_mem -> carveout_mem) :
    D (bool * mailmsg_tx_full_observation) :=
  commit_first ← peer_read peer 0 (fun c => txo_commit (tx_full_observation c));
  mag ← peer_read peer 1 (fun c => txo_magic (tx_full_observation c));
  count ← peer_read peer 2 (fun c => full_count (tx_full_observation c));
  prio ← peer_read peer 3 (fun c => last_priority (tx_full_observation c));
  typ ← peer_read peer 4 (fun c => last_type (tx_full_observation c));
  res ← peer_read peer 5 (fun c => last_result (tx_full_observation c));
  commit_second ← peer_read peer 6 (fun c => txo_commit (tx_full_observation c));
  commit_inv ← peer_read peer 7 (fun c => txo_commit_inv (tx_full_observation c));
  let valid := (mag =? MAILMSG_TX_FULL_OBSERVATION_MAGIC) && negb (commit_first =? 0) &&
    (commit_first =? commit_second) && (commit_inv =? u32_not commit_second) in
  mret (valid, mk_tx_full_observation mag commit_second commit_inv count prio typ res).

Definition R1_AMP_MAILMSG_WORKER_OBSERVATION_MAGIC : Z := 0x4d455654.
Definition read_worker (peer : nat -> carveout_mem -> carveout_mem) :
    D (bool * r1_amp_mailmsg_worker_observation_line) :=
  commit_first ← peer_read peer 8 (fun c => wo_commit (worker_observation c));
  mag ← peer_read peer 9 (fun c => wo_magic (worker_observation c));
  irq ← peer_read peer 10 (fun c => wo_irq_count (worker_observation c));
  wake ← peer_read peer 11 (fun c => wo_wake_count (worker_observation c));
  drain ← peer_read peer 12 (fun c => wo_drain_count (worker_observation c));
  msg ← peer_read peer 13 (fun c => wo_message_count (worker_observation c));
  empty ← peer_read peer 14 (fun c => wo_empty_wake_count (worker_observation c));
  last ← peer_read peer 15 (fun c => wo_last_pending (worker_observation c));
  now ← peer_read peer 16 (fun c => wo_pending_now (worker_observation c));
  prio ← peer_read peer 17 (fun c => wo_last_priority (worker_observation c));
  commit_second ← peer_read peer 18 (fun c => wo_commit (worker_observation c));
  commit_inv ← peer_read peer 19 (fun c => wo_commit_inv (worker_observation c));
  let valid := (mag =? R1_AMP_MAILMSG_WORKER_OBSERVATION_MAGIC) && negb (commit_first =? 0) &&
    (commit_first =? commit_second) && (commit_inv =? u32_not commit_second) in
  mret (valid, mk_worker_observation mag commit_second commit_inv irq wake drain msg empty
                 last now prio).

(** The values [status_show] prints, besides plain fields of [data]. *)
Record status_report := mk_status_report {
  st_status_words : list Z;
  st_observation : r1_amp_mbox_observation_line;
  st_tx_full : bool * mailmsg_tx_full_observation;
  st_worker : bool * r1_amp_mailmsg_worker_observation_line;
  st_a2b_now : Z;
  st_affinity : string;
  st_state : string;
}.
Definition status_show (peer : nat -> carveout_mem -> carveout_mem) : D status_report :=
  words ← peer_read peer 20 status_words;
  obs ← peer_read peer 21 mbox_observation;
  tx_full ← read_tx_full peer;
  worker ← read_worker peer;
  a2b ← on_mb (readl_relaxed 0 R1_AMP_MBOX_A2B_STATUS);
  d ← get;
  mret (mk_status_report words obs tx_full worker a2b
    (if affinity_queried d then r1_amp_psci_state_name (affinity_state d) else "not-queried")
    (r1_amp_mailmsg_state_name (mailmsg_state d))).

(** [mailmsg_stats_show]: the counters and both depths of each priority. *)
Fixpoint stats_rows (ps : list Z) : D (list (mailmsg_priority_stats * Z * Z)) :=
  match ps with
  | [] => mret []
  | priority :: ps =>
      d ← get;
      s ← from_option_ub (zget (stats (mailmsg_endpoint_ d)) priority);
      '(tx_depth, rx_depth) ←
        match tx (mailmsg_endpoint_ d), rx (mailmsg_endpoint_ d) with
        | Some t, Some r =>
            a ← on_block (mailmsg_ring_count (Some (mk_ring_ptr t priority))
                            (Some mailmsg_linux_memory_ops));
            b ← on_block (mailmsg_ring_count (Some (mk_ring_ptr r priority))
                            (Some mailmsg_linux_memory_ops));
            mret (a, b)
        | _, _ => mret (-1, -1)
        end;
      rest ← stats_rows ps;
      mret ((s, tx_depth, rx_depth) :: rest)
  end.
Definition mailmsg_stats_show : D (list (mailmsg_priority_stats * Z * Z)) := stats_rows priorities.

(** The state printed, or the negative errno. *)
Definition affinity_state_show (env : kenv) : D (Z + Z) :=
  match psci_affinity_info env with
  | None => mret (inr (- EOPNOTSUPP))
  | Some _ => state ← r1_amp_refresh_affinity_locked env; mret (inl state)
  end.

(** * The legacy PING pair and the raw doorbell *)

(** [++data->next_sequence], and once more when it is zero. *)
Definition next_sequence64 (n : Z) : Z :=
  let s := u64 (n + 1) in if s =? 0 then u64 (s + 1) else s.

Definition ping_store (buf : string) (count : Z) : D Z :=
  match kstrtou32 buf with
  | inr err => mret err
  | inl value =>
      d ← get;
      if negb (state_is (mailmsg_state d) R1_AMP_MAILMSG_UNARMED) then mret (- EOPNOTSUPP) else
      ret ← r1_amp_mailmsg_data_gate_locked;
      if negb (ret =? 0) then mret ret else
      let seq := next_sequence64 (d_next_sequence d) in
      modify (fun d => d <| d_next_sequence := seq |> <| carveout := carveout d
        <| req_payload := mk_payload_line R1_AMP_CMD_PING value 0 0 |>
        <| req_commit := mk_commit_line seq (u64_not seq) |>
        <| mbox_observation := observation_zero |> |>) ;;
      ret ← on_mb (r1_amp_mbox_direct_send_locked R1_AMP_MBOX_TX_CHANNEL R1_AMP_CMD_PING value);
      if ret <? 0 then mret ret else
      s ← on_mb (readl_relaxed 0 R1_AMP_MBOX_A2B_STATUS);
      c ← on_mb (readl_relaxed 0 (R1_AMP_MBOX_A2B_CMD R1_AMP_MBOX_TX_CHANNEL));
      v ← on_mb (readl_relaxed 0 (R1_AMP_MBOX_A2B_DAT R1_AMP_MBOX_TX_CHANNEL));
      modify (fun d => d <| mbox_a2b_at_tx := (s, c, v) |>) ;;
      mret count
  end.

(** What [response_show] prints: the request and response sequences, the
    validity and the payload when valid. *)
Definition response_show : D (Z * Z * bool * r1_amp_payload_line) :=
  d ← get;
  let c := rsp_commit (carveout d) in
  let valid := negb (cl_sequence c =? 0) && (cl_sequence_inv c =? u64_not (cl_sequence c)) in
  mret (d_next_sequence d, cl_sequence c, valid,
        if valid then rsp_payload (carveout d) else payload_line_zero).

Definition doorbell_store (buf : string) (count : Z) : D Z :=
  match sscanf_u_u buf with
  | None => mret (- EINVAL)
  | Some (index, value) =>
      if R1_AMP_MBOX_CHANNELS <=? index then mret (- EINVAL) else
      ret ← r1_amp_mailmsg_data_gate_locked;
      if negb (ret =? 0) then mret ret else
      ret ← on_mb (r1_amp_mbox_direct_send_locked index (Z.lor 0xa2b00000 index) value);
      if ret <? 0 then mret ret else mret count
  end.

(** * The MailMsg test attributes *)

Definition mailmsg_linux_ring_push (ring : ring_ptr) (message : mailmsg_message)
    (corrupt_payload : bool) : M mailmsg_shared Z :=
  r ← load_ring ring;
  let prod := producer r in
  let next := u32 (prod + 1) mod MAILMSG_RING_SLOTS in
  if (generation message =? 0) || (sequence message =? 0) ||
     (MAILMSG_PAYLOAD_BYTES <? length_ message)
  then mret (- EINVAL) else
  modify (mailmsg_linux_acquire (RegConsumer ring)) ;;
  r ← load_ring ring;
  if next =? consumer r then mret (- ENOSPC) else
  store_slot ring prod (message <| commit := 0 |>) ;;
  s ← load_slot ring prod;
  store_slot ring prod (s <| crc32 := mailmsg_frame_crc32 s |>) ;;
  when corrupt_payload
    (s ← load_slot ring prod;
     store_slot ring prod (s <| payload := zupd 0 (fun b => Z.lxor b 0xff) (payload s) |>)) ;;
  modify (mailmsg_linux_publish (RegSlot ring prod)) ;;
  s ← load_slot ring prod;
  store_slot ring prod (s <| commit := sequence message |>) ;;
  modify (mailmsg_linux_publish (RegCommit ring prod)) ;;
  r ← load_ring ring;
  store_ring ring (r <| producer := next |>) ;;
  modify (mailmsg_linux_publish (RegProducer ring)) ;;
  mret 0.

Definition mailmsg_test_enqueue_locked (priority value : Z) (corrupt_payload : bool) : D Z :=
  on_block (modify (mailmsg_linux_acquire RegShared)) ;;
  d ← get;
  let sh := c_shared (carveout d) in
  if negb (magic sh =? MAILMSG_PROTOCOL_MAGIC) || negb (version sh =? MAILMSG_PROTOCOL_VERSION) ||
     negb (shared_generation sh =? ep_generation (mailmsg_endpoint_ d))
  then mret (- EPROTO) else
  modify (fun d => d <| mailmsg_endpoint_ := mailmsg_endpoint_ d
    <| next_sequence := next_seq (next_sequence (mailmsg_endpoint_ d)) |> |>) ;;
  seq ← gets (fun d => next_sequence (mailmsg_endpoint_ d));
  let request := mk_message (ep_generation (mailmsg_endpoint_ d)) MAILMSG_MSG_PING seq 4
    (mailmsg_store_payload_u32 (payload message_zero) 0 value) 0 0 in
  on_block (mailmsg_linux_ring_push (mk_ring_ptr LinuxToCpu3 priority) request corrupt_payload).

Definition mailmsg_send_ping (buf : string) (count : Z) (corrupt_payload : bool) : D Z :=
  match sscanf_u_u buf with
  | None => mret (- EINVAL)
  | Some (priority, value) =>
      if MAILMSG_PRIORITY_COUNT <=? priority then mret (- EINVAL) else
      ret ← r1_amp_mailmsg_data_gate_locked;
      if negb (ret =? 0) then mret ret else
      if corrupt_payload then
        ret ← mailmsg_test_enqueue_locked priority value true;
        if negb (ret =? 0) then mret ret else
        on_mb (mailmsg_notify_locked priority) ;; mret count
      else
        let bytes := mailmsg_store_payload_u32 [0; 0; 0; 0] 0 value in
        '(ret, send_result) ← on_endpoint (mailmsg_endpoint_send priority MAILMSG_MSG_PING
            (Some bytes) 4 send_result_zero);
        if negb (ret =? 0) then
          mret (if ret <=? MAILMSG_ENDPOINT_INVALID then mailmsg_ring_result_to_errno ret
                else mailmsg_ring_result_to_errno (queue_result send_result))
        else mret count
  end.
Definition mailmsg_ping_store (buf : string) (count : Z) : D Z := mailmsg_send_ping buf count false.
Definition mailmsg_crc_inject_store (buf : string) (count : Z) : D Z :=
  mailmsg_send_ping buf count true.

Definition mailmsg_notify_inject_store (buf : string) (count : Z) : D Z :=
  if sysfs_streq buf "clear" then
    modify (fun d => d <| mb := mb d <| notify_inject_remaining := 0 |> |>) ;; mret count
  else
  match sscanf_u_d_u buf with
  | None => mret (- EINVAL)
  | Some (priority, injected_errno, remaining) =>
      if (MAILMSG_PRIORITY_COUNT <=? priority) || (0 <=? injected_errno) ||
         (injected_errno <? - MAX_ERRNO) || (remaining =? 0) || (1000 <? remaining)
      then mret (- EINVAL) else
      ret ← r1_amp_mailmsg_data_gate_locked;
      if negb (ret =? 0) then mret ret else
      modify (fun d => d <| mb := mb d <| notify_inject_priority := priority |>
        <| notify_inject_errno := injected_errno |> <| notify_inject_remaining := remaining |> |>) ;;
      mret count
  end.

Definition mailmsg_queue_push_store (buf : string) (count : Z) : D Z :=
  match sscanf_u_u buf with
  | None => mret (- EINVAL)
  | Some (priority, value) =>
      if MAILMSG_PRIORITY_COUNT <=? priority then mret (- EINVAL) else
      ret ← r1_amp_mailmsg_data_gate_locked;
      ret ← (if ret =? 0 then mailmsg_test_enqueue_locked priority value false else mret ret);
      mret (if ret =? 0 then count else ret)
  end.

(** * Draining the reverse rings *)
Inductive response_line :=
| RespError (priority ret : Z)
| RespFeedback (priority type sequence peer_sequence status : Z)
| RespValue (priority type sequence value : Z).

(** One line of [mailmsg_response_show] for a received frame. *)
Definition response_of (priority : Z) (response : mailmsg_message) : response_line :=
  if ((type_ response =? MAILMSG_MSG_ACK) || (type_ response =? MAILMSG_MSG_NACK)) &&
     (MAILMSG_FEEDBACK_BYTES <=? length_ response)
  then RespFeedback priority (type_ response) (sequence response)
         (mailmsg_payload_u32 (payload response) MAILMSG_FEEDBACK_SEQUENCE_OFFSET)
         (s32 (mailmsg_payload_u32 (payload response) MAILMSG_FEEDBACK_STATUS_OFFSET))
  else RespValue priority (type_ response) (sequence response)
         (if 4 <=? length_ response then mailmsg_payload_u32 (payload response) 0 else 0).

Inductive response_text :=
| RespNotReady
| RespClosed (reason : string)
| RespLines (lines : list response_line).

Definition closed_reason (st : r1_amp_mailmsg_session_state) : string :=
  match st with
  | R1_AMP_MAILMSG_STARTING | R1_AMP_MAILMSG_STOPPING => "lifecycle-pending"
  | R1_AMP_MAILMSG_START_TIMEOUT | R1_AMP_MAILMSG_STOP_TIMEOUT => "lifecycle-timeout"
  | R1_AMP_MAILMSG_OFFLINE => "offline"
  | _ => "unarmed"
  end.

(** Where the reader stands between two receives: the priorities it has still to
    drain, the one of the [while] loop first, the local [response] and what is
    in the buffer so far; or its result.  CPU3 and the mailbox callback do not
    take [data->lock], so they can run whenever the reader stands here. *)
Inductive response_pc :=
| ShowDrain (ps : list Z) (response : mailmsg_message) (lines : list response_line)
| ShowDone (text : response_text).

(** From the lock to the first receive. *)
Definition response_begin : D response_pc :=
  d ← get;
  match rx (mailmsg_endpoint_ d) with
  | None => mret (ShowDone RespNotReady)
  | Some _ =>
      ret ← r1_amp_mailmsg_data_gate_locked;
      if negb (ret =? 0) then mret (ShowDone (RespClosed (closed_reason (mailmsg_state d)))) else
      mret (ShowDrain priorities message_zero [])
  end.
(** One evaluation of the loop's condition, with the body behind it. *)
Definition response_turn (ps : list Z) (response : mailmsg_message) (lines : list response_line) : D response_pc :=
  match ps with
  | [] => mret (ShowDone (RespLines lines))
  | priority :: ps' =>
      '(pop_ret, response) ← on_endpoint (mailmsg_endpoint_receive priority response);
      if pop_ret =? MAILMSG_RING_EMPTY then mret (ShowDrain ps' response lines) else
      if negb (pop_ret =? 0) then
        let lines := lines ++ [RespError priority pop_ret] in
        if (pop_ret =? MAILMSG_RING_INCOMPLETE) || (pop_ret <=? MAILMSG_ENDPOINT_INVALID)
        then mret (ShowDrain ps' response lines)
        else mret (ShowDrain ps response lines)
      else mret (ShowDrain ps response (lines ++ [response_of priority response]))
  end.

(** The whole reader: [others k] is what has happened to the driver's data
    before the [k]-th receive. *)
Fixpoint response_loop (others : nat -> r1_amp_cpu_on_data -> r1_amp_cpu_on_data) (k fuel : nat) (pc : response_pc) :
    D (option response_text) :=
  match pc, fuel with
  | ShowDone text, _ => mret (Some text)
  | ShowDrain _ _ _, O => mret None
  | ShowDrain ps response lines, S fuel =>
      modify (others k) ;;
      pc ← response_turn ps response lines;
      response_loop others (S k) fuel pc
  end.
Definition mailmsg_response_show (others : nat -> r1_amp_cpu_on_data -> r1_amp_cpu_on_data) (fuel : nat) :
    D (option response_text) :=
  pc ← response_begin; response_loop others 0 fuel pc.
End Sysfs.
