(* ===== verification/DriverProbe.v ===== *)
(** [r1_amp_cpu_on_probe]: the launch geometry, the initial driver data, and
    the acquisition and release of the kernel objects the driver holds. *)
From S2P Require Import Prelude Protocol Ring Notify Endpoint DriverState DriverUser.

(** The device tree's launch properties. *)
Record launch := mk_launch {
  la_mpidr : Z; la_entry : Z; la_image_size : Z; la_status_offset : Z;
}.

(** The answers of the kernel to one probe. *)
Record probe_env := mk_probe_env {
  pe_launch : option launch;               (* all four properties readable *)
  pe_memory : option (option (Z * Z));     (* phandle; reserved memory: base, size *)
  pe_alloc : bool;                         (* devm_kzalloc *)
  pe_memremap : Z;                         (* 0, or PTR_ERR of devm_memremap *)
  pe_map_regs : Z -> (Z -> Z) + Z;         (* the controller's registers, or an errno *)
  pe_request_channel : Z -> Z;             (* 0, or PTR_ERR of mbox_request_channel_byname *)
  pe_create_image : Z;                     (* sysfs_create_bin_file *)
  pe_create_file : string -> Z;            (* device_create_file *)
  pe_misc_register : Z -> Z;               (* misc_register *)
}.

(** [!image_size || image_size > status_offset ||
     status_offset > rmem->size - R1_AMP_STATE_SIZE ||
     entry < rmem->base || entry >= rmem->base + rmem->size] *)
Definition invalid_geometry (la : launch) (base size : Z) : bool :=
  (la_image_size la =? 0) || (la_status_offset la <? la_image_size la) ||
  (u64 (size - R1_AMP_STATE_SIZE) <? la_status_offset la) ||
  (la_entry la <? base) || (u64 (base + size) <=? la_entry la).

Definition mbox_channel_zero : r1_amp_mbox_channel :=
  mk_mbox_channel 0 0 0 0 0 0 0 0 0 0 0 0 0 0.
Definition mbox_state_zero : mbox_state :=
  mk_mbox_state (replicate 4 mbox_channel_zero) [fun _ => 0] 0 0 0 false 0.

(** The carveout as probe maps it: its contents are not initialised before
    [start]; the image area spans up to the status words. *)
Definition carveout_init (status_offset : Z) : carveout_mem :=
  mk_carveout (replicate (Z.to_nat status_offset) 0) [0; 0] payload_line_zero commit_line_zero
    payload_line_zero commit_line_zero observation_zero tx_full_zero worker_observation_zero
    shared_zero.

(** [data] after [devm_kzalloc] and the assignments of probe. *)
Definition probe_data (la : launch) : r1_amp_cpu_on_data :=
  mk_data (mbox_state_zero <| notify_inject_errno := - EIO |>) (0, 0, 0)
    (carveout_init (la_status_offset la)) (la_mpidr la) (la_entry la) (la_image_size la) 0
    0 (- EAGAIN) false false false R1_AMP_MAILMSG_UNARMED None false None 0 0
    0 0 (- EAGAIN) 0 0 (- EAGAIN) (- EAGAIN) 0 0 endpoint_zero
    (map (fun priority => mk_user_channel priority 0 0 false) priorities) 0 false ∅ [].

(** The data and the kernel objects held for it. *)
Record probe_state := mk_probe_state {
  pdata : r1_amp_cpu_on_data;
  chans : list bool;             (* mailbox channels requested *)
  image_attr : bool;             (* the binary attribute *)
  attr_files : list string;      (* device attributes, oldest first *)
}.
#[export] Instance eta_probe_state : Eta probe_state := fun s =>
  mk_probe_state (pdata s) (chans s) (image_attr s) (attr_files s).

Definition on_pdata {A} (m : D A) : M probe_state A :=
  zoom pdata (fun d s => s <| pdata := d |>) m.

(** [r1_amp_map_mbox_regs], for the controllers listed. *)
Fixpoint r1_amp_map_mbox_regs (env : probe_env) (ctls : list Z) : M probe_state Z :=
  match ctls with
  | [] => mret 0
  | ctl :: ctls =>
      match pe_map_regs env ctl with
      | inr err => mret err
      | inl regs =>
          on_pdata (modify (fun d => d <| mb := mb d <| mbox_regs := zset ctl regs (mbox_regs (mb d)) |> |>)) ;;
          r1_amp_map_mbox_regs env ctls
      end
  end.

Definition r1_amp_free_mbox_channels : M probe_state unit :=
  for_each priorities (fun i =>
    s ← get; held ← from_option_ub (zget (chans s) i);
    when held (modify (fun s => s <| chans := zset i false (chans s) |>))).

Definition init_channel (i : Z) (c : r1_amp_mbox_channel) : r1_amp_mbox_channel :=
  c <| mc_index := i |> <| controller := i / R1_AMP_MBOX_CHANNELS_PER_CONTROLLER |>
    <| controller_channel := i mod R1_AMP_MBOX_CHANNELS_PER_CONTROLLER |>
    <| rx_count := 0 |> <| tx_ret := - EAGAIN |> <| mc_notify_result := - EAGAIN |>.

Fixpoint request_from (env : probe_env) (idxs : list Z) : M probe_state Z :=
  match idxs with
  | [] =>
      on_pdata (modify (fun d => d <| mb := mb d <| mailmsg_last_notify_result := - EAGAIN |> |>)) ;;
      mret 0
  | i :: idxs =>
      on_pdata (on_mb (upd_channel i (init_channel i))) ;;
      let ret := pe_request_channel env i in
      if negb (ret =? 0) then
        modify (fun s => s <| chans := zset i false (chans s) |>) ;;
        r1_amp_free_mbox_channels ;;
        mret ret
      else
        modify (fun s => s <| chans := zset i true (chans s) |>) ;;
        request_from env idxs
  end.
Definition r1_amp_request_mbox_channels (env : probe_env) : M probe_state Z :=
  request_from env priorities.

(** What sysfs holds for the device: [attr_files] is the kernel's list, oldest
    first.  Removing a file that is not there does nothing. *)
Definition device_create_file (env : probe_env) (f : string) : M probe_state Z :=
  let ret := pe_create_file env f in
  when (ret =? 0) (modify (fun s => s <| attr_files := attr_files s ++ [f] |>)) ;;
  mret ret.
Definition device_remove_file (f : string) : M probe_state unit :=
  modify (fun s => s <| attr_files := filter (fun g => g <> f) (attr_files s) |>).

(** The error labels, and the statements behind each: a [goto] runs them from
    its label to the end. *)
Inductive err_label :=
| err_mailmsg_response | err_mailmsg_queue_push | err_mailmsg_notify_inject | err_mailmsg_crc_inject
| err_mailmsg_stop | err_mailmsg_ping | err_doorbell | err_response | err_ping | err_rearm | err_start
| err_affinity_state | err_mailmsg_stats | err_status | err_image.
#[export] Instance err_label_eq_dec : EqDecision err_label.
Proof. solve_decision. Defined.

Definition unwind : list (err_label * M probe_state unit) :=
  [(err_mailmsg_response, device_remove_file "mailmsg_response");
   (err_mailmsg_queue_push, device_remove_file "mailmsg_queue_push");
   (err_mailmsg_notify_inject, device_remove_file "mailmsg_notify_inject");
   (err_mailmsg_crc_inject, device_remove_file "mailmsg_crc_inject");
   (err_mailmsg_stop, device_remove_file "mailmsg_stop");
   (err_mailmsg_ping, device_remove_file "mailmsg_ping");
   (err_doorbell, device_remove_file "doorbell");
   (err_response, device_remove_file "response");
   (err_ping, device_remove_file "ping");
   (err_rearm, device_remove_file "rearm");
   (err_start, device_remove_file "start");
   (err_affinity_state, device_remove_file "affinity_state");
   (err_mailmsg_stats, device_remove_file "mailmsg_stats");
   (err_status, device_remove_file "status");
   (err_image, modify (fun s => s <| image_attr := false |>) ;; r1_amp_free_mbox_channels)].
Fixpoint run_from (l : err_label) (chain : list (err_label * M probe_state unit)) : M probe_state unit :=
  match chain with
  | [] => mret tt
  | (l', stmt) :: chain' => if decide (l' = l) then for_each (map snd chain) id else run_from l chain'
  end.
(** [goto label], which ends in [return ret]. *)
Definition probe_goto (l : err_label) (ret : Z) : M probe_state Z := run_from l unwind ;; mret ret.

(** The attributes in creation order, each with the label its refusal leads to. *)
Definition creations : list (string * err_label) :=
  [("status", err_image); ("mailmsg_stats", err_status); ("affinity_state", err_mailmsg_stats);
   ("start", err_affinity_state); ("rearm", err_start); ("ping", err_rearm); ("response", err_ping);
   ("doorbell", err_response); ("mailmsg_ping", err_doorbell); ("mailmsg_stop", err_mailmsg_ping);
   ("mailmsg_crc_inject", err_mailmsg_stop); ("mailmsg_notify_inject", err_mailmsg_crc_inject);
   ("mailmsg_queue_push", err_mailmsg_notify_inject); ("mailmsg_response", err_mailmsg_queue_push)]%string.
Fixpoint create_files (env : probe_env) (steps : list (string * err_label)) (next : M probe_state Z) :
    M probe_state Z :=
  match steps with
  | [] => next
  | (f, l) :: steps =>
      ret ← device_create_file env f;
      if negb (ret =? 0) then probe_goto l ret else create_files env steps next
  end.

(** The part of probe that follows the allocation of [data]. *)
Definition probe_bind (env : probe_env) : M probe_state Z :=
  ret ← r1_amp_map_mbox_regs env [0];
  if negb (ret =? 0) then mret ret else
  ret ← r1_amp_request_mbox_channels env;
  if negb (ret =? 0) then mret ret else
  if negb (pe_create_image env =? 0) then mret (pe_create_image env) else
  modify (fun s => s <| image_attr := true |>) ;;
  create_files env creations (
    ret ← on_pdata (r1_amp_register_mailmsg_user (pe_misc_register env));
    if negb (ret =? 0) then probe_goto err_mailmsg_response ret else mret 0).

(** The result of probe and what it leaves behind, if it got as far as [data]. *)
Definition r1_amp_cpu_on_probe (env : probe_env) : option (Z * option probe_state) :=
  match pe_launch env with
  | None => Some (- EINVAL, None)
  | Some la =>
      if negb (la_mpidr la =? R1_AMP_A55_CORE3_MPIDR) then Some (- EINVAL, None) else
      match pe_memory env with
      | None => Some (- EINVAL, None)
      | Some None => Some (- ENODEV, None)
      | Some (Some (base, size)) =>
          if invalid_geometry la base size then Some (- EINVAL, None) else
          if negb (pe_alloc env) then Some (- ENOMEM, None) else
          if negb (pe_memremap env =? 0) then Some (pe_memremap env, None) else
          '(ret, s) ← probe_bind env
            (mk_probe_state (probe_data la) [false; false; false; false] false []);
          Some (ret, Some s)
      end
  end.
