(* ===== verification/DriverSpec.v ===== *)
(** The driver as a state machine: its events, the reachable states, and what
    holds in all of them whatever CPU3 writes into the shared memory. *)
From S2P Require Import Prelude Protocol Ring Notify Endpoint Frame DriverState DriverLifecycle DriverUser DriverSysfs DriverProbe.

(** * Views of the driver data *)

(** What the lifecycle plane owns. *)
Definition lview (d : r1_amp_cpu_on_data) :=
  (mailmsg_state d, affinity_work d, lifecycle_timeout_work d, session_generation d,
   peer_generation d, session_result d, cpu_on_ret d, cpu_on_attempted d,
   mailmsg_user_removing d, stop_request_sequence d, stop_reply_type d,
   ep_key (mailmsg_endpoint_ d)).
(** What the character devices own. *)
Definition uview (d : r1_amp_cpu_on_data) :=
  (user_files d, mailmsg_user_open_count d, map (fun c => (uc_priority c, reader_open_count c)) (mailmsg_user d)).
(** What the image loader owns. *)
Definition iview (d : r1_amp_cpu_on_data) := (image_written d, image_size d).

Lemma map_zupd_same {A B} (f : A -> B) (g : A -> A) i l :
  (forall x, f (g x) = f x) -> map f (zupd i g l) = map f l.
Proof.
  intros H. unfold zupd. destruct (zget l i) as [x|] eqn:E; [|done].
  unfold zget in E. unfold zset. destruct (0 <=? i); [|done].
  change (map f) with (fmap (M := list) f). rewrite list_fmap_insert, H.
  apply list_insert_id. by rewrite list_lookup_fmap, E.
Qed.

Lemma wake_reader_views priority d :
  lview (wake_reader priority d) = lview d /\ uview (wake_reader priority d) = uview d /\
  iview (wake_reader priority d) = iview d.
Proof.
  split; [done|]. split; [|done]. unfold uview, wake_reader. cbn.
  f_equal. by apply map_zupd_same.
Qed.
Lemma wake_all_views d :
  lview (wake_all_readers d) = lview d /\ uview (wake_all_readers d) = uview d /\
  iview (wake_all_readers d) = iview d.
Proof.
  unfold wake_all_readers. revert d. induction priorities as [|p l IH]; intros d; [done|].
  cbn [fold_left]. destruct (IH (wake_reader p d)) as (-> & -> & ->). apply wake_reader_views.
Qed.
(** A view no single wake-up changes. *)
Lemma wake_all_keeps {T} (v : r1_amp_cpu_on_data -> T) d :
  (forall i d, v (wake_reader i d) = v d) -> v (wake_all_readers d) = v d.
Proof.
  intros H. unfold wake_all_readers. revert d. induction priorities as [|p l IH]; intros d; [done|].
  cbn [fold_left]. by rewrite IH, H.
Qed.

#[global] Opaque wake_all_readers.

(** A view that does not look into the mailbox. *)
Class MbView {T} (v : r1_amp_cpu_on_data -> T) : Prop := dv_mb d b : v (d <| mb := b |>) = v d.

(** A view that the data plane cannot change: shared memory, the mailbox, the
    endpoint's counters and the legacy PING's bookkeeping. *)
Class DataView {T} (v : r1_amp_cpu_on_data -> T) : Prop := {
  #[global] dv_mb_view :: MbView v;
  dv_carveout d c : v (d <| carveout := c |>) = v d;
  dv_endpoint d e : ep_key e = ep_key (mailmsg_endpoint_ d) -> v (d <| mailmsg_endpoint_ := e |>) = v d;
  dv_sequence d n : v (d <| d_next_sequence := n |>) = v d;
  dv_at_tx d x : v (d <| mbox_a2b_at_tx := x |>) = v d;
}.
#[export] Instance lview_data : DataView lview.
Proof. split; try done. intros d e H. unfold lview. cbn. by rewrite H. Qed.
#[export] Instance uview_data : DataView uview.
Proof. by split. Qed.
#[export] Instance iview_data : DataView iview.
Proof. by split. Qed.

Section DataPres.
Context {T : Type} (v : r1_amp_cpu_on_data -> T).
Lemma pres_on_mb `{!MbView v} {A} (m : M mbox_state A) : pres v (on_mb m).
Proof. apply pres_zoom. intros. apply dv_mb. Qed.
Context `{!DataView v}.
Lemma pres_on_block {A} (m : M mailmsg_shared A) : pres v (on_block m).
Proof. apply pres_zoom. intros. apply dv_carveout. Qed.
Lemma pres_on_endpoint {A} (m : M (ep_world mbox_state) A) :
  pres (fun w => ep_key (ep w)) m -> pres v (on_endpoint m).
Proof.
  intros Hm d a d'. unfold on_endpoint, zoom.
  destruct (m (endpoint_world d)) as [[b w]|] eqn:E; [|done]. intros [= -> <-].
  unfold endpoint_back. rewrite dv_mb, dv_carveout. apply dv_endpoint. by apply Hm in E.
Qed.
End DataPres.
#[export] Hint Extern 2 (pres _ (on_mb _)) => apply pres_on_mb; typeclasses eauto : pres.
#[export] Hint Extern 2 (pres _ (on_block _)) => apply pres_on_block; typeclasses eauto : pres.
#[export] Hint Extern 4 (pres _ (modify _)) => apply pres_modify; intros ?;
  first [apply dv_mb | apply dv_carveout | apply dv_sequence | apply dv_at_tx
        | apply dv_endpoint; reflexivity] : pres.
#[export] Hint Extern 2 (pres _ (on_endpoint _)) =>
  apply pres_on_endpoint; first [typeclasses eauto | apply pres_send | apply pres_receive | apply pres_has_received] : pres.

Section Operations.
Context {platform : Platform}.

Lemma pres_gate {T} (v : r1_amp_cpu_on_data -> T) : pres v r1_amp_mailmsg_data_gate_locked.
Proof. apply pres_gets. Qed.
#[local] Hint Resolve pres_gate : pres.

(** ** The data plane leaves the lifecycle alone *)
Lemma pres_user_receive {T} (v : r1_amp_cpu_on_data -> T) `{!DataView v} i buf :
  pres v (user_receive i buf).
Proof. unfold user_receive, get_user_channel. pres_auto. Qed.
Lemma pres_user_write {T} (v : r1_amp_cpu_on_data -> T) `{!DataView v} file buf count :
  pres v (r1_amp_mailmsg_user_write file buf count).
Proof. unfold r1_amp_mailmsg_user_write, get_user_file, get_user_channel. pres_auto. Qed.
Lemma lview_claim file : pres lview (r1_amp_mailmsg_user_claim_reader file).
Proof.
  unfold r1_amp_mailmsg_user_claim_reader, get_user_file, get_user_channel, upd_user_channel,
    get_user_channel. pres_auto.
Qed.
Lemma iview_claim file : pres iview (r1_amp_mailmsg_user_claim_reader file).
Proof.
  unfold r1_amp_mailmsg_user_claim_reader, get_user_file, get_user_channel, upd_user_channel,
    get_user_channel. pres_auto.
Qed.
#[local] Hint Resolve lview_claim iview_claim : pres.
Lemma lview_poll file : pres lview (r1_amp_mailmsg_user_poll file).
Proof. unfold r1_amp_mailmsg_user_poll, get_user_file, get_user_channel. pres_auto. Qed.
Lemma lview_open file i alloc : pres lview (r1_amp_mailmsg_user_open file i alloc).
Proof. unfold r1_amp_mailmsg_user_open. pres_auto. Qed.
Lemma lview_release file : pres lview (r1_amp_mailmsg_user_release file).
Proof.
  unfold r1_amp_mailmsg_user_release, get_user_file, upd_user_channel, get_user_channel. pres_auto.
Qed.
Lemma lview_image_write buf off : pres lview (image_write buf off).
Proof. unfold image_write. pres_auto. Qed.
(** The legacy [ping] entry asks for UNARMED and then for an open data gate:
    no state passes both. *)
Lemma ping_store_refused buf count d :
  exists err, ping_store buf count d = Some (err, d) /\
    (err = - EOPNOTSUPP \/ err = - ENOLINK \/ kstrtou32 buf = inr err).
Proof.
  unfold ping_store. destruct (kstrtou32 buf) as [value|err]; [|exists err; tauto].
  step. destruct (mailmsg_state d) eqn:E; cbn [state_is negb]; try (eexists; split; [reflexivity|tauto]).
  exists (- ENOLINK). split; [|tauto].
  assert (G : r1_amp_mailmsg_data_gate_locked d = Some (- ENOLINK, d)).
  { unfold r1_amp_mailmsg_data_gate_locked, gets. by rewrite E. }
  change (state_is R1_AMP_MAILMSG_UNARMED R1_AMP_MAILMSG_UNARMED) with true. cbn [negb].
  by rewrite (run_bind_some _ _ _ _ _ G).
Qed.
End Operations.

(** * Events

    One event is one critical section of the driver (one holder of
    [data->lock]) or one mailbox callback; a blocking [read(2)] is a claim
    followed by turns of its loop, and the reader of the reverse rings, which
    holds the lock for as long as CPU3 gives it frames, is its beginning followed
    by turns of its loop.  A delayed work that fires is no longer
    armed when its handler runs. *)
Inductive driver_event :=
| EvImageWrite (buf : list Z) (off : Z)
| EvStart (env : kenv) (buf : string) (count : Z)
| EvRearm (env : kenv) (buf : string) (count : Z)
| EvStop (env : kenv) (buf : string) (count : Z)
| EvPing (buf : string) (count : Z)
| EvDoorbell (buf : string) (count : Z)
| EvSendPing (buf : string) (count : Z) (corrupt : bool)
| EvNotifyInject (buf : string) (count : Z)
| EvQueuePush (buf : string) (count : Z)
| EvResponseShow
| EvResponseTurn (ps : list Z) (response : mailmsg_message) (lines : list response_line)
| EvAffinityShow (env : kenv)
| EvStatsShow
| EvStatusShow (peer : nat -> carveout_mem -> carveout_mem)
| EvOpen (file : nat) (i : Z) (alloc : bool)
| EvRelease (file : nat)
| EvClaim (file : nat)
| EvReadTurn (i : Z)
| EvWrite (file : nat) (buf : option mailmsg_user_frame) (count : Z)
| EvPoll (file : nat)
| EvMailbox (i : Z) (msg : option (Z * Z))
| EvAffinityWork (env : kenv)
| EvControlWork (fuel : nat) (env : kenv)
| EvTimeoutWork (env : kenv)
| EvPeer (memory : carveout_mem -> carveout_mem) (registers : list (Z -> Z) -> list (Z -> Z)).

Section Machine.
Context {platform : Platform}.

Definition run_event {A} (m : D A) (d : r1_amp_cpu_on_data) : option r1_amp_cpu_on_data :=
  snd <$> m d.

(** [None] when the event cannot happen in [d] or its behaviour is undefined. *)
Definition handle (ev : driver_event) (d : r1_amp_cpu_on_data) : option r1_amp_cpu_on_data :=
  match ev with
  | EvImageWrite buf off => run_event (image_write buf off) d
  | EvStart env buf count => run_event (start_store env buf count) d
  | EvRearm env buf count => run_event (rearm_store env buf count) d
  | EvStop env buf count => run_event (mailmsg_stop_store env buf count) d
  | EvPing buf count => run_event (ping_store buf count) d
  | EvDoorbell buf count => run_event (doorbell_store buf count) d
  | EvSendPing buf count corrupt => run_event (mailmsg_send_ping buf count corrupt) d
  | EvNotifyInject buf count => run_event (mailmsg_notify_inject_store buf count) d
  | EvQueuePush buf count => run_event (mailmsg_queue_push_store buf count) d
  | EvResponseShow => run_event response_begin d
  | EvResponseTurn ps response lines => run_event (response_turn ps response lines) d
  | EvAffinityShow env => run_event (affinity_state_show env) d
  | EvStatsShow => run_event mailmsg_stats_show d
  | EvStatusShow peer => run_event (status_show peer) d
  | EvOpen file i alloc =>
      match user_files d !! file, zget (mailmsg_user d) i with
      | None, Some _ => run_event (r1_amp_mailmsg_user_open file i alloc) d
      | _, _ => None
      end
  | EvRelease file => run_event (r1_amp_mailmsg_user_release file) d
  | EvClaim file => run_event (r1_amp_mailmsg_user_claim_reader file) d
  | EvReadTurn i => run_event (user_receive i message_zero) d
  | EvWrite file buf count => run_event (r1_amp_mailmsg_user_write file buf count) d
  | EvPoll file => run_event (r1_amp_mailmsg_user_poll file) d
  | EvMailbox i msg => run_event (r1_amp_mbox_rx_callback i msg) d
  | EvAffinityWork env =>
      if affinity_work d is Some _ then run_event (r1_amp_affinity_work env) (d <| affinity_work := None |>)
      else None
  | EvControlWork fuel env =>
      if control_work d then
        match r1_amp_mailmsg_control_work fuel env (d <| control_work := false |>) with
        | Some (true, d') => Some d'
        | _ => None
        end
      else None
  | EvTimeoutWork env =>
      if lifecycle_timeout_work d is Some _ then
        run_event (r1_amp_mailmsg_lifecycle_timeout_work env) (d <| lifecycle_timeout_work := None |>)
      else None
  | EvPeer memory registers =>
      Some (d <| carveout := memory (carveout d) |>
              <| mb := mb d <| mbox_regs := registers (mbox_regs (mb d)) |> |>)
  end.

Definition driver_step (d d' : r1_amp_cpu_on_data) : Prop := exists ev, handle ev d = Some d'.

(** States of a driver that [probe] has set up. *)
Inductive probed : r1_amp_cpu_on_data -> Prop :=
| probed_intro env s : r1_amp_cpu_on_probe env = Some (0, Some s) -> probed (pdata s).
Definition reachable (d : r1_amp_cpu_on_data) : Prop := exists d0, probed d0 /\ star driver_step d0 d.

Lemma run_event_inv {A} (m : D A) d d' :
  run_event m d = Some d' -> exists a, m d = Some (a, d').
Proof.
  unfold run_event. destruct (m d) as [[a s]|]; [|done]. intros [= <-]. by exists a.
Qed.

(** ** The data plane leaves every view alone *)
#[local] Hint Resolve pres_gate pres_user_receive pres_user_write : pres.
Section DataPlane.
Context {T : Type} (v : r1_amp_cpu_on_data -> T) `{!DataView v}.

Lemma pres_enqueue priority value corrupt : pres v (mailmsg_test_enqueue_locked priority value corrupt).
Proof. unfold mailmsg_test_enqueue_locked. pres_auto. Qed.
#[local] Hint Resolve pres_enqueue : pres.
Lemma pres_send_ping buf count corrupt : pres v (mailmsg_send_ping buf count corrupt).
Proof. unfold mailmsg_send_ping. pres_auto. Qed.
Lemma pres_queue_push buf count : pres v (mailmsg_queue_push_store buf count).
Proof. unfold mailmsg_queue_push_store. pres_auto. Qed.
Lemma pres_notify_inject buf count : pres v (mailmsg_notify_inject_store buf count).
Proof. unfold mailmsg_notify_inject_store. pres_auto. Qed.
Lemma pres_doorbell buf count : pres v (doorbell_store buf count).
Proof. unfold doorbell_store. pres_auto. Qed.
Lemma pres_stats_show : pres v mailmsg_stats_show.
Proof.
  unfold mailmsg_stats_show. induction priorities as [|p ps IH]; cbn [stats_rows]; pres_auto.
Qed.
Lemma pres_peer_read {A} peer k (f : carveout_mem -> A) : pres v (peer_read peer k f).
Proof. unfold peer_read. pres_auto. Qed.
#[local] Hint Resolve pres_peer_read : pres.
Lemma pres_status_show peer : pres v (status_show peer).
Proof. unfold status_show, read_tx_full, read_worker. pres_auto. Qed.
Lemma pres_response_begin : pres v response_begin.
Proof. unfold response_begin. pres_auto. Qed.
Lemma pres_response_turn ps response lines : pres v (response_turn ps response lines).
Proof. unfold response_turn. destruct ps; pres_auto. Qed.
Lemma pres_ping_store buf count : pres v (ping_store buf count).
Proof.
  unfold ping_store. destruct (kstrtou32 buf); pres_auto. apply pres_modify. intros d.
  transitivity (v (d <| d_next_sequence := next_sequence64 (d_next_sequence a) |>));
    [apply dv_carveout|apply dv_sequence].
Qed.
End DataPlane.
End Machine.
