(* ===== verification/ProbeSpec.v ===== *)
(** What [probe] acquires and gives back: the outcome of every combination of
    answers of the kernel, and what each failing path leaves held. *)
From S2P Require Import Prelude Protocol Ring Notify Endpoint DriverState DriverLifecycle DriverUser DriverSysfs DriverProbe.

(** The channels, devices and counters exist. *)
Record probe_shape (s : probe_state) : Prop := {
  ps_chans : length (chans s) = 4%nat;
  ps_mbox : length (mbox (mb (pdata s))) = 4%nat;
  ps_user : length (mailmsg_user (pdata s)) = 4%nat;
}.
(** Which of the four devices are registered. *)
Definition devices (s : probe_state) : list bool := map registered (mailmsg_user (pdata s)).
(** Everything of the kernel that probe can hold, channels apart. *)
Definition held (s : probe_state) := (image_attr s, attr_files s, devices s).

Lemma zget_lt4 {A} (l : list A) i : length l = 4%nat -> 0 <= i < 4 -> exists x, zget l i = Some x.
Proof. intros Hl Hi. apply zget_is_Some. lia. Qed.

Definition registers_granted (env : probe_env) : bool :=
  match pe_map_regs env 0 with inl _ => true | inr err => err =? 0 end.
Lemma run_map_mbox_regs env s :
  probe_shape s ->
  exists ret s', r1_amp_map_mbox_regs env [0] s = Some (ret, s') /\ probe_shape s' /\
    held s' = held s /\ chans s' = chans s /\ (ret =? 0) = registers_granted env.
Proof.
  intros Hs. unfold r1_amp_map_mbox_regs, registers_granted.
  destruct (pe_map_regs env 0) as [regs|err]; [|by exists err, s].
  eexists 0, _. split; [reflexivity|]. split; [|done]. destruct Hs. by split.
Qed.

Lemma run_free_channels s :
  length (chans s) = 4%nat ->
  r1_amp_free_mbox_channels s = Some (tt, s <| chans := [false; false; false; false] |>).
Proof.
  destruct s as [d cs im fs]. cbn [chans]. intros Hl.
  destruct cs as [|b0 [|b1 [|b2 [|b3 [|]]]]]; try done. by destruct b0, b1, b2, b3.
Qed.

Lemma run_init_channel i s :
  length (mbox (mb (pdata s))) = 4%nat -> 0 <= i < 4 ->
  on_pdata (on_mb (upd_channel i (init_channel i))) s =
    Some (tt, s <| pdata := pdata s <| mb := mb (pdata s)
      <| mbox := zupd i (init_channel i) (mbox (mb (pdata s))) |> |> |>).
Proof.
  intros Hl Hi. destruct (zget_lt4 _ i Hl Hi) as (c & Hc).
  unfold on_pdata, on_mb, upd_channel, get_channel. run. by rewrite Hc.
Qed.

(** Requesting the channels: all of them, or none. *)
Lemma run_request_from env idxs s :
  probe_shape s -> Forall (fun i => 0 <= i < 4) idxs ->
  exists ret s', request_from env idxs s = Some (ret, s') /\ probe_shape s' /\ held s' = held s /\
    if forallb (fun i => pe_request_channel env i =? 0) idxs
    then ret = 0 /\ forall i, zget (chans s') i = if bool_decide (i ∈ idxs) then Some true else zget (chans s) i
    else ret <> 0 /\ chans s' = [false; false; false; false].
Proof.
  revert s. induction idxs as [|i idxs IH]; intros s Hs Hi.
  { eexists 0, _. split; [reflexivity|]. split; [destruct Hs; by split|]. by split. }
  apply Forall_cons in Hi as [Hi Hidxs]. cbn [request_from forallb].
  rewrite (run_bind_some _ _ _ _ _ (run_init_channel i s (ps_mbox s Hs) Hi)). cbv beta iota.
  destruct (Z.eqb_spec (pe_request_channel env i) 0) as [Hz|Hz]; cbn [negb andb].
  - step. edestruct IH as (ret & s' & R & Hs' & Hh & Hc); [|exact Hidxs|].
    2: { exists ret, s'. split; [exact R|]. split; [done|]. split; [exact Hh|].
      destruct (forallb _ idxs); [|exact Hc]. destruct Hc as [Hr Hc]. split; [done|]. intros k. rewrite Hc.
      cbn [chans set_field]. destruct (decide (k = i)) as [->|Hk].
      - rewrite zget_zset by (rewrite (ps_chans s Hs); lia). rewrite (bool_decide_true (i ∈ i :: idxs)) by set_solver.
        by destruct (bool_decide (i ∈ idxs)).
      - rewrite zget_zset_ne by done. rewrite (bool_decide_ext (k ∈ i :: idxs) (k ∈ idxs)) by set_solver. done. }
    destruct Hs. split; cbn; autorewrite with arr; done.
  - step. erewrite run_bind_some by (apply run_free_channels; cbn; autorewrite with arr; apply (ps_chans s Hs)).
    eexists _, _. split; [reflexivity|]. split; [|done].
    destruct Hs. split; cbn; autorewrite with arr; done.
Qed.

(** Behind a label lies the way back: whichever attribute is refused, the
    [goto] removes those created before it, the image attribute and the
    channels - and no other state. *)
Definition released (s : probe_state) : probe_state :=
  s <| attr_files := [] |> <| image_attr := false |> <| chans := [false; false; false; false] |>.
Lemma run_goto_all ret s :
  length (chans s) = 4%nat -> attr_files s = map fst creations ->
  probe_goto err_mailmsg_response ret s = Some (ret, released s).
Proof.
  destruct s as [d cs im fs]. cbn [chans attr_files]. intros Hl ->.
  by destruct cs as [|[] [|[] [|[] [|[] [|]]]]].
Qed.
Lemma run_goto k f l ret s :
  creations !! k = Some (f, l) -> length (chans s) = 4%nat -> attr_files s = map fst (take k creations) ->
  probe_goto l ret s = Some (ret, released s).
Proof.
  destruct s as [d cs im fs]. cbn [chans attr_files]. intros Hk Hl ->.
  destruct cs as [|b0 [|b1 [|b2 [|b3 [|]]]]]; try done.
  do 14 (destruct k as [|k]; [injection Hk as <- <-; by destruct b0, b1, b2, b3|]). done.
Qed.

(** Creating the attributes: all of them and on, or what was there before. *)
Lemma run_create_files env next pre post s :
  creations = pre ++ post -> attr_files s = map fst pre -> length (chans s) = 4%nat ->
  if forallb (fun f => pe_create_file env f =? 0) (map fst post)
  then create_files env post next s = next (s <| attr_files := map fst creations |>)
  else exists ret, ret <> 0 /\ create_files env post next s = Some (ret, released s).
Proof.
  revert pre s. induction post as [|[f l] post IH]; intros pre s E Hf Hl.
  { rewrite app_nil_r in E. subst pre. cbn. destruct s. cbn in Hf. by subst. }
  cbn [create_files forallb map fst]. unfold device_create_file.
  destruct (Z.eqb_spec (pe_create_file env f) 0) as [Hz|Hz]; cbn [negb andb when].
  - assert (R : forall s0, (modify (fun s => s <| attr_files := attr_files s ++ [f] |>) ;; mret (pe_create_file env f)) s0 =
      Some (0, s0 <| attr_files := attr_files s0 ++ [f] |>)) by (intros s0; rewrite Hz; reflexivity).
    rewrite (run_bind_some _ _ _ _ _ (R s)). cbn [Z.eqb negb].
    specialize (IH (pre ++ [(f, l)]) (s <| attr_files := attr_files s ++ [f] |>)).
    rewrite <-app_assoc in IH. specialize (IH E).
    destruct (forallb _ (map fst post)).
    + rewrite IH; [by destruct s|by cbn; rewrite Hf, map_app|done].
    + destruct IH as (ret & Hr & R'); [by cbn; rewrite Hf, map_app|done|]. exists ret. split; [done|].
      rewrite R'. by destruct s.
  - exists (pe_create_file env f). split; [done|]. step. rewrite (proj2 (Z.eqb_neq _ _) Hz). cbn [negb].
    apply (run_goto (length pre) f); [|done|].
    + by rewrite E, list_lookup_middle.
    + by rewrite E, take_app_length.
Qed.

(** Registering the devices: all of them, or none. *)
Lemma run_upd_device i f d :
  length (mailmsg_user d) = 4%nat -> 0 <= i < 4 ->
  upd_user_channel i f d = Some (tt, d <| mailmsg_user := zupd i f (mailmsg_user d) |>).
Proof.
  intros Hl Hi. destruct (zget_lt4 _ i Hl Hi) as (c & Hc).
  unfold upd_user_channel, get_user_channel. run. by rewrite Hc.
Qed.
Definition unregistered (c : r1_amp_mailmsg_user_channel) := c <| registered := false |>.
Lemma run_unregister_one i d :
  length (mailmsg_user d) = 4%nat -> 0 <= i < 4 ->
  (c ← get_user_channel i; when (registered c) (upd_user_channel i (fun c => c <| registered := false |>))) d =
  Some (tt, d <| mailmsg_user := zupd i unregistered (mailmsg_user d) |>).
Proof.
  intros Hl Hi. destruct (zget_lt4 _ i Hl Hi) as (c & Hc).
  assert (G : get_user_channel i d = Some (c, d)) by (unfold get_user_channel; run; by rewrite Hc).
  rewrite (run_bind_some _ _ _ _ _ G). destruct (registered c) eqn:E; cbn [when]; [by apply run_upd_device|].
  unfold zupd. rewrite Hc. rewrite zset_id; [by destruct d|]. rewrite Hc. f_equal.
  destruct c. cbn in E. by subst.
Qed.
Lemma run_unregister d :
  length (mailmsg_user d) = 4%nat ->
  exists cs, r1_amp_unregister_mailmsg_user d = Some (tt, d <| mailmsg_user := cs |>) /\ length cs = 4%nat /\
    map registered cs = [false; false; false; false].
Proof.
  intros Hl. unfold r1_amp_unregister_mailmsg_user, priorities. cbn [for_each].
  do 4 (erewrite run_bind_some by (apply run_unregister_one; cbn; autorewrite with arr; [exact Hl|lia])).
  eexists. split; [reflexivity|]. cbn [mailmsg_user set_field]. autorewrite with arr. split; [exact Hl|].
  by destruct (mailmsg_user d) as [|c0 [|c1 [|c2 [|c3 [|]]]]].
Qed.

Lemma run_register_from result ps d :
  length (mailmsg_user d) = 4%nat -> Forall (fun i => 0 <= i < 4) ps ->
  exists ret cs, register_from result ps d = Some (ret, d <| mailmsg_user := cs |>) /\ length cs = 4%nat /\
    if forallb (fun i => result i =? 0) ps
    then ret = 0 /\ map registered cs = map registered (foldl (fun cs i => zupd i (fun c => c <| registered := true |>) cs) (mailmsg_user d) ps)
    else ret <> 0 /\ map registered cs = [false; false; false; false].
Proof.
  revert d. induction ps as [|i ps IH]; intros d Hl Hp.
  { exists 0, (mailmsg_user d). split; [by destruct d|]. done. }
  apply Forall_cons in Hp as [Hi Hps]. cbn [register_from forallb foldl].
  destruct (Z.eqb_spec (result i) 0) as [Hz|Hz]; cbn [negb andb].
  - erewrite run_bind_some by (apply run_upd_device; done). 
    edestruct IH as (ret & cs & R & Hc); [|exact Hps|exists ret, cs; split; [exact R|exact Hc]].
    cbn. by autorewrite with arr.
  - destruct (run_unregister d Hl) as (cs & R & Hcs). rewrite (run_bind_some _ _ _ _ _ R).
    exists (result i), cs. split; [done|]. split; [apply Hcs|]. split; [done|apply Hcs].
Qed.

Lemma all_registered cs :
  length cs = 4%nat ->
  map registered (foldl (fun cs i => zupd i (fun c => c <| registered := true |>) cs) cs priorities) =
  [true; true; true; true].
Proof. intros Hl. by destruct cs as [|c0 [|c1 [|c2 [|c3 [|]]]]]. Qed.

(** * Probe *)
(** Whether the controller's registers and all four channels are there. *)
Definition mailboxes_granted (env : probe_env) : bool :=
  registers_granted env && forallb (fun i => pe_request_channel env i =? 0) priorities.
Definition everything_granted (env : probe_env) : bool :=
  mailboxes_granted env && (pe_create_image env =? 0) &&
  forallb (fun f => pe_create_file env f =? 0) (map fst creations) &&
  forallb (fun i => pe_misc_register env i =? 0) priorities.
(** The image attribute is refused after the channels were granted. *)
Definition image_refused (env : probe_env) : bool :=
  mailboxes_granted env && negb (pe_create_image env =? 0).

Definition nothing_held := (false, @nil string, [false; false; false; false]).
Definition everything_held := (true, map fst creations, [true; true; true; true]).

(** From the image attribute on: all attributes and devices, or nothing and
    the channels given back. *)
Lemma run_probe_files env s :
  probe_shape s -> attr_files s = [] -> devices s = [false; false; false; false] -> image_attr s = true ->
  chans s = [true; true; true; true] ->
  exists ret s',
    create_files env creations (
      ret ← on_pdata (r1_amp_register_mailmsg_user (pe_misc_register env));
      if negb (ret =? 0) then probe_goto err_mailmsg_response ret else mret 0) s = Some (ret, s') /\
    if forallb (fun f => pe_create_file env f =? 0) (map fst creations) &&
       forallb (fun i => pe_misc_register env i =? 0) priorities
    then ret = 0 /\ held s' = everything_held /\ chans s' = [true; true; true; true]
    else ret <> 0 /\ held s' = nothing_held /\ chans s' = [false; false; false; false].
Proof.
  intros Hs Hf Hd Him Hch.
  assert (Hrel : forall s1, devices s1 = [false; false; false; false] -> held (released s1) = nothing_held).
  { intros s1 Hs1. unfold held, nothing_held. by rewrite <-Hs1. }
  set (next := ret ← on_pdata _; _).
  pose proof (run_create_files env next [] creations s eq_refl Hf (ps_chans s Hs)) as R.
  destruct (forallb (fun f => pe_create_file env f =? 0) (map fst creations)); cbn [andb].
  2: { destruct R as (r1 & H1 & R1). exists r1, (released s). split; [exact R1|]. by rewrite Hrel. }
  rewrite R. clear R. set (s1 := s <| attr_files := map fst creations |>).
  destruct (run_register_from (pe_misc_register env) priorities (pdata s1) (ps_user s Hs)) as (r2 & cs & R2 & Hcs & H2).
  { repeat constructor; lia. }
  assert (R : on_pdata (r1_amp_register_mailmsg_user (pe_misc_register env)) s1 =
    Some (r2, s1 <| pdata := pdata s1 <| mailmsg_user := cs |> |>)).
  { unfold on_pdata, zoom, r1_amp_register_mailmsg_user. by rewrite R2. }
  unfold next. rewrite (run_bind_some _ _ _ _ _ R). destruct (forallb _ priorities).
  - destruct H2 as [-> H2]. cbn [negb Z.eqb]. eexists 0, _. split; [reflexivity|]. split; [done|].
    split; [|exact Hch]. unfold held, everything_held, devices. cbn [image_attr attr_files pdata mailmsg_user set_field].
    rewrite H2, all_registered by apply Hs. exact (f_equal (fun b => (b, _, _)) Him).
  - destruct H2 as [Hr H2]. rewrite (proj2 (Z.eqb_neq r2 0)) by done. cbn [negb].
    rewrite run_goto_all by (done || exact (ps_chans s Hs)). exists r2. eexists. split; [reflexivity|]. split; [done|].
    split; [|done]. apply Hrel. exact H2.
Qed.

Lemma channels_granted s :
  length (chans s) = 4%nat -> (forall i, 0 <= i < 4 -> zget (chans s) i = Some true) ->
  chans s = [true; true; true; true].
Proof.
  intros Hl H. pose proof (H 0 ltac:(lia)) as H0. pose proof (H 1 ltac:(lia)) as H1.
  pose proof (H 2 ltac:(lia)) as H2. pose proof (H 3 ltac:(lia)) as H3.
  destruct (chans s) as [|b0 [|b1 [|b2 [|b3 [|]]]]]; try done. injection H0 as ->. injection H1 as ->. injection H2 as ->. by injection H3 as ->.
Qed.

Lemma run_probe_bind env s :
  probe_shape s -> chans s = [false; false; false; false] -> held s = nothing_held ->
  exists ret s', probe_bind env s = Some (ret, s') /\
    (if everything_granted env then ret = 0 /\ held s' = everything_held
     else ret <> 0 /\ held s' = nothing_held) /\
    chans s' = replicate 4 (everything_granted env || image_refused env).
Proof.
  intros Hs Hch Hh. unfold probe_bind, everything_granted, image_refused, mailboxes_granted.
  destruct (run_map_mbox_regs env s Hs) as (r1 & s1 & R1 & Hs1 & Hh1 & Hc1 & Hr1).
  rewrite (run_bind_some _ _ _ _ _ R1), Hr1. destruct (registers_granted env); cbn [negb andb orb].
  2: { exists r1, s1. split; [done|]. split; [|by rewrite Hc1, Hch]. split; [by apply Z.eqb_neq|by rewrite Hh1]. }
  destruct (run_request_from env priorities s1 Hs1) as (r2 & s2 & R2 & Hs2 & Hh2 & Hc2).
  { repeat constructor; lia. }
  unfold r1_amp_request_mbox_channels. rewrite (run_bind_some _ _ _ _ _ R2).
  destruct (forallb (fun i => pe_request_channel env i =? 0) priorities); cbn [andb orb].
  2: { destruct Hc2 as [Hr2 Hc2]. rewrite (proj2 (Z.eqb_neq r2 0)) by done. exists r2, s2.
    split; [done|]. split; [|done]. split; [done|]. by rewrite Hh2, Hh1. }
  destruct Hc2 as [-> Hc2]. cbn [negb Z.eqb].
  assert (Hall : chans s2 = [true; true; true; true]).
  { apply channels_granted; [apply Hs2|]. intros i Hi. rewrite Hc2.
    rewrite bool_decide_true; [done|]. apply list_elem_of_In.
    assert (i = 0 \/ i = 1 \/ i = 2 \/ i = 3) as [->|[->|[->| ->]]] by lia; cbn; tauto. }
  destruct (Z.eqb_spec (pe_create_image env) 0) as [Hi|Hi]; cbn [negb andb].
  2: { exists (pe_create_image env), s2. split; [done|]. split; [|by rewrite Hall]. split; [done|]. by rewrite Hh2, Hh1. }
  step. pose proof Hh2 as Hh2'. rewrite Hh1, Hh in Hh2'. injection Hh2' as Him2 Hf2 Hd2.
  destruct (run_probe_files env (s2 <| image_attr := true |>)) as (ret & s' & R & H); [destruct Hs2; by split|done..|].
  exists ret, s'. split; [exact R|].
  destruct (forallb (fun f => pe_create_file env f =? 0) (map fst creations) && _); destruct H as (-> & -> & Hc) || destruct H as (? & -> & Hc);
    by rewrite Hc.
Qed.


(** What the geometry checks let through, exactly: an image that is not
    empty and ends before the status words, an entry inside the reserved memory
    and a state area that ends inside it - but the room for the state area is
    computed without a sign, so a reserved memory smaller than the state area
    passes with any status offset. *)
Theorem geometry_checked la base size :
  is_u32 (la_image_size la) -> is_u32 (la_status_offset la) -> 0 <= base -> 0 <= size -> base + size < 2 ^ 64 ->
  invalid_geometry la base size = false <->
  0 < la_image_size la <= la_status_offset la /\ base <= la_entry la < base + size /\
  (la_status_offset la + R1_AMP_STATE_SIZE <= size \/ size < R1_AMP_STATE_SIZE).
Proof.
  intros Hi Hs Hb Hz Hbz. unfold invalid_geometry, is_u32 in *.
  assert (Hu : u64 (base + size) = base + size) by (apply Z.mod_small; lia). rewrite Hu.
  assert (HR : R1_AMP_STATE_SIZE = 3916) by done. rewrite HR.
  assert (Hr : u64 (size - 3916) = if size <? 3916 then 2 ^ 64 + size - 3916 else size - 3916).
  { unfold u64. destruct (Z.ltb_spec size 3916); [|by apply Z.mod_small; lia].
    rewrite <-(Z_mod_plus_full _ 1), Z.mod_small by lia. lia. }
  rewrite Hr, !orb_false_iff, Z.eqb_neq, !Z.ltb_ge, Z.leb_gt. destruct (Z.ltb_spec size 3916); lia.
Qed.

(** The board's geometry, and the same with only 2 KiB reserved. *)
Lemma geometry_checked_witness :
  invalid_geometry (mk_launch 0x300 0x50000000 0x40000 0xff000) 0x50000000 0x100000 = false /\
  invalid_geometry (mk_launch 0x300 0x50000000 0x40000 0xff000) 0x50000000 0x800 = false.
Proof.
  split.
  - apply (geometry_checked (mk_launch 0x300 0x50000000 0x40000 0xff000) 0x50000000 0x100000);
      cbv -[Z.le Z.lt]; repeat split; try lia. all: left; lia.
  - apply (geometry_checked (mk_launch 0x300 0x50000000 0x40000 0xff000) 0x50000000 0x800);
      cbv -[Z.le Z.lt]; repeat split; try lia. all: right; lia.
Defined.
