(* ===== verification/HostDemo.v ===== *)
(** A concrete platform and a scripted session on it: the inputs of the
    witnesses of the driver's theorems. *)
From S2P Require Import Prelude Protocol Ring Notify Endpoint Frame EndpointSpec DriverState DriverLifecycle DriverUser DriverSysfs DriverProbe DriverSpec.

(** Coherent memory, plain registers, decimal-free parsers. *)
Definition host_platform : Platform := {|
  mmio_write value offset regs := fun o => if o =? offset then value else regs o;
  dcache_clean := fun _ sh => sh;
  dcache_inval := fun _ sh => sh;
  time_after_eq a b := b <=? a;
  time_before a b := a <? b;
  msecs_to_jiffies ms := ms / 4;
  sysfs_streq := String.eqb;
  sscanf_u_u buf := if String.eqb buf "1 41" then Some (1, 41) else None;
  sscanf_u_d_u buf := if String.eqb buf "1 -5 2" then Some (1, -5, 2) else None;
  kstrtou32 buf := if String.eqb buf "7" then inl 7 else inr (- EINVAL);
|}.
#[export] Instance host_coherent :
  CoherentOps (@mailmsg_linux_memory_ops host_platform).
Proof. by split. Qed.

(** PSCI reports [affinity] and accepts CPU_ON; the clock stands at [now]. *)
Definition host_env (now affinity : Z) : kenv :=
  mk_kenv (fun _ => now) (Some (fun _ _ => affinity)) (Some (fun _ _ => 0)).

Definition host_launch : launch := mk_launch 0x300 0x1000 4 64.
Definition host_probe_env : probe_env :=
  mk_probe_env (Some host_launch) (Some (Some (0x1000, 0x10000))) true 0 (fun _ => inl (fun _ => 0))
    (fun _ => 0) 0 (fun _ => 0) (fun _ => 0).
Definition host_probed : r1_amp_cpu_on_data :=
  match r1_amp_cpu_on_probe host_probe_env with
  | Some (_, Some s) => pdata s
  | _ => probe_data host_launch
  end.

(** CPU3 sends one frame of session [gen] on [priority]. *)
Definition cpu3_sends (gen priority type : Z) (bytes : list Z) (sh : mailmsg_shared) : mailmsg_shared :=
  match mailmsg_endpoint_send priority type (Some bytes) (Z.of_nat (length bytes)) send_result_zero
          (host_world MAILMSG_ENDPOINT_CPU3 gen sh) with
  | Some (_, w) => shm w
  | None => sh
  end.
Definition peer_frame (gen priority type : Z) (bytes : list Z) : driver_event :=
  EvPeer (fun c => c <| c_shared := cpu3_sends gen priority type bytes (c_shared c) |>) (fun r => r).
(** The two words of a feedback or session payload. *)
Definition two_words (a b : Z) : list Z := le_bytes a ++ le_bytes b.

Section Run.
Context {platform : Platform}.
Fixpoint run_events (evs : list driver_event) (d : r1_amp_cpu_on_data) : option r1_amp_cpu_on_data :=
  match evs with
  | [] => Some d
  | ev :: evs => d' ← handle ev d; run_events evs d'
  end.
Lemma run_events_star evs : forall d d', run_events evs d = Some d' -> star driver_step d d'.
Proof.
  induction evs as [|ev evs IH]; intros d d'; cbn; [by intros [= ->]; constructor|].
  destruct (handle ev d) as [d1|] eqn:E; [|done]. intros H.
  eapply star_trans; [|by apply IH]. eapply star_snoc; [constructor|by exists ev].
Qed.
Lemma reachable_run evs d d' : reachable d -> run_events evs d = Some d' -> reachable d'.
Proof.
  intros (d0 & Hp & Hs) H. exists d0. split; [done|]. apply run_events_star in H.
  induction H as [|a b c _ IH Hstep]; [done|]. eapply star_snoc; [by apply IH|done].
Qed.
End Run.

(** Load the image, start, let CPU3 announce itself. *)
Definition events_start : list driver_event :=
  [EvImageWrite [1; 2; 3; 4] 0; EvStart (host_env 100 1) "start" 5].
Definition events_ready : list driver_event :=
  [peer_frame 1 0 MAILMSG_MSG_SESSION_READY (two_words 1 MAILMSG_PROTOCOL_VERSION);
   EvMailbox 0 (Some (0xb2a10000, 0))].
Definition host_run (evs : list driver_event) : r1_amp_cpu_on_data :=
  default host_probed (@run_events host_platform evs host_probed).
Definition host_starting : r1_amp_cpu_on_data := host_run events_start.
Definition host_announced : r1_amp_cpu_on_data := host_run (events_start ++ events_ready).
Definition host_active : r1_amp_cpu_on_data :=
  host_run (events_start ++ events_ready ++ [EvControlWork 8 (host_env 200 0)]).
(** The announcement arrives, but the timeout work runs before the control
    work it queued. *)
Definition host_timed_out : r1_amp_cpu_on_data :=
  host_run (events_start ++ events_ready ++ [EvTimeoutWork (host_env 100000 0)]).

Lemma host_probe_succeeds : exists s, r1_amp_cpu_on_probe host_probe_env = Some (0, Some s).
Proof. eexists. vm_compute. reflexivity. Qed.
Lemma host_probed_ok : probed host_probed.
Proof.
  destruct host_probe_succeeds as [s E]. unfold host_probed. rewrite E.
  by apply (probed_intro host_probe_env).
Qed.

Lemma host_reachable evs d :
  @run_events host_platform evs host_probed = Some d -> @reachable host_platform d.
Proof. intros E. exists host_probed. split; [apply host_probed_ok|by apply (run_events_star evs)]. Qed.

(** A scripted run happens: decided without reading the final state back. *)
Definition runs (evs : list driver_event) : bool :=
  match @run_events host_platform evs host_probed with Some _ => true | None => false end.
Lemma host_run_reachable evs : runs evs = true -> @reachable host_platform (host_run evs).
Proof.
  unfold runs, host_run. intros H. apply (host_reachable evs).
  destruct (run_events evs host_probed); done.
Qed.

Lemma host_starting_reachable : @reachable host_platform host_starting.
Proof. apply host_run_reachable. vm_compute. reflexivity. Qed.
Lemma host_announced_reachable : @reachable host_platform host_announced.
Proof. apply host_run_reachable. vm_compute. reflexivity. Qed.
Lemma host_active_reachable : @reachable host_platform host_active.
Proof. apply host_run_reachable. vm_compute. reflexivity. Qed.
Lemma host_timed_out_reachable : @reachable host_platform host_timed_out.
Proof. apply host_run_reachable. vm_compute. reflexivity. Qed.
Lemma host_states :
  mailmsg_state host_starting = R1_AMP_MAILMSG_STARTING /\
  mailmsg_state host_announced = R1_AMP_MAILMSG_STARTING /\ control_work host_announced = true /\
  mailmsg_state host_active = R1_AMP_MAILMSG_ACTIVE.
Proof. vm_compute. repeat split. Qed.
