(* ===== verification/LifecycleSpec.v ===== *)
(** What the lifecycle plane promises: the session invariant, the edges of the
    session state machine with the events that may take them, and the outcome
    of the control work. *)
From S2P Require Import Prelude Protocol Ring Notify Endpoint Frame DriverState DriverLifecycle DriverUser DriverSysfs DriverProbe DriverSpec HostDemo.

Section LifecycleSpec.
Context {platform : Platform}.
Implicit Types (d : r1_amp_cpu_on_data) (env : kenv).

(** The binding [start] leaves for session [gen]. *)
Definition linux_key (gen : Z) :=
  ep_key (bound_endpoint (Some mailmsg_linux_memory_ops) (Some mailmsg_notify_endpoint_)
            MAILMSG_ENDPOINT_LINUX gen).

(** The states entered after the peer proved itself. *)
Definition session_opened (st : r1_amp_mailmsg_session_state) : bool :=
  match st with
  | R1_AMP_MAILMSG_ACTIVE | R1_AMP_MAILMSG_STOPPING | R1_AMP_MAILMSG_STOP_TIMEOUT => true
  | _ => false
  end.

Record lifecycle_inv d : Prop := {
  li_attempted : cpu_on_attempted d = false -> mailmsg_state d = R1_AMP_MAILMSG_UNARMED;
  li_started : mailmsg_state d <> R1_AMP_MAILMSG_UNARMED -> cpu_on_ret d = 0;
  li_timer : lifecycle_pending (mailmsg_state d) = true -> is_Some (lifecycle_timeout_work d);
  li_monitor : monitored (mailmsg_state d) = true -> is_Some (affinity_work d);
  li_session : mailmsg_state d <> R1_AMP_MAILMSG_UNARMED ->
    session_generation d <> 0 /\ ep_key (mailmsg_endpoint_ d) = linux_key (session_generation d);
  li_peer : session_opened (mailmsg_state d) = true ->
    peer_generation d = session_generation d /\ session_result d = 0;
  li_stop : mailmsg_state d = R1_AMP_MAILMSG_STOPPING -> stop_request_sequence d <> 0;
  li_removing : mailmsg_user_removing d = false;
  li_stats : length (stats (mailmsg_endpoint_ d)) = 4%nat;
}.

Lemma lifecycle_inv_view d d' : lview d' = lview d -> lifecycle_inv d -> lifecycle_inv d'.
Proof.
  unfold lview. intros [= E1 E2 E3 E4 E5 E6 E7 E8 E9 E10 E11 E12 E13 E14 E15 E16 E17 E18].
  intros []. split; unfold ep_key in *; rewrite ?E1, ?E2, ?E3, ?E4, ?E5, ?E6, ?E7, ?E8, ?E9, ?E10,
    ?E12, ?E13, ?E14, ?E15, ?E16, ?E17, ?E18; done.
Qed.

(** ** The edges *)

(** The changes of state an event may make. *)
Definition lifecycle_edge (ev : driver_event) (a b : r1_amp_mailmsg_session_state) : bool :=
  state_is a b ||
  match ev with
  | EvStart _ _ _ => state_is a R1_AMP_MAILMSG_UNARMED && state_is b R1_AMP_MAILMSG_STARTING
  | EvControlWork _ _ =>
      match a, b with
      | R1_AMP_MAILMSG_STARTING, R1_AMP_MAILMSG_ACTIVE
      | R1_AMP_MAILMSG_STARTING, R1_AMP_MAILMSG_START_TIMEOUT
      | R1_AMP_MAILMSG_STOPPING, R1_AMP_MAILMSG_ACTIVE
      | R1_AMP_MAILMSG_STOPPING, R1_AMP_MAILMSG_STOP_TIMEOUT => true
      | _, _ => false
      end
  | EvTimeoutWork _ =>
      match a, b with
      | R1_AMP_MAILMSG_STARTING, R1_AMP_MAILMSG_START_TIMEOUT
      | R1_AMP_MAILMSG_STOPPING, R1_AMP_MAILMSG_STOP_TIMEOUT
      | R1_AMP_MAILMSG_STOPPING, R1_AMP_MAILMSG_OFFLINE => true
      | _, _ => false
      end
  | EvStop _ _ _ => state_is a R1_AMP_MAILMSG_ACTIVE && state_is b R1_AMP_MAILMSG_STOPPING
  | EvAffinityWork _ | EvAffinityShow _ => monitored a && state_is b R1_AMP_MAILMSG_OFFLINE
  | EvRearm _ _ _ =>
      state_is b R1_AMP_MAILMSG_UNARMED || (monitored a && state_is b R1_AMP_MAILMSG_OFFLINE)
  | _ => false
  end.

Lemma state_is_refl st : state_is st st = true.
Proof. by apply bool_decide_eq_true. Qed.
Lemma edge_refl ev st : lifecycle_edge ev st st = true.
Proof. unfold lifecycle_edge. by rewrite state_is_refl. Qed.
Lemma state_is_eq a b : state_is a b = true <-> a = b.
Proof. apply bool_decide_eq_true. Qed.
Lemma state_is_ne a b : state_is a b = false <-> a <> b.
Proof. apply bool_decide_eq_false. Qed.

(** ** The affinity refresh, as a function of the PSCI answer *)
Definition offlined d : r1_amp_cpu_on_data :=
  if monitored (mailmsg_state d)
  then wake_all_readers (cancel_lifecycle_timeout (d <| mailmsg_state := R1_AMP_MAILMSG_OFFLINE |>))
  else d.
Definition sampled (state : Z) d : r1_amp_cpu_on_data :=
  let d := d <| affinity_state := state |> <| affinity_queried := true |> in
  if (state =? PSCI_0_2_AFFINITY_LEVEL_ON) || (state =? PSCI_0_2_AFFINITY_LEVEL_ON_PENDING)
  then d <| affinity_seen_on := true |> else d.
Definition refreshed (state : Z) d : r1_amp_cpu_on_data :=
  let d := sampled state d in
  if (cpu_on_ret d =? 0) && affinity_seen_on d && (state =? PSCI_0_2_AFFINITY_LEVEL_OFF)
  then offlined d else d.

Lemma run_refresh env f d :
  psci_affinity_info env = Some f ->
  r1_amp_refresh_affinity_locked env d = Some (f (mpidr d) 0, refreshed (f (mpidr d) 0) d).
Proof.
  intros Hf. unfold r1_amp_refresh_affinity_locked. rewrite Hf. do 2 step.
  unfold refreshed, sampled, offlined, r1_amp_mailmsg_mark_offline_locked. cbv zeta.
  set (st := f (mpidr d) 0).
  destruct (_ || _) eqn:E; cbn [when]; do 2 step.
  all: destruct (_ && _) eqn:E2; cbn [when]; [|done].
  all: rewrite run_bind; step; match goal with |- context [monitored ?x] =>
    destruct (monitored x) end; reflexivity.
Qed.

(** What the refresh leaves alone, besides the state and the timer. *)
Lemma refreshed_fields state d :
  cpu_on_attempted (refreshed state d) = cpu_on_attempted d /\
  cpu_on_ret (refreshed state d) = cpu_on_ret d /\
  affinity_work (refreshed state d) = affinity_work d /\
  session_generation (refreshed state d) = session_generation d /\
  mailmsg_endpoint_ (refreshed state d) = mailmsg_endpoint_ d /\
  mailmsg_user_removing (refreshed state d) = mailmsg_user_removing d /\
  affinity_state (refreshed state d) = state /\
  uview (refreshed state d) = uview d /\
  iview (refreshed state d) = iview d /\
  peer_generation (refreshed state d) = peer_generation d /\
  session_result (refreshed state d) = session_result d /\
  stop_request_sequence (refreshed state d) = stop_request_sequence d /\
  stop_reply_type (refreshed state d) = stop_reply_type d.
Proof.
  unfold refreshed, sampled, offlined. cbv zeta.
  destruct (_ || _); (destruct (_ && _); [|by repeat split]);
    (destruct (monitored _); [|by repeat split]);
    match goal with |- context [wake_all_readers ?d0] =>
      destruct (wake_all_views d0) as (Hl & Hu & Hi) end;
    rewrite Hu, Hi; repeat split.
Qed.


Lemma refreshed_state state d :
  mailmsg_state (refreshed state d) = mailmsg_state d /\
  lifecycle_timeout_work (refreshed state d) = lifecycle_timeout_work d \/
  monitored (mailmsg_state d) = true /\
  mailmsg_state (refreshed state d) = R1_AMP_MAILMSG_OFFLINE /\ cpu_on_ret d = 0.
Proof.
  unfold refreshed, sampled, offlined. cbv zeta.
  destruct (_ || _); (destruct (_ && _) eqn:E; [|by left]); bool_to_prop;
    match goal with |- context [monitored ?x] =>
      change (monitored x) with (monitored (mailmsg_state d)) end;
    destruct (monitored _); (by left) || by right.
Qed.

Lemma refreshed_inv state d : lifecycle_inv d -> lifecycle_inv (refreshed state d).
Proof.
  intros []. pose proof (refreshed_fields state d) as
    (E1 & E2 & E3 & E4 & E5 & E6 & _ & _ & _ & E7 & E8 & E9 & _).
  split; rewrite ?E1, ?E2, ?E3, ?E4, ?E5, ?E6, ?E7, ?E8, ?E9;
    destruct (refreshed_state state d) as [[Es Et]|(Hm & Es & Hr)]; rewrite ?Es, ?Et; try done.
  - intros Ha. specialize (li_attempted0 Ha). by rewrite li_attempted0 in Hm.
  - intros _. apply li_session0. by destruct (mailmsg_state d).
Qed.

(** ** [start] *)

(** The data once the shared block of a new session is bound. *)
Definition cleared d : r1_amp_cpu_on_data :=
  let gen := next_generation (session_generation d) in
  d <| session_generation := gen |>
    <| carveout := carveout_clear_state (carveout d) <| c_shared := new_session_block gen |> |>.
Definition bound d : r1_amp_cpu_on_data :=
  let gen := next_generation (session_generation d) in
  cleared d <| mailmsg_endpoint_ :=
    bound_endpoint (Some mailmsg_linux_memory_ops)
      (Some mailmsg_notify_endpoint_) MAILMSG_ENDPOINT_LINUX gen |>.
Definition starting d : r1_amp_cpu_on_data :=
  d <| peer_generation := 0 |> <| session_result := - EINPROGRESS |>
    <| stop_request_sequence := 0 |> <| stop_reply_type := 0 |> <| stop_result := - EAGAIN |>
    <| stop_notify_result := - EAGAIN |> <| mailmsg_state := R1_AMP_MAILMSG_STARTING |>
    <| mb := mb d <| lifecycle_notify_bypass := false |> |>
    <| affinity_seen_on := false |> <| cpu_on_attempted := true |>.
Definition launched env (r : Z) d : r1_amp_cpu_on_data :=
  if r =? 0 then
    mod_lifecycle_timeout (msecs_to_jiffies R1_AMP_LIFECYCLE_TIMEOUT_MS)
      (d <| cpu_on_ret := r |>
         <| lifecycle_deadline := u64 (jiffies env 0 + msecs_to_jiffies R1_AMP_LIFECYCLE_TIMEOUT_MS) |>
         <| affinity_work := Some (msecs_to_jiffies R1_AMP_AFFINITY_MONITOR_MS) |>)
  else d <| cpu_on_ret := r |> <| mailmsg_state := R1_AMP_MAILMSG_UNARMED |> <| session_result := r |>.

Lemma next_generation_nonzero g : next_generation g <> 0.
Proof. apply next_seq_nonzero. Qed.

Context {coherent : CoherentOps mailmsg_linux_memory_ops}.

Lemma clean_id sh : lzamp_dcache_clean RegShared sh = sh.
Proof.
  pose proof (coherent_publish (ops := mailmsg_linux_memory_ops)) as H.
  injection H as H. unfold mailmsg_linux_publish in H. by rewrite H.
Qed.

Lemma run_clean d : on_block (modify (lzamp_dcache_clean RegShared)) d = Some (tt, d).
Proof.
  unfold on_block, zoom, modify. rewrite clean_id. destruct d as [? ? c]. by destruct c.
Qed.

Lemma run_linux_bind d :
  length (stats (mailmsg_endpoint_ d)) = 4%nat ->
  on_endpoint (mailmsg_endpoint_bind true (Some mailmsg_linux_memory_ops)
    (Some mailmsg_notify_endpoint_) MAILMSG_ENDPOINT_LINUX) (cleared d) = Some (0, bound d).
Proof.
  intros Hst. unfold on_endpoint, zoom.
  rewrite (run_bind_endpoint _ _ mailmsg_linux_notify) by (by left || done).
  change (shm (endpoint_world (cleared d))) with
    (new_session_block (next_generation (session_generation d))).
  set (gen := next_generation _). change (shared_generation (new_session_block gen)) with gen.
  change (negb (magic (new_session_block gen) =? MAILMSG_PROTOCOL_MAGIC) ||
     negb (version (new_session_block gen) =? MAILMSG_PROTOCOL_VERSION)) with false.
  rewrite (proj2 (Z.eqb_neq gen 0) (next_generation_nonzero _)). cbv iota. reflexivity.
Qed.

Lemma run_start env buf count d f g :
  sysfs_streq buf "start" = true -> mailmsg_user_removing d = false ->
  cpu_on_attempted d = false -> image_written d = image_size d ->
  psci_affinity_info env = Some f -> psci_cpu_on env = Some g ->
  length (stats (mailmsg_endpoint_ d)) = 4%nat ->
  f (mpidr d) 0 = PSCI_0_2_AFFINITY_LEVEL_OFF ->
  let d1 := starting (bound (refreshed PSCI_0_2_AFFINITY_LEVEL_OFF d)) in
  let r := g (mpidr d1) (entry d1) in
  start_store env buf count d = Some (if r =? 0 then count else r, launched env r d1).
Proof.
  intros Hbuf Hrem Hatt Himg Hf Hg Hst Hoff d1 r. unfold start_store. rewrite Hbuf. cbn [negb]. step.
  rewrite Hrem, Hatt, Himg, Z.eqb_refl. cbn [negb]. rewrite Hf, Hg.
  pose proof (refreshed_fields PSCI_0_2_AFFINITY_LEVEL_OFF d) as (_ & _ & _ & _ & E5 & _ & E7 & _).
  step_with (run_refresh env f d Hf). rewrite Hoff. step. rewrite E7, Z.eqb_refl. cbn [negb].
  set (d0 := refreshed PSCI_0_2_AFFINITY_LEVEL_OFF d) in *.
  step_to (cleared d0).
  step_with (run_clean (cleared d0)).
  step_with (run_linux_bind d0 ltac:(by rewrite E5)). cbn [negb Z.eqb].
  step_to d1. step. fold r.
  unfold launched. destruct (r =? 0).
  all: step_to (d1 <| cpu_on_ret := r |>).
  all: rewrite run_bind; reflexivity.
Qed.

(** ** Every handler keeps the invariant along an edge *)
Definition sound ev d d' : Prop :=
  lifecycle_inv d' /\ lifecycle_edge ev (mailmsg_state d) (mailmsg_state d') = true.

Lemma sound_view ev d d' : lview d' = lview d -> lifecycle_inv d -> sound ev d d'.
Proof.
  intros Hv Hi. split; [by eapply lifecycle_inv_view|].
  unfold lview in Hv. injection Hv as -> _ _ _ _ _ _ _ _ _ _ _ _ _ _ _ _ _. apply edge_refl.
Qed.
Lemma sound_refl ev d : lifecycle_inv d -> sound ev d d.
Proof. by apply sound_view. Qed.

Lemma pres_sound {A} ev (m : D A) d :
  pres lview m -> lifecycle_inv d -> wlp m (fun _ => sound ev d) d.
Proof. intros Hp Hi a d' E. apply sound_view; [by eapply Hp|done]. Qed.

Lemma refreshed_sound ev state d :
  lifecycle_inv d ->
  (monitored (mailmsg_state d) = true ->
   lifecycle_edge ev (mailmsg_state d) R1_AMP_MAILMSG_OFFLINE = true) ->
  sound ev d (refreshed state d).
Proof.
  intros Hi He. split; [by apply refreshed_inv|].
  destruct (refreshed_state state d) as [[-> _]|(Hm & -> & _)]; [apply edge_refl|by apply He].
Qed.

Lemma launched_inv env r d :
  lifecycle_inv d -> mailmsg_state d = R1_AMP_MAILMSG_UNARMED ->
  lifecycle_inv (launched env r (starting (bound d))).
Proof.
  intros [] Hst. unfold launched. destruct (Z.eqb_spec r 0) as [->|]; (split; cbn; try done).
  intros _. split; [apply next_generation_nonzero|done].
Qed.

Lemma start_sound env buf count d :
  lifecycle_inv d -> wlp (start_store env buf count) (fun _ => sound (EvStart env buf count) d) d.
Proof.
  intros Hi a d' E. revert E. unfold start_store.
  destruct (sysfs_streq buf "start") eqn:Hbuf; [|by intros [= <- <-]; apply sound_refl].
  cbn [negb]. step. rewrite (li_removing _ Hi).
  destruct (cpu_on_attempted d) eqn:Hatt; [by intros [= <- <-]; apply sound_refl|].
  destruct (Z.eqb_spec (image_written d) (image_size d)) as [Himg|];
    cbn [negb]; [|by intros [= <- <-]; apply sound_refl].
  destruct (psci_affinity_info env) as [f|] eqn:Hf; [|by intros [= <- <-]; apply sound_refl].
  destruct (psci_cpu_on env) as [g|] eqn:Hg; [|by intros [= <- <-]; apply sound_refl].
  pose proof (li_attempted _ Hi Hatt) as Hst.
  destruct (Z.eqb_spec (f (mpidr d) 0) PSCI_0_2_AFFINITY_LEVEL_OFF) as [Hoff|Hoff].
  - pose proof (run_start env buf count d f g Hbuf (li_removing _ Hi) Hatt Himg Hf Hg
      (li_stats _ Hi) Hoff) as Hrun. cbv zeta in Hrun.
    intros E. unfold start_store in Hrun. rewrite Hbuf in Hrun. cbn [negb] in Hrun.
    erewrite run_bind_some in Hrun by reflexivity. cbv beta iota in Hrun.
    rewrite (li_removing _ Hi), Hatt, (proj2 (Z.eqb_eq _ _) Himg), Hf, Hg in Hrun. cbn [negb] in Hrun.
    rewrite E in Hrun. injection Hrun as -> ->.
    assert (Hst' : mailmsg_state (refreshed PSCI_0_2_AFFINITY_LEVEL_OFF d) = R1_AMP_MAILMSG_UNARMED)
      by (destruct (refreshed_state PSCI_0_2_AFFINITY_LEVEL_OFF d) as [[-> _]|(Hm & _)];
          [done|by rewrite Hst in Hm]).
    split; [apply launched_inv; [by apply refreshed_inv|done]|].
    rewrite Hst. unfold launched. by destruct (_ =? 0).
  - step_with (run_refresh env f d Hf). step.
    destruct (refreshed_fields (f (mpidr d) 0) d) as (_ & _ & _ & _ & _ & _ & -> & _).
    rewrite (proj2 (Z.eqb_neq _ _) Hoff). cbn [negb]. intros [= <- <-].
    apply refreshed_sound; [done|]. by rewrite Hst.
Qed.

(** Moving a running session to another state: what a handler leaves alone,
    and what the new state needs. *)
Definition base_view d :=
  (session_generation d, cpu_on_ret d, cpu_on_attempted d, mailmsg_user_removing d,
   ep_key (mailmsg_endpoint_ d)).
#[local] Instance base_view_data : DataView base_view.
Proof. split; try done. intros d e H. unfold base_view. cbn. by rewrite H. Qed.

Lemma move_inv d d' :
  lifecycle_inv d -> monitored (mailmsg_state d) = true -> base_view d' = base_view d ->
  mailmsg_state d' <> R1_AMP_MAILMSG_UNARMED ->
  (monitored (mailmsg_state d') = true -> is_Some (affinity_work d')) ->
  (lifecycle_pending (mailmsg_state d') = true -> is_Some (lifecycle_timeout_work d')) ->
  (session_opened (mailmsg_state d') = true ->
   peer_generation d' = session_generation d' /\ session_result d' = 0) ->
  (mailmsg_state d' = R1_AMP_MAILMSG_STOPPING -> stop_request_sequence d' <> 0) ->
  lifecycle_inv d'.
Proof.
  intros Hi Hm Hv Hne Ha Ht Hp Hq. destruct Hi. unfold base_view in Hv.
  injection Hv as V2 V3 V4 V5 V6 V7 V8 V9 V10 V11 V12.
  assert (mailmsg_state d <> R1_AMP_MAILMSG_UNARMED) as Hne0 by by destruct (mailmsg_state d).
  split; try done.
  - rewrite V4. intros Hatt. by rewrite (li_attempted0 Hatt) in Hm.
  - rewrite V3. intros _. by apply li_started0.
  - unfold ep_key. rewrite V2, V6, V7, V8, V9, V10, V11, V12. intros _. by apply li_session0.
  - by rewrite V5.
  - by rewrite V12.
Qed.

Lemma lview_parts d d' :
  lview d' = lview d ->
  mailmsg_state d' = mailmsg_state d /\ base_view d' = base_view d /\
  affinity_work d' = affinity_work d /\ lifecycle_timeout_work d' = lifecycle_timeout_work d /\
  session_generation d' = session_generation d /\ peer_generation d' = peer_generation d /\
  session_result d' = session_result d /\ stop_request_sequence d' = stop_request_sequence d /\
  stop_reply_type d' = stop_reply_type d.
Proof.
  unfold lview, base_view. intros [= -> -> -> -> -> -> -> -> -> -> -> E1 E2 E3 E4 E5 E6 E7].
  unfold ep_key. rewrite E1, E2, E3, E4, E5, E6, E7. by repeat split.
Qed.

Lemma rearm_sound env buf count d :
  lifecycle_inv d -> wlp (rearm_store env buf count) (fun _ => sound (EvRearm env buf count) d) d.
Proof.
  intros Hi. unfold rearm_store.
  destruct (sysfs_streq buf "rearm"); [|by wret; apply sound_refl]. cbn [negb]. wstep.
  destruct (cpu_on_attempted d); [|by wret; apply sound_refl].
  destruct (mailmsg_user_open_count d =? 0); [|by wret; apply sound_refl]. cbn [negb].
  destruct (psci_affinity_info env) as [f|] eqn:Hf; [|by wret; apply sound_refl].
  eapply wlp_step; [by apply run_refresh|]. wstep.
  set (d1 := refreshed _ d).
  assert (Hs : sound (EvRearm env buf count) d d1).
  { apply refreshed_sound; [done|]. by destruct (mailmsg_state d). }
  destruct (affinity_state d1 =? _); [|by wret]. cbn [negb].
  apply wlp_bind. intros quiet d2 E.
  pose proof (pres_on_mb lview _ _ _ _ E) as Hv. cbv beta in Hv.
  pose proof (lifecycle_inv_view _ _ Hv (proj1 Hs)) as Hi2.
  apply lview_parts in Hv as (Hst & _).
  destruct quiet; cbn [negb]; [|wret; split; [done|by rewrite Hst; apply Hs]].
  do 2 wstep. wret. destruct Hi2. split; [|by destruct (mailmsg_state d)].
  split; cbn; done.
Qed.

Lemma send_ok_sequence {C} prio type p len r0 (w : ep_world C) r w' :
  mailmsg_endpoint_send prio type p len r0 w = Some ((0, r), w') -> sr_sequence r <> 0.
Proof.
  unfold mailmsg_endpoint_send. intros H.
  apply run_bind_inv in H as (e & w1 & _ & H). cbv beta in H.
  destruct (tx e) as [dir|]; [|done]. destruct (memory_ops e) as [mo|]; [|done].
  destruct (_ || _); [done|].
  apply run_bind_inv in H as (c & w2 & _ & H). cbv beta in H.
  destruct (Z.eqb_spec c 0) as [->|]; cbn [negb] in H; [|by injection H].
  apply run_bind_inv in H as (seq & w3 & Hseq & H).
  apply run_bind_inv in H as (bytes & w4 & _ & H).
  apply run_bind_inv in H as (qr & w5 & _ & H). cbv beta zeta in H.
  destruct (Z.eqb_spec qr 0) as [->|]; cbn [negb] in H;
    [|by apply run_bind_inv in H as (? & ? & _ & H); injection H].
  do 4 (apply run_bind_inv in H as (? & ? & _ & H)).
  apply run_bind_inv in H as (u & w6 & _ & H). injection H as <- _.
  unfold mailmsg_endpoint_next_sequence, upd_ep in Hseq. cbn in Hseq.
  injection Hseq as <- _. apply next_seq_nonzero.
Qed.

Lemma pres_preflight_rings ps : pres lview (stop_preflight_rings ps).
Proof. induction ps as [|p ps IH]; cbn [stop_preflight_rings]; pres_auto. Qed.
Lemma pres_preflight : pres lview r1_amp_mailmsg_stop_preflight_locked.
Proof.
  pose proof (pres_preflight_rings priorities). unfold r1_amp_mailmsg_stop_preflight_locked.
  pres_auto.
Qed.

(** What a send on the driver's endpoint leaves alone, and its sequence. *)
Lemma driver_send_wlp prio type p len r0 d :
  wlp (on_endpoint (mailmsg_endpoint_send prio type p len r0))
    (fun '(ret, r) d' => lview d' = lview d /\ (ret = 0 -> sr_sequence r <> 0)) d.
Proof.
  intros [ret r] d' E. split; [by apply (pres_on_endpoint lview _ (pres_send _ _ _ _ _)) in E|].
  intros ->. unfold on_endpoint, zoom in E.
  destruct (mailmsg_endpoint_send _ _ _ _ _ _) as [[[z rr] w]|] eqn:Es; [|done].
  injection E as -> -> _. by eapply send_ok_sequence.
Qed.

Lemma stop_sound env buf count d :
  lifecycle_inv d -> wlp (mailmsg_stop_store env buf count) (fun _ => sound (EvStop env buf count) d) d.
Proof.
  intros Hi. unfold mailmsg_stop_store.
  destruct (sysfs_streq buf "stop"); [|by wret; apply sound_refl]. cbn [negb]. wstep.
  destruct (state_is _ R1_AMP_MAILMSG_OFFLINE); [by wret; apply sound_refl|].
  destruct (state_is (mailmsg_state d) R1_AMP_MAILMSG_ACTIVE) eqn:Ha;
    [|by wret; apply sound_refl]. cbn [negb]. apply state_is_eq in Ha.
  apply wlp_bind. intros ret d1 E1.
  pose proof (pres_preflight _ _ _ E1) as Hv. cbv beta in Hv.
  pose proof (sound_view (EvStop env buf count) d d1 Hv Hi) as Hs.
  destruct (ret =? 0); cbn [negb]; [|by wret].
  apply lview_parts in Hv as (Hst & _). rewrite Ha in Hst.
  pose proof (li_peer _ (proj1 Hs) ltac:(by rewrite Hst)) as [Hp1 Hp2].
  pose proof (li_monitor _ (proj1 Hs) ltac:(by rewrite Hst)) as Hmon.
  wstep. apply wlp_bind. eapply wlp_mono; [apply driver_send_wlp|].
  intros [z r] d3 [Hv Hseq]. cbv beta iota. wstep.
  apply lview_parts in Hv as (V1 & V2 & V0 & V3 & V4 & V5 & V6 & _). cbn in V1, V0, V3, V4, V5, V6.
  change (base_view d3 = base_view d1) in V2.
  destruct (Z.eqb_spec z 0) as [->|]; cbn [negb]; wstep; cbv zeta; wret.
  - split; [|rewrite Ha; cbn; by rewrite V1].
    eapply (move_inv d1); cbn; rewrite ?V0, ?V1, ?V4, ?V5, ?V6;
      [apply Hs|by rewrite Hst|exact V2|done..|by intros _; apply Hseq].
  - split; [|by rewrite Ha].
    eapply (move_inv d1); cbn; rewrite ?V0, ?V4, ?V5, ?V6; [apply Hs|by rewrite Hst|exact V2|done..].
Qed.

(** ** The timers *)
Definition timeout_state (st : r1_amp_mailmsg_session_state) : r1_amp_mailmsg_session_state :=
  match st with
  | R1_AMP_MAILMSG_STARTING => R1_AMP_MAILMSG_START_TIMEOUT
  | R1_AMP_MAILMSG_STOPPING => R1_AMP_MAILMSG_STOP_TIMEOUT
  | st => st
  end.

(** [r1_amp_mailmsg_set_timeout_locked] as a function. *)
Definition expired d : r1_amp_cpu_on_data :=
  match mailmsg_state d with
  | R1_AMP_MAILMSG_STARTING =>
      d <| session_result := - ETIMEDOUT |> <| mailmsg_state := R1_AMP_MAILMSG_START_TIMEOUT |>
  | R1_AMP_MAILMSG_STOPPING =>
      d <| stop_result := - ETIMEDOUT |> <| mailmsg_state := R1_AMP_MAILMSG_STOP_TIMEOUT |>
  | _ => d
  end.
Lemma run_set_timeout d :
  r1_amp_mailmsg_set_timeout_locked d = Some (tt, wake_all_readers (expired d)).
Proof. reflexivity. Qed.

Lemma expired_parts d :
  mailmsg_state (expired d) = timeout_state (mailmsg_state d) /\
  base_view (expired d) = base_view d /\ affinity_work (expired d) = affinity_work d /\
  peer_generation (expired d) = peer_generation d /\
  session_generation (expired d) = session_generation d /\
  (mailmsg_state d <> R1_AMP_MAILMSG_STARTING -> session_result (expired d) = session_result d) /\
  uview (expired d) = uview d /\ iview (expired d) = iview d.
Proof. unfold expired. destruct (mailmsg_state d) eqn:E; repeat split; done. Qed.

Lemma set_timeout_sound ev d0 d :
  lifecycle_inv d0 -> lifecycle_pending (mailmsg_state d0) = true ->
  mailmsg_state d = mailmsg_state d0 -> base_view d = base_view d0 ->
  affinity_work d = affinity_work d0 -> peer_generation d = peer_generation d0 ->
  (mailmsg_state d0 <> R1_AMP_MAILMSG_STARTING -> session_result d = session_result d0) ->
  lifecycle_edge ev (mailmsg_state d0) (timeout_state (mailmsg_state d0)) = true ->
  sound ev d0 (wake_all_readers (expired d)) /\
  sound ev d0 (cancel_lifecycle_timeout (wake_all_readers (expired d))).
Proof.
  intros Hi Hp Hst Hb Ha Hg Hr He.
  destruct (wake_all_views (expired d)) as (Hv & _).
  apply lview_parts in Hv as (V1 & V2 & V0 & V3 & V4 & V5 & V6 & _).
  destruct (expired_parts d) as (W1 & W2 & W0 & W3 & W4 & W5 & _).
  pose proof (li_peer _ Hi) as Hpeer. pose proof (li_monitor _ Hi) as Hmon.
  assert (Hsg : session_generation d = session_generation d0)
    by (unfold base_view in Hb; by injection Hb).
  rewrite W2, Hb in V2. rewrite W1, Hst in V1. rewrite W0, Ha in V0. rewrite W3, Hg in V5.
  rewrite W4, Hsg in V4.
  assert (H : forall d', mailmsg_state d' = timeout_state (mailmsg_state d0) ->
    base_view d' = base_view d0 -> affinity_work d' = affinity_work d0 ->
    peer_generation d' = peer_generation d0 -> session_generation d' = session_generation d0 ->
    session_result d' = session_result (expired d) -> sound ev d0 d').
  { intros d' H1 H2 H3 H4 H5 H6. split; [|by rewrite H1].
    apply (move_inv d0); rewrite ?H1, ?H3, ?H4, ?H5, ?H6; try done;
      destruct (mailmsg_state d0) eqn:Es; try done; try (intros _; by apply Hmon).
    - intros _. rewrite W5, Hr by congruence. by apply Hpeer. }
  assert (Hc : forall x, base_view (cancel_lifecycle_timeout x) = base_view x /\
    mailmsg_state (cancel_lifecycle_timeout x) = mailmsg_state x /\
    affinity_work (cancel_lifecycle_timeout x) = affinity_work x /\
    peer_generation (cancel_lifecycle_timeout x) = peer_generation x /\
    session_generation (cancel_lifecycle_timeout x) = session_generation x /\
    session_result (cancel_lifecycle_timeout x) = session_result x) by done.
  split; [by apply H|].
  destruct (Hc (wake_all_readers (expired d))) as (C1 & C2 & C3 & C4 & C5 & C6).
  apply H; etransitivity; first [exact C1 | exact C2 | exact C3 | exact C4 | exact C5 | exact C6 | done].
Qed.

Lemma refreshed_base state d : base_view (refreshed state d) = base_view d.
Proof.
  destruct (refreshed_fields state d) as (E1 & E2 & _ & E4 & E5 & E6 & _).
  unfold base_view. by rewrite E1, E2, E4, E5, E6.
Qed.

(** A refresh in the middle of a handler entered in state [d0]. *)
Lemma offline_sound ev d0 d :
  lifecycle_inv d0 -> monitored (mailmsg_state d0) = true -> base_view d = base_view d0 ->
  mailmsg_state d = R1_AMP_MAILMSG_OFFLINE ->
  lifecycle_edge ev (mailmsg_state d0) R1_AMP_MAILMSG_OFFLINE = true -> sound ev d0 d.
Proof.
  intros Hi Hm Hb Hst He. split; [|by rewrite Hst].
  by apply (move_inv d0); rewrite ?Hst.
Qed.

Lemma pending_monitored st : lifecycle_pending st = true -> monitored st = true.
Proof. by destruct st. Qed.

Lemma timeout_work_sound env d :
  lifecycle_inv d -> is_Some (lifecycle_timeout_work d) ->
  wlp (r1_amp_mailmsg_lifecycle_timeout_work env) (fun _ => sound (EvTimeoutWork env) d)
    (d <| lifecycle_timeout_work := None |>).
Proof.
  intros Hi _. unfold r1_amp_mailmsg_lifecycle_timeout_work. wstep.
  set (d1 := d <| lifecycle_timeout_work := None |>).
  change (mailmsg_state d1) with (mailmsg_state d).
  destruct (lifecycle_pending (mailmsg_state d)) eqn:Hp; cbn [negb].
  2:{ wret. split; [|apply edge_refl]. destruct Hi. split; try done.
      cbn. by rewrite Hp. }
  pose proof (li_monitor _ Hi (pending_monitored _ Hp)) as Hmon.
  destruct (time_before _ _).
  { wret. split; [|apply edge_refl]. by apply (move_inv d); try done; cbn;
      [apply pending_monitored|destruct (mailmsg_state d)|apply li_peer|apply li_stop]. }
  assert (He : lifecycle_edge (EvTimeoutWork env) (mailmsg_state d)
                 (timeout_state (mailmsg_state d)) = true) by by destruct (mailmsg_state d).
  destruct (state_is (mailmsg_state d) R1_AMP_MAILMSG_STOPPING &&
            (stop_reply_type d1 =? MAILMSG_MSG_STOP_READY)) eqn:Hs.
  2:{ cbn [when]. do 2 wstep. rewrite andb_false_l. eapply wlp_run; [apply run_set_timeout|].
      by apply set_timeout_sound. }
  bool_to_prop. apply state_is_eq in H. cbn [when].
  destruct (psci_affinity_info env) as [f|] eqn:Hf.
  2:{ intros a d' E. unfold r1_amp_refresh_affinity_locked in E. by rewrite Hf in E. }
  eapply wlp_step; [by erewrite run_bind_some by (by apply run_refresh)|]. wstep.
  rewrite andb_true_l.
  destruct (state_is _ R1_AMP_MAILMSG_OFFLINE) eqn:Ho.
  - wret. apply state_is_eq in Ho. apply offline_sound; [done|by apply pending_monitored| |done|].
    + by rewrite refreshed_base.
    + by rewrite H.
  - apply state_is_ne in Ho. eapply wlp_run; [apply run_set_timeout|].
    destruct (refreshed_state (f (mpidr d1) 0) d1) as [[Hst _]|(_ & ? & _)]; [|done].
    destruct (refreshed_fields (f (mpidr d1) 0) d1) as
      (_ & _ & E3 & _ & _ & _ & _ & _ & _ & E7 & E8 & _).
    apply set_timeout_sound; try done. by rewrite refreshed_base.
Qed.

Lemma affinity_work_sound env d :
  lifecycle_inv d -> wlp (r1_amp_affinity_work env) (fun _ => sound (EvAffinityWork env) d)
                         (d <| affinity_work := None |>).
Proof.
  intros Hi. unfold r1_amp_affinity_work. wstep.
  set (d1 := d <| affinity_work := None |>). change (mailmsg_state d1) with (mailmsg_state d).
  change (mailmsg_user_removing d1) with (mailmsg_user_removing d). rewrite (li_removing _ Hi).
  destruct (monitored (mailmsg_state d)) eqn:Hm; cbn [negb orb].
  2:{ wret. split; [|apply edge_refl]. destruct Hi. split; try done. cbn. by rewrite Hm. }
  wstep. set (d2 := d1 <| affinity_monitor_count := _ |>).
  destruct (psci_affinity_info env) as [f|] eqn:Hf.
  2:{ intros a d' E. unfold r1_amp_refresh_affinity_locked in E. by rewrite Hf in E. }
  eapply wlp_step; [by apply run_refresh|]. set (st := f (mpidr d2) 0).
  pose proof (refreshed_base st d2) as Hb. change (base_view d2) with (base_view d) in Hb.
  destruct (refreshed_fields st d2) as (_ & _ & _ & E4 & _ & _ & _ & _ & _ & E7 & E8 & E9 & _).
  pose proof (refreshed_state st d2) as Hst.
  change (mailmsg_state d2) with (mailmsg_state d) in Hst.
  change (lifecycle_timeout_work d2) with (lifecycle_timeout_work d) in Hst.
  change (peer_generation d2) with (peer_generation d) in E7.
  change (session_generation d2) with (session_generation d) in E4.
  change (session_result d2) with (session_result d) in E8.
  change (stop_request_sequence d2) with (stop_request_sequence d) in E9. set (d3 := refreshed st d2) in *. clearbody d3.
  assert (H : forall d', mailmsg_state d' = mailmsg_state d3 ->
    base_view d' = base_view d3 -> lifecycle_timeout_work d' = lifecycle_timeout_work d3 ->
    peer_generation d' = peer_generation d3 -> session_generation d' = session_generation d3 ->
    session_result d' = session_result d3 -> stop_request_sequence d' = stop_request_sequence d3 ->
    (monitored (mailmsg_state d3) = true -> is_Some (affinity_work d')) ->
    sound (EvAffinityWork env) d d').
  { intros d' H1 H2 H3 H4 H5 H6 H7 H8. destruct Hst as [[Hs Ht]|(_ & Hs & _)].
    - split; [|rewrite H1, Hs; apply edge_refl].
      apply (move_inv d); rewrite ?H1, ?H2, ?H3, ?H4, ?H5, ?H6, ?H7, ?Hs, ?Ht, ?E4, ?E7, ?E8, ?E9;
        try done; [by destruct (mailmsg_state d)|by rewrite Hs in H8|apply Hi..].
    - apply offline_sound; [done|done|by rewrite H2|by rewrite H1|].
      unfold lifecycle_edge. rewrite Hm. apply orb_true_r. }
  destruct (st <? 0); cbn [when]; do 2 wstep;
    match goal with |- context [monitored (mailmsg_state ?x)] =>
      change (mailmsg_state x) with (mailmsg_state d3);
      change (mailmsg_user_removing x) with (mailmsg_user_removing d3) end;
    (assert (mailmsg_user_removing d3 = false) as ->
      by (unfold base_view in Hb; injection Hb as _ _ _ Hr; rewrite Hr; apply Hi));
    destruct (lifecycle_pending (mailmsg_state d3)); cbn [when]; wstep;
    destruct (monitored (mailmsg_state d3)); cbn [when andb negb]; wret; by apply H.
Qed.

Lemma affinity_show_sound env d :
  lifecycle_inv d -> wlp (affinity_state_show env) (fun _ => sound (EvAffinityShow env) d) d.
Proof.
  intros Hi. unfold affinity_state_show. destruct (psci_affinity_info env) as [f|] eqn:Hf.
  - eapply wlp_step; [by apply run_refresh|]. wret. apply refreshed_sound; [done|].
    intros Hm. unfold lifecycle_edge. rewrite Hm. apply orb_true_r.
  - wret. by apply sound_refl.
Qed.

(** ** The control work *)

(** Where the loop of the control work may stand, having entered in [d0]. *)
Record draining d0 d : Prop := {
  dr_state : mailmsg_state d = mailmsg_state d0;
  dr_base : base_view d = base_view d0;
  dr_affinity : affinity_work d = affinity_work d0;
  dr_timer : lifecycle_timeout_work d = lifecycle_timeout_work d0;
  dr_peer : peer_generation d = peer_generation d0;
  dr_gen : session_generation d = session_generation d0;
  dr_stop : stop_request_sequence d = stop_request_sequence d0;
  dr_result : mailmsg_state d0 <> R1_AMP_MAILMSG_STARTING -> session_result d = session_result d0;
}.

Lemma draining_view d0 d d' : draining d0 d -> lview d' = lview d -> draining d0 d'.
Proof.
  intros [] Hv. apply lview_parts in Hv as (V1 & V2 & V0 & V3 & V4 & V5 & V6 & V7 & _).
  split; rewrite ?V1, ?V2, ?V0, ?V3, ?V4, ?V5, ?V6, ?V7; done.
Qed.

Lemma draining_sound ev d0 d :
  lifecycle_inv d0 -> lifecycle_pending (mailmsg_state d0) = true -> draining d0 d -> sound ev d0 d.
Proof.
  intros Hi Hp []. split; [|rewrite dr_state0; apply edge_refl].
  apply (move_inv d0); rewrite ?dr_state0, ?dr_base0, ?dr_affinity0, ?dr_timer0, ?dr_peer0,
    ?dr_gen0, ?dr_stop0; try done; try apply Hi.
  - by apply pending_monitored.
  - by destruct (mailmsg_state d0).
  - intros Ho. rewrite dr_result0 by by destruct (mailmsg_state d0). by apply Hi.
Qed.

Lemma base_generation d d' : base_view d' = base_view d -> session_generation d' = session_generation d.
Proof. unfold base_view. by intros [= ? _]. Qed.

(** The three ways the control work leaves its operation. *)
Lemma opened_sound fl env d0 d :
  lifecycle_inv d0 -> mailmsg_state d0 = R1_AMP_MAILMSG_STARTING -> draining d0 d ->
  sound (EvControlWork fl env) d0 (cancel_lifecycle_timeout
    (d <| peer_generation := session_generation d |> <| session_result := 0 |>
       <| affinity_seen_on := true |> <| mailmsg_state := R1_AMP_MAILMSG_ACTIVE |>)).
Proof.
  intros Hi Hst []. split; [|by rewrite Hst].
  apply (move_inv d0); cbn; try done; [by rewrite Hst|].
  intros _. rewrite dr_affinity0. apply Hi. by rewrite Hst.
Qed.
Lemma stop_ready_sound ev x y z d0 d :
  lifecycle_inv d0 -> mailmsg_state d0 = R1_AMP_MAILMSG_STOPPING -> draining d0 d ->
  sound ev d0 (mod_lifecycle_timeout x
    (d <| stop_reply_type := y |> <| stop_result := 0 |> <| lifecycle_deadline := z |>)).
Proof.
  intros Hi Hst []. split; [|cbn; rewrite dr_state0; apply edge_refl].
  assert (Hne : mailmsg_state d0 <> R1_AMP_MAILMSG_STARTING) by by rewrite Hst.
  apply (move_inv d0); cbn; rewrite ?dr_state0, ?Hst, ?dr_peer0, ?dr_gen0, ?dr_stop0,
    ?dr_affinity0, ?dr_result0; try done; intros _; apply Hi; by rewrite Hst.
Qed.
Lemma refused_sound fl env x d0 d :
  lifecycle_inv d0 -> mailmsg_state d0 = R1_AMP_MAILMSG_STOPPING -> draining d0 d ->
  sound (EvControlWork fl env) d0 (cancel_lifecycle_timeout
    (d <| stop_reply_type := x |> <| stop_result := - ECANCELED |>
       <| mailmsg_state := R1_AMP_MAILMSG_ACTIVE |>)).
Proof.
  intros Hi Hst []. split; [|by rewrite Hst].
  assert (Hne : mailmsg_state d0 <> R1_AMP_MAILMSG_STARTING) by by rewrite Hst.
  apply (move_inv d0); cbn; rewrite ?dr_peer0, ?dr_gen0, ?dr_stop0, ?dr_affinity0, ?dr_result0;
    try done; [by rewrite Hst|intros _; apply Hi; by rewrite Hst..].
Qed.

Lemma control_loop_sound fl env d0 fuel :
  lifecycle_inv d0 -> lifecycle_pending (mailmsg_state d0) = true ->
  forall k buf d, draining d0 d ->
  wlp (control_loop fuel env k buf) (fun _ => sound (EvControlWork fl env) d0) d.
Proof.
  intros Hi Hp. induction fuel as [|fuel IH]; intros k buf d Hd; cbn [control_loop].
  { wret. by apply draining_sound. }
  apply wlp_bind. intros [ret m] d1 E. cbv beta iota.
  apply (pres_on_endpoint lview _ (pres_receive _ _)) in E. cbv beta in E.
  pose proof (draining_view _ _ _ Hd E) as Hd1. clear E Hd d. rename d1 into d, Hd1 into Hd.
  destruct (_ || _); [wret; by apply draining_sound|].
  destruct (ret =? 0); cbn [negb].
  2:{ destruct (ret =? MAILMSG_ENDPOINT_STALE_FRAME); [by apply IH|].
      eapply wlp_step; [reflexivity|].
      match goal with |- wlp _ _ ?x => assert (Hx : draining d0 x) end.
      { destruct (state_is (mailmsg_state d) R1_AMP_MAILMSG_STARTING) eqn:Es; destruct Hd; split;
          try done; cbn. apply state_is_eq in Es. congruence. }
      destruct (ret <=? MAILMSG_ENDPOINT_INVALID); [wret; by apply draining_sound|by apply IH]. }
  wstep. destruct (time_after_eq _ _).
  { eapply wlp_step; [apply run_set_timeout|]. wstep. wret. destruct Hd.
    apply set_timeout_sound; try done. by destruct (mailmsg_state d0). }
  destruct (state_is (mailmsg_state d) R1_AMP_MAILMSG_STARTING) eqn:Es.
  - apply state_is_eq in Es. rewrite (dr_state _ _ Hd) in Es.
    destruct (session_ready_matches d m); cbn [negb]; [|by apply IH].
    wstep. wret. by apply opened_sound.
  - assert (Hst : mailmsg_state d0 = R1_AMP_MAILMSG_STOPPING).
    { rewrite (dr_state _ _ Hd) in Es. apply state_is_ne in Es. by destruct (mailmsg_state d0). }
    destruct (stop_reply_matches d m); cbn [negb]; [|by apply IH].
    destruct (type_ m =? MAILMSG_MSG_STOP_READY); wstep; wret.
    + by apply stop_ready_sound.
    + by apply refused_sound.
Qed.

Lemma control_work_sound fl env d fuel :
  lifecycle_inv d ->
  wlp (r1_amp_mailmsg_control_work fuel env) (fun _ => sound (EvControlWork fl env) d)
    (d <| control_work := false |>).
Proof.
  intros Hi. unfold r1_amp_mailmsg_control_work. wstep.
  set (d1 := d <| control_work := false |>). change (mailmsg_state d1) with (mailmsg_state d).
  destruct (lifecycle_pending (mailmsg_state d)) eqn:Hp; cbn [negb].
  2:{ wret. by apply sound_view. }
  destruct (time_after_eq _ _); [|by apply control_loop_sound].
  eapply wlp_step; [apply run_set_timeout|]. wstep. wret.
  apply set_timeout_sound; try done. by destruct (mailmsg_state d).
Qed.

Lemma pres_rx_callback i msg : pres lview (r1_amp_mbox_rx_callback i msg).
Proof.
  unfold r1_amp_mbox_rx_callback. pres_auto.
Qed.

(** ** All events *)
Lemma step_sound ev d d' : lifecycle_inv d -> handle ev d = Some d' -> sound ev d d'.
Proof.
  assert (Hrun : forall A (m : D A) x, wlp m (fun _ => sound ev d) x ->
    run_event m x = Some d' -> sound ev d d').
  { intros A m x Hw E. apply run_event_inv in E as [a E]. by apply (Hw a). }
  assert (Hpres : forall A (m : D A), lifecycle_inv d -> pres lview m ->
    run_event m d = Some d' -> sound ev d d').
  { intros A m Hi Hp. apply Hrun. by apply pres_sound. }
  intros Hi. destruct ev; cbn [handle].
  - apply Hpres; [done|]. apply lview_image_write.
  - by apply Hrun, start_sound.
  - by apply Hrun, rearm_sound.
  - by apply Hrun, stop_sound.
  - apply Hpres; [done|]. apply (pres_ping_store lview).
  - apply Hpres; [done|]. apply (pres_doorbell lview).
  - apply Hpres; [done|]. apply (pres_send_ping lview).
  - apply Hpres; [done|]. apply (pres_notify_inject lview).
  - apply Hpres; [done|]. apply (pres_queue_push lview).
  - apply Hpres; [done|]. apply (pres_response_begin lview).
  - apply Hpres; [done|]. apply (pres_response_turn lview).
  - by apply Hrun, affinity_show_sound.
  - apply Hpres; [done|]. apply (pres_stats_show lview).
  - apply Hpres; [done|]. apply (pres_status_show lview).
  - destruct (user_files d !! file); [done|]. destruct (zget _ _); [|done].
    apply Hpres; [done|]. apply lview_open.
  - apply Hpres; [done|]. apply lview_release.
  - apply Hpres; [done|]. apply lview_claim.
  - apply Hpres; [done|]. apply (pres_user_receive lview).
  - apply Hpres; [done|]. apply (pres_user_write lview).
  - apply Hpres; [done|]. apply lview_poll.
  - apply Hpres; [done|]. apply pres_rx_callback.
  - destruct (affinity_work d); [|done]. by apply Hrun, affinity_work_sound.
  - destruct (control_work d); [|done].
    destruct (r1_amp_mailmsg_control_work _ _ _) as [[[] d1]|] eqn:E; [|done..].
    intros [= <-]. by apply (control_work_sound fuel env d fuel Hi true).
  - destruct (lifecycle_timeout_work d) eqn:Et; [|done]. by apply Hrun, timeout_work_sound.
  - intros [= <-]. by apply sound_view.
Qed.

(** ** The initial state *)
Lemma pres_free_channels {T} (v : r1_amp_cpu_on_data -> T) :
  pres (fun s => v (pdata s)) r1_amp_free_mbox_channels.
Proof. unfold r1_amp_free_mbox_channels. pres_auto. Qed.
Lemma pres_goto {T} (v : r1_amp_cpu_on_data -> T) l ret : pres (fun s => v (pdata s)) (probe_goto l ret).
Proof.
  set (w := fun s => v (pdata s)). assert (Hall : forall ms, Forall (pres w) ms -> pres w (for_each ms id)).
  { intros ms H. induction H as [|m ms Hm _ IH]; cbn [for_each]; [apply pres_ret|by apply pres_bind]. }
  assert (Hun : Forall (pres w) (map snd unwind)).
  { unfold w, unwind, device_remove_file. cbn [map snd]. repeat constructor; pres_auto. apply pres_free_channels. }
  unfold probe_goto. apply pres_bind; [|intros _; apply pres_ret]. revert Hun. generalize unwind.
  intros chain. induction chain as [|[l' stmt] chain IH]; cbn [run_from]; intros H; [apply pres_ret|].
  destruct (decide (l' = l)); [by apply Hall|]. apply IH. by apply Forall_cons in H as [_ H].
Qed.
Lemma pres_on_pdata {A T} (v : r1_amp_cpu_on_data -> T) (m : D A) :
  pres v m -> pres (fun s => v (pdata s)) (on_pdata m).
Proof.
  intros Hm s a s'. unfold on_pdata, zoom. destruct (m (pdata s)) as [[b d]|] eqn:E; [|done].
  intros [= <- <-]. by apply Hm in E.
Qed.
Lemma pres_create_files {T} (v : r1_amp_cpu_on_data -> T) (env : probe_env) steps next :
  pres (fun s => v (pdata s)) next -> pres (fun s => v (pdata s)) (create_files env steps next).
Proof.
  intros Hn. induction steps as [|[f l] steps IH]; cbn [create_files]; [done|].
  pose proof (pres_goto v l). unfold device_create_file. cbv zeta. pres_auto.
Qed.
Lemma pres_request {T} (v : r1_amp_cpu_on_data -> T) `{!MbView v} (env : probe_env) idxs :
  pres (fun s => v (pdata s)) (request_from env idxs).
Proof.
  induction idxs as [|i idxs IH]; cbn [request_from].
  - apply pres_bind; [|intros _; apply pres_ret]. apply pres_on_pdata. pres_auto.
  - apply pres_bind; [apply pres_on_pdata; pres_auto|intros _]. cbv zeta.
    destruct (negb _); pres_auto. apply pres_free_channels.
Qed.
Lemma pres_map_regs {T} (v : r1_amp_cpu_on_data -> T) `{!MbView v} (env : probe_env) ctls :
  pres (fun s => v (pdata s)) (r1_amp_map_mbox_regs env ctls).
Proof.
  induction ctls as [|c ctls IH]; cbn [r1_amp_map_mbox_regs]; [apply pres_ret|].
  destruct (pe_map_regs env c); [|apply pres_ret]. apply pres_bind; [|done].
  apply pres_on_pdata. pres_auto.
Qed.
Lemma lview_unregister : pres lview r1_amp_unregister_mailmsg_user.
Proof.
  unfold r1_amp_unregister_mailmsg_user, upd_user_channel, get_user_channel. pres_auto.
Qed.
Lemma lview_register result ps : pres lview (register_from result ps).
Proof.
  pose proof lview_unregister.
  induction ps as [|p ps IH]; cbn [register_from]; unfold upd_user_channel, get_user_channel; pres_auto.
Qed.
Lemma pres_probe_bind {T} (v : r1_amp_cpu_on_data -> T) `{!MbView v} (env : probe_env) :
  (forall result ps, pres v (register_from result ps)) ->
  pres (fun s => v (pdata s)) (probe_bind env).
Proof.
  intros Hreg.
  pose proof (pres_map_regs v env [0]). pose proof (pres_request v env priorities).
  pose proof (pres_goto v err_mailmsg_response).
  pose proof (pres_on_pdata v _ (Hreg (pe_misc_register env) priorities)).
  unfold probe_bind, r1_amp_request_mbox_channels, r1_amp_register_mailmsg_user. pres_auto.
  apply pres_create_files. pres_auto.
Qed.

(** Probe's data come from a launch description with a valid geometry. *)
Lemma probed_launch {T} (v : r1_amp_cpu_on_data -> T) `{!MbView v} d :
  (forall result ps, pres v (register_from result ps)) ->
  probed d -> exists la base size, invalid_geometry la base size = false /\ v d = v (probe_data la).
Proof.
  intros Hreg [env s H]. unfold r1_amp_cpu_on_probe in H.
  destruct (pe_launch env) as [la|]; [|done]. exists la.
  destruct (negb _) in H; [done|]. destruct (pe_memory env) as [[[base size]|]|]; try done.
  exists base, size. destruct (invalid_geometry la base size); [done|]. destruct (negb _) in H; [done|].
  destruct (Z.eqb_spec (pe_memremap env) 0) as [|Hne]; cbn [negb] in H; [|by injection H].
  destruct (probe_bind env _) as [[ret s']|] eqn:E; [|done].
  unfold mbind, option_bind in H. injection H as _ ->. split; [done|]. by apply (pres_probe_bind v) in E.
Qed.
Lemma probed_view {T} (v : r1_amp_cpu_on_data -> T) `{!MbView v} d :
  (forall result ps, pres v (register_from result ps)) ->
  probed d -> exists la, v d = v (probe_data la).
Proof. intros Hreg Hd. destruct (probed_launch v d Hreg Hd) as (la & _ & _ & _ & H). by exists la. Qed.

Lemma probed_inv d : probed d -> lifecycle_inv d.
Proof.
  intros Hd. destruct (probed_view lview d lview_register Hd) as [la Hv].
  eapply lifecycle_inv_view; [done|]. by split.
Qed.

Lemma reachable_inv d : reachable d -> lifecycle_inv d.
Proof.
  intros (d0 & Hp & Hs). eapply star_invariant; [|done|by apply probed_inv].
  intros a b Hi [ev E]. by apply (step_sound ev a b).
Qed.

(** * The properties *)

(** C9. In every reachable state, whatever CPU3 wrote into the shared memory
    and in whatever order callbacks, works, sysfs writes and file operations
    ran: before [start] the session is UNARMED; a session that left UNARMED has
    a successful CPU_ON behind it and its endpoint is bound to its own non-zero
    generation; ACTIVE, STOPPING and STOP_TIMEOUT only occur after the peer
    confirmed this very generation; a pending start or stop has its timeout
    armed, so it cannot hang; and while CPU3 may run the affinity monitor is
    armed. *)
Theorem session_invariant d : reachable d -> lifecycle_inv d.
Proof. apply reachable_inv. Qed.

(** C10. The session state machine has only the edges of [lifecycle_edge]:
    every event changes the state along one of them or not at all.  In
    particular only [start] leaves UNARMED, only the control work opens the
    session or reopens it after a refused stop, only [rearm] returns to
    UNARMED, and no data-plane operation, mailbox callback or write of CPU3
    moves the state. *)
Theorem session_transitions ev d d' :
  reachable d -> handle ev d = Some d' ->
  lifecycle_edge ev (mailmsg_state d) (mailmsg_state d') = true.
Proof. intros Hr E. by apply (step_sound ev d d'); [apply reachable_inv|]. Qed.

Definition is_rearm (ev : driver_event) : bool :=
  match ev with EvRearm _ _ _ => true | _ => false end.
(** The terminal states of a session. *)
Definition closed_for_good (st : r1_amp_mailmsg_session_state) : bool :=
  match st with
  | R1_AMP_MAILMSG_START_TIMEOUT | R1_AMP_MAILMSG_STOP_TIMEOUT | R1_AMP_MAILMSG_OFFLINE => true
  | _ => false
  end.

Lemma closed_step ev a b :
  lifecycle_edge ev a b = true -> is_rearm ev = false -> closed_for_good a = true ->
  b = a \/ b = R1_AMP_MAILMSG_OFFLINE.
Proof.
  unfold lifecycle_edge. destruct (state_is a b) eqn:E; [apply state_is_eq in E; by left|].
  rewrite orb_false_l. intros H Hev Ha. right.
  destruct ev; try done; destruct a; try done; destruct b; done.
Qed.

(** C11. A timeout or a shutdown is terminal: starting from START_TIMEOUT,
    STOP_TIMEOUT or OFFLINE, no sequence of events without a [rearm] - late
    SESSION_READY or stop replies, doorbells, further [start] or [stop] writes
    included - opens the data plane again; the state stays, or goes OFFLINE. *)
Theorem closed_stays_closed evs d d' :
  reachable d -> closed_for_good (mailmsg_state d) = true ->
  Forall (fun ev => is_rearm ev = false) evs -> run_events evs d = Some d' ->
  (mailmsg_state d' = mailmsg_state d \/ mailmsg_state d' = R1_AMP_MAILMSG_OFFLINE) /\
  data_gate (mailmsg_state d') <> 0.
Proof.
  intros Hr Hc Hevs Hrun.
  assert (H : mailmsg_state d' = mailmsg_state d \/ mailmsg_state d' = R1_AMP_MAILMSG_OFFLINE).
  2:{ split; [done|]. destruct H as [-> | ->]; [by destruct (mailmsg_state d)|done]. }
  apply reachable_inv in Hr. revert d Hr Hc Hrun.
  induction Hevs as [|ev evs Hev Hevs IH]; intros d Hi Hc Hrun; cbn in Hrun.
  - injection Hrun as ->. by left.
  - destruct (handle ev d) as [d1|] eqn:E; [|done].
    destruct (step_sound ev d d1 Hi E) as [Hi1 He].
    destruct (closed_step _ _ _ He Hev Hc) as [Hs|Hs].
    + rewrite <-Hs. apply IH; [done|by rewrite Hs|done].
    + right. destruct (IH d1 Hi1 ltac:(by rewrite Hs) Hrun) as [H|H]; by rewrite H.
Qed.

Lemma wake_expired_state d :
  mailmsg_state (wake_all_readers (expired d)) = timeout_state (mailmsg_state d).
Proof.
  destruct (wake_all_views (expired d)) as (Hv & _). apply lview_parts in Hv as (-> & _).
  apply expired_parts.
Qed.
Lemma timeout_closed st :
  lifecycle_pending st = true -> closed_for_good (timeout_state st) = true.
Proof. by destruct st. Qed.

(** C12. No start or stop stays pending: in a reachable pending state the
    timeout work is armed, and when it fires at or after the deadline the
    operation ends - in a timeout, or OFFLINE when a confirmed stop finds the
    core off. *)
Theorem pending_operation_ends env f d :
  reachable d -> lifecycle_pending (mailmsg_state d) = true ->
  psci_affinity_info env = Some f -> time_before (jiffies env 0) (lifecycle_deadline d) = false ->
  exists d', handle (EvTimeoutWork env) d = Some d' /\
    closed_for_good (mailmsg_state d') = true.
Proof.
  intros Hr Hp Hf Ht. pose proof (reachable_inv d Hr) as Hi.
  destruct (li_timer _ Hi Hp) as [x Hx].
  cbn [handle]. rewrite Hx. unfold run_event, r1_amp_mailmsg_lifecycle_timeout_work. step.
  set (d1 := d <| lifecycle_timeout_work := None |>).
  change (mailmsg_state d1) with (mailmsg_state d). rewrite Hp. cbn [negb].
  change (lifecycle_deadline d1) with (lifecycle_deadline d). rewrite Ht.
  destruct (_ && _) eqn:Es; cbn [when].
  - set (d2 := refreshed (f (mpidr d1) 0) d1).
    assert (Hrun : (r1_amp_refresh_affinity_locked env ;; mret tt) d1 = Some (tt, d2))
      by (erewrite run_bind_some by (by apply run_refresh); done).
    step_with Hrun. step. rewrite andb_true_l.
    destruct (state_is (mailmsg_state d2) R1_AMP_MAILMSG_OFFLINE) eqn:Ho.
    + exists d2. split; [done|]. apply state_is_eq in Ho. by rewrite Ho.
    + rewrite run_set_timeout. exists (wake_all_readers (expired d2)). split; [done|]. rewrite wake_expired_state.
      apply timeout_closed. apply state_is_ne in Ho.
      destruct (refreshed_state (f (mpidr d1) 0) d1) as [[Hs _]|(_ & ? & _)]; [|done].
      fold d2 in Hs. by rewrite Hs.
  - step. step. rewrite andb_false_l, run_set_timeout.
    exists (wake_all_readers (expired d1)). split; [done|].
    rewrite wake_expired_state. by apply timeout_closed.
Qed.
End LifecycleSpec.

(** * The properties at a scripted session *)
#[local] Existing Instance host_platform.

Lemma session_invariant_witness : reachable host_active /\ lifecycle_inv host_active.
Proof.
  split; [apply host_active_reachable|]. apply (session_invariant _ host_active_reachable).
Defined.

Lemma session_transitions_witness :
  exists d', handle (EvStop (host_env 300 0) "stop" 4) host_active = Some d' /\
    mailmsg_state d' = R1_AMP_MAILMSG_STOPPING /\
    lifecycle_edge (EvStop (host_env 300 0) "stop" 4) (mailmsg_state host_active)
      (mailmsg_state d') = true.
Proof.
  assert (H : option_map mailmsg_state (handle (EvStop (host_env 300 0) "stop" 4) host_active) =
    Some R1_AMP_MAILMSG_STOPPING) by (vm_compute; reflexivity).
  destruct (handle (EvStop (host_env 300 0) "stop" 4) host_active) as [d'|] eqn:E; [|discriminate H].
  exists d'. split; [done|]. split; [by injection H|].
  apply (session_transitions _ _ _ host_active_reachable E).
Defined.

Lemma closed_stays_closed_witness :
  exists d', run_events [EvControlWork 8 (host_env 100001 0)] host_timed_out = Some d' /\
    (mailmsg_state d' = mailmsg_state host_timed_out \/ mailmsg_state d' = R1_AMP_MAILMSG_OFFLINE) /\
    data_gate (mailmsg_state d') <> 0.
Proof.
  assert (H : option_map mailmsg_state (run_events [EvControlWork 8 (host_env 100001 0)] host_timed_out) =
    Some R1_AMP_MAILMSG_START_TIMEOUT) by (vm_compute; reflexivity).
  destruct (run_events [EvControlWork 8 (host_env 100001 0)] host_timed_out) as [d'|] eqn:E;
    [|discriminate H].
  exists d'. split; [done|].
  apply (closed_stays_closed [EvControlWork 8 (host_env 100001 0)] host_timed_out d'
    host_timed_out_reachable); [vm_compute; reflexivity|by repeat constructor|exact E].
Defined.

Lemma pending_operation_ends_witness :
  exists d', handle (EvTimeoutWork (host_env 100000 0)) host_starting = Some d' /\
    closed_for_good (mailmsg_state d') = true.
Proof.
  apply (pending_operation_ends (host_env 100000 0) (fun _ _ => 0) host_starting
    host_starting_reachable); vm_compute; reflexivity.
Defined.
