(* ===== verification/LoaderSpec.v ===== *)
(** The image loader: sequential chunks land in the carveout exactly as
    written, nothing else is accepted, and [start] waits for the last byte. *)
From S2P Require Import Prelude Protocol Ring Notify Endpoint Frame DriverState DriverLifecycle DriverUser DriverSysfs DriverProbe DriverSpec HostDemo LifecycleSpec.

Lemma splice {A} (a b c e : list A) :
  take (length a + length b) (a ++ b ++ c) ++ e ++ drop (length a + length b + length e) (a ++ b ++ c) =
  a ++ (b ++ e) ++ drop (length e) c.
Proof.
  rewrite (app_assoc a b c), take_app_length', drop_app_ge by (rewrite length_app; lia).
  rewrite length_app. replace (length a + length b + length e - (length a + length b))%nat with (length e) by lia.
  by rewrite <-!app_assoc.
Qed.

Section Loader.
Context {platform : Platform}.
Implicit Types (d : r1_amp_cpu_on_data) (buf : list Z) (chunks : list (list Z)).

(** A writer that goes through the image chunk by chunk, like [dd]. *)
Fixpoint load (off : Z) chunks : D (list Z) :=
  match chunks with
  | [] => mret []
  | buf :: chunks =>
      ret ← image_write buf off;
      rets ← load (off + Z.of_nat (length buf)) chunks;
      mret (ret :: rets)
  end.

(** Ready to take the byte at [k]. *)
Record loading d (k : Z) : Prop := {
  ld_written : image_written d = k;
  ld_range : 0 <= k <= image_size d;
  ld_area : image_size d <= Z.of_nat (length (image (carveout d)));
  ld_u32 : is_u32 (image_size d);
  ld_open : cpu_on_attempted d = false /\ mailmsg_user_removing d = false;
}.

Definition written buf (k : Z) d : r1_amp_cpu_on_data :=
  d <| carveout := carveout d <| image := take (Z.to_nat k) (image (carveout d)) ++ buf ++
         drop (Z.to_nat k + length buf) (image (carveout d)) |> |>
    <| image_written := k + Z.of_nat (length buf) |>.

Lemma run_image_write buf k d :
  loading d k -> k + Z.of_nat (length buf) <= image_size d ->
  image_write buf k d = Some (Z.of_nat (length buf), written buf k d) /\
  loading (written buf k d) (k + Z.of_nat (length buf)).
Proof.
  intros [Hk Hr Ha Hu [Hat Hrm]] Hfit. unfold is_u32 in Hu. split.
  - unfold image_write. run. rewrite Hrm, Hat, Hk, Z.eqb_refl. cbn [negb].
    unfold u64 at 1. rewrite Z.mod_small, (proj2 (Z.ltb_ge _ _)) by lia.
    unfold memcpy_at. rewrite (proj2 (Z.leb_le 0 k)), (proj2 (Z.leb_le _ _)) by lia. cbn [andb].
    run. unfold written. cbn. rewrite Hk. unfold u64. rewrite Z.mod_small by lia. reflexivity.
  - split; [done|cbn; lia| |done|done]. cbn [carveout image image_size written set_field].
    rewrite !length_app, length_take, length_drop. lia.
Qed.

Lemma image_refused_offset buf off k d : loading d k -> off <> k -> image_write buf off d = Some (- ESPIPE, d).
Proof.
  intros [Hk _ _ _ [Hat Hrm]] Hoff. unfold image_write. run. rewrite Hrm, Hat, Hk.
  by rewrite (proj2 (Z.eqb_neq off k)).
Qed.
Lemma image_refused_size buf k d :
  loading d k -> image_size d < k + Z.of_nat (length buf) -> image_write buf k d = Some (- EFBIG, d).
Proof.
  intros [Hk Hr _ Hu [Hat Hrm]] Hbig. unfold is_u32 in Hu. unfold image_write. run. rewrite Hrm, Hat, Hk, Z.eqb_refl.
  cbn [negb]. unfold u64 at 1. rewrite Z.mod_small, (proj2 (Z.ltb_lt _ _)) by lia. done.
Qed.
Lemma start_refused env (buf : string) count k d :
  loading d k -> k < image_size d -> sysfs_streq buf "start" = true ->
  start_store env buf count d = Some (- ENODATA, d).
Proof.
  intros [Hk Hr _ _ [Hat Hrm]] Hlt Hs. unfold start_store. rewrite Hs. cbn [negb]. step. rewrite Hrm, Hat, Hk.
  by rewrite (proj2 (Z.eqb_neq k (image_size d))) by lia.
Qed.

(** What the loader leaves alone. *)
Definition rest d :=
  (lview d, uview d, mb d, image_size d, c_shared (carveout d), status_words (carveout d)).

Lemma run_load chunks k d :
  loading d k -> k + Z.of_nat (length (concat chunks)) <= image_size d ->
  exists d', load k chunks d = Some (map (fun buf => Z.of_nat (length buf)) chunks, d') /\
    loading d' (k + Z.of_nat (length (concat chunks))) /\ rest d' = rest d /\
    image (carveout d') = take (Z.to_nat k) (image (carveout d)) ++ concat chunks ++
      drop (Z.to_nat k + length (concat chunks)) (image (carveout d)).
Proof.
  revert k d. induction chunks as [|buf chunks IH]; intros k d Hl Hfit; cbn [concat] in *.
  - exists d. cbn [length] in *. rewrite Z.add_0_r, Nat.add_0_r. split; [done|]. split; [done|]. split; [done|].
    cbn. by rewrite take_drop.
  - rewrite length_app in Hfit. destruct (run_image_write buf k d Hl ltac:(lia)) as [R Hl1].
    destruct (IH _ _ Hl1) as (d' & R' & Hl' & Hrest & Him); [cbn [image_size written set_field]; lia|].
    exists d'. split; [|split; [|split]].
    + cbn [load map]. rewrite (run_bind_some _ _ _ _ _ R). by rewrite (run_bind_some _ _ _ _ _ R').
    + rewrite length_app, Nat2Z.inj_add, Z.add_assoc. exact Hl'.
    + by rewrite Hrest.
    + rewrite Him. cbn [carveout image written set_field]. rewrite length_app.
      destruct Hl as [_ Hr Ha _ _].
      assert (Hk : length (take (Z.to_nat k) (image (carveout d))) = Z.to_nat k) by (rewrite length_take; lia).
      rewrite Z2Nat.inj_add, Nat2Z.id by lia.
      pose proof (splice (take (Z.to_nat k) (image (carveout d))) buf
        (drop (Z.to_nat k + length buf) (image (carveout d))) (concat chunks)) as Hs.
      rewrite Hk in Hs. etransitivity; [exact Hs|]. rewrite drop_drop. do 2 f_equal. apply (f_equal (fun n => drop n _)). lia.
Qed.

(** Where [probe] leaves the loader. *)
Definition pview d :=
  (image_written d, image_size d, image (carveout d), cpu_on_attempted d, mailmsg_user_removing d).
Instance pview_mb : MbView pview.
Proof. by intros d b. Qed.
Lemma pview_unregister : pres pview r1_amp_unregister_mailmsg_user.
Proof. unfold r1_amp_unregister_mailmsg_user, upd_user_channel, get_user_channel. pres_auto. Qed.
Lemma pview_register result ps : pres pview (register_from result ps).
Proof.
  pose proof pview_unregister.
  induction ps as [|p ps IH]; cbn [register_from]; unfold upd_user_channel, get_user_channel; pres_auto.
Qed.
Lemma probed_loading d : probed d -> is_u32 (image_size d) -> loading d 0 /\ 0 < image_size d.
Proof.
  intros Hd Hu. destruct (probed_launch pview d pview_register Hd) as (la & base & size & Hg & Hv).
  injection Hv as Hw Hsz Him Hat Hrm. unfold invalid_geometry in Hg. bool_to_prop.
  unfold is_u32 in Hu. split; [|lia]. split; [done|lia| |done|done].
  rewrite Him. cbn. rewrite length_replicate. lia.
Qed.

(** C38. The image is loaded in order and completely.  On a probed driver,
    writing any sequence of chunks that fits the image size, each at the offset
    where the one before ended, takes every byte: the image area starts with
    exactly the concatenation of the chunks, its other bytes and the rest of
    the driver's data are untouched.  After that a write at any other offset
    is refused with -ESPIPE and one that passes the image size with -EFBIG,
    neither changing anything, and [start] is refused with -ENODATA until the
    image is complete. *)
Theorem image_loads_in_order d chunks :
  let total := Z.of_nat (length (concat chunks)) in
  probed d -> is_u32 (image_size d) -> total <= image_size d ->
  exists d', load 0 chunks d = Some (map (fun buf => Z.of_nat (length buf)) chunks, d') /\
    image_written d' = total /\ rest d' = rest d /\
    image (carveout d') = concat chunks ++ drop (length (concat chunks)) (image (carveout d)) /\
    (forall buf off, off <> total -> image_write buf off d' = Some (- ESPIPE, d')) /\
    (forall buf, image_size d < total + Z.of_nat (length buf) -> image_write buf total d' = Some (- EFBIG, d')) /\
    (forall env (buf : string) count, total < image_size d -> sysfs_streq buf "start" = true ->
       start_store env buf count d' = Some (- ENODATA, d')).
Proof.
  intros total Hd Hu Hfit. destruct (probed_loading d Hd Hu) as [Hl _].
  destruct (run_load chunks 0 d Hl Hfit) as (d' & R & Hl' & Hrest & Him). fold total in Hl'.
  assert (Hsz : image_size d' = image_size d) by exact (f_equal (fun r => snd (fst (fst r))) Hrest).
  exists d'. split; [exact R|]. split; [apply Hl'|]. split; [exact Hrest|]. split; [exact Him|].
  split; [intros; by eapply image_refused_offset|]. rewrite <-Hsz.
  split; [intros; by eapply image_refused_size|]. intros. by eapply start_refused.
Qed.
End Loader.

(** * The property at a concrete image *)
Lemma image_loads_in_order_witness :
  exists d', load 0 [[1; 2]; [3]] host_probed = Some ([2; 1], d') /\
    take 3 (image (carveout d')) = [1; 2; 3] /\ image_written d' = 3.
Proof.
  destruct (image_loads_in_order (platform := host_platform) host_probed [[1; 2]; [3]] host_probed_ok)
    as (d' & R & Hw & _ & Him & _).
  - vm_compute. done.
  - vm_compute. discriminate.
  - exists d'. split; [exact R|]. split; [rewrite Him; reflexivity|exact Hw].
Defined.
