(* ===== verification/ControlSpec.v ===== *)
(** What the control work makes of the frames CPU3 left in its p0 ring: which
    frame opens a session or settles a stop, and that the drain terminates. *)
From S2P Require Import Prelude Protocol Ring Notify Endpoint Frame DriverState DriverLifecycle DriverUser DriverSysfs DriverProbe DriverSpec HostDemo LifecycleSpec.

(** The ring the control work drains. *)
Definition control_ring : ring_ptr := mk_ring_ptr Cpu3ToLinux MAILMSG_PRIO_CRITICAL.

Section ControlSpec.
Context {platform : Platform} {coherent : CoherentOps mailmsg_linux_memory_ops}.
Implicit Types (d : r1_amp_cpu_on_data) (env : kenv) (q : list mailmsg_message).

(** The driver's endpoint is bound to its session and the block still is. *)
Record linux_bound d : Prop := {
  lb_key : ep_key (mailmsg_endpoint_ d) = linux_key (session_generation d);
  lb_gen : session_generation d <> 0;
  lb_session : session_ok (mailmsg_endpoint_ d) (c_shared (carveout d));
}.

Lemma linux_ready d :
  linux_bound d ->
  ep_ready (mailmsg_endpoint_ d) mailmsg_linux_memory_ops LinuxToCpu3 mailmsg_linux_notify.
Proof.
  intros [Hk Hg _]. unfold ep_key, linux_key, ep_key in Hk.
  injection Hk as K1 K2 K3 K4 K5 K6 K7. split; try done; by rewrite ?K5, ?K6.
Qed.
Lemma linux_generation d : linux_bound d -> ep_generation (mailmsg_endpoint_ d) = session_generation d.
Proof. intros [Hk _ _]. unfold ep_key, linux_key, ep_key in Hk. by injection Hk. Qed.

(** A frame that is intact, of this session, and settles the pending operation. *)
Definition settles d (m : mailmsg_message) : bool :=
  (frame_verdict m =? 0) && (generation m =? session_generation d) &&
  (if state_is (mailmsg_state d) R1_AMP_MAILMSG_STARTING
   then session_ready_matches d m else stop_reply_matches d m).

(** The first such frame of a queue, with the frames behind it. *)
Fixpoint first_settling d q : option (mailmsg_message * list mailmsg_message) :=
  match q with
  | [] => None
  | m :: q => if settles d m then Some (m, q) else first_settling d q
  end.

(** What the control work does with it. *)
Definition settle env (k : nat) (m : mailmsg_message) d : r1_amp_cpu_on_data :=
  if state_is (mailmsg_state d) R1_AMP_MAILMSG_STARTING then
    cancel_lifecycle_timeout
      (d <| peer_generation := session_generation d |> <| session_result := 0 |>
         <| affinity_seen_on := true |> <| mailmsg_state := R1_AMP_MAILMSG_ACTIVE |>)
  else if type_ m =? MAILMSG_MSG_STOP_READY then
    mod_lifecycle_timeout (msecs_to_jiffies R1_AMP_LIFECYCLE_TIMEOUT_MS)
      (d <| stop_reply_type := type_ m |> <| stop_result := 0 |>
         <| lifecycle_deadline :=
              u64 (jiffies env (S k) + msecs_to_jiffies R1_AMP_LIFECYCLE_TIMEOUT_MS) |>)
  else
    cancel_lifecycle_timeout
      (d <| stop_reply_type := type_ m |> <| stop_result := - ECANCELED |>
         <| mailmsg_state := R1_AMP_MAILMSG_ACTIVE |>).

(** [d'] differs from [d] by frames drained from the control ring, counters
    and the result words. *)
Record drained d d' : Prop := {
  dn_bound : linux_bound d';
  dn_draining : draining d d';
  dn_deadline : lifecycle_deadline d' = lifecycle_deadline d;
  dn_rings : same_but control_ring (c_shared (carveout d)) (c_shared (carveout d'));
}.

Lemma drained_trans d1 d2 d3 : drained d1 d2 -> drained d2 d3 -> drained d1 d3.
Proof.
  intros [B1 G1 D1 R1] [B2 G2 D2 R2]. split; [done| |congruence|by eapply same_but_trans].
  destruct G1 as [S1 B1' A1 T1 P1 E1 Q1 U1], G2 as [S2 B2' A2 T2 P2 E2 Q2 U2].
  split; try congruence. intros Hne. rewrite U2 by congruence. by apply U1.
Qed.

Lemma drained_receive d w :
  linux_bound d -> ep_key (ep w) = ep_key (mailmsg_endpoint_ d) ->
  same_but control_ring (c_shared (carveout d)) (shm w) ->
  lview (endpoint_back w d) = lview d /\ drained d (endpoint_back w d).
Proof.
  intros [Hk Hg Hs] Hw Hsame.
  assert (Hv : lview (endpoint_back w d) = lview d) by (unfold lview; cbn; by rewrite Hw).
  split; [done|].
  split; [| |done|done].
  - split; cbn; [by rewrite Hw|done|]. unfold session_ok in *. unfold ep_key in Hw.
    injection Hw as _ _ _ _ _ -> _. destruct Hsame as (-> & -> & -> & _). done.
  - apply (draining_view d d); [by split|done].
Qed.

(** One receive of the driver, on any priority. *)
Lemma run_linux_receive d i buf q :
  linux_bound d -> 0 <= i < 4 -> represents (mk_ring_ptr Cpu3ToLinux i) (c_shared (carveout d)) q ->
  match q with
  | [] => on_endpoint (mailmsg_endpoint_receive i buf) d =
          Some ((MAILMSG_RING_EMPTY, buf), endpoint_back (endpoint_world d) d)
  | m :: q' => exists w,
      on_endpoint (mailmsg_endpoint_receive i buf) d =
      Some ((received_code (mailmsg_endpoint_ d) m, m), endpoint_back w d) /\
      represents (mk_ring_ptr Cpu3ToLinux i) (shm w) q' /\ ep_key (ep w) = ep_key (mailmsg_endpoint_ d) /\
      same_but (mk_ring_ptr Cpu3ToLinux i) (c_shared (carveout d)) (shm w)
  end.
Proof.
  intros Hb Hi Hq. pose proof (linux_ready d Hb) as Hr. pose proof (lb_session d Hb) as Hs.
  pose proof (run_receive mailmsg_linux_memory_ops LinuxToCpu3 mailmsg_linux_notify
    (endpoint_world d) i buf q Hr Hs Hi Hq) as H.
  destruct q as [|m q'].
  - unfold on_endpoint, zoom. by rewrite H.
  - destruct H as (sh' & Hrep & Hsame & H). unfold on_endpoint, zoom. rewrite H.
    eexists. split; [reflexivity|]. split; [done|]. split; [|done].
    cbn. unfold ep_key. cbn. by rewrite length_zupd.
Qed.
(** One receive of the control work. *)
Lemma run_control_receive d buf q :
  linux_bound d -> represents control_ring (c_shared (carveout d)) q ->
  match q with
  | [] => on_endpoint (mailmsg_endpoint_receive MAILMSG_PRIO_CRITICAL buf) d =
          Some ((MAILMSG_RING_EMPTY, buf), endpoint_back (endpoint_world d) d)
  | m :: q' => exists w,
      on_endpoint (mailmsg_endpoint_receive MAILMSG_PRIO_CRITICAL buf) d =
      Some ((received_code (mailmsg_endpoint_ d) m, m), endpoint_back w d) /\
      represents control_ring (shm w) q' /\ ep_key (ep w) = ep_key (mailmsg_endpoint_ d) /\
      same_but control_ring (c_shared (carveout d)) (shm w)
  end.
Proof. intros Hb Hq. by apply run_linux_receive. Qed.

Lemma received_code_cases d m :
  linux_bound d ->
  let code := received_code (mailmsg_endpoint_ d) m in
  (code =? 0) = (frame_verdict m =? 0) && (generation m =? session_generation d) /\
  (code =? MAILMSG_RING_EMPTY) || (code =? MAILMSG_RING_INCOMPLETE) = false /\
  (code = MAILMSG_ENDPOINT_STALE_FRAME \/ (code <=? MAILMSG_ENDPOINT_INVALID) = false).
Proof.
  intros Hb. cbv zeta. unfold received_code. rewrite (linux_generation d Hb). unfold frame_verdict.
  destruct (frame_invalid m), (crc32 m =? mailmsg_frame_crc32 m),
    (generation m =? session_generation d); cbn; auto.
Qed.

(** What the loop does from [d0], told of the queue [q] and the state [d] it
    was in when [q] waited. *)
Definition loop_outcome env d fuel k buf d0 q : Prop :=
  exists d' k', drained d d' /\
    match first_settling d q with
    | Some (m, rest) => represents control_ring (c_shared (carveout d')) rest /\
        control_loop fuel env k buf d0 = Some (true, settle env k' m d')
    | None => represents control_ring (c_shared (carveout d')) [] /\
        control_loop fuel env k buf d0 = Some (true, d')
    end.

Lemma first_settling_draining d d2 q : draining d d2 -> first_settling d2 q = first_settling d q.
Proof.
  intros Hdr. induction q as [|m q IH]; [done|]. cbn [first_settling].
  rewrite IH. unfold settles, session_ready_matches, stop_reply_matches.
  by rewrite (dr_state _ _ Hdr), (dr_gen _ _ Hdr), (dr_stop _ _ Hdr).
Qed.
(** A frame that does not settle is passed over. *)
Lemma outcome_skip env d fuel k buf d2 m q :
  drained d d2 -> settles d m = false -> loop_outcome env d2 fuel k buf d2 q -> loop_outcome env d fuel k buf d2 (m :: q).
Proof.
  intros Hd Hns (d' & k' & Hd' & H). exists d', k'. split; [by eapply drained_trans|].
  cbn [first_settling]. rewrite Hns. by rewrite <-(first_settling_draining d d2) by apply Hd.
Qed.
(** A defective frame leaves its code in the result of the operation. *)
Lemma drained_result d d1 err : mailmsg_state d1 = mailmsg_state d -> drained d d1 -> drained d
  (if state_is (mailmsg_state d) R1_AMP_MAILMSG_STARTING then d1 <| session_result := err |> else d1 <| stop_result := err |>).
Proof.
  intros Hst [Hb1 Hdr Hdl Hr]. destruct (state_is (mailmsg_state d) R1_AMP_MAILMSG_STARTING) eqn:E;
    (split; [by destruct Hb1| |exact Hdl|exact Hr]); destruct Hdr; split; try done.
  apply state_is_eq in E. intros Hne. by destruct (Hne E).
Qed.

(** The loop, started in a pending state before the deadline. *)
Lemma control_loop_spec env q : forall fuel k buf d,
  (length q < fuel)%nat -> linux_bound d -> lifecycle_pending (mailmsg_state d) = true ->
  represents control_ring (c_shared (carveout d)) q ->
  (forall k, time_after_eq (jiffies env k) (lifecycle_deadline d) = false) -> loop_outcome env d fuel k buf d q.
Proof.
  induction q as [|m q IH]; intros fuel k buf d Hf Hb Hp Hq Ht;
    (destruct fuel as [|fuel]; [cbn in Hf; lia|]); unfold loop_outcome; cbn [control_loop];
    pose proof (run_control_receive d buf _ Hb Hq) as Hrun.
  { exists (endpoint_back (endpoint_world d) d), k.
    destruct (drained_receive d (endpoint_world d) Hb) as [_ Hd]; [done..|]. split; [done|].
    split; [done|]. step_with Hrun. reflexivity. }
  destruct Hrun as (w & Hrun & Hrep & Hkey & Hsame).
  destruct (drained_receive d w Hb Hkey Hsame) as [Hv Hd].
  step_with Hrun. destruct (received_code_cases d m Hb) as (Hz & He & Hi). cbv zeta in *.
  set (code := received_code _ m) in *. set (d1 := endpoint_back w d) in *.
  assert (Hst1 : mailmsg_state d1 = mailmsg_state d) by done.
  assert (Hskip : forall k buf d2, drained d d2 -> represents control_ring (c_shared (carveout d2)) q ->
    settles d m = false -> loop_outcome env d fuel k buf d2 (m :: q)).
  { intros k2 buf2 d2 Hd2 Hq2 Hns. apply outcome_skip; [done..|]. pose proof Hd2 as [Hb2 Hdr2 Hdl2 _].
    apply IH; [cbn in Hf; lia|done|by rewrite (dr_state _ _ Hdr2)|done|intros k3; by rewrite Hdl2]. }
  rewrite He. destruct (code =? 0) eqn:Ec; cbn [negb].
  - (* an intact frame of this session *)
    step. change (lifecycle_deadline d1) with (lifecycle_deadline d). rewrite Ht, Hst1.
    change (session_ready_matches d1 m) with (session_ready_matches d m).
    change (stop_reply_matches d1 m) with (stop_reply_matches d m).
    assert (Hset : settles d m = if state_is (mailmsg_state d) R1_AMP_MAILMSG_STARTING
      then session_ready_matches d m else stop_reply_matches d m) by (unfold settles; by rewrite <-Hz).
    destruct (settles d m) eqn:Es; [|destruct (state_is _ _); rewrite <-Hset; cbn [negb]; by apply Hskip].
    cbn [first_settling]. rewrite Es. exists d1, k. split; [done|]. split; [done|]. unfold settle. rewrite Hst1.
    destruct (state_is _ _); rewrite <-Hset; cbn [negb]; [reflexivity|by destruct (type_ m =? _)].
  - assert (Hns : settles d m = false) by (unfold settles; by rewrite <-Hz).
    destruct (code =? MAILMSG_ENDPOINT_STALE_FRAME) eqn:Estale; [by apply Hskip|].
    destruct Hi as [Hi|Hi]; [by rewrite Hi in Estale|].
    erewrite run_bind_some by reflexivity. cbv beta iota. rewrite Hi, Hst1.
    apply Hskip; [by apply drained_result|by destruct (state_is _ _)|done].
Qed.

(** * The properties *)

(** The drain up to the first settling frame. *)
Lemma run_control_work env d q fuel :
  linux_bound d -> lifecycle_pending (mailmsg_state d) = true ->
  represents control_ring (c_shared (carveout d)) q ->
  (forall k, time_after_eq (jiffies env k) (lifecycle_deadline d) = false) -> (8 <= fuel)%nat ->
  exists d' k, drained d d' /\
    match first_settling d q with
    | Some (m, rest) => represents control_ring (c_shared (carveout d')) rest /\
        r1_amp_mailmsg_control_work fuel env d = Some (true, settle env k m d')
    | None => represents control_ring (c_shared (carveout d')) [] /\
        r1_amp_mailmsg_control_work fuel env d = Some (true, d')
    end.
Proof.
  intros Hb Hp Hq Ht Hf.
  assert (Hlen : (length q < fuel)%nat).
  { destruct Hq as (r & _ & _ & <- & _). rewrite length_ring_contents.
    pose proof (ring_length_bound r). lia. }
  destruct (control_loop_spec env q fuel 1 message_zero d Hlen Hb Hp Hq Ht) as (d' & k & Hd & H).
  exists d', k. split; [done|]. unfold r1_amp_mailmsg_control_work.
  destruct (first_settling d q) as [[m rest]|]; (destruct H as [H1 H2]; split; [done|]);
    step; rewrite Hp, Ht; exact H2.
Qed.

(** C13. The control work, run in a pending state before the deadline, drains
    CPU3's p0 ring up to the first frame that settles the operation - intact,
    of this session, SESSION_READY with this generation and version while
    STARTING, a reply to this very stop request while STOPPING - and acts on it
    alone ([settle]: ACTIVE; or the CPU_OFF interval; or ACTIVE again after a
    refusal).  Frames that are stale, corrupted or of another kind are dropped
    without changing the state, and with no settling frame the ring is empty
    and the operation still pending.  Eight turns of the loop are enough for the
    frames that are there when it begins; a frame pushed meanwhile counts as one
    that comes after. *)
Theorem control_work_settles env d q fuel :
  linux_bound d -> lifecycle_pending (mailmsg_state d) = true ->
  represents control_ring (c_shared (carveout d)) q ->
  (forall k, time_after_eq (jiffies env k) (lifecycle_deadline d) = false) -> (8 <= fuel)%nat ->
  exists d' k, drained d d' /\
    match first_settling d q with
    | Some (m, rest) => represents control_ring (c_shared (carveout d')) rest /\
        r1_amp_mailmsg_control_work fuel env d = Some (true, settle env k m d')
    | None => represents control_ring (c_shared (carveout d')) [] /\
        r1_amp_mailmsg_control_work fuel env d = Some (true, d')
    end.
Proof. apply run_control_work. Qed.

Lemma next_generation_fresh g : next_generation g <> g.
Proof.
  unfold next_generation. destruct (Z.eqb_spec (u32 (g + 1)) 0); unfold u32 in *; lia.
Qed.

(** The session block of a start has empty rings in both directions. *)
Lemma new_session_block_empty gen dir i :
  0 <= i < 4 -> represents (mk_ring_ptr dir i) (new_session_block gen) [].
Proof.
  intros Hi. destruct (represents_zero dir i Hi) as (r & Hr & H). exists r. split; [|done].
  by destruct dir.
Qed.

(** A [start] whose CPU_ON succeeds, with the values later steps depend on. *)
Lemma refreshed_unarmed st d :
  mailmsg_state d = R1_AMP_MAILMSG_UNARMED -> refreshed st d = sampled st d.
Proof.
  intros H. unfold refreshed. cbv zeta. destruct (_ && _); [|done]. unfold offlined.
  assert (E : mailmsg_state (sampled st d) = R1_AMP_MAILMSG_UNARMED)
    by (unfold sampled; cbv zeta; by destruct (_ || _)).
  by rewrite E.
Qed.
Lemma run_started env buf count d f g :
  reachable d -> sysfs_streq buf "start" = true -> cpu_on_attempted d = false ->
  image_written d = image_size d -> psci_affinity_info env = Some f ->
  psci_cpu_on env = Some g -> f (mpidr d) 0 = PSCI_0_2_AFFINITY_LEVEL_OFF -> g (mpidr d) (entry d) = 0 ->
  exists d', start_store env buf count d = Some (count, d') /\ linux_bound d' /\
    (forall dir i, 0 <= i < 4 -> represents (mk_ring_ptr dir i) (c_shared (carveout d')) []) /\
    mailmsg_state d' = R1_AMP_MAILMSG_STARTING /\
    session_generation d' = next_generation (session_generation d) /\
    lifecycle_deadline d' = u64 (jiffies env 0 + msecs_to_jiffies R1_AMP_LIFECYCLE_TIMEOUT_MS) /\
    mbox (mb d') = mbox (mb d) /\ mbox_regs (mb d') = mbox_regs (mb d).
Proof.
  intros Hr Hbuf Hatt Himg Hf Hg Hoff Hon. pose proof (reachable_inv d Hr) as Hi.
  pose proof (run_start env buf count d f g Hbuf (li_removing _ Hi) Hatt Himg Hf Hg
    (li_stats _ Hi) Hoff) as Hrun. cbv zeta in Hrun.
  rewrite (refreshed_unarmed _ d (li_attempted _ Hi Hatt)) in Hrun.
  change (sampled PSCI_0_2_AFFINITY_LEVEL_OFF d) with
    (d <| affinity_state := PSCI_0_2_AFFINITY_LEVEL_OFF |> <| affinity_queried := true |>) in Hrun.
  match type of Hrun with context [bound ?x] => set (d0 := x) in * end.
  change (mpidr (starting (bound d0))) with (mpidr d) in Hrun.
  change (entry (starting (bound d0))) with (entry d) in Hrun. rewrite Hon in Hrun.
  exists (launched env 0 (starting (bound d0))). split; [exact Hrun|].
  pose proof (next_generation_nonzero (session_generation d)) as Hz.
  pose proof (new_session_block_empty (next_generation (session_generation d))) as He.
  split; [by split|]. split; [exact He|]. by repeat split.
Qed.

(** C14. A [start] that passes its guards and whose CPU_ON succeeds leaves a
    session nobody has used: a fresh non-zero generation in the shared block
    and in the endpoint, all eight rings empty, the endpoint bound and valid,
    STARTING with its timeout and affinity monitor armed, and the data plane
    closed until CPU3 reports.  If CPU_ON fails the driver is UNARMED with its
    error, and neither work is armed anew. *)
Theorem start_establishes_session env buf count d f g :
  reachable d -> sysfs_streq buf "start" = true -> cpu_on_attempted d = false ->
  image_written d = image_size d -> psci_affinity_info env = Some f ->
  psci_cpu_on env = Some g -> f (mpidr d) 0 = PSCI_0_2_AFFINITY_LEVEL_OFF ->
  exists d' r, start_store env buf count d = Some (if r =? 0 then count else r, d') /\
    cpu_on_ret d' = r /\ session_generation d' <> session_generation d /\
    linux_bound d' /\
    (forall dir i, 0 <= i < 4 -> represents (mk_ring_ptr dir i) (c_shared (carveout d')) []) /\
    data_gate (mailmsg_state d') <> 0 /\
    if r =? 0
    then mailmsg_state d' = R1_AMP_MAILMSG_STARTING /\ is_Some (lifecycle_timeout_work d') /\
         is_Some (affinity_work d') /\ peer_generation d' = 0
    else mailmsg_state d' = R1_AMP_MAILMSG_UNARMED /\ session_result d' = r.
Proof.
  intros Hr Hbuf Hatt Himg Hf Hg Hoff. pose proof (reachable_inv d Hr) as Hi.
  pose proof (run_start env buf count d f g Hbuf (li_removing _ Hi) Hatt Himg Hf Hg
    (li_stats _ Hi) Hoff) as Hrun. cbv zeta in Hrun.
  destruct (refreshed_fields PSCI_0_2_AFFINITY_LEVEL_OFF d) as (_ & _ & _ & E4 & _).
  set (d0 := refreshed PSCI_0_2_AFFINITY_LEVEL_OFF d) in *.
  set (r := g _ _) in Hrun. exists (launched env r (starting (bound d0))), r.
  split; [exact Hrun|]. clear Hrun.
  unfold launched. rewrite <-E4. pose proof (next_generation_fresh (session_generation d0)) as Hn.
  pose proof (next_generation_nonzero (session_generation d0)) as Hz.
  pose proof (new_session_block_empty (next_generation (session_generation d0))) as He.
  destruct (r =? 0); (split; [done|]; split; [done|]; split; [by split|]; split; [exact He|]); done.
Qed.

Lemma endpoint_back_id d : endpoint_back (endpoint_world d) d = d.
Proof. destruct d as [? ? c]. by destruct c. Qed.

(** The stop preflight of a bound session with no device open. *)
Lemma run_preflight d q :
  linux_bound d -> mailmsg_user_open_count d = 0 ->
  represents control_ring (c_shared (carveout d)) q ->
  r1_amp_mailmsg_stop_preflight_locked d =
  Some (match q with [] => 0 | _ => - EBUSY end, d).
Proof.
  intros Hb Ho Hq. pose proof (linux_ready d Hb) as Hr.
  unfold r1_amp_mailmsg_stop_preflight_locked. step. rewrite Ho, Z.eqb_refl. cbn [negb].
  rewrite (ready_tx _ _ _ _ Hr), (ready_rx _ _ _ _ Hr).
  assert (H : on_endpoint (mailmsg_endpoint_has_received 0) d =
              Some (match q with [] => 0 | _ => 1 end, d)).
  { unfold on_endpoint, zoom.
    rewrite (run_has_received mailmsg_linux_memory_ops LinuxToCpu3 mailmsg_linux_notify
      (endpoint_world d) 0 q Hr
      (lb_session d Hb) ltac:(by split) Hq). by rewrite endpoint_back_id. }
  unfold priorities. cbn [stop_preflight_rings].
  destruct q; erewrite run_bind_some by (step_with H; reflexivity); reflexivity.
Qed.

(** What [mailmsg_stop] checks before it asks CPU3 to stop: with no device
    open and the session bound, the preflight refuses exactly when CPU3's p0
    ring holds a frame.  The reverse rings of the other priorities, the four
    Linux-to-CPU3 rings and the pending A2B doorbells never enter the verdict:
    [has_received] answers 0 for an empty ring, the loop compares it with
    [MAILMSG_RING_EMPTY] (-1), and [mailmsg_ring_result_to_errno(0)] is 0, so
    the first empty ring already returns success. *)
Lemma preflight_checks_only_p0 d q :
  linux_bound d -> mailmsg_user_open_count d = 0 ->
  represents control_ring (c_shared (carveout d)) q ->
  r1_amp_mailmsg_stop_preflight_locked d =
  Some (match q with [] => 0 | _ => - EBUSY end, d).
Proof. apply run_preflight. Qed.
End ControlSpec.

(** * The properties at a scripted session *)
#[local] Existing Instance host_platform.

(** A started session whose block still carries its header. *)
Definition check_header d : bool :=
  (magic (c_shared (carveout d)) =? MAILMSG_PROTOCOL_MAGIC) &&
  (version (c_shared (carveout d)) =? MAILMSG_PROTOCOL_VERSION) &&
  (shared_generation (c_shared (carveout d)) =? session_generation d) &&
  negb (state_is (mailmsg_state d) R1_AMP_MAILMSG_UNARMED).
Lemma reachable_bound d : reachable d -> check_header d = true -> linux_bound d.
Proof.
  intros Hr Hc. unfold check_header in Hc. bool_to_prop. apply state_is_ne in H0.
  destruct (li_session _ (reachable_inv d Hr) H0) as [Hg Hk].
  split; [done..|]. repeat split; [done..|]. rewrite H1.
  unfold ep_key, linux_key, ep_key in Hk. by injection Hk.
Qed.
(** A ring whose indices and commits pass the checks represents its contents. *)
Definition check_ring (p : ring_ptr) (sh : mailmsg_shared) (n : nat) : bool :=
  match ring_at p sh with
  | Some r =>
      (0 <=? producer r) && (producer r <? 8) && (0 <=? consumer r) && (consumer r <? 8) &&
      (length (slot r) =? 8)%nat && (length (ring_contents r) =? n)%nat &&
      forallb (fun m => commit m =? sequence m) (ring_contents r)
  | None => false
  end.
Lemma check_ring_represents p sh n :
  check_ring p sh n = true -> exists q, represents p sh q /\ length q = n.
Proof.
  unfold check_ring, represents. destruct (ring_at p sh) as [r|]; [|done]. intros H.
  bool_to_prop. exists (ring_contents r). split; [|by apply Nat.eqb_eq].
  exists r. split; [done|]. split; [|split; [done|]].
  - split; [lia..|]. by apply Nat.eqb_eq.
  - apply Forall_forall. intros m Hm. rewrite forallb_forall in H0.
    apply Z.eqb_eq, H0. by apply list_elem_of_In.
Qed.

Lemma host_announced_queue :
  exists q, represents control_ring (c_shared (carveout host_announced)) q /\ length q = 1%nat.
Proof. apply check_ring_represents. vm_compute. reflexivity. Qed.

Lemma control_work_settles_witness :
  exists q d' k, represents control_ring (c_shared (carveout host_announced)) q /\
    drained host_announced d' /\
    match first_settling host_announced q with
    | Some (m, rest) => represents control_ring (c_shared (carveout d')) rest /\
        r1_amp_mailmsg_control_work 8 (host_env 200 0) host_announced =
        Some (true, settle (host_env 200 0) k m d')
    | None => represents control_ring (c_shared (carveout d')) [] /\
        r1_amp_mailmsg_control_work 8 (host_env 200 0) host_announced = Some (true, d')
    end.
Proof.
  destruct host_announced_queue as (q & Hq & _). exists q.
  destruct (control_work_settles (host_env 200 0) host_announced q 8) as (d' & k & H).
  - apply reachable_bound; [apply host_announced_reachable|vm_compute; reflexivity].
  - vm_compute. reflexivity.
  - exact Hq.
  - intros k. vm_compute. reflexivity.
  - lia.
  - exists d', k. split; [exact Hq|exact H].
Defined.

(** The driver once the image is loaded. *)
Definition host_loaded : r1_amp_cpu_on_data := host_run [EvImageWrite [1; 2; 3; 4] 0].
Lemma start_establishes_session_witness :
  exists d', start_store (host_env 100 1) "start" 5 host_loaded = Some (5, d') /\
    mailmsg_state d' = R1_AMP_MAILMSG_STARTING /\ linux_bound d'.
Proof.
  destruct (start_establishes_session (host_env 100 1) "start" 5 host_loaded (fun _ _ => 1)
    (fun _ _ => 0)) as (d' & r & Hrun & Hret & _ & Hb & _ & _ & H).
  1: apply host_run_reachable. 1-7: vm_compute; reflexivity.
  assert (Hr : option_map (fun x => cpu_on_ret (snd x))
    (start_store (host_env 100 1) "start" 5 host_loaded) = Some 0) by (vm_compute; reflexivity).
  rewrite Hrun in Hr. injection Hr as Hr. rewrite <-Hret, Hr in Hrun, H.
  exists d'. split; [exact Hrun|]. split; [apply H|exact Hb].
Defined.

(** ACTIVE, with business frames of CPU3 waiting on p1 and p2. *)
Definition host_busy : r1_amp_cpu_on_data :=
  host_run (events_start ++ events_ready ++ [EvControlWork 8 (host_env 200 0);
    peer_frame 1 1 MAILMSG_MSG_PONG [42; 0; 0; 0]; peer_frame 1 2 MAILMSG_MSG_PONG [43; 0; 0; 0]]).
Lemma host_busy_reachable : reachable host_busy.
Proof. apply host_run_reachable. vm_compute. reflexivity. Qed.

Lemma preflight_checks_only_p0_witness :
  r1_amp_mailmsg_stop_preflight_locked host_busy = Some (0, host_busy) /\
  exists q, represents (mk_ring_ptr Cpu3ToLinux 1) (c_shared (carveout host_busy)) q /\
    length q = 1%nat.
Proof.
  split; [|apply check_ring_represents; vm_compute; reflexivity].
  assert (Hq : exists q, represents control_ring (c_shared (carveout host_busy)) q /\ length q = 0%nat)
    by (apply check_ring_represents; vm_compute; reflexivity).
  destruct Hq as (q & Hq & Hl). destruct q; [|discriminate Hl].
  apply (preflight_checks_only_p0 host_busy []).
  - apply reachable_bound; [apply host_busy_reachable|vm_compute; reflexivity].
  - vm_compute. reflexivity.
  - exact Hq.
Defined.
