(* ===== verification/NotifySpec.v ===== *)
(** What the doorbell path promises: when a doorbell is rung, coalesced or made
    to fail, and what reaches the mailbox registers. *)
From S2P Require Import Prelude Protocol Ring Notify Endpoint Frame DriverState DriverSpec HostDemo.

Section NotifySpec.
Context {platform : Platform}.
Implicit Types (b : mbox_state).

(** The mailbox as [probe] sets it up: four channels of controller 0. *)
Record mbox_ok b : Prop := {
  mo_length : length (mbox b) = 4%nat;
  mo_channel i c : zget (mbox b) i = Some c -> controller c = 0 /\ controller_channel c = i;
  mo_regs : length (mbox_regs b) = 1%nat;
}.
Definition regs0 b : Z -> Z := default (fun _ => 0) (zget (mbox_regs b) 0).

Lemma run_get_channel b i c : zget (mbox b) i = Some c -> get_channel i b = Some (c, b).
Proof. intros H. unfold get_channel. step. by rewrite H. Qed.
Lemma run_upd_channel b i c f :
  zget (mbox b) i = Some c -> upd_channel i f b = Some (tt, b <| mbox := zupd i f (mbox b) |>).
Proof. intros H. unfold upd_channel. step_with (run_get_channel b i c H). done. Qed.

Lemma mbox_ok_channel b i : mbox_ok b -> 0 <= i < 4 ->
  exists c, zget (mbox b) i = Some c /\ controller c = 0 /\ controller_channel c = i.
Proof.
  intros Hb Hi. destruct (zget_is_Some (mbox b) i) as [c Hc]; [rewrite (mo_length _ Hb); lia|].
  exists c. split; [done|]. by apply Hb.
Qed.
Lemma mbox_ok_regs b : mbox_ok b -> zget (mbox_regs b) 0 = Some (regs0 b).
Proof.
  intros Hb. destruct (zget_is_Some (mbox_regs b) 0) as [r Hr]; [rewrite (mo_regs _ Hb); lia|].
  unfold regs0. by rewrite Hr.
Qed.
Lemma mbox_ok_upd b i f : mbox_ok b ->
  (forall c, controller (f c) = controller c /\ controller_channel (f c) = controller_channel c) ->
  mbox_ok (b <| mbox := zupd i f (mbox b) |>).
Proof.
  intros [Hl Hc Hr] Hf. split; cbn; [by rewrite length_zupd| |done].
  intros j c Hj. destruct (decide (i = j)) as [->|Hne].
  - rewrite zget_zupd in Hj. destruct (zget (mbox b) j) as [c0|] eqn:E; [|done].
    injection Hj as <-. destruct (Hf c0) as [-> ->]. by apply Hc.
  - rewrite zget_zupd_ne in Hj by done. by apply Hc.
Qed.
Lemma mbox_ok_regs_upd b f : mbox_ok b -> mbox_ok (b <| mbox_regs := zupd 0 f (mbox_regs b) |>).
Proof. intros [Hl Hc Hr]. split; cbn; [done..|by rewrite length_zupd]. Qed.

Lemma run_readl b off : mbox_ok b -> readl_relaxed 0 off b = Some (regs0 b off, b).
Proof. intros Hb. unfold readl_relaxed. step. by rewrite (mbox_ok_regs _ Hb). Qed.
Lemma run_writel b value off : mbox_ok b ->
  writel_relaxed value 0 off b =
  Some (tt, b <| mbox_regs := zupd 0 (mmio_write value off) (mbox_regs b) |>).
Proof.
  intros Hb. unfold writel_relaxed. step. rewrite (mbox_ok_regs _ Hb). by step.
Qed.

Lemma regs0_upd b f : mbox_ok b ->
  regs0 (b <| mbox_regs := zupd 0 f (mbox_regs b) |>) = f (regs0 b).
Proof.
  intros Hb. unfold regs0 at 1. cbn [mbox_regs set_field].
  change (mbox_regs (b <| mbox_regs := zupd 0 f (mbox_regs b) |>)) with (zupd 0 f (mbox_regs b)).
  by rewrite zget_zupd, (mbox_ok_regs _ Hb).
Qed.

(** The doorbell registers of a channel: CMD first, DAT last. *)
Definition rung (i command value : Z) (regs : Z -> Z) : Z -> Z :=
  mmio_write value (R1_AMP_MBOX_A2B_DAT i) (mmio_write command (R1_AMP_MBOX_A2B_CMD i) regs).

(** What stays of the mailbox when only counters and registers change. *)
Definition same_policy b b' : Prop :=
  notify_inject_priority b' = notify_inject_priority b /\
  notify_inject_errno b' = notify_inject_errno b /\
  lifecycle_notify_bypass b' = lifecycle_notify_bypass b.

Lemma run_direct_send b i command value :
  mbox_ok b -> 0 <= i < 4 ->
  exists b', r1_amp_mbox_direct_send_locked i command value b =
    Some (if has_bit (regs0 b R1_AMP_MBOX_A2B_STATUS) i then - EBUSY else 0, b') /\
    mbox_ok b' /\ same_policy b b' /\ notify_inject_remaining b' = notify_inject_remaining b /\
    regs0 b' = if has_bit (regs0 b R1_AMP_MBOX_A2B_STATUS) i then regs0 b
               else rung i command value (regs0 b).
Proof.
  intros Hb Hi. destruct (mbox_ok_channel b i Hb Hi) as (c & Hc & Hctl & Hch).
  unfold r1_amp_mbox_direct_send_locked. step_with (run_get_channel b i c Hc). rewrite Hctl, Hch.
  step_with (run_readl b R1_AMP_MBOX_A2B_STATUS Hb).
  destruct (has_bit _ i).
  - eexists. split; [by step_with (run_upd_channel b i c (fun c => c <| tx_ret := - EBUSY |>) Hc)|].
    split; [by apply mbox_ok_upd|done].
  - set (g := fun c : r1_amp_mbox_channel => c <| tx_msg_cmd := command |> <| tx_msg_data := value |>).
    step_with (run_upd_channel b i c g Hc).
    assert (Hb1 : mbox_ok (b <| mbox := zupd i g (mbox b) |>)) by by apply mbox_ok_upd.
    set (b1 := b <| mbox := zupd i g (mbox b) |>) in *.
    step_with (run_writel b1 command (R1_AMP_MBOX_A2B_CMD i) Hb1).
    pose proof (mbox_ok_regs_upd b1 (mmio_write command (R1_AMP_MBOX_A2B_CMD i)) Hb1) as Hb2.
    pose proof (regs0_upd b1 (mmio_write command (R1_AMP_MBOX_A2B_CMD i)) Hb1) as Hr2.
    set (b2 := b1 <| mbox_regs := _ |>) in *.
    step_with (run_writel b2 value (R1_AMP_MBOX_A2B_DAT i) Hb2).
    pose proof (mbox_ok_regs_upd b2 (mmio_write value (R1_AMP_MBOX_A2B_DAT i)) Hb2) as Hb3.
    pose proof (regs0_upd b2 (mmio_write value (R1_AMP_MBOX_A2B_DAT i)) Hb2) as Hr3.
    set (b3 := b2 <| mbox_regs := _ |>) in *.
    destruct (mbox_ok_channel b3 i Hb3 Hi) as (c3 & Hc3 & _).
    eexists. split; [by step_with (run_upd_channel b3 i c3
      (fun c => c <| tx_ret := 0 |> <| tx_count := u32 (tx_count c + 1) |>) Hc3)|].
    split; [by apply mbox_ok_upd|]. split; [done|]. split; [done|].
    change (regs0 b3 = rung i command value (regs0 b)). by rewrite Hr3, Hr2.
Qed.

(** The verdict of a notification. *)
Definition injected b (priority : Z) : bool :=
  negb (lifecycle_notify_bypass b) && negb (notify_inject_remaining b =? 0) &&
  (notify_inject_priority b =? priority).
Definition notify_outcome b (priority : Z) : Z :=
  if injected b priority then notify_inject_errno b
  else if has_bit (regs0 b R1_AMP_MBOX_A2B_STATUS) priority then MAILMSG_NOTIFY_COALESCED
  else MAILMSG_NOTIFY_SENT.

Lemma run_notify b priority :
  mbox_ok b -> 0 <= priority < 4 ->
  exists b', mailmsg_notify_locked priority b = Some (notify_outcome b priority, b') /\
    mbox_ok b' /\ same_policy b b' /\
    mailmsg_last_notify_result b' = notify_outcome b priority /\
    notify_inject_remaining b' = (if injected b priority
      then u32 (notify_inject_remaining b - 1) else notify_inject_remaining b) /\
    regs0 b' = if injected b priority || has_bit (regs0 b R1_AMP_MBOX_A2B_STATUS) priority
               then regs0 b
               else rung priority (Z.lor R1_AMP_MAILMSG_DOORBELL priority) priority (regs0 b).
Proof.
  intros Hb Hi. destruct (mbox_ok_channel b priority Hb Hi) as (c & Hc & _).
  unfold mailmsg_notify_locked, notify_outcome. fold (injected b priority).
  step_with (run_get_channel b priority c Hc). step. fold (injected b priority).
  destruct (injected b priority); cbn [orb].
  { step. set (b1 := b <| notify_inject_remaining := _ |>).
    assert (Hb1 : mbox_ok b1) by (destruct Hb; by split).
    assert (Hc1 : zget (mbox b1) priority = Some c) by done.
    eexists. split; [by step_with (run_upd_channel b1 priority c (fun c =>
      c <| tx_ret := notify_inject_errno b |> <| notify_failed_count := u32 (notify_failed_count c + 1) |>
        <| mc_notify_result := notify_inject_errno b |>) Hc1)|].
    split; [|done]. assert (H := mbox_ok_upd b1 priority (fun c =>
      c <| tx_ret := notify_inject_errno b |> <| notify_failed_count := u32 (notify_failed_count c + 1) |>
        <| mc_notify_result := notify_inject_errno b |>) Hb1 ltac:(done)). destruct H; by split. }
  destruct (run_direct_send b priority (Z.lor R1_AMP_MAILMSG_DOORBELL priority) priority Hb Hi)
    as (b1 & Hrun & Hb1 & Hp1 & Hr1 & Hregs1).
  step_with Hrun. destruct (mbox_ok_channel b1 priority Hb1 Hi) as (c1 & Hc1 & _).
  assert (Hlast : forall g r, (forall c, controller (g c) = controller c /\
      controller_channel (g c) = controller_channel c) ->
    exists b', (upd_channel priority (fun c => c <| mc_notify_result := r |>) ;;
      modify (fun b => b <| mailmsg_last_notify_result := r |>) ;; mret r)
      (b1 <| mbox := zupd priority g (mbox b1) |>) = Some (r, b') /\
    mbox_ok b' /\ same_policy b1 b' /\ mailmsg_last_notify_result b' = r /\
    notify_inject_remaining b' = notify_inject_remaining b1 /\ regs0 b' = regs0 b1).
  { intros g r Hg. pose proof (mbox_ok_upd b1 priority g Hb1 Hg) as Hb2.
    set (b2 := b1 <| mbox := _ |>) in *.
    destruct (mbox_ok_channel b2 priority Hb2 Hi) as (c2 & Hc2 & _).
    eexists. split; [by step_with (run_upd_channel b2 priority c2
      (fun c => c <| mc_notify_result := r |>) Hc2)|].
    split; [|done]. assert (H := mbox_ok_upd b2 priority (fun c => c <| mc_notify_result := r |>) Hb2
      ltac:(done)). destruct H; by split. }
  destruct (has_bit _ priority);
    [rewrite Z.eqb_refl|change (0 =? - EBUSY) with false; change (0 <? 0) with false]; cbv iota.
  all: match goal with |- context [upd_channel ?priority ?g ;; mret ?r] =>
    destruct (Hlast g r ltac:(done)) as (b' & Hl & Hb' & Hp' & H1 & H2 & H3);
    exists b'; split; [
      erewrite run_bind_some by (by step_with (run_upd_channel b1 priority c1 g Hc1));
      cbv beta iota; exact Hl|] end.
  all: split; [done|]; split; [|by rewrite H1, H2, H3, Hr1, Hregs1].
  all: destruct Hp1 as (P1 & P2 & P3), Hp' as (Q1 & Q2 & Q3); unfold same_policy;
    by rewrite Q1, Q2, Q3, P1, P2, P3.
Qed.

(** Ringing a doorbell, [mailmsg_notify_locked]: an armed injection for
    this priority fails the notification with its errno and uses up one of its
    count, unless the lifecycle bypass is on; a channel whose A2B bit is still
    pending is left alone and reported COALESCED; otherwise the doorbell word
    goes to the channel's CMD register and then the priority to DAT, and the
    result is SENT.  The registers change in that last case only, and the
    result is kept in the driver's status. *)
Theorem doorbell_rings_or_coalesces b priority :
  mbox_ok b -> 0 <= priority < 4 ->
  exists b', mailmsg_notify_locked priority b = Some (notify_outcome b priority, b') /\
    mbox_ok b' /\ mailmsg_last_notify_result b' = notify_outcome b priority /\
    notify_inject_remaining b' = (if injected b priority
      then u32 (notify_inject_remaining b - 1) else notify_inject_remaining b) /\
    regs0 b' = if injected b priority || has_bit (regs0 b R1_AMP_MBOX_A2B_STATUS) priority
               then regs0 b
               else mmio_write priority (R1_AMP_MBOX_A2B_DAT priority)
                      (mmio_write (Z.lor R1_AMP_MAILMSG_DOORBELL priority)
                         (R1_AMP_MBOX_A2B_CMD priority) (regs0 b)).
Proof.
  intros Hb Hi. destruct (run_notify b priority Hb Hi) as (b' & H1 & H2 & _ & H). by exists b'.
Qed.
End NotifySpec.

(** Deciding [mbox_ok]. *)
Definition check_mbox (b : mbox_state) : bool :=
  (length (mbox b) =? 4)%nat && (length (mbox_regs b) =? 1)%nat &&
  forallb (fun i => match zget (mbox b) i with
                    | Some c => (controller c =? 0) && (controller_channel c =? i)
                    | None => false
                    end) priorities.
Lemma check_mbox_ok b : check_mbox b = true -> mbox_ok b.
Proof.
  unfold check_mbox. intros H. apply andb_true_iff in H as [H Hf]. apply andb_true_iff in H as [Hl Hr].
  apply Nat.eqb_eq in Hl, Hr. split; [done| |done]. intros i c Hc.
  apply zget_Some_range in Hc as Hi. rewrite Hl in Hi.
  rewrite forallb_forall in Hf. specialize (Hf i). rewrite Hc in Hf.
  assert (In i priorities) as Hin by
    (assert (i = 0 \/ i = 1 \/ i = 2 \/ i = 3) as [->|[->|[->| ->]]] by lia; cbn; auto).
  specialize (Hf Hin). bool_to_prop. done.
Qed.

(** The mailbox of an active session whose channel 2 still has its A2B bit. *)
Definition host_pending : mbox_state :=
  mb host_active <| mbox_regs := [fun o => if o =? R1_AMP_MBOX_A2B_STATUS then 4 else 0] |>.
Lemma doorbell_rings_or_coalesces_witness :
  mbox_ok host_pending /\
  (exists b', @mailmsg_notify_locked host_platform 2 host_pending = Some (MAILMSG_NOTIFY_COALESCED, b')) /\
  exists b', @mailmsg_notify_locked host_platform 1 host_pending = Some (MAILMSG_NOTIFY_SENT, b') /\
    regs0 b' (R1_AMP_MBOX_A2B_DAT 1) = 1.
Proof.
  assert (Hok : mbox_ok host_pending) by (apply check_mbox_ok; vm_compute; reflexivity).
  split; [exact Hok|].
  destruct (@doorbell_rings_or_coalesces host_platform host_pending 2 Hok) as (b2 & H2 & _); [lia|].
  destruct (@doorbell_rings_or_coalesces host_platform host_pending 1 Hok) as (b1 & H1 & _ & _ & _ & Hr);
    [lia|].
  assert (E2 : notify_outcome host_pending 2 = MAILMSG_NOTIFY_COALESCED) by (vm_compute; reflexivity).
  assert (E1 : notify_outcome host_pending 1 = MAILMSG_NOTIFY_SENT) by (vm_compute; reflexivity).
  rewrite E2 in H2. rewrite E1 in H1.
  split; [exists b2; exact H2|]. exists b1. split; [exact H1|]. rewrite Hr. vm_compute. reflexivity.
Defined.
