(* ===== verification/UserSpec.v ===== *)
(** What the character devices promise: one reader per priority, an exact open
    count that keeps [rearm] away from open files, and the results of read,
    write and poll. *)
From S2P Require Import Prelude Protocol Ring Notify Endpoint Frame DriverState DriverLifecycle DriverUser DriverSysfs DriverProbe DriverSpec HostDemo LifecycleSpec ControlSpec NotifySpec.

Section UserSpec.
Context {platform : Platform} {coherent : CoherentOps mailmsg_linux_memory_ops}.
Implicit Types (d : r1_amp_cpu_on_data).

(** * The lifecycle plane leaves the devices alone *)
Lemma uview_wake d : uview (wake_all_readers d) = uview d.
Proof. apply wake_all_views. Qed.
Lemma uview_wake_one i d : uview (wake_reader i d) = uview d.
Proof. apply wake_reader_views. Qed.
Lemma uview_endpoint {A} (m : M (ep_world mbox_state) A) : pres uview (on_endpoint m).
Proof. by apply pres_zoom. Qed.
Lemma uview_timeout : pres uview r1_amp_mailmsg_set_timeout_locked.
Proof.
  apply pres_bind; [|intros _]; apply pres_modify; intros d; [|apply uview_wake].
  by destruct (mailmsg_state d).
Qed.
Lemma uview_refresh env : pres uview (r1_amp_refresh_affinity_locked env).
Proof.
  unfold r1_amp_refresh_affinity_locked, r1_amp_mailmsg_mark_offline_locked.
  pres_auto. apply pres_modify. intros d. by rewrite uview_wake.
Qed.
#[local] Hint Resolve uview_endpoint uview_timeout uview_refresh : pres.

Lemma uview_start env buf count : pres uview (start_store env buf count).
Proof. unfold start_store. pres_auto. Qed.
Lemma uview_rearm env buf count : pres uview (rearm_store env buf count).
Proof. unfold rearm_store. pres_auto. Qed.
Lemma uview_preflight ps : pres uview (stop_preflight_rings ps).
Proof. induction ps as [|p ps IH]; cbn [stop_preflight_rings]; pres_auto. Qed.
#[local] Hint Resolve uview_preflight : pres.
Lemma uview_stop env buf count : pres uview (mailmsg_stop_store env buf count).
Proof. unfold mailmsg_stop_store, r1_amp_mailmsg_stop_preflight_locked. pres_auto. Qed.
Lemma uview_affinity_work env : pres uview (r1_amp_affinity_work env).
Proof. unfold r1_amp_affinity_work. pres_auto. Qed.
Lemma uview_affinity_show env : pres uview (affinity_state_show env).
Proof. unfold affinity_state_show. pres_auto. Qed.
Lemma uview_timeout_work env : pres uview (r1_amp_mailmsg_lifecycle_timeout_work env).
Proof. unfold r1_amp_mailmsg_lifecycle_timeout_work. pres_auto. Qed.
Lemma uview_control_loop env fuel : forall k buf, pres uview (control_loop fuel env k buf).
Proof.
  induction fuel as [|fuel IH]; intros k buf; cbn [control_loop]; pres_auto.
  apply pres_modify. intros d. by destruct (state_is _ _).
Qed.
#[local] Hint Resolve uview_control_loop : pres.
Lemma uview_control_work env fuel : pres uview (r1_amp_mailmsg_control_work fuel env).
Proof. unfold r1_amp_mailmsg_control_work. pres_auto. Qed.
Lemma uview_callback i msg : pres uview (r1_amp_mbox_rx_callback i msg).
Proof.
  unfold r1_amp_mbox_rx_callback. pres_auto. apply pres_modify. intros d. apply uview_wake_one.
Qed.
Lemma uview_image_write buf off : pres uview (image_write buf off).
Proof. unfold image_write. pres_auto. Qed.

(** * The readers *)
Definition is_reader (files : gmap nat r1_amp_mailmsg_user_file) (i : Z) (file : nat) : Prop :=
  exists u, files !! file = Some u /\ channel u = i /\ reader_claimed u = true.
(** The reader count [n] of channel [i] is the number of its readers, at most one. *)
Definition reader_count_ok (files : gmap nat r1_amp_mailmsg_user_file) (i n : Z) : Prop :=
  (n = 0 /\ forall file, ~ is_reader files i file) \/
  (n = 1 /\ exists file, is_reader files i file /\
     forall file', is_reader files i file' -> file' = file).

Record user_inv d : Prop := {
  ui_count : mailmsg_user_open_count d = Z.of_nat (size (user_files d));
  ui_priorities : map uc_priority (mailmsg_user d) = priorities;
  ui_files file u : user_files d !! file = Some u -> 0 <= channel u < 4;
  ui_reader i c : zget (mailmsg_user d) i = Some c ->
    reader_count_ok (user_files d) i (reader_open_count c);
}.

Lemma zget_map {A B} (f : A -> B) l i : zget (map f l) i = f <$> zget l i.
Proof. unfold zget. destruct (0 <=? i); [apply list_lookup_fmap|done]. Qed.

Lemma user_inv_view d d' : uview d' = uview d -> user_inv d -> user_inv d'.
Proof.
  unfold uview. intros [= E1 E2 E3] [].
  assert (Hm : map uc_priority (mailmsg_user d') = map uc_priority (mailmsg_user d)).
  { apply (f_equal (map fst)) in E3. by rewrite !map_map in E3. }
  split; rewrite ?E1, ?E2, ?Hm; try done.
  intros i c Hc. apply (f_equal (fun l => zget l i)) in E3. rewrite !zget_map, Hc in E3. cbn in E3.
  destruct (zget (mailmsg_user d) i) as [c0|] eqn:E; [|done]. injection E3 as _ ->.
  by apply ui_reader0.
Qed.

Lemma user_channel_exists d i :
  user_inv d -> 0 <= i < 4 -> exists c, zget (mailmsg_user d) i = Some c /\ uc_priority c = i.
Proof.
  intros Hi Hr. pose proof (ui_priorities _ Hi) as Hp.
  apply (f_equal (fun l => zget l i)) in Hp. rewrite zget_map in Hp.
  assert (H : zget priorities i = Some i)
    by (assert (i = 0 \/ i = 1 \/ i = 2 \/ i = 3) as [->|[->|[->| ->]]] by lia; done).
  rewrite H in Hp. destruct (zget (mailmsg_user d) i) as [c|]; [|done].
  exists c. split; [done|]. by injection Hp.
Qed.

Lemma is_reader_insert files i file u file' :
  is_reader (<[file := u]> files) i file' <->
  (file' = file /\ channel u = i /\ reader_claimed u = true) \/
  (file' <> file /\ is_reader files i file').
Proof.
  unfold is_reader. destruct (decide (file' = file)) as [->|Hne].
  - rewrite lookup_insert_eq. split.
    + intros (u' & [= <-] & ? & ?). by left.
    + intros [(_ & ? & ?)|[? _]]; [by exists u|done].
  - rewrite lookup_insert_ne by done. split; [by right|]. by intros [[? _]|[_ ?]].
Qed.
Lemma is_reader_delete files i file file' :
  is_reader (delete file files) i file' <-> file' <> file /\ is_reader files i file'.
Proof.
  unfold is_reader. destruct (decide (file' = file)) as [->|Hne].
  - rewrite lookup_delete_eq. split; [by intros (? & ? & _)|by intros []].
  - rewrite lookup_delete_ne by done. split; [done|by intros []].
Qed.

(** Adding a file that is no reader, or whose readership does not change. *)
Lemma reader_count_same files files' i n :
  (forall file, is_reader files' i file <-> is_reader files i file) ->
  reader_count_ok files i n -> reader_count_ok files' i n.
Proof.
  intros H [[-> Hn]|(-> & file & Hf & Hu)]; [left|right].
  - split; [done|]. intros file. rewrite H. apply Hn.
  - split; [done|]. exists file. split; [by apply H|]. intros file' Hf'. by apply Hu, H.
Qed.

Lemma open_inv file i alloc d :
  user_inv d -> user_files d !! file = None -> is_Some (zget (mailmsg_user d) i) ->
  wlp (r1_amp_mailmsg_user_open file i alloc) (fun ret d' => user_inv d' /\
    (uview d' = uview d \/ mailmsg_state d = R1_AMP_MAILMSG_ACTIVE)) d.
Proof.
  intros Hi Hf [c Hc]. unfold r1_amp_mailmsg_user_open.
  destruct alloc; cbn [negb]; [|wret; by auto]. wstep.
  destruct (mailmsg_user_removing d); [wret; by auto|]. wstep.
  destruct (Z.eqb_spec (data_gate (mailmsg_state d)) 0) as [Hg|]; cbn [negb]; [|wret; by auto].
  do 2 wstep. wret. split; [|right; by destruct (mailmsg_state d)].
  destruct Hi. split; cbn.
  - rewrite map_size_insert_None by done. rewrite ui_count0. lia.
  - done.
  - intros file' u. destruct (decide (file' = file)) as [->|].
    + rewrite lookup_insert_eq. intros [= <-]. cbn. apply zget_Some_range in Hc.
      apply (f_equal length) in ui_priorities0. rewrite length_map in ui_priorities0. cbn in *. lia.
    + rewrite lookup_insert_ne by done. apply ui_files0.
  - intros j cj Hj. eapply reader_count_same; [|by apply ui_reader0].
    intros file'. rewrite is_reader_insert. split.
    + by intros [(_ & _ & ?)|[_ ?]].
    + intros Hr. right. split; [|done]. intros ->. destruct Hr as (u & Hu & _). by rewrite Hf in Hu.
Qed.

Lemma wlp_user_file {A} file (k : r1_amp_mailmsg_user_file -> D A) Q d :
  (forall u, user_files d !! file = Some u -> wlp (k u) Q d) ->
  wlp (u ← get_user_file file; k u) Q d.
Proof.
  intros H. apply wlp_bind. intros u d1 E. unfold get_user_file, from_option_ub in E.
  rewrite run_bind in E. cbn in E.
  destruct (user_files d !! file); [|discriminate E]. injection E as <- <-. by apply H.
Qed.
Lemma wlp_user_channel {A} i (k : r1_amp_mailmsg_user_channel -> D A) Q d :
  (forall c, zget (mailmsg_user d) i = Some c -> wlp (k c) Q d) ->
  wlp (c ← get_user_channel i; k c) Q d.
Proof.
  intros H. apply wlp_bind. intros u d1 E. unfold get_user_channel, from_option_ub in E.
  rewrite run_bind in E. cbn in E.
  destruct (zget (mailmsg_user d) i); [|discriminate E]. injection E as <- <-. by apply H.
Qed.
Lemma wlp_upd_user_channel {A} i g (k : D A) Q d :
  (forall c, zget (mailmsg_user d) i = Some c ->
     wlp k Q (d <| mailmsg_user := zupd i g (mailmsg_user d) |>)) ->
  wlp (upd_user_channel i g ;; k) Q d.
Proof.
  intros H. apply wlp_bind. unfold upd_user_channel. apply wlp_user_channel.
  intros c Hc. wret. by eapply H.
Qed.

(** Changing the reader count of one channel together with the file table. *)
Lemma user_inv_update d d' i g :
  user_inv d -> mailmsg_user d' = zupd i g (mailmsg_user d) ->
  (forall c, uc_priority (g c) = uc_priority c) ->
  mailmsg_user_open_count d' = Z.of_nat (size (user_files d')) ->
  (forall file u, user_files d' !! file = Some u -> 0 <= channel u < 4) ->
  (forall c, zget (mailmsg_user d) i = Some c ->
     reader_count_ok (user_files d') i (reader_open_count (g c))) ->
  (forall j file, j <> i -> is_reader (user_files d') j file <-> is_reader (user_files d) j file) ->
  user_inv d'.
Proof.
  intros Hi Hu Hg Hcount Hfiles Hnew Hsame. destruct Hi. split; try done.
  - by rewrite Hu, (map_zupd_same _ _ _ _ Hg).
  - intros j cj Hj. rewrite Hu in Hj. destruct (decide (i = j)) as [<-|Hne].
    + rewrite zget_zupd in Hj. destruct (zget (mailmsg_user d) i) as [c|] eqn:E; [|done].
      injection Hj as <-. by apply Hnew.
    + rewrite zget_zupd_ne in Hj by done. eapply reader_count_same; [|by apply ui_reader0].
      intros file. apply Hsame. congruence.
Qed.

Lemma claim_inv file d :
  user_inv d ->
  wlp (r1_amp_mailmsg_user_claim_reader file) (fun ret d' => user_inv d' /\
    (ret = 0 -> exists u, user_files d !! file = Some u /\
                is_reader (user_files d') (channel u) file) /\
    dom (user_files d') = dom (user_files d)) d.
Proof.
  intros Hi. unfold r1_amp_mailmsg_user_claim_reader. apply wlp_user_file. intros u0 Hf.
  destruct (reader_claimed u0) eqn:Hc.
  { wret. split; [done|]. split; [|done]. intros _. exists u0. split; [done|]. by exists u0. }
  apply wlp_user_channel. intros c0 Hch.
  destruct (Z.eqb_spec (reader_open_count c0) 0) as [Hz|]; cbn [negb]; [|by wret].
  apply wlp_upd_user_channel. intros _ _. wstep. wret.
  destruct (ui_reader _ Hi _ _ Hch) as [[_ Hno]|[? _]]; [|congruence].
  assert (Hread : is_reader (<[file := mk_user_file (channel u0) true]> (user_files d)) (channel u0) file)
    by (apply is_reader_insert; by left).
  split; [|split].
  - eapply (user_inv_update d _ (channel u0)); [done|reflexivity|done|..]; cbn.
    + rewrite map_size_insert_Some by (by exists u0). apply Hi.
    + intros file' u'. destruct (decide (file' = file)) as [->|].
      * rewrite lookup_insert_eq. intros [= <-]. apply (ui_files _ Hi file u0 Hf).
      * rewrite lookup_insert_ne by done. by apply Hi.
    + intros c1 H. rewrite Hch in H. injection H as <-. right. split; [by rewrite Hz|].
      exists file. split; [exact Hread|].
      intros file' [[? _]|[_ Hr]]%is_reader_insert; [done|]. by apply Hno in Hr.
    + intros j file' Hne. rewrite is_reader_insert. cbn. split.
      * by intros [(_ & ? & _)|[_ ?]].
      * intros Hr. destruct (decide (file' = file)) as [->|]; [|by right].
        destruct Hr as (u' & Hu' & Hch' & _). rewrite Hf in Hu'. injection Hu' as <-. done.
  - intros _. by exists u0.
  - cbn. apply dom_insert_lookup_L. by exists u0.
Qed.

Lemma release_inv file d :
  user_inv d ->
  wlp (r1_amp_mailmsg_user_release file) (fun _ d' => user_inv d' /\
    user_files d' = delete file (user_files d)) d.
Proof.
  intros Hi. unfold r1_amp_mailmsg_user_release. apply wlp_user_file. intros u0 Hf.
  assert (Hsize : mailmsg_user_open_count d - 1 = Z.of_nat (size (delete file (user_files d)))).
  { rewrite map_size_delete_Some by by exists u0. rewrite (ui_count _ Hi).
    pose proof (map_size_ne_0_lookup_2 (user_files d) file ltac:(by exists u0)). lia. }
  assert (Hfiles : forall file' u', delete file (user_files d) !! file' = Some u' -> 0 <= channel u' < 4).
  { intros file' u' Hu'. apply lookup_delete_Some in Hu' as [_ Hu']. by eapply ui_files. }
  destruct (reader_claimed u0) eqn:Hc; cbn [when].
  - apply wlp_upd_user_channel. intros c0 Hch. do 2 wstep. wret. split; [|done].
    assert (Hr : is_reader (user_files d) (channel u0) file) by by exists u0.
    destruct (ui_reader _ Hi _ _ Hch) as [[_ Hno]|(Hone & f & Hf' & Hu)]; [by apply Hno in Hr|].
    eapply (user_inv_update d _ (channel u0)); [done|reflexivity|done|done|done|..]; cbn.
    + intros c1 H. rewrite Hch in H. injection H as <-. left. split; [by rewrite Hone|].
      intros file' [Hne Hr']%is_reader_delete. apply Hne. transitivity f; [|symmetry]; by apply Hu.
    + intros j file' Hne. rewrite is_reader_delete. split; [by intros []|]. intros Hr'.
      split; [|done]. intros ->. destruct Hr' as (u' & Hu' & Hch' & _). congruence.
  - do 3 wstep. wret. split; [|done]. destruct Hi. split; cbn; try done.
    intros i c Hch. eapply reader_count_same; [|by apply ui_reader0].
    intros file'. rewrite is_reader_delete. split; [by intros []|]. intros Hr'.
    split; [|done]. intros ->. destruct Hr' as (u' & Hu' & _ & ?). congruence.
Qed.

Lemma poll_inv file d :
  user_inv d ->
  wlp (r1_amp_mailmsg_user_poll file) (fun _ d' => user_inv d' /\
    dom (user_files d') = dom (user_files d)) d.
Proof.
  intros Hi. unfold r1_amp_mailmsg_user_poll. apply wlp_user_file. intros u Hf.
  apply wlp_bind. eapply wlp_mono; [by apply claim_inv|]. intros ret d1 (Hi1 & _ & Hdom).
  destruct (ret =? 0); cbn [negb]; [|by wret]. wstep.
  destruct (_ || _); [by wret|]. destruct (state_is _ _); [by wret|].
  destruct (state_is _ _); [|by wret]. apply wlp_user_channel. intros c Hc.
  apply wlp_bind. intros r d2 E. apply uview_endpoint in E. wret.
  split; [by eapply user_inv_view|]. unfold uview in E. by injection E as -> _ _.
Qed.

(** ** All events *)
(** What an event keeps of the open files. *)
Definition user_kept ev d d' : Prop :=
  user_inv d' /\
  (dom (user_files d') ⊆ dom (user_files d) \/ mailmsg_state d = R1_AMP_MAILMSG_ACTIVE) /\
  (is_rearm ev = true -> mailmsg_state d' = R1_AMP_MAILMSG_UNARMED ->
   mailmsg_state d = R1_AMP_MAILMSG_UNARMED \/ user_files d' = ∅).
Lemma user_kept_view ev d d' : user_inv d -> is_rearm ev = false -> uview d' = uview d -> user_kept ev d d'.
Proof.
  intros Hi Hev Hv. split; [by eapply user_inv_view|]. split; [|by rewrite Hev].
  left. unfold uview in Hv. by injection Hv as -> _ _.
Qed.
Lemma user_kept_pres {A} ev (m : D A) d d0 d' : user_inv d -> is_rearm ev = false -> pres uview m ->
  uview d0 = uview d -> run_event m d0 = Some d' -> user_kept ev d d'.
Proof.
  intros Hi Hev Hp Hd E. apply run_event_inv in E as [a E]. apply user_kept_view; [done|done|].
  by rewrite <-Hd, (Hp _ _ _ E).
Qed.
Lemma user_kept_file {A} ev (m : D A) d d' : is_rearm ev = false ->
  wlp m (fun _ d' => user_inv d' /\
    (dom (user_files d') ⊆ dom (user_files d) \/ mailmsg_state d = R1_AMP_MAILMSG_ACTIVE)) d ->
  run_event m d = Some d' -> user_kept ev d d'.
Proof.
  intros Hev Hm E. apply run_event_inv in E as [a E]. destruct (Hm _ _ E) as [H1 H2]. split; [done|].
  split; [done|by rewrite Hev].
Qed.
Lemma user_kept_rearm env buf count d d' : user_inv d -> run_event (rearm_store env buf count) d = Some d' ->
  user_kept (EvRearm env buf count) d d'.
Proof.
  intros Hi E. apply run_event_inv in E as [a E].
  assert (Hv : uview d' = uview d) by exact (uview_rearm env buf count _ _ _ E). split; [by eapply user_inv_view|].
  assert (Hfiles : user_files d' = user_files d) by (unfold uview in Hv; by injection Hv).
  split; [left; by rewrite Hfiles|]. intros _ Hst'. rewrite Hfiles. revert E. unfold rearm_store.
  destruct (sysfs_streq buf "rearm"); cbn [negb]; [|intros [= _ <-]; by left]. step.
  destruct (cpu_on_attempted d); [|intros [= _ <-]; by left].
  destruct (Z.eqb_spec (mailmsg_user_open_count d) 0) as [Hz|]; cbn [negb]; [|intros [= _ <-]; by left].
  intros _. right. rewrite (ui_count _ Hi) in Hz. apply map_size_empty_inv. lia.
Qed.
Create HintDb uview.
#[local] Hint Resolve uview_image_write uview_start uview_stop uview_affinity_show uview_callback uview_affinity_work
  uview_timeout_work pres_ping_store pres_doorbell pres_send_ping pres_notify_inject pres_queue_push pres_response_begin pres_response_turn
  pres_stats_show pres_status_show pres_user_receive pres_user_write uview_data : uview.

Lemma user_step ev d d' : user_inv d -> handle ev d = Some d' -> user_kept ev d d'.
Proof.
  intros Hi. destruct ev; cbn [handle]; intros E;
    try (eapply user_kept_pres; [exact Hi|done| |reflexivity|exact E]; solve [auto with uview]).
  - by apply user_kept_rearm.
  - destruct (user_files d !! file) eqn:Hf; [done|]. destruct (zget (mailmsg_user d) i) eqn:Hc; [|done].
    eapply user_kept_file, E; [done|]. eapply wlp_mono; [exact (open_inv file i alloc d Hi Hf (mk_is_Some _ _ Hc))|].
    intros ret d1 (Hi' & [Hv|Ha]); (split; [done|]); [left|by right]. unfold uview in Hv. by injection Hv as -> _ _.
  - eapply user_kept_file, E; [done|]. eapply wlp_mono; [exact (release_inv file d Hi)|].
    intros ret d1 (Hi' & ->). split; [done|]. left. set_solver.
  - eapply user_kept_file, E; [done|]. eapply wlp_mono; [exact (claim_inv file d Hi)|].
    intros ret d1 (Hi' & _ & ->). split; [done|by left].
  - eapply user_kept_file, E; [done|]. eapply wlp_mono; [exact (poll_inv file d Hi)|].
    intros ret d1 (Hi' & ->). split; [done|by left].
  - destruct (affinity_work d); [|done]. eapply user_kept_pres; [done|done| | |exact E]; [auto with uview|done].
  - apply user_kept_view; [done|done|]. destruct (control_work d); [|done].
    destruct (r1_amp_mailmsg_control_work _ _ _) as [[[] d1]|] eqn:Ec; [|done..].
    injection E as <-. by apply uview_control_work in Ec.
  - destruct (lifecycle_timeout_work d); [|done]. eapply user_kept_pres; [done|done| | |exact E]; [auto with uview|done].
  - apply user_kept_view; [done|done|]. by injection E as <-.
Qed.

Record device_inv d : Prop := {
  dv_user : user_inv d;
  dv_open : user_files d <> ∅ -> mailmsg_state d <> R1_AMP_MAILMSG_UNARMED;
}.

Lemma device_step ev d d' :
  lifecycle_inv d -> device_inv d -> handle ev d = Some d' -> device_inv d'.
Proof.
  intros Hl [Hu Ho] E. destruct (step_sound ev d d' Hl E) as [_ He].
  destruct (user_step ev d d' Hu E) as (Hu' & Hdom & Hre). split; [done|].
  intros Hne Hst. rewrite Hst in He.
  assert (Hempty : user_files d = ∅ -> mailmsg_state d <> R1_AMP_MAILMSG_ACTIVE -> user_files d' = ∅).
  { intros H0 Ha. destruct Hdom as [Hdom|]; [|done]. apply dom_empty_inv_L.
    rewrite H0, dom_empty_L in Hdom. set_solver. }
  destruct (decide (mailmsg_state d = R1_AMP_MAILMSG_UNARMED)) as [Hd|Hd].
  - apply Hne, Hempty; [|by rewrite Hd]. destruct (decide (user_files d = ∅)); [done|]. by destruct (Ho n).
  - destruct (is_rearm ev) eqn:Hev; [by destruct (Hre eq_refl Hst)|].
    unfold lifecycle_edge in He. destruct (state_is _ _) eqn:Es; [by apply state_is_eq in Es|].
    rewrite orb_false_l in He. destruct ev; try done; destruct (mailmsg_state d); done.
Qed.

Lemma uview_registered i b : pres uview (upd_user_channel i (fun c => c <| registered := b |>)).
Proof.
  unfold upd_user_channel, get_user_channel. pres_auto. apply pres_modify. intros d.
  unfold uview. cbn. f_equal. by apply map_zupd_same.
Qed.
Lemma uview_register result ps : pres uview (register_from result ps).
Proof.
  pose proof uview_registered. induction ps as [|p ps IH]; cbn [register_from];
    unfold r1_amp_unregister_mailmsg_user, get_user_channel; pres_auto.
Qed.

Lemma probed_device d : probed d -> device_inv d.
Proof.
  intros Hp. destruct (probed_view uview d uview_register Hp) as [la Hv].
  assert (Hi : user_inv (probe_data la)).
  { split; try done. intros i c Hc. left. split; [|by intros file (u & Hu & _)].
    apply zget_Some_range in Hc as Hr. cbn in Hr.
    assert (i = 0 \/ i = 1 \/ i = 2 \/ i = 3) as [->|[->|[->| ->]]] by lia; by injection Hc as <-. }
  split; [by eapply user_inv_view|]. unfold uview in Hv. by injection Hv as -> _ _.
Qed.

Lemma reachable_device d : reachable d -> device_inv d.
Proof.
  intros (d0 & Hp & Hs).
  enough (lifecycle_inv d /\ device_inv d) by tauto.
  eapply (star_invariant driver_step (fun d => lifecycle_inv d /\ device_inv d));
    [|done|split; [by apply probed_inv|by apply probed_device]].
  intros a b [Hl Hd] [ev E]. split; [by apply (step_sound ev a b)|by eapply device_step].
Qed.

(** * Reading *)

(** The record copied to user space for a frame. *)
Definition delivered (priority : Z) (m : mailmsg_message) : mailmsg_user_frame :=
  mk_user_frame priority (type_ m) (sequence m) (length_ m)
    (take (Z.to_nat (length_ m)) (payload m) ++ replicate (32 - Z.to_nat (length_ m)) 0).

Lemma user_frame_of_delivered priority m :
  length (payload m) = 28%nat -> length_ m <= 28 ->
  user_frame_of priority m = Some (delivered priority m).
Proof.
  intros Hp Hl. unfold user_frame_of, delivered. change 0 with (Z.of_nat 0) at 1.
  change (uf_payload user_frame_zero) with (replicate 32 0).
  rewrite copy_bytes_spec by (rewrite ?length_replicate; lia).
  by rewrite take_0, app_nil_l, drop_0, Nat.add_0_l, drop_replicate.
Qed.

(** What one non-blocking [read] of priority [i] returns, given the frames
    CPU3 left in its ring. *)
Definition read_result d (i : Z) (q : list mailmsg_message) : Z * option mailmsg_user_frame :=
  match mailmsg_state d with
  | R1_AMP_MAILMSG_ACTIVE =>
      match q with
      | [] => (- EAGAIN, None)
      | m :: _ =>
          let code := received_code (mailmsg_endpoint_ d) m in
          if code =? 0 then (sizeof_user_frame, Some (delivered i m))
          else (mailmsg_ring_result_to_errno code, None)
      end
  | R1_AMP_MAILMSG_STARTING => (- EAGAIN, None)
  | R1_AMP_MAILMSG_STOPPING => (- ESHUTDOWN, None)
  | R1_AMP_MAILMSG_OFFLINE | R1_AMP_MAILMSG_UNARMED => (- ENOLINK, None)
  | R1_AMP_MAILMSG_START_TIMEOUT | R1_AMP_MAILMSG_STOP_TIMEOUT => (- EIO, None)
  end.

Lemma received_ok_valid (e : mailmsg_endpoint mbox_state) m :
  received_code e m = 0 -> frame_verdict m = 0.
Proof.
  unfold received_code. destruct (frame_verdict m =? 0) eqn:E; [by intros _; apply Z.eqb_eq|].
  cbn. intros H. by rewrite H in E.
Qed.
Lemma frame_verdict_length m : frame_verdict m = 0 -> length_ m <= 28.
Proof.
  unfold frame_verdict, frame_invalid. destruct (Z.ltb_spec MAILMSG_PAYLOAD_BYTES (length_ m)) as [|Hl].
  - by rewrite orb_true_r.
  - by intros _.
Qed.

(** The error codes of a receive, as the read loop sorts them. *)
Lemma received_code_values (e : mailmsg_endpoint mbox_state) m :
  received_code e m = 0 \/ received_code e m = MAILMSG_RING_BAD_CRC \/
  received_code e m = MAILMSG_RING_INVALID \/ received_code e m = MAILMSG_ENDPOINT_STALE_FRAME.
Proof.
  unfold received_code, frame_verdict.
  destruct (frame_invalid m), (crc32 m =? mailmsg_frame_crc32 m), (generation m =? ep_generation e);
    cbn; auto.
Qed.

Lemma run_user_channel d i c : zget (mailmsg_user d) i = Some c -> get_user_channel i d = Some (c, d).
Proof. intros H. unfold get_user_channel. step. by rewrite H. Qed.
Lemma run_user_file d file u : user_files d !! file = Some u -> get_user_file file d = Some (u, d).
Proof. intros H. unfold get_user_file. step. by rewrite H. Qed.
Lemma run_upd_user_channel d i c g :
  zget (mailmsg_user d) i = Some c ->
  upd_user_channel i g d = Some (tt, d <| mailmsg_user := zupd i g (mailmsg_user d) |>).
Proof. intros H. unfold upd_user_channel. step_with (run_user_channel d i c H). done. Qed.

Lemma run_receive_closed d i buf :
  data_gate (mailmsg_state d) <> 0 ->
  user_receive i buf d = Some ((data_gate (mailmsg_state d), buf), d).
Proof.
  intros Hg. unfold user_receive. step. by rewrite (proj2 (Z.eqb_neq _ _) Hg).
Qed.

Lemma run_receive_open d i c buf q :
  mailmsg_state d = R1_AMP_MAILMSG_ACTIVE -> linux_bound d ->
  zget (mailmsg_user d) i = Some c -> uc_priority c = i -> 0 <= i < 4 ->
  represents (mk_ring_ptr Cpu3ToLinux i) (c_shared (carveout d)) q ->
  match q with
  | [] => user_receive i buf d = Some ((MAILMSG_RING_EMPTY, buf), d)
  | m :: q' => exists d', user_receive i buf d = Some ((received_code (mailmsg_endpoint_ d) m, m), d') /\
      represents (mk_ring_ptr Cpu3ToLinux i) (c_shared (carveout d')) q' /\
      same_but (mk_ring_ptr Cpu3ToLinux i) (c_shared (carveout d)) (c_shared (carveout d')) /\
      lview d' = lview d /\ uview d' = uview d /\ mailmsg_user d' = mailmsg_user d
  end.
Proof.
  intros Hst Hb Hc Hprio Hi Hq.
  assert (Hrun : user_receive i buf d = on_endpoint (mailmsg_endpoint_receive i buf) d).
  { unfold user_receive. step. rewrite Hst. cbn [data_gate Z.eqb negb].
    step_with (run_user_channel d i c Hc). by rewrite Hprio. }
  rewrite Hrun. pose proof (run_linux_receive d i buf q Hb Hi Hq) as H. destruct q as [|m q'].
  - by rewrite H, endpoint_back_id.
  - destruct H as (w & R & Hrep & Hkey & Hsame). eexists. split; [exact R|].
    split; [done|]. split; [done|]. split; [|done]. unfold lview, endpoint_back. cbn. by rewrite Hkey.
Qed.

(** A file that holds the reader of its priority, or can. *)
Definition can_read d (file : nat) (i : Z) : Prop :=
  exists u c, user_files d !! file = Some u /\ channel u = i /\
    zget (mailmsg_user d) i = Some c /\ (reader_claimed u = true \/ reader_open_count c = 0).

Lemma run_claim d file i :
  can_read d file i -> exists d', r1_amp_mailmsg_user_claim_reader file d = Some (0, d') /\
    lview d' = lview d /\ c_shared (carveout d') = c_shared (carveout d) /\
    mailmsg_endpoint_ d' = mailmsg_endpoint_ d /\
    map uc_priority (mailmsg_user d') = map uc_priority (mailmsg_user d).
Proof.
  intros (u & c & Hf & Hu & Hc & Hr). unfold r1_amp_mailmsg_user_claim_reader.
  step_with (run_user_file d file u Hf).
  destruct (reader_claimed u) eqn:Hcl; [by eexists|]. destruct Hr as [|Hr]; [done|].
  subst i. step_with (run_user_channel _ _ _ Hc). rewrite Hr. cbn [negb Z.eqb].
  step_with (run_upd_user_channel _ _ _ (fun c => c <| reader_open_count := reader_open_count c + 1 |>) Hc).
  step. eexists. split; [reflexivity|]. split; [done|]. split; [done|]. split; [done|].
  by apply map_zupd_same.
Qed.

Lemma linux_bound_same d d' :
  linux_bound d -> lview d' = lview d -> c_shared (carveout d') = c_shared (carveout d) ->
  mailmsg_endpoint_ d' = mailmsg_endpoint_ d -> linux_bound d'.
Proof.
  intros [Hk Hg Hs] Hv Hc He. apply lview_parts in Hv as (_ & _ & _ & _ & Hgen & _).
  split; rewrite ?He, ?Hgen, ?Hc; done.
Qed.

Lemma channel_of_priorities d i :
  map uc_priority (mailmsg_user d) = priorities -> 0 <= i < 4 ->
  exists c, zget (mailmsg_user d) i = Some c /\ uc_priority c = i.
Proof.
  intros Hp Hr. apply (f_equal (fun l => zget l i)) in Hp. rewrite zget_map in Hp.
  assert (H : zget priorities i = Some i)
    by (assert (i = 0 \/ i = 1 \/ i = 2 \/ i = 3) as [->|[->|[->| ->]]] by lia; done).
  rewrite H in Hp. destruct (zget (mailmsg_user d) i) as [c|]; [|done].
  exists c. split; [done|]. by injection Hp.
Qed.

(** C16. The driver keeps its file bookkeeping exact: the open count is the
    number of open files, every priority has at most one reader and its reader
    count says so, and no file is open while the session is UNARMED - so
    [rearm] never pulls the session from under an open device. *)
Theorem devices_consistent d : reachable d -> device_inv d.
Proof. apply reachable_device. Qed.

(** A second reader of a priority is refused: while one file holds the
    reader, [read] on any other file of that priority returns -EBUSY and
    changes nothing - in particular it consumes no frame. *)
Theorem second_reader_busy d file file' u u' env fuel :
  reachable d -> user_files d !! file = Some u -> user_files d !! file' = Some u' ->
  file' <> file -> channel u' = channel u -> reader_claimed u = true ->
  r1_amp_mailmsg_user_read fuel env file' sizeof_user_frame d = Some (Some (- EBUSY, None), d).
Proof.
  intros Hr Hf Hf' Hne Hch Hcl. pose proof (dv_user _ (reachable_device d Hr)) as Hi.
  pose proof (ui_files _ Hi _ _ Hf) as Hrange.
  destruct (user_channel_exists d (channel u) Hi Hrange) as (c & Hc & _).
  assert (Hread : is_reader (user_files d) (channel u) file) by by exists u.
  destruct (ui_reader _ Hi _ _ Hc) as [[_ Hno]|(Hone & f & _ & Hu)]; [by apply Hno in Hread|].
  assert (Hcl' : reader_claimed u' = false).
  { destruct (reader_claimed u') eqn:E; [|done]. destruct Hne.
    transitivity f; [|symmetry]; apply Hu; [|done]. by exists u'. }
  unfold r1_amp_mailmsg_user_read. step_with (run_user_file d file' u' Hf').
  rewrite Z.eqb_refl. cbn [negb].
  assert (Hclaim : r1_amp_mailmsg_user_claim_reader file' d = Some (- EBUSY, d)).
  { unfold r1_amp_mailmsg_user_claim_reader. step_with (run_user_file d file' u' Hf').
    rewrite Hcl', Hch. step_with (run_user_channel d _ c Hc). by rewrite Hone. }
  by step_with Hclaim.
Qed.

(** One turn of the read loop that delivers the head of the ring. *)
Lemma read_turn_delivers k env i d dA d' c0 c m buf :
  re_copy_fails env = false -> re_before env k d = dA ->
  zget (mailmsg_user d) i = Some c0 -> zget (mailmsg_user d') i = Some c -> uc_priority c = i ->
  user_receive i buf dA = Some ((0, m), d') -> frame_verdict m = 0 -> length (payload m) = 28%nat ->
  read_turn k env i buf d = Some ((Some (sizeof_user_frame, Some (delivered i m)), m), d').
Proof.
  intros Hcp HA Hc0 Hc Hprio Hrun Hv Hlen. unfold read_turn.
  step_with (run_user_channel d i c0 Hc0). step. rewrite HA. step_with Hrun. cbn [Z.eqb].
  step_with (run_user_channel d' i c Hc).
  rewrite user_frame_of_delivered, Hprio by (try done; by apply frame_verdict_length).
  step. by rewrite Hcp.
Qed.

(** One that finds the ring empty and the doorbell counter moved. *)
Lemma read_turn_again k env i d dA dB c c' buf :
  re_nonblock env = false -> re_before env k d = dA -> re_after env k dA = dB ->
  zget (mailmsg_user d) i = Some c -> user_receive i buf dA = Some ((MAILMSG_RING_EMPTY, buf), dA) ->
  zget (mailmsg_user dB) i = Some c' -> rx_generation c' <> rx_generation c ->
  read_turn k env i buf d = Some ((None, buf), dB).
Proof.
  intros Hnb HA HB Hc Hrun Hc' Hgen. unfold read_turn.
  step_with (run_user_channel d i c Hc). step. rewrite HA. step_with Hrun.
  change (MAILMSG_RING_EMPTY =? 0) with false. change (MAILMSG_RING_EMPTY =? - EAGAIN) with false.
  change ((MAILMSG_RING_EMPTY =? - ENOLINK) || (MAILMSG_RING_EMPTY =? - ESHUTDOWN)) with false.
  rewrite Z.eqb_refl, Hnb. cbn [negb]. step. rewrite HB.
  assert (Hwait : wait_rx k env i (rx_generation c) dB = Some (0, dB)).
  { unfold wait_rx. step_with (run_user_channel dB i c' Hc').
    by rewrite (proj2 (Z.eqb_neq _ _) Hgen). }
  by step_with Hwait.
Qed.

(** A turn whose locked receive failed ends a non-blocking read. *)
Lemma read_turn_fails env i d c ret buf d2 :
  re_nonblock env = true -> re_before env 0 d = d -> zget (mailmsg_user d) i = Some c ->
  user_receive i message_zero d = Some ((ret, buf), d2) -> ret <> 0 ->
  read_turn 0 env i message_zero d = Some ((Some (if ret =? - EAGAIN then ret
      else if (ret =? - ENOLINK) || (ret =? - ESHUTDOWN) then ret
      else if negb (ret =? MAILMSG_RING_EMPTY) then mailmsg_ring_result_to_errno ret
      else - EAGAIN, None), buf), d2).
Proof.
  intros Hnb Hbef Hc H Hne. unfold read_turn. step_with (run_user_channel d i c Hc). step.
  rewrite Hbef. step_with H. rewrite (proj2 (Z.eqb_neq _ _) Hne), Hnb.
  by destruct (ret =? - EAGAIN), (ret =? - ENOLINK), (ret =? - ESHUTDOWN), (ret =? MAILMSG_RING_EMPTY).
Qed.

(** C17. A non-blocking [read] on a priority's device returns what
    [read_result] says: in an ACTIVE session the oldest frame of the ring, if
    it is intact and of this session, with its type, sequence and exactly
    [length] payload bytes; else the errno of its defect, with the frame
    released; -EAGAIN on an empty ring or while starting; -ESHUTDOWN while
    stopping; -ENOLINK when offline.  After a lifecycle timeout it returns
    -EIO, although the data gate answers -ETIMEDOUT: the loop takes every other
    negative value for a ring result. *)
Theorem read_returns env file i d q :
  reachable d -> can_read d file i ->
  (mailmsg_state d = R1_AMP_MAILMSG_ACTIVE -> linux_bound d) ->
  represents (mk_ring_ptr Cpu3ToLinux i) (c_shared (carveout d)) q ->
  Forall (fun m => length (payload m) = 28%nat) q ->
  re_nonblock env = true -> re_copy_fails env = false -> (forall k d, re_before env k d = d) ->
  exists d', r1_amp_mailmsg_user_read 1 env file sizeof_user_frame d =
    Some (Some (read_result d i q), d') /\
    mailmsg_state d' = mailmsg_state d /\
    represents (mk_ring_ptr Cpu3ToLinux i) (c_shared (carveout d'))
      (if data_gate (mailmsg_state d) =? 0 then tail q else q).
Proof.
  intros Hr Hcan Hb Hq Hpay Hnb Hcp Hbef. pose proof (dv_user _ (reachable_device d Hr)) as Hi.
  destruct (run_claim d file i Hcan) as (d1 & Hclaim & Hv1 & Hsh1 & He1 & Hp1).
  destruct Hcan as (u & c & Hf & Hu & _ & _).
  assert (Hrange : 0 <= i < 4) by (subst i; by apply (ui_files _ Hi file)).
  rewrite (ui_priorities _ Hi) in Hp1.
  destruct (channel_of_priorities d1 i Hp1 Hrange) as (c1 & Hc1 & Hprio).
  pose proof (proj1 (lview_parts _ _ Hv1)) as Hst.
  assert (Hread : forall X b d2, read_turn 0 env i message_zero d1 = Some ((Some X, b), d2) ->
    r1_amp_mailmsg_user_read 1 env file sizeof_user_frame d = Some (Some X, d2)).
  { intros X b d2 H. unfold r1_amp_mailmsg_user_read. step_with (run_user_file d file u Hf).
    rewrite Z.eqb_refl. cbn [negb]. step_with Hclaim. cbn [negb Z.eqb]. rewrite Hu.
    unfold user_read_loop. by step_with H. }
  assert (Herr := fun ret buf d2 => read_turn_fails env i d1 c1 ret buf d2 Hnb (Hbef _ _) Hc1).
  unfold read_result. rewrite <-Hsh1 in Hq.
  destruct (decide (mailmsg_state d = R1_AMP_MAILMSG_ACTIVE)) as [Ha|Ha].
  - rewrite Ha. rewrite Ha in Hst.
    pose proof (run_receive_open d1 i c1 message_zero q Hst
      (linux_bound_same _ _ (Hb Ha) Hv1 Hsh1 He1) Hc1 Hprio Hrange Hq) as Hrun.
    destruct q as [|m q'].
    + exists d1. split; [|by rewrite Hst].
      eapply Hread. by rewrite (Herr _ _ _ Hrun).
    + destruct Hrun as (d2 & Hrun & Hrep & _ & Hv2 & Hu2 & Hmu). exists d2.
      pose proof (proj1 (lview_parts _ _ Hv2)) as Hst2. rewrite Hst in Hst2.
      split; [|by rewrite Hst2]. rewrite He1 in Hrun. inversion_clear Hpay as [|? ? Hlen _].
      destruct (Z.eqb_spec (received_code (mailmsg_endpoint_ d) m) 0) as [Hz|Hz].
      * rewrite Hz in Hrun. eapply Hread, (read_turn_delivers 0 env i d1 d1 d2 c1 c1); try done.
        -- by rewrite Hmu.
        -- by apply (received_ok_valid (mailmsg_endpoint_ d)).
      * eapply Hread. rewrite (Herr _ _ _ Hrun Hz).
        by destruct (received_code_values (mailmsg_endpoint_ d) m) as [?|[Hc|[Hc|Hc]]]; [done|rewrite Hc..].
  - exists d1. assert (Hg : data_gate (mailmsg_state d) <> 0) by by destruct (mailmsg_state d).
    rewrite (proj2 (Z.eqb_neq _ _) Hg). split; [|done].
    pose proof (run_receive_closed d1 i message_zero ltac:(by rewrite Hst)) as Hrun. rewrite Hst in Hrun.
    eapply Hread. rewrite (Herr _ _ _ Hrun Hg). by destruct (mailmsg_state d).
Qed.

(** C19. A doorbell is never slept through: when the ring was empty under the
    lock but [rx_generation] has moved since the loop sampled it - the mailbox
    callback ran before, during or after the locked receive - a blocking
    [read] does not sleep but looks again, and returns the frame that arrived.
    What sleeping would have done ([re_sleep]) does not matter. *)
Theorem read_misses_no_doorbell env i d dA dB c c' m q buf :
  re_nonblock env = false -> re_copy_fails env = false ->
  re_before env 0 d = dA -> re_after env 0 dA = dB -> re_before env 1 dB = dB ->
  0 <= i < 4 -> zget (mailmsg_user d) i = Some c ->
  map uc_priority (mailmsg_user dA) = priorities -> map uc_priority (mailmsg_user dB) = priorities ->
  mailmsg_state dA = R1_AMP_MAILMSG_ACTIVE -> linux_bound dA ->
  represents (mk_ring_ptr Cpu3ToLinux i) (c_shared (carveout dA)) [] ->
  zget (mailmsg_user dB) i = Some c' -> rx_generation c' <> rx_generation c ->
  mailmsg_state dB = R1_AMP_MAILMSG_ACTIVE -> linux_bound dB ->
  represents (mk_ring_ptr Cpu3ToLinux i) (c_shared (carveout dB)) (m :: q) ->
  received_code (mailmsg_endpoint_ dB) m = 0 -> length (payload m) = 28%nat ->
  exists d', user_read_loop 2 0 env i buf d =
    Some (Some (sizeof_user_frame, Some (delivered i m)), d') /\
    represents (mk_ring_ptr Cpu3ToLinux i) (c_shared (carveout d')) q.
Proof.
  intros Hnb Hcp HA HB HB1 Hi Hc HpA HpB HstA HbA HqA Hc' Hgen HstB HbB HqB Hok Hlen.
  destruct (channel_of_priorities dA i HpA Hi) as (cA & HcA & HprioA).
  destruct (channel_of_priorities dB i HpB Hi) as (cB & HcB & HprioB).
  rewrite HcB in Hc'. injection Hc' as ->.
  pose proof (run_receive_open dA i cA buf [] HstA HbA HcA HprioA Hi HqA) as HrunA.
  pose proof (run_receive_open dB i c' buf (m :: q) HstB HbB HcB HprioB Hi HqB) as HrunB.
  destruct HrunB as (d2 & HrunB & Hrep & _ & _ & _ & Hmu). exists d2. split; [|done].
  unfold user_read_loop.
  step_with (read_turn_again 0 env i d dA dB c c' buf Hnb HA HB Hc HrunA HcB Hgen).
  rewrite Hok in HrunB.
  assert (Hv : frame_verdict m = 0) by by apply (received_ok_valid (mailmsg_endpoint_ dB)).
  step_with (read_turn_delivers 1 env i dB dB d2 c' c' m buf Hcp HB1 HcB
    ltac:(by rewrite Hmu) HprioB HrunB Hv Hlen).
  done.
Qed.

(** * Writing *)

(** What a [write] of a well-formed record returns, given the frames CPU3 has
    not yet taken from the ring. *)
Definition write_result d (q : list mailmsg_message) : Z :=
  match mailmsg_state d with
  | R1_AMP_MAILMSG_ACTIVE => if (length q =? 7)%nat then - ENOSPC else sizeof_user_frame
  | R1_AMP_MAILMSG_STARTING => - EAGAIN
  | R1_AMP_MAILMSG_STOPPING => - ESHUTDOWN
  | R1_AMP_MAILMSG_OFFLINE | R1_AMP_MAILMSG_UNARMED => - ENOLINK
  | R1_AMP_MAILMSG_START_TIMEOUT | R1_AMP_MAILMSG_STOP_TIMEOUT => - EIO
  end.
(** The ring it leaves: in an ACTIVE session with room, one more frame. *)
Definition written d (q : list mailmsg_message) (frame : mailmsg_user_frame) : list mailmsg_message :=
  if state_is (mailmsg_state d) R1_AMP_MAILMSG_ACTIVE && negb (length q =? 7)%nat
  then q ++ [committed (sent_message (mailmsg_endpoint_ d) (uf_type frame) (uf_payload frame)
               (uf_length frame))]
  else q.

Lemma write_active d q frame :
  mailmsg_state d = R1_AMP_MAILMSG_ACTIVE -> (length q < 7)%nat ->
  write_result d q = sizeof_user_frame /\
  written d q frame = q ++ [committed (sent_message (mailmsg_endpoint_ d) (uf_type frame)
                              (uf_payload frame) (uf_length frame))].
Proof.
  intros Ha Hq. unfold write_result, written. rewrite Ha, state_is_refl.
  by rewrite (proj2 (Nat.eqb_neq _ _)) by lia.
Qed.

(** A [write] into a ring with room, in an ACTIVE session. *)
(** What a write leaves for the next one on the priority. *)
Record write_again (i : Z) d d' : Prop := {
  wa_mbox : mbox_ok (mb d');
  wa_injected : injected (mb d) i = false -> injected (mb d') i = false;
  wa_files : user_files d' = user_files d;
  wa_channels : mailmsg_user d' = mailmsg_user d;
  wa_next : next_sequence (mailmsg_endpoint_ d') = next_seq (next_sequence (mailmsg_endpoint_ d));
}.
Lemma run_write_active d file i u c frame q :
  user_files d !! file = Some u -> channel u = i -> zget (mailmsg_user d) i = Some c ->
  uc_priority c = i -> 0 <= i < 4 ->
  uf_priority frame = i -> 0 <= uf_length frame <= 28 -> length (uf_payload frame) = 32%nat ->
  mailmsg_state d = R1_AMP_MAILMSG_ACTIVE -> linux_bound d -> mbox_ok (mb d) ->
  represents (mk_ring_ptr LinuxToCpu3 i) (c_shared (carveout d)) q -> (length q < 7)%nat ->
  exists d', r1_amp_mailmsg_user_write file (Some frame) sizeof_user_frame d =
      Some (sizeof_user_frame, d') /\
    represents (mk_ring_ptr LinuxToCpu3 i) (c_shared (carveout d'))
      (q ++ [committed (sent_message (mailmsg_endpoint_ d) (uf_type frame) (uf_payload frame)
               (uf_length frame))]) /\
    same_but (mk_ring_ptr LinuxToCpu3 i) (c_shared (carveout d)) (c_shared (carveout d')) /\
    lview d' = lview d /\
    regs0 (mb d') = (if injected (mb d) i || has_bit (regs0 (mb d) R1_AMP_MBOX_A2B_STATUS) i
      then regs0 (mb d) else rung i (Z.lor R1_AMP_MAILMSG_DOORBELL i) i (regs0 (mb d))) /\
    write_again i d d'.
Proof.
  intros Hf Hch Hc Hcp Hrange Hprio Hlen Hpay Ha Hb Hmb Hq Hroom.
  unfold r1_amp_mailmsg_user_write. step_with (run_user_file d file u Hf).
  rewrite Z.eqb_refl. cbn [negb]. rewrite Hch. step_with (run_user_channel d i c Hc).
  rewrite Hprio, Hcp, Z.eqb_refl. cbn [negb orb].
  rewrite (proj2 (Z.ltb_ge _ _)) by (unfold MAILMSG_PAYLOAD_BYTES; lia). step.
  rewrite Ha. cbn [data_gate Z.eqb andb].
  pose proof (run_send mailmsg_linux_memory_ops LinuxToCpu3 mailmsg_linux_notify
    (endpoint_world d) i (uf_type frame) (Some (uf_payload frame)) (uf_length frame)
    send_result_zero q (linux_ready d Hb) (lb_session d Hb) Hrange Hlen
    ltac:(intros _; eexists; split; [done|lia]) Hq) as Hsend. cbv zeta in Hsend.
  rewrite (proj2 (Nat.eqb_neq _ _)) in Hsend by lia.
  destruct Hsend as (sh' & Hrep & Hsame & Hsend).
  destruct (run_notify (mb d) i Hmb Hrange) as (b' & Hn & Hmb' & Hpol & _ & Hrem & Hregs).
  change (ctx (endpoint_world d)) with (mb d) in Hsend. unfold mailmsg_linux_notify in Hsend at 1.
  rewrite Hn in Hsend.
  eexists. split; [erewrite run_bind_some by (unfold on_endpoint, zoom; rewrite Hsend; reflexivity);
    reflexivity|].
  split; [exact Hrep|]. split; [exact Hsame|].
  split; [unfold lview, endpoint_back; cbn; unfold ep_key; cbn; by rewrite length_zupd|]. split; [exact Hregs|].
  split; [exact Hmb'| |done|done|done]. intros Hi. rewrite Hi in Hrem. destruct Hpol as (E1 & _ & E2).
  unfold injected in *. cbn. by rewrite Hrem, E1, E2.
Qed.

(** C18. A [write] of a record for this priority returns what [write_result]
    says and commits exactly one frame - this session's generation, the next
    sequence number, the record's type, length and payload - or none.  A full
    ring gives -ENOSPC; the outcome of the doorbell, even a failure, does not
    change the result: the committed frame counts as written.  After a
    lifecycle timeout the result is -EIO where the data gate says
    -ETIMEDOUT. *)
Theorem write_returns d file i u frame q :
  reachable d -> user_files d !! file = Some u -> channel u = i ->
  uf_priority frame = i -> 0 <= uf_length frame <= 28 -> length (uf_payload frame) = 32%nat ->
  (mailmsg_state d = R1_AMP_MAILMSG_ACTIVE -> linux_bound d) -> mbox_ok (mb d) ->
  represents (mk_ring_ptr LinuxToCpu3 i) (c_shared (carveout d)) q ->
  exists d', r1_amp_mailmsg_user_write file (Some frame) sizeof_user_frame d =
    Some (write_result d q, d') /\
    represents (mk_ring_ptr LinuxToCpu3 i) (c_shared (carveout d')) (written d q frame).
Proof.
  intros Hr Hf Hch Hprio Hlen Hpay Hb Hmb Hq. pose proof (dv_user _ (reachable_device d Hr)) as Hi.
  assert (Hrange : 0 <= i < 4) by (subst i; by apply (ui_files _ Hi file)).
  destruct (user_channel_exists d i Hi Hrange) as (c & Hc & Hcp).
  pose proof (represents_length _ _ _ Hq) as H7.
  destruct (decide (mailmsg_state d = R1_AMP_MAILMSG_ACTIVE /\ (length q < 7)%nat)) as [[Ha Hroom]|Hno].
  { destruct (write_active d q frame Ha Hroom) as [-> ->].
    destruct (run_write_active d file i u c frame q Hf Hch Hc Hcp Hrange Hprio Hlen Hpay Ha (Hb Ha)
      Hmb Hq Hroom) as (d' & R & Hrep & _). by exists d'. }
  unfold r1_amp_mailmsg_user_write. step_with (run_user_file d file u Hf).
  rewrite Z.eqb_refl. cbn [negb]. rewrite Hch. step_with (run_user_channel d i c Hc).
  rewrite Hprio, Hcp, Z.eqb_refl. cbn [negb orb].
  rewrite (proj2 (Z.ltb_ge _ _)) by (unfold MAILMSG_PAYLOAD_BYTES; lia). step.
  unfold write_result, written.
  destruct (decide (mailmsg_state d = R1_AMP_MAILMSG_ACTIVE)) as [Ha|Ha].
  2:{ exists d. rewrite (proj2 (state_is_ne _ _) Ha). split; [|done].
      destruct (mailmsg_state d); try done; step; reflexivity. }
  rewrite Ha, state_is_refl. cbn [data_gate Z.eqb andb].
  pose proof (run_send mailmsg_linux_memory_ops LinuxToCpu3 mailmsg_linux_notify
    (endpoint_world d) i (uf_type frame) (Some (uf_payload frame)) (uf_length frame)
    send_result_zero q (linux_ready d (Hb Ha)) (lb_session d (Hb Ha)) Hrange Hlen
    ltac:(intros _; eexists; split; [done|lia]) Hq) as Hsend. cbv zeta in Hsend.
  assert (Hfull : (length q =? 7)%nat = true) by (apply Nat.eqb_eq; destruct (decide (length q < 7)%nat); [tauto|lia]).
  rewrite Hfull in *.
  eexists. split; [erewrite run_bind_some by (unfold on_endpoint, zoom; rewrite Hsend; reflexivity);
    reflexivity|exact Hq].
Qed.
End UserSpec.

(** * The properties at a scripted session *)
#[local] Existing Instance host_platform.

(** File 7 reads p1, where one PONG waits; file 8 is open on p1 as well. *)
Definition host_reading : r1_amp_cpu_on_data :=
  host_run (events_start ++ events_ready ++ [EvControlWork 8 (host_env 200 0);
    EvOpen 7 1 true; EvOpen 8 1 true; EvClaim 7; peer_frame 1 1 MAILMSG_MSG_PONG [42; 0; 0; 0]]).
Lemma host_reading_reachable : reachable host_reading.
Proof. apply host_run_reachable. vm_compute. reflexivity. Qed.
Lemma host_reading_bound : linux_bound host_reading.
Proof. apply reachable_bound; [apply host_reading_reachable|vm_compute; reflexivity]. Qed.
Definition quiet_read : read_env :=
  mk_read_env true false (fun _ d => d) (fun _ d => d) (fun _ d => (0, d)).

Lemma devices_consistent_witness : reachable host_reading /\ device_inv host_reading.
Proof. split; [apply host_reading_reachable|]. apply (devices_consistent _ host_reading_reachable). Defined.

Lemma second_reader_busy_witness :
  r1_amp_mailmsg_user_read 1 quiet_read 8 sizeof_user_frame host_reading =
  Some (Some (- EBUSY, None), host_reading).
Proof.
  apply (second_reader_busy host_reading 7 8 (mk_user_file 1 true) (mk_user_file 1 false)
    quiet_read 1 host_reading_reachable); try (vm_compute; reflexivity). lia.
Defined.

Lemma host_reading_ring i n :
  check_ring (mk_ring_ptr Cpu3ToLinux i) (c_shared (carveout host_reading)) n &&
  forallb (fun m => (length (payload m) =? 28)%nat)
    (match ring_at (mk_ring_ptr Cpu3ToLinux i) (c_shared (carveout host_reading)) with
     | Some r => ring_contents r | None => [] end) = true ->
  exists q, represents (mk_ring_ptr Cpu3ToLinux i) (c_shared (carveout host_reading)) q /\
    length q = n /\ Forall (fun m => length (payload m) = 28%nat) q.
Proof.
  intros [H1 H2]%andb_true_iff. apply check_ring_represents in H1 as (q & Hq & Hn).
  exists q. split; [done|]. split; [done|]. destruct Hq as (r & Hat & _ & <- & _). rewrite Hat in H2.
  apply Forall_forall. intros m Hm. rewrite forallb_forall in H2.
  apply Nat.eqb_eq, H2. by apply list_elem_of_In.
Qed.

Lemma read_returns_witness :
  exists q d', represents (mk_ring_ptr Cpu3ToLinux 1) (c_shared (carveout host_reading)) q /\
    length q = 1%nat /\
    r1_amp_mailmsg_user_read 1 quiet_read 7 sizeof_user_frame host_reading =
    Some (Some (read_result host_reading 1 q), d') /\
    represents (mk_ring_ptr Cpu3ToLinux 1) (c_shared (carveout d')) (tail q).
Proof.
  destruct (host_reading_ring 1 1) as (q & Hq & Hn & Hp); [vm_compute; reflexivity|].
  destruct (read_returns quiet_read 7 1 host_reading q host_reading_reachable) as (d' & Hrun & _ & Hrep).
  - exists (mk_user_file 1 true). destruct (zget (mailmsg_user host_reading) 1) as [c|] eqn:E.
    + exists c. split; [vm_compute; reflexivity|]. split; [reflexivity|]. split; [reflexivity|by left].
    + vm_compute in E. discriminate E.
  - intros _. apply host_reading_bound.
  - exact Hq.
  - exact Hp.
  - reflexivity.
  - reflexivity.
  - reflexivity.
  - exists q, d'. split; [exact Hq|]. split; [exact Hn|]. split; [exact Hrun|].
    assert (E : data_gate (mailmsg_state host_reading) = 0) by (vm_compute; reflexivity).
    rewrite E in Hrep. exact Hrep.
Defined.

Definition host_record : mailmsg_user_frame :=
  mk_user_frame 1 MAILMSG_MSG_PING 0 4 ([41; 0; 0; 0] ++ replicate 28 0).
Lemma write_returns_witness :
  exists d' q, r1_amp_mailmsg_user_write 8 (Some host_record) sizeof_user_frame host_reading = Some (48, d') /\
    represents (mk_ring_ptr LinuxToCpu3 1) (c_shared (carveout d')) q /\ length q = 1%nat.
Proof.
  assert (Hq : exists q, represents (mk_ring_ptr LinuxToCpu3 1) (c_shared (carveout host_reading)) q /\
    length q = 0%nat) by (apply check_ring_represents; vm_compute; reflexivity).
  destruct Hq as (q & Hq & Hl). destruct q; [|discriminate Hl].
  destruct (write_returns host_reading 8 1 (mk_user_file 1 false) host_record []
    host_reading_reachable) as (d' & Hrun & Hrep).
  - vm_compute. reflexivity.
  - reflexivity.
  - reflexivity.
  - vm_compute. split; discriminate.
  - reflexivity.
  - intros _. apply host_reading_bound.
  - apply check_mbox_ok. vm_compute. reflexivity.
  - exact Hq.
  - assert (E : mailmsg_state host_reading = R1_AMP_MAILMSG_ACTIVE) by (vm_compute; reflexivity).
    destruct (write_active host_reading [] host_record E) as [H1 H2]; [cbn; lia|].
    rewrite H1 in Hrun. rewrite H2 in Hrep.
    eexists. eexists. split; [exact Hrun|]. split; [exact Hrep|reflexivity].
Defined.

(** File 7 reads p1; the frame and its doorbell arrive after the empty receive. *)
Definition host_listening : r1_amp_cpu_on_data :=
  host_run (events_start ++ events_ready ++ [EvControlWork 8 (host_env 200 0);
    EvOpen 7 1 true; EvClaim 7]).
Definition pong_arrives (d : r1_amp_cpu_on_data) : r1_amp_cpu_on_data :=
  default d (run_events [peer_frame 1 1 MAILMSG_MSG_PONG [42; 0; 0; 0]; EvMailbox 1 None] d).
Definition late_doorbell : read_env :=
  mk_read_env false false (fun _ d => d) (fun _ => pong_arrives) (fun _ d => (-512, d)).

Lemma host_listening_reachable : reachable host_listening.
Proof. apply host_run_reachable. vm_compute. reflexivity. Qed.
Lemma host_pong_reachable : reachable (pong_arrives host_listening).
Proof.
  unfold pong_arrives. destruct (run_events _ host_listening) as [d'|] eqn:E; [|apply host_listening_reachable].
  eapply reachable_run; [apply host_listening_reachable|exact E].
Qed.

Definition host_ponged : r1_amp_cpu_on_data := pong_arrives host_listening.
Lemma late_doorbell_env d :
  re_before late_doorbell 0 d = d /\ re_after late_doorbell 0 d = pong_arrives d /\
  re_before late_doorbell 1 d = d.
Proof. done. Qed.

Lemma host_listening_ring :
  represents (mk_ring_ptr Cpu3ToLinux 1) (c_shared (carveout host_listening)) [].
Proof.
  assert (HqA : exists q, represents (mk_ring_ptr Cpu3ToLinux 1) (c_shared (carveout host_listening)) q /\
    length q = 0%nat) by (apply check_ring_represents; vm_compute; reflexivity).
  destruct HqA as ([|] & HqA & Hn); [exact HqA|discriminate Hn].
Qed.
Lemma host_ponged_ring : exists m q,
  represents (mk_ring_ptr Cpu3ToLinux 1) (c_shared (carveout host_ponged)) (m :: q) /\
  received_code (mailmsg_endpoint_ host_ponged) m = 0 /\ length (payload m) = 28%nat.
Proof.
  assert (H : exists q, represents (mk_ring_ptr Cpu3ToLinux 1) (c_shared (carveout host_ponged)) q /\
    length q = 1%nat) by (apply check_ring_represents; vm_compute; reflexivity).
  destruct H as ([|m q] & Hq & Hl); [discriminate Hl|]. exists m, q. split; [exact Hq|].
  assert (Hck : forallb (fun m => (received_code (mailmsg_endpoint_ host_ponged) m =? 0) &&
    (length (payload m) =? 28)%nat)
    (match ring_at (mk_ring_ptr Cpu3ToLinux 1) (c_shared (carveout host_ponged)) with
     | Some r => ring_contents r | None => [] end) = true) by (vm_compute; reflexivity).
  destruct Hq as (r' & Hat & _ & Hc & _). rewrite Hat, Hc in Hck. cbn [forallb] in Hck.
  apply andb_true_iff in Hck as [Hck _]. apply andb_true_iff in Hck as [H1 H2].
  split; [by apply Z.eqb_eq|by apply Nat.eqb_eq].
Qed.
Lemma host_ponged_channels : exists c c', zget (mailmsg_user host_listening) 1 = Some c /\
  zget (mailmsg_user host_ponged) 1 = Some c' /\ rx_generation c' <> rx_generation c.
Proof.
  assert (H : match zget (mailmsg_user host_listening) 1, zget (mailmsg_user host_ponged) 1 with
    | Some c, Some c' => negb (rx_generation c' =? rx_generation c) | _, _ => false end = true)
    by (vm_compute; reflexivity).
  destruct (zget (mailmsg_user host_listening) 1) as [c|]; [|discriminate H].
  destruct (zget (mailmsg_user host_ponged) 1) as [c'|]; [|discriminate H].
  exists c, c'. split; [reflexivity|]. split; [reflexivity|]. by apply negb_true_iff, Z.eqb_neq in H.
Qed.
Lemma host_ponged_states :
  map uc_priority (mailmsg_user host_listening) = priorities /\
  map uc_priority (mailmsg_user host_ponged) = priorities /\
  mailmsg_state host_listening = R1_AMP_MAILMSG_ACTIVE /\
  mailmsg_state host_ponged = R1_AMP_MAILMSG_ACTIVE.
Proof. vm_compute. repeat split. Qed.
Lemma host_ponged_bound : linux_bound host_listening /\ linux_bound host_ponged.
Proof.
  split; apply reachable_bound; [apply host_listening_reachable|vm_compute; reflexivity|
    apply host_pong_reachable|vm_compute; reflexivity].
Qed.

Lemma read_misses_no_doorbell_witness :
  exists m d', user_read_loop 2 0 late_doorbell 1 message_zero host_listening =
    Some (Some (sizeof_user_frame, Some (delivered 1 m)), d').
Proof.
  destruct host_ponged_ring as (m & q & HqB & Hok & Hlen).
  destruct host_ponged_channels as (c & c' & Hc & Hc' & Hgen).
  destruct host_ponged_states as (HpA & HpB & HsA & HsB). destruct host_ponged_bound as [HbA HbB].
  destruct (read_misses_no_doorbell late_doorbell 1 host_listening host_listening host_ponged c c' m q
    message_zero eq_refl eq_refl (proj1 (late_doorbell_env _))
    (proj1 (proj2 (late_doorbell_env host_listening))) (proj2 (proj2 (late_doorbell_env _)))
    ltac:(lia) Hc HpA HpB HsA HbA host_listening_ring Hc' Hgen HsB HbB HqB Hok Hlen) as (d' & Hrun & _).
  exists m, d'. exact Hrun.
Defined.
