(* ===== verification/Firmware.v ===== *)
(** CPU3's firmware, [firmware/zephyr/app/src/main.c]: the mailbox interrupt
    handler, the worker thread with its PING/PONG test service, the session
    and stop control, the observations it publishes for Linux, and the main
    thread.

    A function of the source is a computation on [cpu3_state]; a thread's
    endless loop is the computation of one turn of it. *)
From S2P Require Import Prelude Protocol Ring Notify Endpoint DriverState.

(** * Constants *)
Definition MAILBOX_A2B_INTEN : Z := 0x00.
Definition MAILBOX_A2B_STATUS : Z := 0x04.
Definition MAILBOX_A2B_CMD (ch : Z) : Z := 0x08 + ch * 8.
Definition MAILBOX_A2B_DAT (ch : Z) : Z := 0x0c + ch * 8.
Definition MAILBOX_B2A_STATUS : Z := 0x2c.
Definition MAILBOX_B2A_CMD (ch : Z) : Z := 0x30 + ch * 8.
Definition MAILBOX_B2A_DAT (ch : Z) : Z := 0x34 + ch * 8.
Definition MAILBOX_RX_CHANNEL : Z := 0.
Definition RK3588_MAILBOX_CONTROLLERS : Z := 1.
Definition RK3588_MAILBOX_CHANNELS : Z := 4.
Definition GICD_IROUTER : Z := 0x6000.
Definition RK3588_MBOX_A2B_IRQ : Z := 100.

Definition AMP_CMD_PING : Z := 1.
Definition AMP_STATUS_OK : Z := 0.
Definition AMP_STATUS_BAD_CMD : Z := -1.
Definition AMP_MBOX_RAW_TEST_CMD : Z := 0xa2b00000.
Definition AMP_MBOX_PROTOCOL_CMD : Z := 0xa2b10000.
Definition AMP_MBOX_PROTOCOL_ACK : Z := 0xb2a10000.
Definition B2A_ACK_COMMAND : Z := 0xb2a00001.

Definition MARK_MAIN : Z := 0x414d5031.
Definition MARK_EL_HIGHEST : Z := 0x454c4849.
Definition MARK_EL2_INIT : Z := 0x454c3249.
Definition MARK_EL1_INIT : Z := 0x454c3149.
Definition MARK_HEARTBEAT : Z := 0x48420000.
Definition MARK_A2B_INTEN_ENABLE : Z := 0x41324245.
Definition MARK_B2A_TX : Z := 0x42324154.
Definition MARK_GIC_ROUTES : Z := 0x52544553.
Definition MARK_A2B_CLEAR_PROBE : Z := 0x41434b43.
Definition MARK_MAILMSG_BAD_CRC : Z := 0x43524345.
Definition MARK_MAILMSG_INVALID : Z := 0x494e564c.
Definition MARK_CPU_STOPPING : Z := 0x53544f50.
Definition MARK_CPU_STOP_FAILED : Z := 0x53544641.
Definition MAILMSG_WORKER_OBSERVATION_MAGIC : Z := 0x4d455654.
(** [MAILMSG_WORKER_DRAIN_QUOTA], as the number of turns left. *)
Definition MAILMSG_WORKER_DRAIN_QUOTA : nat := Z.to_nat (MAILMSG_RING_SLOTS - 1).

(** * Build configuration

    The preprocessor symbols the image is built with; a symbol that holds a
    value is an option. *)
Record fw_config := mk_fw_config {
  MAILMSG_TEST_SKIP_PRIORITY : Z;
  MAILMSG_TEST_SKIP_SESSION_READY : bool;
  MAILMSG_ENABLE_STOP_CONTROL : bool;
  MAILMSG_TEST_SELF_OFF_VALUE : option Z;
}.
(** No symbol defined on the command line. *)
Definition default_config : fw_config :=
  mk_fw_config MAILMSG_PRIORITY_COUNT false false None.

(** * What the firmware calls outside its sources *)
Class Cpu3Platform := {
  (* sys_write32(value, mailbox + offset) and its effect on the registers *)
  sys_write32 : Z -> Z -> (Z -> Z) -> (Z -> Z);
  (* sys_cache_data_flush_range / sys_cache_data_invd_range, then dsb sy *)
  sys_cache_data_flush_range : hook;
  sys_cache_data_invd_range : hook;
  (* mrs CurrentEL *)
  current_el : Z;
  (* pm_cpu_off(): its result, or [None] when it does not return *)
  pm_cpu_off : option Z;
  (* the indeterminate contents of automatic variables *)
  indeterminate_result : mailmsg_send_result;
  indeterminate_message : mailmsg_message;
}.

(** * State *)
Inductive core_status :=
| CoreRunning
| CoreOff      (* PSCI CPU_OFF took effect *)
| CoreParked.  (* CPU_OFF returned: [wfe] for ever *)
#[export] Instance core_status_eq_dec : EqDecision core_status.
Proof. solve_decision. Defined.

(** The shared memory and the mailbox0 registers as CPU3 sees them, the
    interrupt lines, the static variables of the file and the local variables
    of [main]'s loop. *)
Record cpu3_state := mk_cpu3 {
  mem3 : carveout_mem;
  mailbox : Z -> Z;
  gicd : Z -> Z;
  irq_lines : list bool;                (* A2B interrupt of channel 0..3 enabled *)
  core : core_status;
  mailmsg_pending_priorities : Z;
  mailmsg_irq_count : Z;
  mailmsg_work_sem : Z;                 (* count of a semaphore with limit 1 *)
  mailmsg_rx_error_count : Z;
  mailmsg_endpoint_ready : bool;
  mailmsg_session_ready_committed : bool;
  mailmsg_session_ready_published : bool;
  cpu3_endpoint : mailmsg_endpoint (Z -> Z);
  mailmsg_tx_full_commit : Z;
  mailmsg_tx_full_count : Z;
  mailmsg_worker_commit : Z;
  mailmsg_worker_wake_count : Z;
  mailmsg_worker_drain_count : Z;
  mailmsg_worker_message_count : Z;
  mailmsg_worker_empty_wake_count : Z;
  last_sequence : Z;
  heartbeat : Z;
  spin : Z;
}.
#[export] Instance eta_cpu3 : Eta cpu3_state := fun s =>
  mk_cpu3 (mem3 s) (mailbox s) (gicd s) (irq_lines s) (core s) (mailmsg_pending_priorities s)
    (mailmsg_irq_count s) (mailmsg_work_sem s) (mailmsg_rx_error_count s)
    (mailmsg_endpoint_ready s) (mailmsg_session_ready_committed s)
    (mailmsg_session_ready_published s) (cpu3_endpoint s) (mailmsg_tx_full_commit s)
    (mailmsg_tx_full_count s) (mailmsg_worker_commit s) (mailmsg_worker_wake_count s)
    (mailmsg_worker_drain_count s) (mailmsg_worker_message_count s)
    (mailmsg_worker_empty_wake_count s) (last_sequence s) (heartbeat s) (spin s).

(** The image as loaded: zeroed variables, interrupts off. *)
Definition cpu3_boot (m : carveout_mem) (regs gic : Z -> Z) : cpu3_state :=
  mk_cpu3 m regs gic [false; false; false; false] CoreRunning 0 0 0 0 false false false
    endpoint_zero 0 0 0 0 0 0 0 0 0 0.

Abbreviation F := (M cpu3_state).

Section Firmware.
Context {platform : Cpu3Platform} (cfg : fw_config).

(** * Access to memory, registers and the endpoint *)
Definition upd_mem (f : carveout_mem -> carveout_mem) : F unit :=
  modify (fun s => s <| mem3 := f (mem3 s) |>).
(** [sys_read32(mailbox[controller] + offset)]: one controller is mapped. *)
Definition sys_read32_mailbox (controller offset : Z) : F Z :=
  if controller =? 0 then gets (fun s => mailbox s offset) else ub.
Definition sys_write32_mailbox (value controller offset : Z) : F unit :=
  if controller =? 0
  then modify (fun s => s <| mailbox := sys_write32 value offset (mailbox s) |>) else ub.
Definition sys_read32_gicd (offset : Z) : F Z := gets (fun s => gicd s offset).

Definition cpu3_world (s : cpu3_state) : ep_world (Z -> Z) :=
  mk_ep_world (cpu3_endpoint s) (c_shared (mem3 s)) (mailbox s).
Definition cpu3_back (w : ep_world (Z -> Z)) (s : cpu3_state) : cpu3_state :=
  s <| cpu3_endpoint := ep w |> <| mem3 := mem3 s <| c_shared := shm w |> |> <| mailbox := ctx w |>.
Definition on_cpu3_endpoint {A} (m : M (ep_world (Z -> Z)) A) : F A :=
  zoom cpu3_world cpu3_back m.

Definition mailmsg_queue_publish : hook := sys_cache_data_flush_range.
Definition mailmsg_queue_acquire : hook := sys_cache_data_invd_range.
Definition mailmsg_queue_memory_ops : mailmsg_memory_ops :=
  mk_memory_ops (Some mailmsg_queue_publish) (Some mailmsg_queue_acquire).

Definition mailmsg_payload_u32 (payload : list Z) (off : Z) : Z := load_u32 payload off.
Definition mailmsg_store_payload_u32 (payload : list Z) (off value : Z) : list Z :=
  store_u32 payload off value.

(** Writes the whole [mailbox_observation] line. *)
Definition observe (mark status command data : Z) : F unit :=
  upd_mem (fun m => m <| mbox_observation := mk_observation_line mark status command data |>).

(** * Observations of the worker and of full reverse rings *)

(** [++commit], and once more when it is zero. *)
Definition next_commit (c : Z) : Z :=
  let c := u32 (c + 1) in if c =? 0 then u32 (c + 1) else c.

(** The stores of [mailmsg_publish_worker_observation], in program order. *)
Definition worker_stores (commit irq wake drain message empty last_pending pending_now
    last_priority : Z) :
    list (r1_amp_mailmsg_worker_observation_line -> r1_amp_mailmsg_worker_observation_line) :=
  [ (fun o => o <| wo_commit := 0 |>);
    (fun o => o <| wo_magic := MAILMSG_WORKER_OBSERVATION_MAGIC |>);
    (fun o => o <| wo_irq_count := irq |>);
    (fun o => o <| wo_wake_count := wake |>);
    (fun o => o <| wo_drain_count := drain |>);
    (fun o => o <| wo_message_count := message |>);
    (fun o => o <| wo_empty_wake_count := empty |>);
    (fun o => o <| wo_last_pending := last_pending |>);
    (fun o => o <| wo_pending_now := pending_now |>);
    (fun o => o <| wo_last_priority := last_priority |>);
    (fun o => o <| wo_commit_inv := u32_not commit |>);
    (fun o => o <| wo_commit := commit |>) ].
Definition mailmsg_publish_worker_observation (last_pending last_priority : Z) : F unit :=
  modify (fun s => s <| mailmsg_worker_commit := next_commit (mailmsg_worker_commit s) |>) ;;
  s ← get;
  upd_mem (fun m => m <| worker_observation := fold_left (fun o store => store o)
    (worker_stores (mailmsg_worker_commit s) (mailmsg_irq_count s) (mailmsg_worker_wake_count s)
       (mailmsg_worker_drain_count s) (mailmsg_worker_message_count s)
       (mailmsg_worker_empty_wake_count s) last_pending (mailmsg_pending_priorities s) last_priority)
    (worker_observation m) |>).

(** The stores of [mailmsg_publish_tx_full_observation], in program order. *)
Definition tx_full_stores (commit count priority type result : Z) :
    list (mailmsg_tx_full_observation -> mailmsg_tx_full_observation) :=
  [ (fun o => o <| txo_commit := 0 |>);
    (fun o => o <| txo_magic := MAILMSG_TX_FULL_OBSERVATION_MAGIC |>);
    (fun o => o <| full_count := count |>);
    (fun o => o <| last_priority := priority |>);
    (fun o => o <| last_type := type |>);
    (fun o => o <| last_result := result |>);
    (fun o => o <| txo_commit_inv := u32_not commit |>);
    (fun o => o <| txo_commit := commit |>) ].
Definition mailmsg_publish_tx_full_observation (priority type result : Z) : F unit :=
  modify (fun s => s <| mailmsg_tx_full_commit := next_commit (mailmsg_tx_full_commit s) |>) ;;
  s ← get;
  upd_mem (fun m => m <| tx_full_observation := fold_left (fun o store => store o)
    (tx_full_stores (mailmsg_tx_full_commit s) (mailmsg_tx_full_count s) priority type result)
    (tx_full_observation m) |>).

Definition mailmsg_reset_tx_full_observation : F unit :=
  modify (fun s => s <| mailmsg_tx_full_count := 0 |> <| mailmsg_tx_full_commit := 0 |>) ;;
  mailmsg_publish_tx_full_observation MAILMSG_PRIORITY_COUNT MAILMSG_MSG_NOP MAILMSG_RING_OK.

(** [result] points to a local variable, never NULL. *)
Definition mailmsg_record_tx_full (priority type : Z) (result : mailmsg_send_result) : F unit :=
  if negb (queue_result result =? MAILMSG_RING_FULL) then mret tt else
  modify (fun s => s <| mailmsg_tx_full_count := u32 (mailmsg_tx_full_count s + 1) |>) ;;
  mailmsg_publish_tx_full_observation priority type (queue_result result).

(** * The notification backend *)
Definition mailmsg_cpu3_notify (priority : Z) : M (Z -> Z) Z :=
  regs ← get;
  if has_bit (regs MAILBOX_B2A_STATUS) priority then mret MAILMSG_NOTIFY_COALESCED else
  modify (sys_write32 (Z.lor AMP_MBOX_PROTOCOL_ACK priority) (MAILBOX_B2A_CMD priority)) ;;
  modify (sys_write32 priority (MAILBOX_B2A_DAT priority)) ;;
  mret MAILMSG_NOTIFY_SENT.
Definition mailmsg_cpu3_notify_ops : mailmsg_notify_ops (Z -> Z) :=
  mk_notify_ops (Some mailmsg_cpu3_notify) None.
Definition mailmsg_cpu3_notify_endpoint : mailmsg_notify_endpoint (Z -> Z) :=
  mk_notify_endpoint (Some mailmsg_cpu3_notify_ops).

(** * Sending *)

(** [payload] of a feedback frame: the peer's sequence and a status. *)
Definition feedback_payload (peer_sequence status : Z) : list Z :=
  mailmsg_store_payload_u32
    (mailmsg_store_payload_u32 (replicate 8 0) MAILMSG_FEEDBACK_SEQUENCE_OFFSET peer_sequence)
    MAILMSG_FEEDBACK_STATUS_OFFSET status.

Definition mailmsg_send_feedback (priority type peer_sequence status : Z) : F bool :=
  '(ret, result) ← on_cpu3_endpoint (mailmsg_endpoint_send priority type
      (Some (feedback_payload peer_sequence status)) MAILMSG_FEEDBACK_BYTES indeterminate_result);
  when (negb (ret =? 0)) (mailmsg_record_tx_full priority type result) ;;
  mret (ret =? MAILMSG_ENDPOINT_OK).

Definition mailmsg_send_stop_feedback (type peer_sequence status : Z) : F bool :=
  '(ret, result) ← on_cpu3_endpoint (mailmsg_endpoint_send MAILMSG_PRIO_CRITICAL type
      (Some (feedback_payload peer_sequence status)) MAILMSG_FEEDBACK_BYTES indeterminate_result);
  if negb (ret =? 0) then
    mailmsg_record_tx_full MAILMSG_PRIO_CRITICAL type result ;;
    mret false
  else mret (mailmsg_notify_accepted (notify_result result)).

(** [payload] of the SESSION_READY frame. *)
Definition session_payload (gen : Z) : list Z :=
  mailmsg_store_payload_u32
    (mailmsg_store_payload_u32 (replicate 8 0) MAILMSG_SESSION_GENERATION_OFFSET gen)
    MAILMSG_SESSION_VERSION_OFFSET MAILMSG_PROTOCOL_VERSION.

Definition mailmsg_service_session_ready : F unit :=
  s ← get;
  if negb (mailmsg_endpoint_ready s) || mailmsg_session_ready_published s then mret tt else
  if mailmsg_session_ready_committed s then
    ret ← zoom mailbox (fun regs s => s <| mailbox := regs |>)
            (mailmsg_cpu3_notify MAILMSG_PRIO_CRITICAL);
    when (mailmsg_notify_accepted ret)
      (modify (fun s => s <| mailmsg_session_ready_published := true |>))
  else
  '(ret, result) ← on_cpu3_endpoint (mailmsg_endpoint_send MAILMSG_PRIO_CRITICAL
      MAILMSG_MSG_SESSION_READY (Some (session_payload (ep_generation (cpu3_endpoint s))))
      MAILMSG_SESSION_BYTES indeterminate_result);
  if negb (ret =? 0) then
    mailmsg_record_tx_full MAILMSG_PRIO_CRITICAL MAILMSG_MSG_SESSION_READY result
  else
  modify (fun s => s <| mailmsg_session_ready_committed := true |>
    <| mailmsg_session_ready_published := mailmsg_notify_accepted (notify_result result) |>).

Definition mailmsg_send_pong (priority : Z) (request : mailmsg_message) : F bool :=
  let type := if type_ request =? MAILMSG_MSG_PING then MAILMSG_MSG_PONG else MAILMSG_MSG_NOP in
  let bytes := mailmsg_store_payload_u32 (replicate 4 0) 0
                 (u32 (mailmsg_payload_u32 (payload request) 0 + 1)) in
  '(ret, result) ← on_cpu3_endpoint (mailmsg_endpoint_send priority type (Some bytes) 4
      indeterminate_result);
  when (negb (ret =? 0)) (mailmsg_record_tx_full priority type result) ;;
  mret (ret =? MAILMSG_ENDPOINT_OK).

(** * Bring-up of the mailbox *)
Definition mailmsg_enable_a2b_channels : F unit :=
  before ← sys_read32_mailbox 0 MAILBOX_A2B_INTEN;
  sys_write32_mailbox (Z.lor before 0xf) 0 MAILBOX_A2B_INTEN ;;
  after ← sys_read32_mailbox 0 MAILBOX_A2B_INTEN;
  observe MARK_A2B_INTEN_ENABLE before after RK3588_MAILBOX_CONTROLLERS.

Definition mailmsg_snapshot_gic_routes : F unit :=
  route ← sys_read32_gicd (GICD_IROUTER + RK3588_MBOX_A2B_IRQ * 8);
  observe MARK_GIC_ROUTES route RK3588_MBOX_A2B_IRQ 0.

(** [r1_amp_checkpoint_c]: two words at the start of the state area. *)
Definition r1_amp_checkpoint_c (mark : Z) : F unit :=
  upd_mem (fun m => m <| status_words := [mark; current_el] |>).
Definition z_arm64_el_highest_plat_init : F unit := r1_amp_checkpoint_c MARK_EL_HIGHEST.
Definition z_arm64_el2_plat_init : F unit := r1_amp_checkpoint_c MARK_EL2_INIT.
Definition z_arm64_el1_plat_init : F unit := r1_amp_checkpoint_c MARK_EL1_INIT.

(** Does not return: it ends with the core off, or parked if CPU_OFF failed. *)
Definition mailmsg_cpu_off_after_ready : F unit :=
  for_each priorities (fun index =>
    modify (fun s => s <| irq_lines := zset index false (irq_lines s) |>)) ;;
  status ← sys_read32_mailbox 0 MAILBOX_A2B_STATUS;
  let pending := Z.land status 0xf in
  when (negb (pending =? 0)) (sys_write32_mailbox pending 0 MAILBOX_A2B_STATUS) ;;
  sys_read32_mailbox 0 MAILBOX_A2B_STATUS ;;
  r1_amp_checkpoint_c MARK_CPU_STOPPING ;;
  match pm_cpu_off with
  | None => modify (fun s => s <| core := CoreOff |>)
  | Some ret =>
      r1_amp_checkpoint_c (Z.lor MARK_CPU_STOP_FAILED (Z.land (u32 (- ret)) 0xffff)) ;;
      modify (fun s => s <| core := CoreParked |>)
  end.

(** * The PING/PONG test service *)

(** A frame popped with a CRC or header defect. *)
Definition reject_frame (priority pop_ret : Z) (request : mailmsg_message) : F unit :=
  let bad_crc := pop_ret =? MAILMSG_RING_BAD_CRC in
  let reason := if bad_crc then MAILMSG_NACK_BAD_CRC else MAILMSG_NACK_INVALID_FRAME in
  when (mailmsg_priority_is_reliable priority)
    (mailmsg_send_feedback priority MAILMSG_MSG_NACK (sequence request) reason ;; mret tt) ;;
  modify (fun s => s <| mailmsg_rx_error_count := u32 (mailmsg_rx_error_count s + 1) |>) ;;
  count ← gets mailmsg_rx_error_count;
  observe (if bad_crc then MARK_MAILMSG_BAD_CRC else MARK_MAILMSG_INVALID) priority reason count.

(** What becomes of the core after a delivered frame. *)
Definition self_off_request (priority : Z) (request : mailmsg_message) : bool :=
  match MAILMSG_TEST_SELF_OFF_VALUE cfg with
  | None => false
  | Some v =>
      (priority =? MAILMSG_PRIO_CRITICAL) && (type_ request =? MAILMSG_MSG_PING) &&
      (length_ request =? 4) && (mailmsg_payload_u32 (payload request) 0 =? v)
  end.

(** A frame popped intact; [false] when the core does not come back. *)
Definition handle_frame (priority : Z) (request : mailmsg_message) : F bool :=
  if (priority =? MAILMSG_PRIO_CRITICAL) && (type_ request =? MAILMSG_MSG_STOP_REQUEST) then
    if negb (length_ request =? 0) then
      mailmsg_send_stop_feedback MAILMSG_MSG_STOP_REFUSED (sequence request)
        MAILMSG_STOP_REFUSED_INVALID_REQUEST ;;
      mret true
    else if MAILMSG_ENABLE_STOP_CONTROL cfg then
      ok ← mailmsg_send_stop_feedback MAILMSG_MSG_STOP_READY (sequence request) 0;
      if ok : bool then mailmsg_cpu_off_after_ready ;; mret false else mret true
    else
      mailmsg_send_stop_feedback MAILMSG_MSG_STOP_REFUSED (sequence request)
        MAILMSG_STOP_REFUSED_BUSY ;;
      mret true
  else if self_off_request priority request then mailmsg_cpu_off_after_ready ;; mret false
  else
    when (mailmsg_priority_is_reliable priority)
      (mailmsg_send_feedback priority MAILMSG_MSG_ACK (sequence request) 0 ;; mret tt) ;;
    mailmsg_send_pong priority request ;;
    mret true.

(** The [while] loop of one priority with [turns] turns left to the quota: whether
    the quota was reached and the messages counted, or [None] when the core
    does not come back. *)
Fixpoint service_priority (turns : nat) (priority : Z) (messages : Z) (request : mailmsg_message) :
    F (option (bool * Z)) :=
  match turns with
  | O => mret (Some (true, messages))
  | S turns =>
      '(pop_ret, request) ← on_cpu3_endpoint (mailmsg_endpoint_receive priority request);
      if negb (pop_ret =? 0) then
        if (pop_ret =? MAILMSG_RING_BAD_CRC) || (pop_ret =? MAILMSG_RING_INVALID) then
          reject_frame priority pop_ret request ;;
          mret (Some (match turns with O => true | _ => false end, u32 (messages + 1)))
        else mret (Some (false, messages))
      else
        on ← handle_frame priority request;
        if on : bool then service_priority turns priority (u32 (messages + 1)) request else mret None
  end.

(** The [for] loop over the priorities: the messages counted, [*last_priority]
    and [*reschedule]. *)
Fixpoint service_priorities (ps : list Z) (pending messages last reschedule : Z) :
    F (option (Z * Z * Z)) :=
  match ps with
  | [] => mret (Some (messages, last, reschedule))
  | priority :: ps =>
      if negb (has_bit pending priority) || (priority =? MAILMSG_TEST_SKIP_PRIORITY cfg)
      then service_priorities ps pending messages last reschedule else
      r ← service_priority MAILMSG_WORKER_DRAIN_QUOTA priority messages indeterminate_message;
      match r with
      | None => mret None
      | Some (quota_reached, messages) =>
          more ← (if quota_reached : bool then
                    r ← on_cpu3_endpoint (mailmsg_endpoint_has_received priority);
                    mret (r =? 1)
                  else mret false);
          service_priorities ps pending messages priority
            (if more : bool then Z.lor reschedule (BIT priority) else reschedule)
      end
  end.

Definition mailmsg_pingpong_test_service (pending last reschedule : Z) : F (option (Z * Z * Z)) :=
  s ← get;
  if negb (mailmsg_endpoint_ready s) then mret (Some (0, last, reschedule)) else
  if negb (MAILMSG_TEST_SKIP_SESSION_READY cfg) && negb (mailmsg_session_ready_published s)
  then mret (Some (0, last, reschedule)) else
  service_priorities priorities pending 0 last reschedule.

(** * Threads and the interrupt handler *)
Definition k_sem_give : F unit := modify (fun s => s <| mailmsg_work_sem := 1 |>).

(** A turn of [mailmsg_worker] in the pieces between which an interrupt can
    come: [k_sem_take] has let it through; [atomic_set] takes the pending set;
    the service; [atomic_or] of what is left to do; and the rest. *)
Definition worker_take : F unit :=
  modify (fun s => s <| mailmsg_work_sem := 0 |>
    <| mailmsg_worker_wake_count := u32 (mailmsg_worker_wake_count s + 1) |>).
Definition worker_claim : F Z :=
  pending ← gets mailmsg_pending_priorities;
  modify (fun s => s <| mailmsg_pending_priorities := 0 |>) ;;
  mret pending.
Definition worker_empty : F unit :=
  modify (fun s => s <| mailmsg_worker_empty_wake_count :=
    u32 (mailmsg_worker_empty_wake_count s + 1) |>) ;;
  mailmsg_publish_worker_observation 0 MAILMSG_PRIORITY_COUNT.
Definition worker_serve (pending : Z) : F (option (Z * Z)) :=
  modify (fun s => s <| mailmsg_worker_drain_count := u32 (mailmsg_worker_drain_count s + 1) |>) ;;
  r ← mailmsg_pingpong_test_service pending MAILMSG_PRIORITY_COUNT 0;
  match r with
  | None => mret None
  | Some (messages, last, reschedule) =>
      modify (fun s => s <| mailmsg_worker_message_count :=
        u32 (mailmsg_worker_message_count s + messages) |>) ;;
      mret (Some (last, reschedule))
  end.
Definition worker_merge (reschedule : Z) : F unit :=
  when (negb (reschedule =? 0))
    (modify (fun s => s <| mailmsg_pending_priorities :=
       Z.lor (mailmsg_pending_priorities s) reschedule |>)).
Definition worker_finish (pending last reschedule : Z) : F unit :=
  when (negb (reschedule =? 0)) k_sem_give ;;
  mailmsg_publish_worker_observation pending last.

(** One turn of [mailmsg_worker]. *)
Definition mailmsg_worker : F unit :=
  worker_take ;;
  pending ← worker_claim;
  if pending =? 0 then worker_empty else
  r ← worker_serve pending;
  match r with
  | None => mret tt
  | Some (last, reschedule) => worker_merge reschedule ;; worker_finish pending last reschedule
  end.

(** [mailmsg_mailbox_a2b_matrix_isr] with argument [index]; the optional busy
    wait before the acknowledgement only delays it. *)
Definition protocol_command (command : Z) : bool :=
  Z.land command 0xfffffff0 =? AMP_MBOX_PROTOCOL_CMD.
Definition mailmsg_mailbox_a2b_matrix_isr (index : Z) : F unit :=
  let controller := index / RK3588_MAILBOX_CHANNELS in
  let channel := index mod RK3588_MAILBOX_CHANNELS in
  status ← sys_read32_mailbox controller MAILBOX_A2B_STATUS;
  command ← sys_read32_mailbox controller (MAILBOX_A2B_CMD channel);
  data ← sys_read32_mailbox controller (MAILBOX_A2B_DAT channel);
  when (negb (protocol_command command))
    (sys_write32_mailbox (Z.lor 0xb2a00000 index) controller (MAILBOX_B2A_CMD channel) ;;
     sys_write32_mailbox data controller (MAILBOX_B2A_DAT channel)) ;;
  sys_write32_mailbox (BIT channel) controller MAILBOX_A2B_STATUS ;;
  status_after ← sys_read32_mailbox controller MAILBOX_A2B_STATUS;
  observe MARK_A2B_CLEAR_PROBE status status_after
    (Z.lor (Z.shiftl controller 16) (BIT channel)) ;;
  when (protocol_command command || (command =? Z.lor AMP_MBOX_RAW_TEST_CMD index))
    (modify (fun s => s <| mailmsg_pending_priorities :=
       Z.lor (mailmsg_pending_priorities s) (BIT channel) |>
       <| mailmsg_irq_count := u32 (mailmsg_irq_count s + 1) |>) ;;
     k_sem_give).

Definition mailmsg_send_b2a_ack (seq : Z) : F unit :=
  sys_write32_mailbox B2A_ACK_COMMAND 0 (MAILBOX_B2A_CMD MAILBOX_RX_CHANNEL) ;;
  sys_write32_mailbox seq 0 (MAILBOX_B2A_DAT MAILBOX_RX_CHANNEL) ;;
  status ← sys_read32_mailbox 0 MAILBOX_B2A_STATUS;
  observe MARK_B2A_TX status B2A_ACK_COMMAND seq.

(** * The main thread *)

(** The initial observations and the mailbox's bring-up. *)
Definition main_bringup : F unit :=
  mailmsg_reset_tx_full_observation ;;
  mailmsg_publish_worker_observation 0 MAILMSG_PRIORITY_COUNT ;;
  mailmsg_enable_a2b_channels ;;
  mailmsg_snapshot_gic_routes.

(** [main] up to its loop. *)
Definition main_init : F unit :=
  r1_amp_checkpoint_c MARK_MAIN ;;
  ret ← on_cpu3_endpoint (mailmsg_endpoint_bind true (Some mailmsg_queue_memory_ops)
          (Some mailmsg_cpu3_notify_endpoint) MAILMSG_ENDPOINT_CPU3);
  modify (fun s => s <| mailmsg_endpoint_ready := ret =? MAILMSG_ENDPOINT_OK |>) ;;
  main_bringup ;;
  modify (fun s => s <| irq_lines := [true; true; true; true] |>) ;;
  ready ← gets mailmsg_endpoint_ready;
  when ((ready : bool) && negb (MAILMSG_TEST_SKIP_SESSION_READY cfg)) mailmsg_service_session_ready.

(** A request in the legacy lines that has not been answered yet. *)
Definition legacy_request (s : cpu3_state) : bool :=
  let c := req_commit (mem3 s) in
  negb (cl_sequence c =? 0) && negb (cl_sequence c =? last_sequence s) &&
  (cl_sequence_inv c =? u64_not (cl_sequence c)).

Definition legacy_response (request : r1_amp_payload_line) : r1_amp_payload_line :=
  let ping := pl_command request =? AMP_CMD_PING in
  mk_payload_line (pl_command request) (pl_value request)
    (if ping then AMP_STATUS_OK else AMP_STATUS_BAD_CMD)
    (if ping then u32 (pl_value request + 1) else 0).

(** One turn of the loop of [main]. *)
Definition main_loop : F unit :=
  s ← get;
  let seq := cl_sequence (req_commit (mem3 s)) in
  when (legacy_request s)
    (upd_mem (fun m => m <| rsp_payload := legacy_response (req_payload m) |>) ;;
     upd_mem (fun m => m <| rsp_commit := mk_commit_line seq (u64_not seq) |>) ;;
     mailmsg_send_b2a_ack (u32 seq) ;;
     modify (fun s => s <| last_sequence := seq |>)) ;;
  when (negb (MAILMSG_TEST_SKIP_SESSION_READY cfg)) mailmsg_service_session_ready ;;
  modify (fun s => s <| spin := u32 (spin s + 1) |>) ;;
  n ← gets spin;
  when (n =? 1000000)
    (hb ← gets heartbeat;
     r1_amp_checkpoint_c (Z.lor MARK_HEARTBEAT (Z.land hb 0xffff)) ;;
     modify (fun s => s <| heartbeat := u64 (hb + 1) |> <| spin := 0 |>)).

(** * The firmware as a state machine *)

(** Where the worker thread is in its turn. *)
Inductive worker_pc :=
| WWaiting                                       (* in [k_sem_take] *)
| WTaken
| WClaimed (pending : Z)
| WServed (pending last reschedule : Z)
| WMerged (pending last reschedule : Z).
Record fw_state := mk_fw { cpu : cpu3_state; pc : worker_pc }.

(** What can happen while the core runs: an enabled interrupt, at any point;
    the next piece of the worker's turn; a turn of the main loop while the
    worker, a cooperative thread, waits; and any write of Linux to the shared
    memory and the mailbox. *)
Inductive cpu3_event :=
| CIsr (index : Z)
| CWorker
| CMain
| CPeer (f : carveout_mem -> carveout_mem) (g : (Z -> Z) -> (Z -> Z)).

Definition worker_step (s : cpu3_state) (pc : worker_pc) : option fw_state :=
  match pc with
  | WWaiting =>
      if mailmsg_work_sem s =? 0 then None else
      '(_, s) ← worker_take s; Some (mk_fw s WTaken)
  | WTaken => '(pending, s) ← worker_claim s; Some (mk_fw s (WClaimed pending))
  | WClaimed pending =>
      if pending =? 0 then '(_, s) ← worker_empty s; Some (mk_fw s WWaiting) else
      '(r, s) ← worker_serve pending s;
      match r with
      | None => Some (mk_fw s WWaiting)
      | Some (last, reschedule) => Some (mk_fw s (WServed pending last reschedule))
      end
  | WServed pending last reschedule =>
      '(_, s) ← worker_merge reschedule s; Some (mk_fw s (WMerged pending last reschedule))
  | WMerged pending last reschedule =>
      '(_, s) ← worker_finish pending last reschedule s; Some (mk_fw s WWaiting)
  end.

Definition cpu3_handle (ev : cpu3_event) (f : fw_state) : option fw_state :=
  let s := cpu f in
  match ev with
  | CPeer h g => Some (mk_fw (s <| mem3 := h (mem3 s) |> <| mailbox := g (mailbox s) |>) (pc f))
  | _ =>
      if negb (bool_decide (core s = CoreRunning)) then None else
      match ev with
      | CIsr index =>
          if negb (match zget (irq_lines s) index with Some b => b | None => false end) then None
          else '(_, s) ← mailmsg_mailbox_a2b_matrix_isr index s; Some (mk_fw s (pc f))
      | CWorker => worker_step s (pc f)
      | CMain =>
          match pc f with
          | WWaiting => '(_, s) ← main_loop s; Some (mk_fw s WWaiting)
          | _ => None
          end
      | CPeer _ _ => None
      end
  end.
End Firmware.
