(* ===== verification/BlockSpec.v ===== *)
(** What the two sides do to the shared memory: whatever property of the block
    the ring operations keep, every operation of the driver but [start] and
    every operation of the firmware keeps, along with the lines of the state
    area the other side owns. *)
From S2P Require Import Prelude Protocol Ring Notify Endpoint Frame DriverState DriverLifecycle DriverUser DriverSysfs DriverSpec Firmware.

Definition header (sh : mailmsg_shared) : Z * Z * Z := (magic sh, version sh, shared_generation sh).
Definition hooks_ok (o : option mailmsg_memory_ops) : Prop := forall ops, o = Some ops -> CoherentOps ops.

(** * Properties of the block a side keeps

    A side pushes frames on the rings of some directions and pops from others;
    the frames carry a generation the property allows, as that of the block
    is. *)
Class KeepsBlock (B : mailmsg_shared -> Prop) (pushes pops : direction -> Prop) : Type := {
  kb_allowed : Z -> Prop;
  kb_generation sh : B sh -> kb_allowed (shared_generation sh);
  kb_push ops p m : hooks_ok ops -> pushes (ring_dir p) -> kb_allowed (generation m) ->
    stable B (mailmsg_ring_push p ops m);
  kb_pop ops p m : hooks_ok ops -> pops (ring_dir p) -> stable B (mailmsg_ring_pop p ops m);
}.
(** The driver has a push of its own. *)
Class KeepsBlockLinux {platform : Platform} (B : mailmsg_shared -> Prop) pops
    `{!KeepsBlock B (fun dir => dir = LinuxToCpu3) pops} : Prop :=
  kb_linux_push p m corrupt : ring_dir p = LinuxToCpu3 -> kb_allowed (generation m) ->
    stable B (mailmsg_linux_ring_push p m corrupt).

(** ** Reading changes nothing *)
Section Reads.
Context (B : mailmsg_shared -> Prop).

Lemma stable_hook ops rg : hooks_ok ops -> stable B (ops_acquire ops rg) /\ stable B (ops_publish ops rg).
Proof.
  intros H. unfold ops_acquire, ops_publish. destruct ops as [o|]; [|by split; apply stable_ub].
  destruct (H o eq_refl) as [-> ->]. by split; apply stable_modify.
Qed.
Lemma stable_acquire ops rg : hooks_ok ops -> stable B (ops_acquire ops rg).
Proof. intros H. by apply stable_hook. Qed.
Lemma stable_publish ops rg : hooks_ok ops -> stable B (ops_publish ops rg).
Proof. intros H. by apply stable_hook. Qed.
Lemma stable_load p : stable B (load_ring p).
Proof. unfold load_ring. stable_auto. Qed.
#[local] Hint Resolve stable_acquire stable_load : stable.
Lemma stable_load_slot p i : stable B (load_slot p i).
Proof. unfold load_slot. stable_auto. Qed.
Lemma stable_has_data p ops : hooks_ok ops -> stable B (mailmsg_ring_has_data p ops).
Proof. intros Ho. unfold mailmsg_ring_has_data. stable_auto. Qed.
Lemma stable_count p ops : hooks_ok ops -> stable B (mailmsg_ring_count p ops).
Proof. intros Ho. unfold mailmsg_ring_count. stable_auto. Qed.
End Reads.
#[export] Hint Resolve stable_has_data stable_count stable_acquire stable_publish stable_load
  stable_load_slot : stable.

(** ** Properties every single store keeps

    The stores of a side are a slot and the producer index of the rings it
    pushes on, the consumer index of those it pops from. *)
Class KeptByStores (B : mailmsg_shared -> Prop) (pushes pops : direction -> Prop) : Prop := {
  ks_slot p sh r i m : pushes (ring_dir p) -> B sh -> ring_at p sh = Some r ->
    B (ring_set p (r <| slot := zset i m (slot r) |>) sh);
  ks_producer p sh r j : pushes (ring_dir p) -> B sh -> ring_at p sh = Some r -> 0 <= j < 8 ->
    B (ring_set p (r <| producer := j |>) sh);
  ks_consumer p sh r j : pops (ring_dir p) -> B sh -> ring_at p sh = Some r -> 0 <= j < 8 ->
    B (ring_set p (r <| consumer := j |>) sh);
}.

Section Rings.
Context (B : mailmsg_shared -> Prop) (pushes pops : direction -> Prop) `{!KeptByStores B pushes pops}.
#[local] Abbreviation stored p f :=
  (forall sh r, B sh -> ring_at p sh = Some r -> B (ring_set p (f r) sh)).

(** A ring is read and written back with one of its fields changed. *)
Lemma stable_restore {A} p (f : mailmsg_ring -> mailmsg_ring) (m : M mailmsg_shared A) :
  stored p f -> stable B m -> stable B (r ← load_ring p; store_ring p (f r) ;; m).
Proof.
  intros Hf Hm sh a sh' E Hs. unfold store_ring, load_ring in E.
  apply run_bind_inv in E as (r & s1 & E1 & E2). apply run_bind_inv in E1 as (sh1 & s2 & [= <- <-] & E1).
  destruct (ring_at p sh) as [r0|] eqn:Er; [|done]. injection E1 as <- <-.
  apply run_bind_inv in E2 as ([] & s3 & E3 & E4).
  apply run_bind_inv in E3 as (r1 & s4 & E5 & [= <-]).
  apply run_bind_inv in E5 as (sh2 & s5 & [= <- <-] & E5). rewrite Er in E5. injection E5 as <- <-.
  eapply Hm; [exact E4|]. by apply Hf.
Qed.
Lemma stable_store_slot p i m : pushes (ring_dir p) -> stable B (store_slot p i m).
Proof.
  intros Hp. unfold store_slot. apply stable_bind; [apply stable_load_slot|intros _].
  intros sh [] sh' E. apply (stable_restore p (fun r => r <| slot := zset i m (slot r) |>) (mret tt)
    (fun sh r Hs Hr => ks_slot p sh r i m Hp Hs Hr) (stable_ret B tt) sh tt sh').
  apply run_bind_inv in E as (r & s1 & E1 & E2). rewrite (run_bind_some _ _ _ _ _ E1).
  by rewrite (run_bind_some _ _ _ _ _ E2).
Qed.
#[local] Hint Resolve stable_store_slot : stable.

Lemma stable_push p ops m : hooks_ok ops -> pushes (ring_dir p) -> stable B (mailmsg_ring_push p ops m).
Proof.
  intros Ho Hp. unfold mailmsg_ring_push. apply stable_bind; [auto with stable|intros r0]. cbv zeta.
  destruct (frame_invalid m); [apply stable_ret|].
  do 2 (apply stable_bind; [by auto with stable|intros ?]). destruct (_ =? _); [apply stable_ret|].
  do 7 (apply stable_bind; [by auto with stable|intros ?]).
  apply (stable_restore p (fun r => r <| producer := mailmsg_next (producer r0) |>)); [|stable_auto].
  intros sh r Hs Hr. apply ks_producer; [done..|apply mailmsg_next_range].
Qed.
Lemma stable_pop p ops m : hooks_ok ops -> pops (ring_dir p) -> stable B (mailmsg_ring_pop p ops m).
Proof.
  intros Ho Hp. unfold mailmsg_ring_pop. apply stable_bind; [auto with stable|intros r0]. cbv zeta.
  do 2 (apply stable_bind; [by auto with stable|intros ?]). destruct (_ =? _); [apply stable_ret|].
  do 2 (apply stable_bind; [by auto with stable|intros ?]). destruct (negb _); [apply stable_ret|].
  apply (stable_restore p (fun r => r <| consumer := mailmsg_next (consumer r0) |>)); [|stable_auto].
  intros sh r Hs Hr. apply ks_consumer; [done..|apply mailmsg_next_range].
Qed.

(** The driver's own push. *)
Context {platform : Platform} {coherent : CoherentOps mailmsg_linux_memory_ops}.
Lemma stable_linux_hook rg :
  stable B (modify (mailmsg_linux_acquire rg)) /\ stable B (modify (mailmsg_linux_publish rg)).
Proof.
  pose proof coherent_publish as E1. pose proof coherent_acquire as E2. injection E1 as E1. injection E2 as E2.
  by split; apply stable_modify; intros sh; rewrite ?E1, ?E2.
Qed.
Lemma stable_linux_push p m corrupt : pushes (ring_dir p) -> stable B (mailmsg_linux_ring_push p m corrupt).
Proof.
  intros Hd. pose proof (fun rg => proj1 (stable_linux_hook rg)) as Ha.
  pose proof (fun rg => proj2 (stable_linux_hook rg)) as Hp.
  unfold mailmsg_linux_ring_push. apply stable_bind; [auto with stable|intros r0]. cbv zeta.
  destruct (_ || _); [apply stable_ret|].
  apply stable_bind; [apply Ha|intros _]. apply stable_bind; [auto with stable|intros r1].
  destruct (_ =? _); [apply stable_ret|].
  do 3 (apply stable_bind; [by auto with stable|intros ?]).
  apply stable_bind; [stable_auto|intros _]. apply stable_bind; [apply Hp|intros _].
  do 2 (apply stable_bind; [by auto with stable|intros ?]). apply stable_bind; [apply Hp|intros _].
  apply (stable_restore p (fun r => r <| producer := u32 (producer r0 + 1) mod MAILMSG_RING_SLOTS |>)).
  - intros sh r Hs Hr. apply ks_producer; [done..|]. by apply Z.mod_pos_bound.
  - apply stable_bind; [apply Hp|intros _; apply stable_ret].
Qed.
End Rings.
#[export] Instance stores_keep B pushes pops : KeptByStores B pushes pops -> KeepsBlock B pushes pops.
Proof.
  intros H. exists (fun _ => True); [done|intros; by eapply stable_push|intros; by eapply stable_pop].
Defined.
#[export] Instance stores_keep_linux {platform : Platform} {coherent : CoherentOps mailmsg_linux_memory_ops} B pops
  (H : KeptByStores B (fun dir => dir = LinuxToCpu3) pops) : KeepsBlockLinux B pops.
Proof. intros p m corrupt Hp _. by eapply stable_linux_push. Qed.

(** * The endpoint operations *)
Section EndpointBlock.
Context {C : Type} (B : mailmsg_shared -> Prop) (pushes pops : direction -> Prop)
  `{!KeepsBlock B pushes pops}.

(** The endpoint works with coherent hooks, on the rings of its side. *)
Record role_ok (e : mailmsg_endpoint C) : Prop := {
  ro_hooks : hooks_ok (memory_ops e);
  ro_tx dir : tx e = Some dir -> pushes dir;
  ro_rx dir : rx e = Some dir -> pops dir;
}.
Definition world_keeps (w : ep_world C) : Prop := B (shm w) /\ role_ok (ep w).
#[local] Abbreviation ok := world_keeps.

Lemma role_ok_key e e' : memory_ops e' = memory_ops e -> tx e' = tx e -> rx e' = rx e -> role_ok e -> role_ok e'.
Proof. intros E1 E2 E3 []. split; by rewrite ?E1, ?E2, ?E3. Qed.
(** An endpoint that is not bound holds no hooks and no rings. *)
Lemma role_zero : role_ok endpoint_zero.
Proof. by split. Qed.
Lemma stable_on_shared {A} (m : M mailmsg_shared A) : stable B m -> stable ok (on_shared m).
Proof.
  intros Hm. apply (stable_zoom ok B); [done|by intros w []|]. intros sh w [_ Hk] Hb. by split.
Qed.
Lemma stable_on_ctx {A} (m : M C A) : stable ok (on_ctx m).
Proof. by apply (stable_zoom ok (fun _ => True)). Qed.
Lemma stable_upd_ep f :
  (forall e, memory_ops (f e) = memory_ops e /\ tx (f e) = tx e /\ rx (f e) = rx e) -> stable ok (upd_ep f).
Proof.
  intros Hf. apply stable_modify. intros w [Hb Hr]. destruct (Hf (ep w)) as (E1 & E2 & E3).
  split; [exact Hb|]. by eapply role_ok_key.
Qed.
Lemma stable_upd_stats prio f : stable ok (upd_stats prio f).
Proof. by apply stable_upd_ep. Qed.
Lemma stable_next_sequence : stable ok mailmsg_endpoint_next_sequence.
Proof. unfold mailmsg_endpoint_next_sequence. apply stable_bind; [by apply stable_upd_ep|intros ?; stable_auto]. Qed.
#[local] Hint Resolve stable_on_shared stable_on_ctx stable_upd_stats stable_next_sequence : stable.

Lemma stable_session_valid : stable ok mailmsg_endpoint_session_valid.
Proof.
  unfold mailmsg_endpoint_session_valid. apply stable_bind_gets. intros w [_ [Hk _ _]]. stable_auto.
Qed.
#[local] Hint Resolve stable_session_valid : stable.

(** A valid session is the block's: the endpoint's generation is allowed. *)
Lemma session_generation_allowed w w' :
  mailmsg_endpoint_session_valid w = Some (0, w') -> ok w -> kb_allowed (ep_generation (ep w)).
Proof.
  unfold mailmsg_endpoint_session_valid. intros E Hw. apply run_bind_inv in E as (e & s & [= <- <-] & E).
  destruct (_ || _); [done|]. apply run_bind_inv in E as ([] & w1 & E1 & E).
  assert (Hw1 : ok w1).
  { eapply (stable_on_shared (ops_acquire (memory_ops (ep w)) RegHeader)); [|exact E1|exact Hw].
    destruct Hw as [_ [Hk _ _]]. auto with stable. }
  apply run_bind_inv in E as (sh & s & [= <- <-] & E). destruct (_ || _); [done|].
  destruct (Z.eqb_spec (shared_generation (shm w1)) (ep_generation (ep w))) as [Hg|]; [|done].
  rewrite <-Hg. apply kb_generation, Hw1.
Qed.
Lemma stable_send prio type p len r : stable ok (mailmsg_endpoint_send prio type p len r).
Proof.
  intros w a w' E Hw. unfold mailmsg_endpoint_send in E. apply run_bind_inv in E as (e & s & [= <- <-] & E).
  pose proof (ro_hooks _ (proj2 Hw)) as Hk. pose proof (ro_tx _ (proj2 Hw)) as Ht.
  destruct (tx (ep w)) as [dir|]; [|by injection E as <- <-].
  destruct (memory_ops (ep w)) as [ops|] eqn:Em; [|by injection E as <- <-].
  destruct (_ || _); [by injection E as <- <-|]. cbv zeta in E.
  apply run_bind_inv in E as (code & w1 & E1 & E).
  assert (Hw1 : ok w1) by by eapply stable_session_valid.
  destruct (Z.eqb_spec code 0) as [->|]; [|by injection E as <- <-]. cbn [negb] in E.
  pose proof (session_generation_allowed w w1 E1 Hw) as Hg.
  assert (Hpush : forall i seq bytes, stable B (mailmsg_ring_push (mk_ring_ptr dir i) (Some ops)
    (mk_message (ep_generation (ep w)) type seq len bytes 0 0))).
  { intros. apply kb_push; [done|by apply Ht|exact Hg]. }
  match type of E with ?m w1 = _ => assert (Hm : stable ok m) by stable_auto end. by eapply Hm.
Qed.
(** For receiving it is enough that pops keep the property. *)
Lemma stable_receive_pops prio buf :
  (forall ops p m, hooks_ok ops -> pops (ring_dir p) -> stable B (mailmsg_ring_pop p ops m)) ->
  stable ok (mailmsg_endpoint_receive prio buf).
Proof.
  intros Hpop. unfold mailmsg_endpoint_receive. apply stable_bind_gets. intros w [_ [Hk _ Hr]].
  destruct (rx (ep w)) as [dir|]; [|stable_auto].
  pose proof (fun i m => Hpop _ (mk_ring_ptr dir i) m Hk (Hr dir eq_refl)). stable_auto.
Qed.
Lemma stable_receive prio buf : stable ok (mailmsg_endpoint_receive prio buf).
Proof. apply stable_receive_pops, kb_pop. Qed.
Lemma stable_has_received prio : stable ok (mailmsg_endpoint_has_received prio).
Proof. unfold mailmsg_endpoint_has_received. apply stable_bind_gets. intros w [_ [Hk _ _]]. stable_auto. Qed.

(** Binding, in a role that works on the rings of this side. *)
Lemma stable_bind_endpoint sh mops notify role :
  hooks_ok mops ->
  (if role =? MAILMSG_ENDPOINT_LINUX then pushes LinuxToCpu3 /\ pops Cpu3ToLinux
   else pushes Cpu3ToLinux /\ pops LinuxToCpu3) ->
  stable ok (mailmsg_endpoint_bind sh mops notify role).
Proof.
  intros Hk Hrole. unfold mailmsg_endpoint_bind, mailmsg_endpoint_reset_stats.
  destruct (_ || _); [apply stable_ret|]. apply stable_bind; [by auto with stable|intros _].
  apply stable_bind_gets. intros w Hw. destruct (_ || _); [apply stable_ret|].
  destruct (_ =? 0); [apply stable_ret|].
  apply stable_bind; [|intros _; apply stable_bind; [stable_auto|intros _; apply stable_bind; [|intros; apply stable_ret]]].
  - apply stable_modify. intros w' [Hb [_ Ht Hr]]. by split; [|split].
  - revert Hrole. destruct (role =? _); intros [Hp Hq]; apply stable_modify; intros w' [Hb [Hh _ _]];
      (split; [exact Hb|split; [exact Hh|by intros dir [= <-]..]]).
Qed.
End EndpointBlock.
#[export] Hint Resolve stable_send stable_receive stable_has_received stable_on_shared stable_on_ctx : stable.

(** * The driver's operations *)

(** Which rings Linux writes and reads, and the lines of the state area it
    leaves to CPU3. *)
Definition linux_pushes (dir : direction) : Prop := dir = LinuxToCpu3.
Definition linux_pops (dir : direction) : Prop := dir = Cpu3ToLinux.
Definition cpu3_lines (c : carveout_mem) :=
  (status_words c, rsp_payload c, rsp_commit c, mbox_observation c, tx_full_observation c, worker_observation c).

Section LinuxBlock.
Context {platform : Platform} {coherent : CoherentOps mailmsg_linux_memory_ops}.
Implicit Types (d : r1_amp_cpu_on_data).

Lemma linux_hooks : hooks_ok (Some mailmsg_linux_memory_ops).
Proof. by intros ops [= <-]. Qed.
#[local] Hint Resolve linux_hooks : stable.

Section LinuxKeeps.
Context (B : mailmsg_shared -> Prop) `{!KeepsBlock B linux_pushes linux_pops} `{!KeepsBlockLinux B linux_pops}.

(** The block keeps [B], the session and CPU3's lines stay what they are. *)
Definition linux_keeps (g : Z) F d : Prop :=
  B (c_shared (carveout d)) /\ role_ok linux_pushes linux_pops (mailmsg_endpoint_ d) /\
  session_generation d = g /\ cpu3_lines (carveout d) = F.
Context (g : Z) (F : list Z * r1_amp_payload_line * r1_amp_commit_line * r1_amp_mbox_observation_line *
  mailmsg_tx_full_observation * r1_amp_mailmsg_worker_observation_line).
#[local] Abbreviation Inv := (linux_keeps g F).

Lemma stable_on_block {A} (m : M mailmsg_shared A) : stable B m -> stable Inv (on_block m).
Proof.
  intros Hm. apply (stable_zoom Inv B); [done|by intros d (H & _)|]. by intros sh d (_ & H) Hb.
Qed.
Lemma stable_on_endpoint {A} (m : M (ep_world mbox_state) A) :
  stable (world_keeps B linux_pushes linux_pops) m -> stable Inv (on_endpoint m).
Proof.
  intros Hm. apply (stable_zoom Inv (world_keeps B linux_pushes linux_pops)); [done| |].
  - by intros d (Hb & Hr & _).
  - by intros [e sh c] d (_ & _ & H) [Hb Hr].
Qed.
Lemma stable_on_mb {A} (m : M mbox_state A) : stable Inv (on_mb m).
Proof. by apply (stable_zoom Inv (fun _ => True)). Qed.
#[local] Hint Resolve stable_on_block stable_on_endpoint stable_on_mb : stable.

#[local] Transparent wake_all_readers.
Lemma block_wake d : Inv (wake_all_readers d) = Inv d.
Proof. reflexivity. Qed.
#[local] Opaque wake_all_readers.
Lemma stable_mark_offline : stable Inv r1_amp_mailmsg_mark_offline_locked.
Proof.
  unfold r1_amp_mailmsg_mark_offline_locked. apply stable_bind; [stable_auto|intros st].
  apply stable_when, stable_modify. intros d. by rewrite block_wake.
Qed.
#[local] Hint Resolve stable_mark_offline : stable.
Lemma stable_refresh env : stable Inv (r1_amp_refresh_affinity_locked env).
Proof. unfold r1_amp_refresh_affinity_locked. stable_auto. Qed.
Lemma stable_set_timeout : stable Inv r1_amp_mailmsg_set_timeout_locked.
Proof.
  unfold r1_amp_mailmsg_set_timeout_locked. apply stable_bind.
  - apply stable_modify. intros d. by destruct (mailmsg_state d).
  - intros _. apply stable_modify. intros d. by rewrite block_wake.
Qed.
#[local] Hint Resolve stable_refresh stable_set_timeout : stable.
Lemma stable_affinity_work env : stable Inv (r1_amp_affinity_work env).
Proof. unfold r1_amp_affinity_work. stable_auto. Qed.
Lemma stable_timeout_work env : stable Inv (r1_amp_mailmsg_lifecycle_timeout_work env).
Proof. unfold r1_amp_mailmsg_lifecycle_timeout_work. stable_auto. Qed.
Lemma stable_control_receive fuel env :
  (forall buf, stable Inv (on_endpoint (mailmsg_endpoint_receive MAILMSG_PRIO_CRITICAL buf))) ->
  stable Inv (r1_amp_mailmsg_control_work fuel env).
Proof.
  intros Hreceive. assert (H : forall k buf, stable Inv (control_loop fuel env k buf)).
  { induction fuel as [|fuel IH]; intros k buf; cbn [control_loop]; [apply stable_ret|].
    apply stable_bind; [apply Hreceive|intros [ret response]]. destruct (_ || _); [apply stable_ret|].
    destruct (negb _).
    - destruct (_ =? MAILMSG_ENDPOINT_STALE_FRAME); [apply IH|].
      apply stable_bind; [|intros _; stable_auto].
      apply stable_modify. intros d. by destruct (state_is _ _).
    - stable_auto. }
  unfold r1_amp_mailmsg_control_work. stable_auto.
Qed.
Lemma stable_control_work fuel env : stable Inv (r1_amp_mailmsg_control_work fuel env).
Proof. apply stable_control_receive. auto with stable. Qed.
#[local] Hint Resolve stable_affinity_work stable_timeout_work stable_control_work : stable.

Lemma stable_preflight : stable Inv r1_amp_mailmsg_stop_preflight_locked.
Proof.
  assert (H : forall ps, stable Inv (stop_preflight_rings ps)).
  { induction ps as [|p ps IH]; cbn [stop_preflight_rings]; stable_auto. }
  unfold r1_amp_mailmsg_stop_preflight_locked. stable_auto.
Qed.
#[local] Hint Resolve stable_preflight : stable.
Lemma stable_stop env buf count : stable Inv (mailmsg_stop_store env buf count).
Proof. unfold mailmsg_stop_store. stable_auto. Qed.
Lemma stable_rearm env buf count : stable Inv (rearm_store env buf count).
Proof.
  unfold rearm_store. destruct (negb _); [apply stable_ret|]. apply stable_bind; [stable_auto|intros d].
  do 2 (destruct (negb _); [apply stable_ret|]). destruct (psci_affinity_info env); [|apply stable_ret].
  apply stable_bind; [by auto with stable|intros ?]. apply stable_bind; [stable_auto|intros d1].
  destruct (negb _); [apply stable_ret|]. apply stable_bind; [by auto with stable|intros quiet].
  destruct (negb _); [apply stable_ret|].
  apply stable_bind; [|intros _; stable_auto].
  apply stable_modify. intros d2 (Hb & _ & H). split; [exact Hb|]. split; [apply role_zero|exact H].
Qed.

(** ** The data plane *)
Lemma stable_user_channel i : stable Inv (get_user_channel i).
Proof. unfold get_user_channel. stable_auto. Qed.
Lemma stable_upd_channel i f : stable Inv (upd_user_channel i f).
Proof. pose proof stable_user_channel. unfold upd_user_channel. stable_auto. Qed.
Lemma stable_user_file file : stable Inv (get_user_file file).
Proof. unfold get_user_file. stable_auto. Qed.
Lemma stable_gate : stable Inv r1_amp_mailmsg_data_gate_locked.
Proof. unfold r1_amp_mailmsg_data_gate_locked. stable_auto. Qed.
#[local] Hint Resolve stable_user_channel stable_upd_channel stable_user_file stable_gate : stable.
Lemma stable_claim file : stable Inv (r1_amp_mailmsg_user_claim_reader file).
Proof. unfold r1_amp_mailmsg_user_claim_reader. stable_auto. Qed.
#[local] Hint Resolve stable_claim : stable.
Lemma stable_open file i alloc : stable Inv (r1_amp_mailmsg_user_open file i alloc).
Proof. unfold r1_amp_mailmsg_user_open. stable_auto. Qed.
Lemma stable_release file : stable Inv (r1_amp_mailmsg_user_release file).
Proof. unfold r1_amp_mailmsg_user_release. stable_auto. Qed.
Lemma stable_user_receive i buf : stable Inv (user_receive i buf).
Proof. unfold user_receive. stable_auto. Qed.
Lemma stable_write file buf count : stable Inv (r1_amp_mailmsg_user_write file buf count).
Proof. unfold r1_amp_mailmsg_user_write. stable_auto. Qed.
Lemma stable_poll file : stable Inv (r1_amp_mailmsg_user_poll file).
Proof. unfold r1_amp_mailmsg_user_poll. stable_auto. Qed.
Lemma stable_callback i msg : stable Inv (r1_amp_mbox_rx_callback i msg).
Proof. unfold r1_amp_mbox_rx_callback. stable_auto. Qed.
Lemma stable_image_write buf off : stable Inv (image_write buf off).
Proof. unfold image_write. stable_auto. Qed.
(** Nothing reaches the legacy PING's stores. *)
Lemma stable_ping buf count : stable Inv (ping_store buf count).
Proof. intros d a d' E Hd. destruct (ping_store_refused buf count d) as (err & R & _). congruence. Qed.
Lemma stable_doorbell buf count : stable Inv (doorbell_store buf count).
Proof. unfold doorbell_store. stable_auto. Qed.
Lemma stable_stats_show : stable Inv mailmsg_stats_show.
Proof.
  assert (H : forall ps, stable Inv (stats_rows ps)).
  { induction ps as [|p ps IH]; cbn [stats_rows]; pose proof linux_hooks; stable_auto. }
  apply H.
Qed.
Lemma stable_response_begin : stable Inv response_begin.
Proof. unfold response_begin. stable_auto. Qed.
Lemma stable_response_turn ps response lines : stable Inv (response_turn ps response lines).
Proof. unfold response_turn. destruct ps; stable_auto. Qed.
Lemma stable_notify_inject buf count : stable Inv (mailmsg_notify_inject_store buf count).
Proof. unfold mailmsg_notify_inject_store. stable_auto. Qed.
Lemma stable_affinity_show env : stable Inv (affinity_state_show env).
Proof. unfold affinity_state_show. stable_auto. Qed.

Lemma stable_enqueue priority value corrupt :
  stable Inv (mailmsg_test_enqueue_locked priority value corrupt).
Proof.
  unfold mailmsg_test_enqueue_locked. apply stable_bind; [by apply stable_on_block, stable_linux_hook|intros _].
  apply stable_bind_get. intros d Hd. cbv zeta. destruct (_ || _) eqn:Hv; [apply stable_ret|].
  apply orb_false_iff in Hv as [_ Hv]. apply negb_false_iff, Z.eqb_eq in Hv.
  assert (Hg : kb_allowed (ep_generation (mailmsg_endpoint_ d))) by (rewrite <-Hv; apply kb_generation, Hd).
  apply stable_bind; [|intros _; apply stable_bind; [stable_auto|intros seq]].
  - apply stable_modify. intros d1 (Hb & Hr & H). split; [exact Hb|]. split; [by eapply role_ok_key, Hr|exact H].
  - by apply stable_on_block, kb_linux_push.
Qed.
#[local] Hint Resolve stable_enqueue : stable.
Lemma stable_send_ping buf count corrupt : stable Inv (mailmsg_send_ping buf count corrupt).
Proof. unfold mailmsg_send_ping. stable_auto. Qed.
Lemma stable_queue_push buf count : stable Inv (mailmsg_queue_push_store buf count).
Proof. unfold mailmsg_queue_push_store. stable_auto. Qed.

(** ** Every event of the driver

    The events of the other side are left out, and [status_show] runs with the
    other side standing still. *)
Definition own_event (ev : driver_event) : Prop :=
  match ev with
  | EvPeer _ _ => False
  | EvStatusShow peer => forall k c, peer k c = c
  | _ => True
  end.

Lemma stable_status_show peer : (forall k c, peer k c = c) -> stable Inv (status_show peer).
Proof.
  intros H. assert (Hr : forall A k (f : carveout_mem -> A), stable Inv (peer_read peer k f)).
  { intros. unfold peer_read. apply stable_bind; [|intros _; stable_auto].
    apply stable_modify. intros d. unfold linux_keeps. cbn. by rewrite H. }
  unfold status_show, read_tx_full, read_worker. stable_auto.
Qed.

Lemma linux_keeps_run {A} (m : D A) d d' : stable Inv m -> run_event m d = Some d' -> Inv d -> Inv d'.
Proof. intros Hm (a & E)%run_event_inv. by eapply Hm. Qed.
Lemma linux_keeps_event ev d d' : own_event ev -> (forall env buf count, ev <> EvStart env buf count) -> handle ev d = Some d' -> Inv d -> Inv d'.
Proof.
  assert (Hrun : forall A (m : D A) d, stable Inv m -> run_event m d = Some d' -> Inv d -> Inv d')
    by (intros; by eapply linux_keeps_run).
  intros Hown Hns E Hd. revert Hown Hns E. destruct ev; cbn [handle own_event]; intros Hown Hns E;
    [eapply Hrun; [apply stable_image_write|exact E|exact Hd]
    |by destruct (Hns env buf count)
    |eapply Hrun; [apply stable_rearm|exact E|exact Hd]
    |eapply Hrun; [apply stable_stop|exact E|exact Hd]
    |eapply Hrun; [apply stable_ping|exact E|exact Hd]
    |eapply Hrun; [apply stable_doorbell|exact E|exact Hd]
    |eapply Hrun; [apply stable_send_ping|exact E|exact Hd]
    |eapply Hrun; [apply stable_notify_inject|exact E|exact Hd]
    |eapply Hrun; [apply stable_queue_push|exact E|exact Hd]
    |eapply Hrun; [apply stable_response_begin|exact E|exact Hd]
    |eapply Hrun; [apply stable_response_turn|exact E|exact Hd]
    |eapply Hrun; [apply stable_affinity_show|exact E|exact Hd]
    |eapply Hrun; [apply stable_stats_show|exact E|exact Hd]
    |eapply Hrun; [apply stable_status_show, Hown|exact E|exact Hd]
    |
    |eapply Hrun; [apply stable_release|exact E|exact Hd]
    |eapply Hrun; [apply stable_claim|exact E|exact Hd]
    |eapply Hrun; [apply stable_user_receive|exact E|exact Hd]
    |eapply Hrun; [apply stable_write|exact E|exact Hd]
    |eapply Hrun; [apply stable_poll|exact E|exact Hd]
    |eapply Hrun; [apply stable_callback|exact E|exact Hd]
    | | | |done].
  - destruct (user_files d !! file), (zget (mailmsg_user d) i); try done.
    eapply Hrun; [apply stable_open|exact E|exact Hd].
  - destruct (affinity_work d); [|done]. eapply Hrun; [apply stable_affinity_work|exact E|exact Hd].
  - destruct (control_work d); [|done]. revert E.
    set (d0 := d <| control_work := false |>). assert (Hd0 : Inv d0) by exact Hd. clearbody d0.
    destruct (r1_amp_mailmsg_control_work fuel env d0) as [[[] d1]|] eqn:R; [|done..]. intros [= <-].
    by eapply stable_control_work.
  - destruct (lifecycle_timeout_work d); [|done].
    eapply Hrun; [apply stable_timeout_work|exact E|exact Hd].
Qed.
End LinuxKeeps.
End LinuxBlock.

(** * The shape and the header of the block *)

(** The block has its shape - four rings each way, eight slots each, indices
    in range - and the header [h]. *)
Definition block_ok (h : Z * Z * Z) (sh : mailmsg_shared) : Prop := shared_wf sh /\ header sh = h.

Section Shape.
Context (h : Z * Z * Z).
Lemma block_set p r sh : block_ok h sh -> ring_wf r -> block_ok h (ring_set p r sh).
Proof.
  intros [Hw Hh] Hr. split; [by apply shared_wf_ring_set|].
  destruct (ring_set_header p r sh) as (E1 & E2 & E3). unfold header in *. by rewrite E1, E2, E3.
Qed.
Lemma block_ring p sh r : block_ok h sh -> ring_at p sh = Some r -> ring_wf r.
Proof.
  intros [(_ & _ & H1 & H2) _]. unfold ring_at, zget. destruct (0 <=? _); [|done].
  destruct (ring_dir p); by apply Forall_lookup_1.
Qed.
#[export] Instance block_ok_kept pushes pops : KeptByStores (block_ok h) pushes pops.
Proof.
  split; intros p sh r x; intros; (eapply block_set; [done|]);
    (edestruct block_ring as [? ? ?]; [done..|]); split; cbn; rewrite ?length_zset; done.
Qed.
End Shape.

(** * The queues of the block

    What waits in a ring is a frame of the block's generation that passes the
    format checks; on the way to Linux it is intact as well, on the way to CPU3
    the driver's test hook may have corrupted its payload. *)
Definition sound_frame (gen : Z) (dir : direction) (m : mailmsg_message) : Prop :=
  generation m = gen /\ frame_invalid m = false /\ (dir = Cpu3ToLinux -> frame_verdict m = MAILMSG_RING_OK).
Definition sound_queues (sh : mailmsg_shared) : Prop :=
  forall dir i, 0 <= i < 4 ->
    exists q, represents (mk_ring_ptr dir i) sh q /\ Forall (sound_frame (shared_generation sh) dir) q.
Definition block_sound (h : Z * Z * Z) (sh : mailmsg_shared) : Prop := block_ok h sh /\ sound_queues sh.

(** What the driver's own push leaves in the slot. *)
Definition linux_committed (corrupt : bool) (m : mailmsg_message) : mailmsg_message :=
  if corrupt then committed m <| payload := zupd 0 (fun b => Z.lxor b 0xff) (payload m) |> else committed m.

Section Queues.
Lemma block_ring_index h p sh r : block_ok h sh -> ring_at p sh = Some r -> 0 <= ring_index p < 4.
Proof.
  intros [(L1 & L2 & _) _] Hr. unfold ring_at in Hr. pose proof (zget_Some_range _ _ _ Hr) as H.
  destruct (ring_dir p); cbn in H; lia.
Qed.
Lemma sound_queues_after p sh sh' q : sound_queues sh -> same_but p sh sh' -> represents p sh' q ->
  Forall (sound_frame (shared_generation sh) (ring_dir p)) q -> sound_queues sh'.
Proof.
  intros Hs Hsame Hq Hf dir i Hi. pose proof Hsame as (_ & _ & Hg & _). rewrite Hg.
  destruct (decide (mk_ring_ptr dir i = p)) as [<-|Hne]; [by exists q|].
  destruct (Hs dir i Hi) as (q' & Hq' & Hf'). exists q'. split; [by eapply represents_other|done].
Qed.
(** A ring operation that ran found its ring. *)
Lemma run_needs_ring {A} p (k : mailmsg_ring -> M mailmsg_shared A) sh a sh' :
  (r ← load_ring p; k r) sh = Some (a, sh') -> exists r, ring_at p sh = Some r.
Proof.
  intros E. apply run_bind_inv in E as (r & s & E & _). exists r. unfold load_ring in E.
  apply run_bind_inv in E as (sh1 & s1 & [= <- <-] & E). by destruct (ring_at p sh); [injection E as -> _|].
Qed.
Lemma sound_committed gen dir m : generation m = gen -> frame_invalid m = false -> sound_frame gen dir (committed m).
Proof.
  intros Hg Hi. split; [done|]. split; [done|]. intros _. unfold frame_verdict.
  change (frame_invalid (committed m)) with (frame_invalid m). rewrite Hi, committed_crc. cbn. by rewrite Z.eqb_refl.
Qed.

(** A ring operation that keeps the shape, and the ring's queue sound. *)
Lemma sound_step h {A} p (m : M mailmsg_shared A) :
  stable (block_ok h) m ->
  (forall sh a sh', m sh = Some (a, sh') -> exists r, ring_at p sh = Some r) ->
  (forall sh r q a sh', m sh = Some (a, sh') -> shared_generation sh = h.2 -> ring_at p sh = Some r -> ring_wf r ->
     represents p sh q -> Forall (sound_frame h.2 (ring_dir p)) q ->
     exists q', represents p sh' q' /\ Forall (sound_frame h.2 (ring_dir p)) q' /\ same_but p sh sh') ->
  stable (block_sound h) m.
Proof.
  intros Hm Hat Hstep sh a sh' E [Hb Hs]. split; [by eapply Hm|]. destruct (Hat _ _ _ E) as (r & Hr).
  assert (Hg : shared_generation sh = h.2) by (destruct Hb as [_ Hh]; by rewrite <-Hh).
  destruct (Hs (ring_dir p) (ring_index p) (block_ring_index _ _ _ _ Hb Hr)) as (q & Hq & Hf).
  assert (Ep : mk_ring_ptr (ring_dir p) (ring_index p) = p) by by destruct p. rewrite Ep in Hq. rewrite Hg in Hf.
  destruct (Hstep sh r q a sh' E Hg Hr (block_ring _ _ _ _ Hb Hr) Hq Hf) as (q' & Hq' & Hf' & Hsame).
  eapply sound_queues_after; [done..|]. by rewrite Hg.
Qed.

Lemma sound_push h o p m : CoherentOps o -> generation m = h.2 -> stable (block_sound h) (mailmsg_ring_push p (Some o) m).
Proof.
  intros Hc Hg. apply (sound_step h p).
  - apply (stable_push _ (fun _ => True) (fun _ => True)); [by intros ? [= <-]|done].
  - intros sh a sh' E. exact (run_needs_ring _ _ _ _ _ E).
  - intros sh r q a sh' E Hgen Hr Hwf Hq Hf. destruct (push_refines o p m sh q Hq) as (sh1 & R & Hq1 & Hsame & _).
    assert (sh1 = sh') as -> by congruence. exists (snd (Queue.push m q)). split; [exact Hq1|]. split; [|exact Hsame].
    unfold Queue.push. destruct (frame_invalid m) eqn:Hi; [done|]. destruct (_ =? _)%nat; [done|]. cbn [snd].
    apply Forall_app. split; [done|]. constructor; [|done]. by apply sound_committed.
Qed.
Lemma sound_pop h o p m : CoherentOps o -> stable (block_sound h) (mailmsg_ring_pop p (Some o) m).
Proof.
  intros Hc. apply (sound_step h p).
  - apply (stable_pop _ (fun _ => True) (fun _ => True)); [by intros ? [= <-]|done].
  - intros sh a sh' E. exact (run_needs_ring _ _ _ _ _ E).
  - intros sh r q a sh' E Hgen Hr Hwf Hq Hf. destruct (pop_refines o p m sh q Hq) as (sh1 & R & Hq1 & Hsame).
    assert (sh1 = sh') as -> by congruence. exists (snd (Queue.pop m q)). split; [exact Hq1|]. split; [|exact Hsame].
    destruct q as [|x q]; [done|]. by apply Forall_cons in Hf as [_ Hf].
Qed.
(** Without hooks a ring operation stores nothing. *)
Lemma sound_no_hooks B p m : stable B (mailmsg_ring_push p None m) /\ stable B (mailmsg_ring_pop p None m).
Proof.
  assert (Hub : forall A rg (k : unit -> M mailmsg_shared A), stable B (x ← ops_acquire None rg; k x)).
  { intros A rg k sh a sh' E. by apply run_bind_inv in E as ([] & s & E & _). }
  split; unfold mailmsg_ring_push, mailmsg_ring_pop; (apply stable_bind; [auto with stable|intros r; cbv zeta]);
    [destruct (frame_invalid m); [apply stable_ret|]|]; apply Hub.
Qed.
#[export] Instance block_sound_kept h pushes pops : KeepsBlock (block_sound h) pushes pops.
Proof.
  exists (fun g => g = h.2).
  - intros sh [[_ Hh] _]. by rewrite <-Hh.
  - intros [o|] p m Ho _ Hg; [apply sound_push; [by apply Ho|done]|apply sound_no_hooks].
  - intros [o|] p m Ho _; [apply sound_pop; by apply Ho|apply sound_no_hooks].
Defined.

(** A frame is edited in its slot. *)
Lemma run_edit p r i m0 (f : mailmsg_message -> mailmsg_message) sh :
  ring_at p sh = Some r -> zget (slot r) i = Some m0 ->
  (s ← load_slot p i; store_slot p i (f s)) sh =
  Some (tt, ring_set p (r <| slot := zset i (f m0) (slot r) |>) sh).
Proof. intros Hr Hm. step_with (run_load_slot _ _ _ _ _ Hr Hm). by apply (run_store_slot p r i _ m0). Qed.
Lemma run_edit_then {A} p r i m0 (f : mailmsg_message -> mailmsg_message) (k : M mailmsg_shared A) sh :
  ring_at p sh = Some r -> zget (slot r) i = Some m0 ->
  (s ← load_slot p i; store_slot p i (f s) ;; k) sh = k (ring_set p (r <| slot := zset i (f m0) (slot r) |>) sh).
Proof.
  intros Hr Hm. step_with (run_load_slot _ _ _ _ _ Hr Hm). by step_with (run_store_slot p r i (f m0) m0 sh Hr Hm).
Qed.

Context {platform : Platform} {coherent : CoherentOps mailmsg_linux_memory_ops}.
Lemma run_linux_push p r m corrupt sh :
  ring_at p sh = Some r -> ring_wf r ->
  mailmsg_linux_ring_push p m corrupt sh =
  Some (if frame_invalid m then (- EINVAL, sh)
        else if mailmsg_next (producer r) =? consumer r then (- ENOSPC, sh)
        else (0, ring_set p (put_frame (linux_committed corrupt m) r) sh)).
Proof.
  intros H Hwf. unfold mailmsg_linux_ring_push.
  pose proof coherent_publish as E1. pose proof coherent_acquire as E2. injection E1 as E1. injection E2 as E2.
  assert (Ha : forall rg sh, modify (mailmsg_linux_acquire rg) sh = Some (tt, sh)) by (intros; unfold modify; by rewrite E2).
  assert (Hp : forall rg sh, modify (mailmsg_linux_publish rg) sh = Some (tt, sh)) by (intros; unfold modify; by rewrite E1).
  step_with (run_load_ring _ _ _ H). change (_ || _) with (frame_invalid m). destruct (frame_invalid m); [done|].
  step_with Ha. step_with (run_load_ring _ _ _ H).
  change (u32 (producer r + 1) mod MAILMSG_RING_SLOTS) with (mailmsg_next (producer r)).
  destruct (_ =? _); [done|].
  destruct (zget_is_Some (slot r) (producer r)) as [m0 Hm0].
  { rewrite (wf_slots _ Hwf). apply (wf_producer _ Hwf). }
  assert (Hi : 0 <= producer r < Z.of_nat (length (slot r))) by by eapply zget_Some_range.
  (* from here on the ring is [r] with some frame [x] in the slot *)
  set (at_ := fun x => ring_set p (r <| slot := zset (producer r) x (slot r) |>) sh).
  assert (At : forall x, ring_at p (at_ x) = Some (r <| slot := zset (producer r) x (slot r) |>))
    by (intros; by eapply ring_at_set).
  assert (Got : forall x, zget (slot (r <| slot := zset (producer r) x (slot r) |>)) (producer r) = Some x)
    by (intros; by apply zget_zset).
  assert (Again : forall x y, ring_set p ((r <| slot := zset (producer r) x (slot r) |>) <|
    slot := zset (producer r) y (slot (r <| slot := zset (producer r) x (slot r) |>)) |>) (at_ x) = at_ y).
  { intros x y. unfold at_. rewrite ring_set_set. cbn. by rewrite zset_zset. }
  step_with (run_store_slot p r (producer r) (m <| commit := 0 |>) m0 sh H Hm0). fold (at_ (m <| commit := 0 |>)).
  rewrite (run_edit_then p _ _ _ (fun s => s <| crc32 := mailmsg_frame_crc32 s |>) _ _ (At _) (Got _)), Again.
  set (m1 := (m <| commit := 0 |>) <| crc32 := mailmsg_frame_crc32 (m <| commit := 0 |>) |>).
  set (m2 := if corrupt then m1 <| payload := zupd 0 (fun b => Z.lxor b 0xff) (payload m1) |> else m1).
  erewrite (run_bind_some _ _ _ tt (at_ m2)).
  2: { unfold m2. destruct corrupt; [|done]. cbn [when].
    by rewrite (run_edit p _ _ _ (fun s => s <| payload := zupd 0 (fun b => Z.lxor b 0xff) (payload s) |>) _ (At m1) (Got m1)), Again. }
  step_with Hp. rewrite (run_edit_then p _ _ _ (fun s => s <| commit := sequence m |>) _ _ (At m2) (Got m2)), Again.
  step_with Hp. step_with (run_load_ring _ _ _ (At (m2 <| commit := sequence m |>))). erewrite run_bind_some by (eapply run_store_ring; apply At). step_with Hp.
  unfold at_. rewrite ring_set_set. do 3 f_equal. by destruct corrupt.
Qed.
Lemma sound_linux_push h p m corrupt : ring_dir p = LinuxToCpu3 -> generation m = h.2 ->
  stable (block_sound h) (mailmsg_linux_ring_push p m corrupt).
Proof.
  intros Hd Hg. apply (sound_step h p).
  - by apply (stable_linux_push _ linux_pushes linux_pops).
  - intros sh a sh' E. exact (run_needs_ring _ _ _ _ _ E).
  - intros sh r q a sh' E Hgen Hr Hwf Hq Hf. rewrite (run_linux_push p r m corrupt sh Hr Hwf) in E.
    destruct (frame_invalid m) eqn:Hi; [injection E as <- <-; by exists q|].
    destruct (_ =? _) eqn:Hn; injection E as <- <-; [by exists q|]. exists (q ++ [linux_committed corrupt m]).
    split; [apply represents_put; [done..|by destruct corrupt|done]|]. split; [|auto].
    apply Forall_app. split; [done|]. constructor; [|done]. rewrite Hd.
    split; [by destruct corrupt|]. split; [by destruct corrupt|done].
Qed.
#[export] Instance block_sound_linux h pops : KeepsBlockLinux (block_sound h) pops.
Proof. intros p m corrupt Hd Hg. by apply sound_linux_push. Qed.
End Queues.

Section LinuxInvariant.
Context {platform : Platform} {coherent : CoherentOps mailmsg_linux_memory_ops}.
Implicit Types (d : r1_amp_cpu_on_data).

(** The header a driver with this session has put into the block. *)
Definition session_header (gen : Z) : Z * Z * Z :=
  (MAILMSG_PROTOCOL_MAGIC, MAILMSG_PROTOCOL_VERSION, gen).
Record block_state (sh : mailmsg_shared) (gen : Z) (e : mailmsg_endpoint mbox_state) : Prop := {
  bi_shape : shared_wf sh;
  bi_header : gen <> 0 -> header sh = session_header gen;
  bi_role : role_ok linux_pushes linux_pops e;
  bi_queues : sound_queues sh;
  bi_unborn : gen = 0 -> shared_generation sh = 0;
}.
Definition block_inv d : Prop :=
  block_state (c_shared (carveout d)) (session_generation d) (mailmsg_endpoint_ d).

Lemma block_inv_keeps d :
  block_inv d -> linux_keeps (block_sound (header (c_shared (carveout d)))) (session_generation d)
    (cpu3_lines (carveout d)) d.
Proof. by intros [Hw Hh Hr Hq]. Qed.
Lemma keeps_block_inv d d' F : block_inv d ->
  linux_keeps (block_sound (header (c_shared (carveout d)))) (session_generation d) F d' -> block_inv d'.
Proof.
  intros [Hw Hh Hr Hq Hz] ([[Hw' Hh'] Hq'] & Hr' & Hg & _). split; [done|by rewrite Hg, Hh'|done|done|].
  rewrite Hg. intros E%Hz. unfold header in Hh'. by injection Hh' as _ _ ->.
Qed.
Lemma stable_block {A} (m : D A) :
  (forall h g F, stable (linux_keeps (block_sound h) g F) m) -> stable block_inv m.
Proof.
  intros Hm d a d' E Hd. eapply keeps_block_inv; [exact Hd|]. eapply Hm; [exact E|]. by apply block_inv_keeps.
Qed.

(** [start] writes the header of the new session and binds the endpoint. *)
Lemma shared_wf_zero : shared_wf shared_zero.
Proof. by repeat (split || constructor). Qed.
Lemma sound_queues_new gen : sound_queues (new_session_block gen).
Proof. intros dir i Hi. exists []. split; [apply (represents_zero dir i Hi)|done]. Qed.
Lemma stable_start env buf count : stable block_inv (start_store env buf count).
Proof.
  unfold start_store. destruct (negb _); [apply stable_ret|]. apply stable_bind; [stable_auto|intros d].
  do 3 (match goal with |- stable _ (if _ then _ else _) => destruct (_ : bool); [apply stable_ret|] end).
  destruct (psci_affinity_info env); [|apply stable_ret]. destruct (psci_cpu_on env); [|apply stable_ret].
  apply stable_bind; [by apply stable_block; intros; apply stable_refresh|intros ?].
  apply stable_bind; [stable_auto|intros d1]. destruct (negb _); [apply stable_ret|]. apply stable_bind.
  { apply stable_modify. intros d2 [_ _ Hk _ _]. split; [exact shared_wf_zero|done|exact Hk|apply sound_queues_new|done]. }
  intros _. apply stable_bind.
  { apply stable_block. intros h g F. apply stable_on_block, stable_modify. intros sh.
    pose proof coherent_publish as E. cbn in E. injection E as E. unfold mailmsg_linux_publish in E.
    by rewrite E. }
  intros _. apply stable_bind.
  { apply stable_block. intros h g F. apply stable_on_endpoint, stable_bind_endpoint; [apply linux_hooks|done]. }
  intros ret. stable_auto.
Qed.

Lemma block_event ev d d' : own_event ev -> handle ev d = Some d' -> block_inv d -> block_inv d'.
Proof.
  intros Hown E Hd. assert (Hs : (exists env buf count, ev = EvStart env buf count) \/
    forall env buf count, ev <> EvStart env buf count) by (destruct ev; eauto; by right).
  destruct Hs as [(env & buf & count & ->)|Hs].
  - apply run_event_inv in E as (a & E). by eapply stable_start.
  - eapply keeps_block_inv; [exact Hd|]. by apply (linux_keeps_event _ _ _ ev d d' Hown Hs E), block_inv_keeps.
Qed.
End LinuxInvariant.

(** * The firmware's operations *)
Definition cpu3_pushes (dir : direction) : Prop := dir = Cpu3ToLinux.
Definition cpu3_pops (dir : direction) : Prop := dir = LinuxToCpu3.
(** What CPU3 leaves to Linux outside the block. *)
Definition linux_lines (c : carveout_mem) := (image c, req_payload c, req_commit c).

(** An invariant of the firmware, given by what its endpoint operations keep of
    their world: whatever else the firmware does leaves it alone. *)
Definition seen_by_endpoint (s : cpu3_state) :=
  (cpu3_endpoint s, c_shared (mem3 s), linux_lines (mem3 s), mailmsg_endpoint_ready s).
Class Cpu3Invariant {platform : Cpu3Platform} (P : cpu3_state -> Prop) (Q : ep_world (Z -> Z) -> Prop) : Prop := {
  ci_seen s s' : seen_by_endpoint s' = seen_by_endpoint s -> P s -> P s';
  ci_world s : P s -> Q (cpu3_world s);
  ci_back w s : P s -> Q w -> P (cpu3_back w s);
  ci_send prio type p len r : stable Q (mailmsg_endpoint_send prio type p len r);
  ci_receive prio buf : stable Q (mailmsg_endpoint_receive prio buf);
  ci_has_received prio : stable Q (mailmsg_endpoint_has_received prio);
}.

Section Cpu3Steps.
Context {platform : Cpu3Platform} (cfg : fw_config) (P : cpu3_state -> Prop) (Q : ep_world (Z -> Z) -> Prop)
  `{!Cpu3Invariant P Q}.

Lemma stable_cpu3_endpoint {A} (m : M (ep_world (Z -> Z)) A) : stable Q m -> stable P (on_cpu3_endpoint m).
Proof. intros Hm. by apply (stable_zoom P Q); [|apply ci_world|intros w s; apply ci_back]. Qed.
Lemma stable_notify_regs {A} (m : M (Z -> Z) A) :
  stable P (zoom mailbox (fun regs s => s <| mailbox := regs |>) m).
Proof. intros s a s'. unfold zoom. destruct (m _) as [[b u]|]; [|done]. intros [= -> <-]. by apply ci_seen. Qed.
Lemma stable_unseen f : (forall s, seen_by_endpoint (f s) = seen_by_endpoint s) -> stable P (modify f).
Proof. intros H. apply stable_modify. intros s. by apply ci_seen. Qed.
#[local] Hint Resolve stable_cpu3_endpoint stable_notify_regs : stable.
#[local] Hint Extern 1 (stable Q _) => first [apply (ci_send (P := P))|apply (ci_receive (P := P))|apply (ci_has_received (P := P))] : stable.
#[local] Hint Extern 1 (stable P (modify _)) => apply stable_unseen; intros; reflexivity : stable.

Lemma stable_record priority type r : stable P (mailmsg_record_tx_full priority type r).
Proof. unfold mailmsg_record_tx_full, mailmsg_publish_tx_full_observation, upd_mem. stable_auto. Qed.
Lemma stable_publish_worker x y : stable P (mailmsg_publish_worker_observation x y).
Proof. unfold mailmsg_publish_worker_observation, upd_mem. stable_auto. Qed.
Lemma stable_read controller offset : stable P (sys_read32_mailbox controller offset).
Proof. unfold sys_read32_mailbox. stable_auto. Qed.
Lemma stable_write32 value controller offset : stable P (sys_write32_mailbox value controller offset).
Proof. unfold sys_write32_mailbox. stable_auto. Qed.
Lemma stable_observe a b c e : stable P (observe a b c e).
Proof. unfold observe, upd_mem. stable_auto. Qed.
Lemma stable_checkpoint mark : stable P (r1_amp_checkpoint_c mark).
Proof. unfold r1_amp_checkpoint_c, upd_mem. stable_auto. Qed.
#[local] Hint Resolve stable_record stable_publish_worker stable_read stable_write32 stable_observe
  stable_checkpoint : stable.
Lemma stable_core_off : stable P mailmsg_cpu_off_after_ready.
Proof. unfold mailmsg_cpu_off_after_ready. stable_auto. Qed.
Lemma stable_feedback priority type ps st : stable P (mailmsg_send_feedback priority type ps st).
Proof. unfold mailmsg_send_feedback. stable_auto. Qed.
Lemma stable_stop_feedback type ps st : stable P (mailmsg_send_stop_feedback type ps st).
Proof. unfold mailmsg_send_stop_feedback. stable_auto. Qed.
Lemma stable_pong priority m : stable P (mailmsg_send_pong priority m).
Proof. unfold mailmsg_send_pong. stable_auto. Qed.
Lemma stable_session_ready : stable P mailmsg_service_session_ready.
Proof. unfold mailmsg_service_session_ready. stable_auto. Qed.
#[local] Hint Resolve stable_core_off stable_feedback stable_stop_feedback stable_pong
  stable_session_ready : stable.
Lemma stable_handle_frame priority m : stable P (handle_frame cfg priority m).
Proof. unfold handle_frame. stable_auto. Qed.
Lemma stable_reject priority code m : stable P (reject_frame priority code m).
Proof. unfold reject_frame. stable_auto. Qed.
#[local] Hint Resolve stable_handle_frame stable_reject : stable.
Lemma stable_service pending last reschedule :
  stable P (mailmsg_pingpong_test_service cfg pending last reschedule).
Proof.
  assert (H : forall turns priority messages m,
    stable P (service_priority cfg turns priority messages m)).
  { intros turns priority. induction turns as [|turns IH]; intros; cbn [service_priority]; stable_auto. }
  assert (H' : forall ps pending messages last reschedule,
    stable P (service_priorities cfg ps pending messages last reschedule)).
  { induction ps as [|p ps IH]; intros; cbn [service_priorities]; stable_auto. }
  unfold mailmsg_pingpong_test_service. stable_auto.
Qed.
#[local] Hint Resolve stable_service : stable.
Lemma stable_worker_serve pending : stable P (worker_serve cfg pending).
Proof. unfold worker_serve. stable_auto. Qed.
#[local] Hint Resolve stable_worker_serve : stable.
Lemma stable_isr index : stable P (mailmsg_mailbox_a2b_matrix_isr index).
Proof. unfold mailmsg_mailbox_a2b_matrix_isr, k_sem_give. stable_auto. Qed.
Lemma stable_main_loop : stable P (main_loop cfg).
Proof. unfold main_loop, mailmsg_send_b2a_ack, upd_mem. stable_auto. Qed.
(** [main] up to its loop: the binding, the verdict on it, and the rest. *)
Lemma stable_main_rest :
  stable P (main_bringup ;;
    modify (fun s => s <| irq_lines := [true; true; true; true] |>) ;;
    ready ← gets mailmsg_endpoint_ready;
    when ((ready : bool) && negb (MAILMSG_TEST_SKIP_SESSION_READY cfg)) mailmsg_service_session_ready).
Proof.
  unfold main_bringup, mailmsg_reset_tx_full_observation, mailmsg_publish_tx_full_observation,
    mailmsg_enable_a2b_channels, mailmsg_snapshot_gic_routes, sys_read32_gicd, upd_mem. stable_auto.
Qed.
Lemma stable_main_init_bind :
  stable P (on_cpu3_endpoint (mailmsg_endpoint_bind true (Some mailmsg_queue_memory_ops)
    (Some mailmsg_cpu3_notify_endpoint) MAILMSG_ENDPOINT_CPU3)) ->
  (forall b s, P s -> P (s <| mailmsg_endpoint_ready := b |>)) -> stable P (main_init cfg).
Proof.
  intros Hb Hready. unfold main_init. apply stable_bind; [stable_auto|intros _].
  apply stable_bind; [exact Hb|intros ret]. apply stable_bind; [apply stable_modify, Hready|intros _].
  exact stable_main_rest.
Qed.

Lemma cpu3_invariant_step ev f f' :
  (forall m g, ev <> CPeer m g) -> cpu3_handle cfg ev f = Some f' -> P (cpu f) -> P (cpu f').
Proof.
  intros Hown E Hf. unfold cpu3_handle in E. cbv zeta in E.
  destruct ev as [index| | |m g]; try (destruct (negb (bool_decide _)); [done|]); [| | |by destruct (Hown m g)].
  - destruct (negb _); [done|].
    destruct (mailmsg_mailbox_a2b_matrix_isr index (cpu f)) as [[[] s1]|] eqn:R; [|done].
    injection E as <-. by eapply stable_isr.
  - revert E. assert (Hrun : forall A (m : F A) a s', stable P m -> m (cpu f) = Some (a, s') -> P s')
      by (intros A m a s' Hm R; by eapply Hm).
    unfold worker_step.
    destruct (pc f) as [| |pending|pending last reschedule|pending last reschedule].
    + destruct (_ =? 0); [done|]. destruct (worker_take _) as [[a s']|] eqn:R; [|done]. intros [= <-].
      eapply Hrun; [|exact R]. unfold worker_take. stable_auto.
    + destruct (worker_claim _) as [[a s']|] eqn:R; [|done]. intros [= <-].
      eapply Hrun; [|exact R]. unfold worker_claim. stable_auto.
    + destruct (pending =? 0).
      * destruct (worker_empty _) as [[a s']|] eqn:R; [|done]. intros [= <-].
        eapply Hrun; [|exact R]. unfold worker_empty. stable_auto.
      * destruct (worker_serve cfg pending _) as [[a s']|] eqn:R; [|done].
        assert (P s') by (eapply Hrun; [|exact R]; auto with stable).
        by destruct a as [[last reschedule]|]; intros [= <-].
    + destruct (worker_merge _ _) as [[a s']|] eqn:R; [|done]. intros [= <-].
      eapply Hrun; [|exact R]. unfold worker_merge. stable_auto.
    + destruct (worker_finish _ _ _ _) as [[a s']|] eqn:R; [|done]. intros [= <-].
      eapply Hrun; [|exact R]. unfold worker_finish, k_sem_give. stable_auto.
  - destruct (pc f); try done. destruct (main_loop cfg (cpu f)) as [[[] s1]|] eqn:R; [|done].
    injection E as <-. by eapply stable_main_loop.
Qed.
End Cpu3Steps.

Section Cpu3Block.
Context {platform : Cpu3Platform} {coherent : CoherentOps mailmsg_queue_memory_ops} (cfg : fw_config).
Context (B : mailmsg_shared -> Prop) `{!KeepsBlock B cpu3_pushes cpu3_pops}.
Context (L : list Z * r1_amp_payload_line * r1_amp_commit_line).
Definition cpu3_keeps (s : cpu3_state) : Prop :=
  B (c_shared (mem3 s)) /\ role_ok cpu3_pushes cpu3_pops (cpu3_endpoint s) /\ linux_lines (mem3 s) = L.
#[local] Abbreviation cpu3_ok := cpu3_keeps.
#[export] Instance cpu3_block_invariant : Cpu3Invariant cpu3_keeps (world_keeps B cpu3_pushes cpu3_pops).
Proof.
  split; [|by intros s (Hb & Hr & _)|by intros [e sh c] s (_ & _ & H) [Hb Hr]|by intros; apply stable_send|
    by intros; apply stable_receive|by intros; apply stable_has_received].
  intros s s' E. unfold seen_by_endpoint in E. rewrite !pair_eq in E. destruct E as (((E1 & E2) & E3) & _).
  unfold cpu3_keeps. by rewrite E1, E2, E3.
Qed.
Lemma cpu3_hooks : hooks_ok (Some mailmsg_queue_memory_ops).
Proof. by intros ops [= <-]. Qed.

Lemma stable_main_init : stable cpu3_ok (main_init cfg).
Proof.
  eapply stable_main_init_bind; [exact cpu3_block_invariant| |done].
  apply (stable_cpu3_endpoint _ (world_keeps B cpu3_pushes cpu3_pops)).
  by apply stable_bind_endpoint; [apply cpu3_hooks|].
Qed.
End Cpu3Block.

