(* ===== verification/FirmwareSpec.v ===== *)
(** CPU3's PING/PONG service on abstract queues: the specification [q_service]
    over the eight queues of a session, and the refinement that
    [mailmsg_pingpong_test_service] implements it on the rings. *)
From S2P Require Import Prelude Protocol Ring Notify Endpoint Frame DriverState Firmware.

(** * The specification *)

(** The queues by priority, the sequence generator, the session, and what the
    service can do to the core. *)
Record queues := mk_queues {
  rxq : Z -> list mailmsg_message;    (* Linux to CPU3 *)
  txq : Z -> list mailmsg_message;    (* CPU3 to Linux *)
  q_next : Z;
  q_gen : Z;
  q_core : core_status;
  q_lines : list bool;
}.
#[export] Instance eta_queues : Eta queues := fun a =>
  mk_queues (rxq a) (txq a) (q_next a) (q_gen a) (q_core a) (q_lines a).
Definition upd_queue (p : Z) (q : list mailmsg_message) (f : Z -> list mailmsg_message) :
    Z -> list mailmsg_message := fun i => if i =? p then q else f i.

(** The frame [send] builds from a generator at [n]. *)
Definition new_frame (gen n type : Z) (bytes : list Z) (len : Z) : mailmsg_message :=
  committed (mk_message gen type (next_seq n) len (padded len bytes) 0 0).

(** Sending uses up a sequence number even when the queue is full. *)
Definition q_send (priority type : Z) (bytes : list Z) (len : Z) : M queues bool :=
  a ← get;
  modify (fun a => a <| q_next := next_seq (q_next a) |>) ;;
  if (length (txq a priority) =? 7)%nat then mret false else
  modify (fun a' => a' <| txq := upd_queue priority
    (txq a priority ++ [new_frame (q_gen a) (q_next a) type bytes len]) (txq a) |>) ;;
  mret true.
Definition q_receive (priority : Z) : M queues (option mailmsg_message) :=
  a ← get;
  match rxq a priority with
  | [] => mret None
  | m :: q => modify (fun a' => a' <| rxq := upd_queue priority q (rxq a) |>) ;; mret (Some m)
  end.
(** What receiving a frame in session [gen] reports. *)
Definition verdict (gen : Z) (m : mailmsg_message) : Z :=
  if (frame_verdict m =? 0) && negb (generation m =? gen)
  then MAILMSG_ENDPOINT_STALE_FRAME else frame_verdict m.

Section Spec.
Context {platform : Cpu3Platform} (cfg : fw_config).

Definition q_core_off : M queues unit :=
  modify (fun a => a <| q_core := match pm_cpu_off with None => CoreOff | Some _ => CoreParked end |>
    <| q_lines := fold_left (fun l i => zset i false l) priorities (q_lines a) |>).
Definition q_feedback (priority type peer_sequence status : Z) : M queues bool :=
  q_send priority type (feedback_payload peer_sequence status) MAILMSG_FEEDBACK_BYTES.
Definition q_reply (priority : Z) (request : mailmsg_message) : M queues bool :=
  q_send priority
    (if type_ request =? MAILMSG_MSG_PING then MAILMSG_MSG_PONG else MAILMSG_MSG_NOP)
    (store_u32 (replicate 4 0) 0 (u32 (load_u32 (payload request) 0 + 1))) 4.

Definition q_reject (priority code : Z) (request : mailmsg_message) : M queues unit :=
  when (mailmsg_priority_is_reliable priority)
    (q_feedback priority MAILMSG_MSG_NACK (sequence request)
       (if code =? MAILMSG_RING_BAD_CRC then MAILMSG_NACK_BAD_CRC else MAILMSG_NACK_INVALID_FRAME) ;;
     mret tt).
Definition q_handle (priority : Z) (request : mailmsg_message) : M queues bool :=
  if (priority =? MAILMSG_PRIO_CRITICAL) && (type_ request =? MAILMSG_MSG_STOP_REQUEST) then
    if negb (length_ request =? 0) then
      q_feedback MAILMSG_PRIO_CRITICAL MAILMSG_MSG_STOP_REFUSED (sequence request)
        MAILMSG_STOP_REFUSED_INVALID_REQUEST ;;
      mret true
    else if MAILMSG_ENABLE_STOP_CONTROL cfg then
      ok ← q_feedback MAILMSG_PRIO_CRITICAL MAILMSG_MSG_STOP_READY (sequence request) 0;
      if ok : bool then q_core_off ;; mret false else mret true
    else
      q_feedback MAILMSG_PRIO_CRITICAL MAILMSG_MSG_STOP_REFUSED (sequence request)
        MAILMSG_STOP_REFUSED_BUSY ;;
      mret true
  else if self_off_request cfg priority request then q_core_off ;; mret false
  else
    when (mailmsg_priority_is_reliable priority)
      (q_feedback priority MAILMSG_MSG_ACK (sequence request) 0 ;; mret tt) ;;
    q_reply priority request ;;
    mret true.

Fixpoint q_priority (turns : nat) (priority messages : Z) : M queues (option (bool * Z)) :=
  match turns with
  | O => mret (Some (true, messages))
  | S turns =>
      r ← q_receive priority;
      match r with
      | None => mret (Some (false, messages))
      | Some request =>
          gen ← gets q_gen;
          let code := verdict gen request in
          if code =? 0 then
            on ← q_handle priority request;
            if on : bool then q_priority turns priority (u32 (messages + 1)) else mret None
          else if (code =? MAILMSG_RING_BAD_CRC) || (code =? MAILMSG_RING_INVALID) then
            q_reject priority code request ;;
            mret (Some (match turns with O => true | _ => false end, u32 (messages + 1)))
          else mret (Some (false, messages))
      end
  end.

Fixpoint q_priorities (ps : list Z) (pending messages last reschedule : Z) :
    M queues (option (Z * Z * Z)) :=
  match ps with
  | [] => mret (Some (messages, last, reschedule))
  | priority :: ps =>
      if negb (has_bit pending priority) || (priority =? MAILMSG_TEST_SKIP_PRIORITY cfg)
      then q_priorities ps pending messages last reschedule else
      r ← q_priority MAILMSG_WORKER_DRAIN_QUOTA priority messages;
      match r with
      | None => mret None
      | Some (quota_reached, messages) =>
          rest ← gets (fun a => rxq a priority);
          q_priorities ps pending messages priority
            (if (quota_reached : bool) && negb (length rest =? 0)%nat
             then Z.lor reschedule (BIT priority) else reschedule)
      end
  end.
Definition q_service (pending last reschedule : Z) : M queues (option (Z * Z * Z)) :=
  q_priorities priorities pending 0 last reschedule.
End Spec.

(** * The refinement *)

(** What the service leaves alone besides the queues. *)
Definition kview (s : cpu3_state) :=
  (mailmsg_pending_priorities s, mailmsg_work_sem s, mailmsg_irq_count s, mailmsg_endpoint_ready s,
   mailmsg_session_ready_committed s, mailmsg_session_ready_published s,
   (mailmsg_worker_commit s, mailmsg_worker_wake_count s, mailmsg_worker_drain_count s,
    mailmsg_worker_message_count s, mailmsg_worker_empty_wake_count s),
   last_sequence s, heartbeat s, spin s, ep_key (cpu3_endpoint s)).
(** What the abstract queues see of the firmware's state. *)
Definition sview (s : cpu3_state) :=
  (kview s, cpu3_endpoint s, c_shared (mem3 s), core s, irq_lines s).

Section Refinement.
Context {platform : Cpu3Platform} {coherent : CoherentOps mailmsg_queue_memory_ops} (cfg : fw_config).
Implicit Types (s : cpu3_state) (a : queues).

(** The endpoint is bound to the session and the rings hold the queues. *)
Record serving s a : Prop := {
  sv_ready : ep_ready (cpu3_endpoint s) mailmsg_queue_memory_ops Cpu3ToLinux mailmsg_cpu3_notify;
  sv_session : session_ok (cpu3_endpoint s) (c_shared (mem3 s));
  sv_gen : ep_generation (cpu3_endpoint s) = q_gen a;
  sv_next : next_sequence (cpu3_endpoint s) = q_next a;
  sv_rx p : 0 <= p < 4 -> represents (mk_ring_ptr LinuxToCpu3 p) (c_shared (mem3 s)) (rxq a p);
  sv_tx p : 0 <= p < 4 -> represents (mk_ring_ptr Cpu3ToLinux p) (c_shared (mem3 s)) (txq a p);
  sv_core : core s = q_core a;
  sv_lines : irq_lines s = q_lines a;
}.

Lemma serving_same s s' a :
  cpu3_endpoint s' = cpu3_endpoint s -> c_shared (mem3 s') = c_shared (mem3 s) ->
  core s' = core s -> irq_lines s' = irq_lines s -> serving s a -> serving s' a.
Proof. intros He Hc Hco Hl [? ? ? ? ? ? ? ?]. split; rewrite ?He, ?Hc, ?Hco, ?Hl; done. Qed.
Lemma serving_view s s' a : sview s' = sview s -> serving s a -> serving s' a.
Proof. unfold sview. rewrite !pair_eq. intros ((((_ & He) & Hc) & Hco) & Hl). by apply serving_same. Qed.
Lemma sview_kview s s' : sview s' = sview s -> kview s' = kview s.
Proof. unfold sview. rewrite !pair_eq. tauto. Qed.

(** [m] runs to the result of [f] on related states. *)
Definition refines {A} (m : F A) (f : M queues A) : Prop :=
  forall s a x a', serving s a -> f a = Some (x, a') ->
  exists s', m s = Some (x, s') /\ serving s' a' /\ kview s' = kview s.
Lemma refines_ret {A} (x : A) : refines (mret x) (mret x).
Proof. intros s a y a' Hs [= <- <-]. exists s. split; [done|]. by split. Qed.
Lemma refines_bind {A B} (m : F A) (f : M queues A) (k : A -> F B) (g : A -> M queues B) :
  refines m f -> (forall x, refines (k x) (g x)) -> refines (x ← m; k x) (x ← f; g x).
Proof.
  intros Hm Hk s a y a' Hs E. apply run_bind_inv in E as (x & a1 & E1 & E2).
  destruct (Hm s a x a1 Hs E1) as (s1 & R1 & Hs1 & K1).
  destruct (Hk x s1 a1 y a' Hs1 E2) as (s2 & R2 & Hs2 & K2).
  exists s2. split; [by step_with R1|]. split; [done|congruence].
Qed.
Lemma refines_silent {A B} (m : F A) x (k : A -> F B) (f : M queues B) :
  silent sview m x -> refines (k x) f -> refines (y ← m; k y) f.
Proof.
  intros Hm Hk s a y a' Hs E. destruct (Hm s) as (s1 & R1 & V1).
  destruct (Hk s1 a y a' (serving_view _ _ _ V1 Hs) E) as (s2 & R2 & Hs2 & K2).
  exists s2. split; [by step_with R1|]. split; [done|].
  rewrite K2. by apply sview_kview.
Qed.
Lemma refines_when b (m : F unit) (f : M queues unit) : refines m f -> refines (when b m) (when b f).
Proof. destruct b; [done|intros _; apply refines_ret]. Qed.
Lemma silent_record priority type r : silent sview (mailmsg_record_tx_full priority type r) tt.
Proof.
  apply silent_unit; unfold mailmsg_record_tx_full, mailmsg_publish_tx_full_observation, upd_mem;
    [total_auto|pres_auto].
Qed.

(** ** Sending and receiving *)
Lemma run_cpu3_send s a priority type bytes len r0 :
  serving s a -> 0 <= priority < 4 -> 0 <= len <= 28 -> (Z.to_nat len <= length bytes)%nat ->
  exists ok a' res s', q_send priority type bytes len a = Some (ok, a') /\
    on_cpu3_endpoint (mailmsg_endpoint_send priority type (Some bytes) len r0) s =
      Some ((if ok : bool then MAILMSG_ENDPOINT_OK else MAILMSG_RING_FULL, res), s') /\
    serving s' a' /\ kview s' = kview s /\
    (ok = true -> mailmsg_notify_accepted (notify_result res) = true).
Proof.
  intros Hs Hp Hlen Hb. destruct Hs as [Hr Hses Hg Hn Hrx Htx Hco Hl].
  pose proof (run_send mailmsg_queue_memory_ops Cpu3ToLinux mailmsg_cpu3_notify (cpu3_world s)
    priority type (Some bytes) len r0 (txq a priority) Hr Hses Hp Hlen
    ltac:(intros _; by exists bytes) (Htx priority Hp)) as H. cbv zeta in H.
  unfold q_send. run. unfold on_cpu3_endpoint, zoom. cbn [set_field q_next txq]. revert H.
  destruct (length (txq a priority) =? 7)%nat; intros H.
  - exists false. rewrite H. do 3 eexists. split; [reflexivity|]. split; [reflexivity|].
    split; [|split; [|done]].
    + split; cbn; [by apply on_stats_ready, bump_seq_ready|done|done|by rewrite Hn|done..].
    + unfold kview, cpu3_back, ep_key. cbn. by rewrite length_zupd.
  - destruct H as (sh' & Hrep & Hsame & H). exists true.
    assert (Hnot : exists nr c, mailmsg_cpu3_notify priority (ctx (cpu3_world s)) = Some (nr, c) /\
      mailmsg_notify_accepted nr = true).
    { unfold mailmsg_cpu3_notify. run. destruct (has_bit _ _); by do 2 eexists. }
    destruct Hnot as (nr & c & Hnot & Hacc). rewrite Hnot in H. rewrite H.
    do 3 eexists. split; [reflexivity|]. split; [reflexivity|]. split; [|split; [|done]].
    + split; cbn.
      * by apply on_stats_ready, bump_seq_ready.
      * destruct Hsame as (E1 & E2 & E3 & _). unfold session_ok in *. cbn in *. congruence.
      * done.
      * by rewrite Hn.
      * intros p' Hp'. eapply represents_other; [|exact Hsame|by apply Hrx]. congruence.
      * intros p' Hp'. unfold upd_queue. destruct (Z.eqb_spec p' priority) as [->|Hne].
        -- unfold new_frame. rewrite <-Hg, <-Hn. exact Hrep.
        -- eapply represents_other; [|exact Hsame|by apply Htx]. congruence.
      * done.
      * done.
    + unfold kview, cpu3_back, ep_key. cbn. by rewrite length_zupd.
Qed.

Lemma length_feedback ps st : length (feedback_payload ps st) = 8%nat.
Proof. unfold feedback_payload, mailmsg_store_payload_u32. by rewrite !length_store_u32. Qed.

(** A sender that records a full ring and reports whether it sent. *)
Lemma refines_recorded priority type bytes len r0 :
  0 <= priority < 4 -> 0 <= len <= 28 -> (Z.to_nat len <= length bytes)%nat ->
  refines ('(ret, result) ← on_cpu3_endpoint (mailmsg_endpoint_send priority type (Some bytes) len r0);
    when (negb (ret =? 0)) (mailmsg_record_tx_full priority type result) ;;
    mret (ret =? MAILMSG_ENDPOINT_OK)) (q_send priority type bytes len).
Proof.
  intros Hp Hl Hb s a x a' Hs E.
  destruct (run_cpu3_send s a priority type bytes len r0 Hs Hp Hl Hb)
    as (ok & a1 & res & s1 & E1 & R1 & Hs1 & K1 & _).
  rewrite E1 in E. injection E as <- <-.
  destruct (silent_when _ (negb ((if ok then MAILMSG_ENDPOINT_OK else MAILMSG_RING_FULL) =? 0))
    _ (silent_record priority type res) s1) as (s2 & R2 & V2).
  exists s2. split; [step_with R1; step_with R2; by destruct ok|].
  split; [by eapply serving_view|]. rewrite <-K1. by apply sview_kview.
Qed.

Lemma refines_feedback priority type ps st :
  0 <= priority < 4 ->
  refines (mailmsg_send_feedback priority type ps st) (q_feedback priority type ps st).
Proof.
  intros Hp. apply refines_recorded; [done| |by rewrite length_feedback].
  unfold MAILMSG_FEEDBACK_BYTES. lia.
Qed.
Lemma refines_pong priority request :
  0 <= priority < 4 -> refines (mailmsg_send_pong priority request) (q_reply priority request).
Proof.
  intros Hp. unfold mailmsg_send_pong, q_reply. cbv zeta. apply refines_recorded; [done|lia|].
  unfold mailmsg_store_payload_u32. by rewrite length_store_u32.
Qed.
(** The doorbell of CPU3 is always accepted. *)
Lemma refines_stop_feedback type ps st :
  refines (mailmsg_send_stop_feedback type ps st) (q_feedback MAILMSG_PRIO_CRITICAL type ps st).
Proof.
  intros s a x a' Hs E.
  destruct (run_cpu3_send s a MAILMSG_PRIO_CRITICAL type (feedback_payload ps st)
    MAILMSG_FEEDBACK_BYTES indeterminate_result Hs) as (ok & a1 & res & s1 & E1 & R1 & Hs1 & K1 & Hacc).
  { unfold MAILMSG_PRIO_CRITICAL. lia. }
  { unfold MAILMSG_FEEDBACK_BYTES. lia. }
  { by rewrite length_feedback. }
  unfold q_feedback in E. rewrite E1 in E. injection E as <- <-.
  unfold mailmsg_send_stop_feedback. destruct ok.
  - exists s1. split; [step_with R1; cbn; by rewrite Hacc|done].
  - destruct (silent_record MAILMSG_PRIO_CRITICAL type res s1) as (s2 & R2 & V2).
    exists s2. split; [step_with R1; cbn [negb Z.eqb MAILMSG_RING_FULL]; by step_with R2|].
    split; [by eapply serving_view|]. rewrite <-K1. by apply sview_kview.
Qed.

Lemma run_cpu3_receive s a priority buf :
  serving s a -> 0 <= priority < 4 ->
  exists r a' s', q_receive priority a = Some (r, a') /\ serving s' a' /\ kview s' = kview s /\
    on_cpu3_endpoint (mailmsg_endpoint_receive priority buf) s =
    Some (match r with
          | None => (MAILMSG_RING_EMPTY, buf)
          | Some m => (verdict (q_gen a) m, m)
          end, s') /\ q_gen a' = q_gen a.
Proof.
  intros Hs Hp. pose proof Hs as [Hr Hses Hg Hn Hrx Htx Hco Hl].
  pose proof (run_receive mailmsg_queue_memory_ops Cpu3ToLinux mailmsg_cpu3_notify (cpu3_world s)
    priority buf (rxq a priority) Hr Hses Hp (Hrx priority Hp)) as H.
  unfold q_receive. run. unfold on_cpu3_endpoint, zoom.
  destruct (rxq a priority) as [|m q] eqn:Eq.
  - exists None, a, s. split; [done|]. split; [done|]. split; [done|]. rewrite H. split; [|done].
    by destruct s, mem3.
  - destruct H as (sh' & Hrep & Hsame & H).
    assert (Hv : received_code (ep (cpu3_world s)) m = verdict (q_gen a) m).
    { unfold received_code, verdict. cbn. by rewrite Hg. }
    do 3 eexists. split; [reflexivity|]. split; [|split].
    3:{ rewrite H, Hv. split; reflexivity. }
    + split; cbn; try done.
      * by apply on_stats_ready.
      * destruct Hsame as (E1 & E2 & E3 & _). unfold session_ok in *. cbn in *. congruence.
      * intros p' Hp'. unfold upd_queue. destruct (Z.eqb_spec p' priority) as [->|Hne]; [done|].
        eapply represents_other; [|exact Hsame|by apply Hrx]. cbn. congruence.
      * intros p' Hp'. eapply represents_other; [|exact Hsame|by apply Htx]. cbn. congruence.
    + unfold kview, cpu3_back, ep_key. cbn. by rewrite length_zupd.
Qed.

(** ** The handlers *)
Lemma refines_core_off : refines mailmsg_cpu_off_after_ready q_core_off.
Proof.
  intros s a x a' Hs [= <- <-]. unfold mailmsg_cpu_off_after_ready, q_core_off.
  set (s1 := s <| irq_lines := fold_left (fun l i => zset i false l) priorities (irq_lines s) |>).
  assert (E1 : for_each priorities (fun index => modify (fun s =>
    s <| irq_lines := zset index false (irq_lines s) |>)) s = Some (tt, s1)) by reflexivity.
  step_with E1. step. cbv zeta.
  set (pending := Z.land (mailbox s1 MAILBOX_A2B_STATUS) 0xf).
  assert (E2 : exists s2, when (negb (pending =? 0)) (sys_write32_mailbox pending 0 MAILBOX_A2B_STATUS) s1
    = Some (tt, s2) /\ mem3 s2 = mem3 s1 /\ cpu3_endpoint s2 = cpu3_endpoint s1 /\
      irq_lines s2 = irq_lines s1 /\ kview s2 = kview s1).
  { destruct (negb _); by eexists. }
  destruct E2 as (s2 & E2 & Hm & He & Hl & Hk). step_with E2. step. step.
  destruct Hs as [? ? ? ? ? ? ? Hlines]. cbn in Hl. rewrite Hlines in Hl.
  destruct pm_cpu_off; [step|];
    (eexists; split; [reflexivity|]; split; [split; cbn; rewrite ?Hm, ?He; done|
      unfold kview in *; cbn in *; congruence]).
Qed.

Lemma refines_reject priority code request :
  0 <= priority < 4 -> refines (reject_frame priority code request) (q_reject priority code request).
Proof.
  intros Hp. unfold reject_frame, q_reject. cbv zeta.
  set (reason := if code =? _ then MAILMSG_NACK_BAD_CRC else _).
  intros s a x a' Hs E.
  assert (H : refines (when (mailmsg_priority_is_reliable priority)
    (mailmsg_send_feedback priority MAILMSG_MSG_NACK (sequence request) reason ;; mret tt))
    (when (mailmsg_priority_is_reliable priority)
    (q_feedback priority MAILMSG_MSG_NACK (sequence request) reason ;; mret tt))).
  { apply refines_when, refines_bind; [by apply refines_feedback|intros _; apply refines_ret]. }
  destruct (H s a x a' Hs E) as (s1 & R1 & Hs1 & K1). destruct x. step_with R1. step. step.
  eexists. split; [reflexivity|]. split; [|exact K1].
  eapply serving_view; [|exact Hs1]. reflexivity.
Qed.

Lemma refines_handle priority request :
  0 <= priority < 4 -> refines (handle_frame cfg priority request) (q_handle cfg priority request).
Proof.
  intros Hp. unfold handle_frame, q_handle.
  destruct (_ && _).
  - destruct (negb _).
    + apply refines_bind; [apply refines_stop_feedback|intros _; apply refines_ret].
    + destruct (MAILMSG_ENABLE_STOP_CONTROL cfg).
      * apply refines_bind; [apply refines_stop_feedback|]. intros [].
        -- apply refines_bind; [apply refines_core_off|intros _; apply refines_ret].
        -- apply refines_ret.
      * apply refines_bind; [apply refines_stop_feedback|intros _; apply refines_ret].
  - destruct (self_off_request cfg priority request).
    + apply refines_bind; [apply refines_core_off|intros _; apply refines_ret].
    + apply refines_bind.
      * apply refines_when, refines_bind; [by apply refines_feedback|intros _; apply refines_ret].
      * intros _. apply refines_bind; [by apply refines_pong|intros _; apply refines_ret].
Qed.

Lemma verdict_cases gen m :
  verdict gen m = 0 \/ verdict gen m = MAILMSG_RING_BAD_CRC \/ verdict gen m = MAILMSG_RING_INVALID \/
  verdict gen m = MAILMSG_ENDPOINT_STALE_FRAME.
Proof.
  unfold verdict, frame_verdict.
  destruct (frame_invalid m), (crc32 m =? mailmsg_frame_crc32 m), (generation m =? gen); cbn; auto.
Qed.

Lemma refines_priority turns priority :
  0 <= priority < 4 -> forall messages request,
  refines (service_priority cfg turns priority messages request) (q_priority cfg turns priority messages).
Proof.
  intros Hp. induction turns as [|turns IH]; intros messages request; [apply refines_ret|].
  intros s a x a' Hs E. cbn [service_priority q_priority] in *.
  destruct (run_cpu3_receive s a priority request Hs Hp) as (r & a1 & s1 & E1 & Hs1 & K1 & R1 & Hg).
  rewrite (run_bind_some _ _ _ _ _ E1) in E. step_with R1. rewrite <-K1. destruct r as [m|].
  2:{ by apply (refines_ret _ s1 a1). }
  rewrite (run_bind_some _ _ _ (q_gen a1) a1) in E by done. cbv zeta in E. rewrite Hg in E.
  destruct (Z.eqb_spec (verdict (q_gen a) m) 0) as [Hv|Hv]; cbn [negb].
  - eapply (refines_bind _ _ _ _ (refines_handle priority m Hp)); [|exact Hs1|exact E].
    intros []; [apply IH|apply refines_ret].
  - destruct (_ || _); [|by apply (refines_ret _ s1 a1)].
    eapply (refines_bind _ _ _ _ (refines_reject priority _ m Hp)); [|exact Hs1|exact E].
    intros ?. apply refines_ret.
Qed.

Lemma run_cpu3_has_received s a priority :
  serving s a -> 0 <= priority < 4 ->
  on_cpu3_endpoint (mailmsg_endpoint_has_received priority) s =
  Some (if (length (rxq a priority) =? 0)%nat then 0 else 1, s).
Proof.
  intros Hs Hp. unfold on_cpu3_endpoint, zoom.
  erewrite run_has_received; [|apply _|apply Hs|apply Hs|done|by apply Hs].
  destruct (rxq a priority); by destruct s, mem3.
Qed.

Lemma refines_more priority quota_reached :
  0 <= priority < 4 ->
  refines (if quota_reached : bool then
             r ← on_cpu3_endpoint (mailmsg_endpoint_has_received priority); mret (r =? 1)
           else mret false)
    (rest ← gets (fun a => rxq a priority); mret (quota_reached && negb (length rest =? 0)%nat)).
Proof.
  intros Hp s a x a' Hs [= <- <-]. exists s. split; [|done].
  destruct quota_reached; [|done]. step_with (run_cpu3_has_received s a priority Hs Hp).
  by destruct (length (rxq a priority) =? 0)%nat.
Qed.

Lemma refines_priorities ps :
  Forall (fun p => 0 <= p < 4) ps -> forall pending messages last reschedule,
  refines (service_priorities cfg ps pending messages last reschedule)
    (q_priorities cfg ps pending messages last reschedule).
Proof.
  intros Hps. induction Hps as [|p ps Hp _ IH]; intros pending messages last reschedule;
    [apply refines_ret|]. cbn [service_priorities q_priorities].
  destruct (_ || _); [apply IH|].
  apply refines_bind; [by apply refines_priority|]. intros [[reached messages']|]; [|apply refines_ret].
  intros s a x a' Hs E. rewrite (run_bind_some _ _ _ (rxq a p) a) in E by done.
  destruct (refines_more p reached Hp s a (reached && negb (length (rxq a p) =? 0)%nat) a Hs eq_refl)
    as (s1 & R1 & Hs1 & K1). step_with R1. rewrite <-K1. by eapply IH.
Qed.

Lemma service_refines pending last reschedule s a x a' :
  serving s a -> mailmsg_endpoint_ready s = true ->
  MAILMSG_TEST_SKIP_SESSION_READY cfg || mailmsg_session_ready_published s = true ->
  q_service cfg pending last reschedule a = Some (x, a') ->
  exists s', mailmsg_pingpong_test_service cfg pending last reschedule s = Some (x, s') /\
    serving s' a' /\ kview s' = kview s.
Proof.
  intros Hs Hr Hp E. unfold mailmsg_pingpong_test_service. step. rewrite Hr. cbn [negb].
  assert (negb (MAILMSG_TEST_SKIP_SESSION_READY cfg) && negb (mailmsg_session_ready_published s) = false)
    as -> by (apply orb_true_iff in Hp as [-> | ->]; [done|apply andb_false_r]).
  apply (refines_priorities priorities) with (a := a); [by repeat constructor; lia|done|done].
Qed.

(** The specification is total: the service always comes back with a result,
    or with the core off. *)
Lemma total_q_send priority type bytes len : total (q_send priority type bytes len).
Proof. unfold q_send. total_auto. Qed.
#[local] Hint Resolve total_q_send : total.
Lemma total_q_handle priority m : total (q_handle cfg priority m).
Proof. unfold q_handle, q_feedback, q_reply, q_core_off. total_auto. Qed.
#[local] Hint Resolve total_q_handle : total.
Lemma total_q_priority turns priority messages : total (q_priority cfg turns priority messages).
Proof.
  revert messages. induction turns as [|turns IH]; intros messages; cbn [q_priority];
    unfold q_receive, q_reject, q_feedback; total_auto.
Qed.
#[local] Hint Resolve total_q_priority : total.
Lemma total_q_priorities ps : forall pending messages last reschedule,
  total (q_priorities cfg ps pending messages last reschedule).
Proof. induction ps as [|p ps IH]; intros; cbn [q_priorities]; total_auto. Qed.
Lemma total_q_service pending last reschedule : total (q_service cfg pending last reschedule).
Proof. apply total_q_priorities. Qed.

(** ** A turn of the worker with something pending *)

(** The state in which the worker has taken the semaphore and the pending set. *)
Definition claimed s : cpu3_state :=
  s <| mailmsg_work_sem := 0 |>
    <| mailmsg_worker_wake_count := u32 (mailmsg_worker_wake_count s + 1) |>
    <| mailmsg_pending_priorities := 0 |>.
Lemma run_worker_turn s :
  mailmsg_worker cfg s =
  (if mailmsg_pending_priorities s =? 0 then worker_empty else
   r ← worker_serve cfg (mailmsg_pending_priorities s);
   match r with
   | None => mret tt
   | Some (last, reschedule) =>
       worker_merge reschedule ;; worker_finish (mailmsg_pending_priorities s) last reschedule
   end) (claimed s).
Proof.
  unfold mailmsg_worker. rewrite (run_bind_some _ _ _ tt _ (eq_refl : worker_take s = Some _)).
  by erewrite run_bind_some by reflexivity.
Qed.
Lemma run_worker_serve pending s x s' :
  mailmsg_pingpong_test_service cfg pending MAILMSG_PRIORITY_COUNT 0
    (s <| mailmsg_worker_drain_count := u32 (mailmsg_worker_drain_count s + 1) |>) = Some (x, s') ->
  worker_serve cfg pending s =
  match x with
  | None => Some (None, s')
  | Some (messages, last, reschedule) => Some (Some (last, reschedule),
      s' <| mailmsg_worker_message_count := u32 (mailmsg_worker_message_count s' + messages) |>)
  end.
Proof. intros E. unfold worker_serve. step. step_with E. by destruct x as [[[? ?] ?]|]. Qed.

Lemma run_worker s a x a' :
  serving s a -> mailmsg_endpoint_ready s = true ->
  MAILMSG_TEST_SKIP_SESSION_READY cfg || mailmsg_session_ready_published s = true ->
  mailmsg_pending_priorities s <> 0 ->
  q_service cfg (mailmsg_pending_priorities s) MAILMSG_PRIORITY_COUNT 0 a = Some (x, a') ->
  exists s', mailmsg_worker cfg s = Some (tt, s') /\ serving s' a' /\
    mailmsg_endpoint_ready s' = true /\
    mailmsg_session_ready_published s' = mailmsg_session_ready_published s /\
    match x with
    | None => mailmsg_pending_priorities s' = 0 /\ mailmsg_work_sem s' = 0
    | Some (messages, last, reschedule) =>
        mailmsg_pending_priorities s' = reschedule /\
        mailmsg_work_sem s' = (if reschedule =? 0 then 0 else 1) /\
        mailmsg_worker_message_count s' = u32 (mailmsg_worker_message_count s + messages)
    end.
Proof.
  intros Hs Hr Hp Hne E. rewrite run_worker_turn, (proj2 (Z.eqb_neq _ _) Hne).
  set (s1 := claimed s <| mailmsg_worker_drain_count := u32 (mailmsg_worker_drain_count (claimed s) + 1) |>).
  destruct (service_refines _ _ _ s1 a x a' (serving_same s s1 a eq_refl eq_refl eq_refl eq_refl Hs)
    Hr Hp E) as (s2 & R2 & Hs2 & K2).
  pose proof (run_worker_serve _ (claimed s) _ _ R2) as R. unfold kview in K2. rewrite !pair_eq in K2.
  destruct K2 as ((((((((((K1 & K2) & _) & K3) & _) & K4) & ((_ & _) & K5) & _) & _) & _) & _) & _).
  cbn in K1, K2, K3, K4, K5. destruct x as [[[messages last] reschedule]|]; step_with R.
  2:{ exists s2. split; [done|]. split; [done|]. repeat split; congruence. }
  unfold worker_merge, worker_finish. destruct (Z.eqb_spec reschedule 0) as [Hz|Hz]; cbn [negb when].
  - step. step. eexists. split; [reflexivity|]. split; [by eapply (serving_same s2)|]. cbn. rewrite K5.
    repeat split; congruence.
  - step. unfold k_sem_give. step. eexists. split; [reflexivity|].
    split; [by eapply (serving_same s2)|]. cbn. rewrite K1, K5.
    repeat split; done || congruence.
Qed.
End Refinement.
