(* ===== verification/ObservationSpec.v ===== *)
(** The observation lines CPU3 publishes for Linux: while CPU3 rewrites a line
    store by store, the snapshot [status_show] takes of it is either flagged
    invalid or one of the lines as published. *)
From S2P Require Import Prelude Protocol Ring Notify Endpoint DriverState DriverLifecycle DriverSysfs DriverProbe HostDemo Firmware.

(** * Lines guarded by a commit number *)
Section Guarded.
Context {L : Type} (commit : L -> Z).
Implicit Types (l : L) (stores : list (L -> L)) (blocks : list (Z * list (L -> L))).

(** The line after the first [n] stores. *)
Definition seen stores l (n : nat) : L := fold_left (fun o store => store o) (take n stores) l.

(** A publication: it ends committed with its number, which is 0 meanwhile. *)
Definition publication (b : Z * list (L -> L)) : Prop :=
  forall l, (forall n, (0 < n < length (snd b))%nat -> commit (seen (snd b) l n) = 0) /\
    commit (seen (snd b) l (length (snd b))) = fst b.
Definition all_stores blocks : list (L -> L) := concat (map snd blocks).
(** The line after the first [j] publications. *)
Definition published blocks l (j : nat) : L := fold_left (fun o store => store o) (all_stores (take j blocks)) l.

Lemma seen_0 stores l : seen stores l 0 = l.
Proof. unfold seen. by rewrite take_0. Qed.
Lemma seen_app_l ss stores l n : (n <= length ss)%nat -> seen (ss ++ stores) l n = seen ss l n.
Proof. intros. unfold seen. by rewrite take_app_le. Qed.
Lemma seen_app_r ss stores l n :
  (length ss <= n)%nat -> seen (ss ++ stores) l n = seen stores (seen ss l (length ss)) (n - length ss).
Proof.
  intros. unfold seen. rewrite take_app_ge, fold_left_app, take_ge with (n := length ss) by lia. done.
Qed.
Lemma published_cons b blocks l j :
  published (b :: blocks) l (S j) = published blocks (seen (snd b) l (length (snd b))) j.
Proof.
  unfold published, all_stores, seen. cbn. by rewrite fold_left_app, firstn_all.
Qed.

(** The numbers a reader can meet. *)
Lemma seen_commit blocks l n :
  Forall publication blocks -> commit (seen (all_stores blocks) l n) ∈ commit l :: 0 :: map fst blocks.
Proof.
  intros H. revert l n. induction H as [|b blocks Hb _ IH]; intros l n.
  - unfold seen, all_stores. cbn [map concat]. rewrite take_nil. cbn. set_solver.
  - unfold all_stores. cbn [map concat]. destruct (decide (n < length (snd b))%nat) as [Hn|Hn].
    + rewrite seen_app_l by lia. destruct n as [|n]; [rewrite seen_0; set_solver|].
      rewrite (proj1 (Hb l)) by lia. set_solver.
    + rewrite seen_app_r by lia. specialize (IH (seen (snd b) l (length (snd b))) (n - length (snd b))%nat).
      rewrite (proj2 (Hb l)) in IH. unfold all_stores in IH. set_solver.
Qed.

(** Equal non-zero numbers at two points in time: the line did not change in
    between, and it is a published one. *)
Lemma guarded_stable blocks l n m :
  Forall publication blocks -> NoDup (map fst blocks) -> commit l ∉ map fst blocks -> (n <= m)%nat ->
  commit (seen (all_stores blocks) l n) = commit (seen (all_stores blocks) l m) ->
  commit (seen (all_stores blocks) l n) <> 0 ->
  exists j, (j <= length blocks)%nat /\
    forall k, (n <= k <= m)%nat -> seen (all_stores blocks) l k = published blocks l j.
Proof.
  intros H. revert l n m. induction H as [|b blocks Hb H IH]; intros l n m Hnd Hnew Hnm He Hz.
  { exists 0%nat. split; [lia|]. intros k _. unfold seen, published, all_stores. cbn [map concat]. by rewrite !take_nil. }
  cbn [map] in Hnd, Hnew. apply NoDup_cons in Hnd as [Hb1 Hnd]. apply not_elem_of_cons in Hnew as [Hl Hnew].
  assert (Hlen : (0 < length (snd b))%nat).
  { destruct (snd b) as [|s ss] eqn:E; [|cbn; lia]. exfalso. apply Hl.
    rewrite <-(proj2 (Hb l)), E. by rewrite seen_0. }
  unfold all_stores in *. cbn [map concat] in *.
  destruct (decide (n < length (snd b))%nat) as [Hn|Hn].
  - rewrite (seen_app_l _ _ _ n) in He, Hz by lia.
    destruct n as [|n]; [|by rewrite (proj1 (Hb l)) in Hz by lia].
    rewrite seen_0 in He, Hz. destruct m as [|m].
    { exists 0%nat. split; [lia|]. intros k Hk. replace k with 0%nat by lia. apply seen_0. }
    exfalso. destruct (decide (S m < length (snd b))%nat) as [Hm|Hm].
    + rewrite seen_app_l, (proj1 (Hb l)) in He by lia. done.
    + rewrite seen_app_r in He by lia.
      pose proof (seen_commit blocks (seen (snd b) l (length (snd b))) (S m - length (snd b)) H) as Hin.
      unfold all_stores in Hin. rewrite <-He, (proj2 (Hb l)) in Hin. set_solver.
  - rewrite (seen_app_r _ _ _ n), (seen_app_r _ _ _ m) in He by lia. rewrite seen_app_r in Hz by lia.
    destruct (IH (seen (snd b) l (length (snd b))) (n - length (snd b))%nat (m - length (snd b))%nat)
      as (j & Hj & Hk); [done|by rewrite (proj2 (Hb l))|lia|done|done|].
    exists (S j). split; [cbn; lia|]. intros k Hkm. rewrite published_cons, seen_app_r by lia. apply Hk. lia.
Qed.
End Guarded.

(** * Publications numbered one after the other *)
Section Numbered.
Context {L : Type}.
Implicit Types (updates : list (Z -> list (L -> L))).

(** Each with the number after the one before; [c] was the last. *)
Fixpoint numbered (c : Z) updates : list (Z * list (L -> L)) :=
  match updates with
  | [] => []
  | stores :: updates => (next_commit c, stores (next_commit c)) :: numbered (next_commit c) updates
  end.

Lemma next_commit_iter c k :
  is_u32 c -> Nat.iter (S k) next_commit c = (c + Z.of_nat k) mod (2 ^ 32 - 1) + 1.
Proof. exact (next_seq_iter c k). Qed.
Lemma next_commit_u32 c : is_u32 (next_commit c).
Proof. exact (next_seq_u32 c). Qed.

Lemma length_numbered c updates : length (numbered c updates) = length updates.
Proof. revert c. induction updates as [|u updates IH]; intros c; cbn; [done|]. by rewrite IH. Qed.
Lemma numbered_publications commit c updates :
  (forall u n, u ∈ updates -> publication commit (n, u n)) -> Forall (publication commit) (numbered c updates).
Proof.
  revert c. induction updates as [|u updates IH]; intros c H; constructor; [apply H; left|].
  apply IH. intros v n Hv. apply H. by right.
Qed.
(** The numbers in use. *)
Lemma numbered_numbers c updates :
  map fst (numbered c updates) = map (fun k => Nat.iter (S k) next_commit c) (seq 0 (length updates)).
Proof.
  revert c. induction updates as [|u updates IH]; intros c; [done|]. cbn [numbered map fst length seq].
  f_equal. rewrite IH, <-seq_shift, map_map. apply map_ext. intros k. by rewrite !Nat.iter_succ_r.
Qed.
Lemma numbers_nodup c updates :
  is_u32 c -> Z.of_nat (length updates) < 2 ^ 32 - 1 -> NoDup (map fst (numbered c updates)).
Proof.
  intros Hc Hlen. rewrite numbered_numbers. apply NoDup_fmap_2_strong; [|apply NoDup_seq].
  intros i j Hi Hj. rewrite elem_of_seq in Hi, Hj. rewrite !next_commit_iter by done. unfold is_u32 in Hc. lia.
Qed.
Lemma numbers_new c updates :
  is_u32 c -> Z.of_nat (length updates) < 2 ^ 32 - 1 -> c ∉ map fst (numbered c updates).
Proof.
  intros Hc Hlen. rewrite numbered_numbers. intros (k & Hk & Hin)%list_elem_of_fmap.
  rewrite elem_of_seq in Hin. rewrite next_commit_iter in Hk by done. unfold is_u32 in Hc. lia.
Qed.

(** A reader that finds the number [commit] twice, not 0, has seen one line. *)
Lemma numbered_stable commit c updates (l : L) n m :
  is_u32 c -> Z.of_nat (length updates) < 2 ^ 32 - 1 -> commit l = c ->
  (forall u k, u ∈ updates -> publication commit (k, u k)) -> (n <= m)%nat ->
  let at_ k := seen (all_stores (numbered c updates)) l k in
  commit (at_ n) = commit (at_ m) -> commit (at_ n) <> 0 ->
  exists j, (j <= length updates)%nat /\ forall k, (n <= k <= m)%nat -> at_ k = published (numbered c updates) l j.
Proof.
  intros Hc Hlen Hl Hp Hnm at_ He Hz. rewrite <-(length_numbered c updates).
  apply (guarded_stable commit); [by apply numbered_publications|by apply numbers_nodup|
    rewrite Hl; by apply numbers_new|done..].
Qed.
End Numbered.

(** * The TX-full line *)

(** What CPU3 publishes while the sends named in [events] - priority and type -
    find their ring full, from commit number [c] and count [n] on. *)
Fixpoint tx_full_updates (n : Z) (events : list (Z * Z)) :
    list (Z -> list (mailmsg_tx_full_observation -> mailmsg_tx_full_observation)) :=
  match events with
  | [] => []
  | (priority, type) :: events =>
      (fun c => tx_full_stores c (u32 (n + 1)) priority type MAILMSG_RING_FULL) :: tx_full_updates (u32 (n + 1)) events
  end.
Definition tx_full_blocks (c n : Z) (events : list (Z * Z)) := numbered c (tx_full_updates n events).
(** The line as published for the [j]-th of them; [l] before the first. *)
Definition tx_full_line (c n : Z) (l : mailmsg_tx_full_observation) (events : list (Z * Z)) (j : nat) :
    mailmsg_tx_full_observation :=
  match j with
  | O => l
  | S i =>
      match events !! i with
      | Some (priority, type) =>
          let commit := Nat.iter j next_commit c in
          mk_tx_full_observation MAILMSG_TX_FULL_OBSERVATION_MAGIC commit (u32_not commit)
            (u32 (n + Z.of_nat j)) priority type MAILMSG_RING_FULL
      | None => l
      end
  end.

Lemma tx_full_publication c n priority type result :
  publication txo_commit (c, tx_full_stores c n priority type result).
Proof.
  intros l. split; [|reflexivity]. cbn [snd length tx_full_stores]. intros k Hk.
  destruct k as [|[|[|[|[|[|[|[|k]]]]]]]]; first [lia|reflexivity].
Qed.
Lemma tx_full_updates_publish n events u c : u ∈ tx_full_updates n events -> publication txo_commit (c, u c).
Proof.
  revert n. induction events as [|[p t] events IH]; intros n; [by intros ?%not_elem_of_nil|].
  intros [->|H]%elem_of_cons; [apply tx_full_publication|by eapply IH].
Qed.
Lemma length_tx_full_updates n events : length (tx_full_updates n events) = length events.
Proof. revert n. induction events as [|[p t] events IH]; intros n; cbn; [done|]. by rewrite IH. Qed.

Lemma tx_full_published c n l events j :
  (j <= length events)%nat -> published (tx_full_blocks c n events) l j = tx_full_line c n l events j.
Proof.
  revert c n l j. induction events as [|[p t] events IH]; intros c n l j Hj; cbn in Hj.
  { by replace j with 0%nat by lia. }
  destruct j as [|j]; [done|]. unfold tx_full_blocks. cbn [tx_full_updates numbered].
  fold (tx_full_blocks (next_commit c) (u32 (n + 1)) events). rewrite published_cons, IH by lia.
  cbn [fst snd]. destruct j as [|j]; [done|]. unfold tx_full_line. cbn [lookup list_lookup].
  destruct (events !! j) as [[p' t']|] eqn:E; [|apply lookup_ge_None in E; lia].
  rewrite (Nat.iter_succ_r (S j)). f_equal. unfold u32. rewrite Zplus_mod_idemp_l. f_equal. lia.
Qed.

Lemma tx_full_line_inv c n l events j :
  txo_commit_inv l = u32_not (txo_commit l) ->
  txo_commit_inv (tx_full_line c n l events j) = u32_not (txo_commit (tx_full_line c n l events j)).
Proof. intros Hl. destruct j as [|j]; [done|]. cbn. by destruct (events !! j) as [[p t]|]. Qed.

(** * The worker's line *)

(** A publication of the worker with the values of [o], under number [c]. *)
Definition worker_update (o : r1_amp_mailmsg_worker_observation_line) (c : Z) :=
  worker_stores c (wo_irq_count o) (wo_wake_count o) (wo_drain_count o) (wo_message_count o)
    (wo_empty_wake_count o) (wo_last_pending o) (wo_pending_now o) (wo_last_priority o).
Definition worker_blocks (c : Z) (lines : list r1_amp_mailmsg_worker_observation_line) :=
  numbered c (map worker_update lines).
(** The line as published for the [j]-th of [lines]; [l] before the first. *)
Definition worker_line (c : Z) (l : r1_amp_mailmsg_worker_observation_line)
    (lines : list r1_amp_mailmsg_worker_observation_line) (j : nat) : r1_amp_mailmsg_worker_observation_line :=
  match j with
  | O => l
  | S i =>
      match lines !! i with
      | Some o => o <| wo_magic := MAILMSG_WORKER_OBSERVATION_MAGIC |> <| wo_commit := Nat.iter j next_commit c |>
          <| wo_commit_inv := u32_not (Nat.iter j next_commit c) |>
      | None => l
      end
  end.
Lemma worker_publication o c : publication wo_commit (c, worker_update o c).
Proof.
  intros l. split; [|reflexivity]. cbn [snd length worker_update worker_stores]. intros k Hk.
  do 12 (destruct k as [|k]; [first [lia|reflexivity]|]). lia.
Qed.
Lemma worker_published c l lines j :
  (j <= length lines)%nat -> published (worker_blocks c lines) l j = worker_line c l lines j.
Proof.
  revert c l j. induction lines as [|o lines IH]; intros c l j Hj; cbn in Hj.
  { by replace j with 0%nat by lia. }
  destruct j as [|j]; [done|]. unfold worker_blocks. cbn [map numbered].
  fold (worker_blocks (next_commit c) lines). rewrite published_cons, IH by lia.
  cbn [fst snd]. destruct j as [|j]; [done|]. unfold worker_line. cbn [lookup list_lookup].
  destruct (lines !! j) as [o'|] eqn:E; [|apply lookup_ge_None in E; lia]. by rewrite (Nat.iter_succ_r (S j)).
Qed.
Lemma worker_line_inv c l lines j :
  wo_commit_inv l = u32_not (wo_commit l) ->
  wo_commit_inv (worker_line c l lines j) = u32_not (wo_commit (worker_line c l lines j)).
Proof. intros Hl. destruct j as [|j]; [done|]. cbn. by destruct (lines !! j). Qed.

(** * The writer and the reader *)
Section Snapshot.
Context {platform : Cpu3Platform} {driver : Platform}.

(** The firmware's stores are those publications. *)
Definition after_full (p t : Z) (s : cpu3_state) : cpu3_state :=
  s <| mailmsg_tx_full_count := u32 (mailmsg_tx_full_count s + 1) |>
    <| mailmsg_tx_full_commit := next_commit (mailmsg_tx_full_commit s) |>
    <| mem3 := mem3 s <| tx_full_observation :=
         mk_tx_full_observation MAILMSG_TX_FULL_OBSERVATION_MAGIC (next_commit (mailmsg_tx_full_commit s))
           (u32_not (next_commit (mailmsg_tx_full_commit s))) (u32 (mailmsg_tx_full_count s + 1)) p t
           MAILMSG_RING_FULL |> |>.
Lemma run_record_full p t r s :
  queue_result r = MAILMSG_RING_FULL -> mailmsg_record_tx_full p t r s = Some (tt, after_full p t s).
Proof. intros Hr. unfold mailmsg_record_tx_full. by rewrite Hr. Qed.
Lemma run_record_tx_full events r s :
  queue_result r = MAILMSG_RING_FULL ->
  exists s', for_each events (fun '(priority, type) => mailmsg_record_tx_full priority type r) s = Some (tt, s') /\
    tx_full_observation (mem3 s') =
      published (tx_full_blocks (mailmsg_tx_full_commit s) (mailmsg_tx_full_count s) events)
        (tx_full_observation (mem3 s)) (length events).
Proof.
  intros Hr. revert s. induction events as [|[p t] events IH]; intros s; [by exists s|].
  destruct (IH (after_full p t s)) as (s' & R & E). exists s'. split.
  - cbn [for_each]. by rewrite (run_bind_some _ _ _ _ _ (run_record_full p t r s Hr)).
  - rewrite E. unfold tx_full_blocks. cbn [tx_full_updates numbered length]. by rewrite published_cons.
Qed.

(** What Linux reads when the line is [o k] at the [k]-th read. *)
Lemma run_read_tx_full peer (o : nat -> mailmsg_tx_full_observation) d :
  (forall k c, tx_full_observation (peer k c) = o k) ->
  exists d', read_tx_full peer d =
    Some (((txo_magic (o 1%nat) =? MAILMSG_TX_FULL_OBSERVATION_MAGIC) && negb (txo_commit (o 0%nat) =? 0) &&
           (txo_commit (o 0%nat) =? txo_commit (o 6%nat)) &&
           (txo_commit_inv (o 7%nat) =? u32_not (txo_commit (o 6%nat))),
          mk_tx_full_observation (txo_magic (o 1%nat)) (txo_commit (o 6%nat)) (txo_commit_inv (o 7%nat))
            (full_count (o 2%nat)) (last_priority (o 3%nat)) (last_type (o 4%nat)) (last_result (o 5%nat))), d').
Proof.
  intros H. unfold read_tx_full.
  assert (E : forall A k (f : mailmsg_tx_full_observation -> A) e,
    peer_read peer k (fun c => f (tx_full_observation c)) e = Some (f (o k), e <| carveout := peer k (carveout e) |>)).
  { intros A k f e. rewrite <-(H k (carveout e)). reflexivity. }
  do 8 (erewrite run_bind_some by apply E). eexists. reflexivity.
Qed.

(** What the worker has to say in a state, and that it publishes it. *)
Definition worker_values (last_pending last_priority : Z) (s : cpu3_state) : r1_amp_mailmsg_worker_observation_line :=
  mk_worker_observation 0 0 0 (mailmsg_irq_count s) (mailmsg_worker_wake_count s) (mailmsg_worker_drain_count s)
    (mailmsg_worker_message_count s) (mailmsg_worker_empty_wake_count s) last_pending (mailmsg_pending_priorities s)
    last_priority.
Lemma run_publish_worker last_pending last_priority s :
  exists s', mailmsg_publish_worker_observation last_pending last_priority s = Some (tt, s') /\
    mailmsg_worker_commit s' = next_commit (mailmsg_worker_commit s) /\
    worker_observation (mem3 s') = worker_line (mailmsg_worker_commit s) (worker_observation (mem3 s))
      [worker_values last_pending last_priority s] 1.
Proof. eexists. split; [reflexivity|]. by split. Qed.

(** What Linux reads when the line is [o k] at the [k]-th read. *)
Lemma run_read_worker peer (o : nat -> r1_amp_mailmsg_worker_observation_line) d :
  (forall k c, worker_observation (peer k c) = o k) ->
  exists d', read_worker peer d =
    Some (((wo_magic (o 9%nat) =? R1_AMP_MAILMSG_WORKER_OBSERVATION_MAGIC) && negb (wo_commit (o 8%nat) =? 0) &&
           (wo_commit (o 8%nat) =? wo_commit (o 18%nat)) &&
           (wo_commit_inv (o 19%nat) =? u32_not (wo_commit (o 18%nat))),
          mk_worker_observation (wo_magic (o 9%nat)) (wo_commit (o 18%nat)) (wo_commit_inv (o 19%nat))
            (wo_irq_count (o 10%nat)) (wo_wake_count (o 11%nat)) (wo_drain_count (o 12%nat))
            (wo_message_count (o 13%nat)) (wo_empty_wake_count (o 14%nat)) (wo_last_pending (o 15%nat))
            (wo_pending_now (o 16%nat)) (wo_last_priority (o 17%nat))), d').
Proof.
  intros H. unfold read_worker.
  assert (E : forall A k (f : r1_amp_mailmsg_worker_observation_line -> A) e,
    peer_read peer k (fun c => f (worker_observation c)) e = Some (f (o k), e <| carveout := peer k (carveout e) |>)).
  { intros A k f e. rewrite <-(H k (carveout e)). reflexivity. }
  do 12 (erewrite run_bind_some by apply E). eexists. reflexivity.
Qed.

(** The same of the worker's line: while the worker publishes it any number of
    times below 2^32 - 1, with any values, a snapshot flagged valid is one of
    the lines exactly as published, and an undisturbed read is flagged valid. *)
Theorem worker_snapshot_consistent c l lines pos peer d :
  let stores := all_stores (worker_blocks c lines) in
  is_u32 c -> wo_commit l = c -> wo_commit_inv l = u32_not c -> Z.of_nat (length lines) < 2 ^ 32 - 1 ->
  (forall i k, (i <= k)%nat -> (pos i <= pos k)%nat) ->
  (forall k m, worker_observation (peer k m) = seen stores l (pos k)) ->
  exists valid o d', read_worker peer d = Some ((valid, o), d') /\
    (valid = true -> exists j, (j <= length lines)%nat /\ o = worker_line c l lines j) /\
    (forall j, (1 <= j <= length lines)%nat -> (forall k, seen stores l (pos k) = worker_line c l lines j) ->
       valid = true).
Proof.
  intros stores Hc Hl Hli Hlen Hpos Hpeer. destruct (run_read_worker peer _ d Hpeer) as (d' & R).
  eexists _, _, d'. split; [exact R|]. split.
  - intros H. bool_to_prop.
    destruct (numbered_stable wo_commit c (map worker_update lines) l (pos 8%nat) (pos 18%nat)) as (j & Hj & Hk).
    1: done. 1: by rewrite length_map. 1: done.
    1: intros u k (o & -> & _)%list_elem_of_fmap; apply worker_publication. 1: apply Hpos; lia. 1,2: done.
    rewrite length_map in Hj. fold (worker_blocks c lines) in Hk. rewrite worker_published in Hk by done.
    exists j. split; [done|]. fold stores in Hk. rewrite H0, !Hk by (split; apply Hpos; lia).
    rewrite <-worker_line_inv by (by rewrite Hl). by destruct (worker_line c l lines j).
  - intros [|j] Hj Hq; [lia|]. rewrite !Hq. unfold worker_line.
    destruct (lines !! j) as [o|] eqn:E; [|apply lookup_ge_None in E; lia].
    cbn [wo_magic wo_commit wo_commit_inv set_field].
    rewrite next_commit_iter, !Z.eqb_refl by done. rewrite (proj2 (Z.eqb_neq _ 0)) by (unfold is_u32 in Hc; lia). done.
Qed.

(** C36. The TX-full snapshot is consistent.  While CPU3 records sends that
    found their ring full - any number below 2^32 - 1, each rewriting the line
    store by store, visible in program order - and Linux reads the line field by field at any moments in
    between, a snapshot flagged valid is the line exactly as published for one
    of those sends (or as it was before them); and a read that no store
    overtakes is flagged valid. *)
Theorem tx_full_snapshot_consistent s events r pos peer d :
  let l := tx_full_observation (mem3 s) in
  let c := mailmsg_tx_full_commit s in
  let n := mailmsg_tx_full_count s in
  let stores := all_stores (tx_full_blocks c n events) in
  queue_result r = MAILMSG_RING_FULL -> is_u32 c -> txo_commit l = c ->
  txo_commit_inv l = u32_not c ->
  Z.of_nat (length events) < 2 ^ 32 - 1 -> (forall i k, (i <= k)%nat -> (pos i <= pos k)%nat) ->
  (forall k m, tx_full_observation (peer k m) = seen stores l (pos k)) ->
  (exists s', for_each events (fun '(priority, type) => mailmsg_record_tx_full priority type r) s = Some (tt, s') /\
     tx_full_observation (mem3 s') = seen stores l (length stores)) /\
  exists valid o d', read_tx_full peer d = Some ((valid, o), d') /\
    (valid = true -> exists j, (j <= length events)%nat /\ o = tx_full_line c n l events j) /\
    (forall j, (1 <= j <= length events)%nat -> (forall k, seen stores l (pos k) = tx_full_line c n l events j) ->
       valid = true).
Proof.
  intros l c n stores Hr Hc Hl Hli Hlen Hpos Hpeer. split.
  - destruct (run_record_tx_full events r s Hr) as (s' & R & E). exists s'. split; [exact R|].
    rewrite E. unfold published, seen. by rewrite <-(length_tx_full_updates n events), <-(length_numbered c), !firstn_all.
  - destruct (run_read_tx_full peer _ d Hpeer) as (d' & R). eexists _, _, d'. split; [exact R|]. split.
    + intros H. bool_to_prop.
      destruct (numbered_stable txo_commit c (tx_full_updates n events) l (pos 0%nat) (pos 6%nat)) as (j & Hj & Hk).
      1: done. 1: by rewrite length_tx_full_updates. 1: done. 1: intros u k; apply tx_full_updates_publish.
      1: apply Hpos; lia. 1,2: done.
      rewrite length_tx_full_updates in Hj. fold (tx_full_blocks c n events) in Hk.
      rewrite tx_full_published in Hk by done.
      exists j. split; [done|]. fold stores in Hk. rewrite H0, !Hk by (split; apply Hpos; lia).
      rewrite <-tx_full_line_inv by (by rewrite Hl). by destruct (tx_full_line c n l events j).
    + intros [|j] Hj Hq; [lia|]. rewrite !Hq. unfold tx_full_line.
      destruct (events !! j) as [[p t]|] eqn:E; [|apply lookup_ge_None in E; lia].
      cbn [txo_magic txo_commit txo_commit_inv]. rewrite !Z.eqb_refl, next_commit_iter by done.
      rewrite (proj2 (Z.eqb_neq _ 0)) by (unfold is_u32 in Hc; lia). done.
Qed.
End Snapshot.

(** * The property at a concrete line *)

(** A line published as number 7; two sends fail while Linux reads behind the
    first publication's last store. *)
Definition demo_line : mailmsg_tx_full_observation :=
  mk_tx_full_observation MAILMSG_TX_FULL_OBSERVATION_MAGIC 7 (u32_not 7) 6 1 MAILMSG_MSG_ACK MAILMSG_RING_FULL.
Definition demo_writer : cpu3_state :=
  cpu3_boot (carveout_init 0 <| tx_full_observation := demo_line |>) (fun _ => 0) (fun _ => 0)
    <| mailmsg_tx_full_commit := 7 |> <| mailmsg_tx_full_count := 6 |>.
Definition demo_events : list (Z * Z) := [(0, MAILMSG_MSG_ACK); (2, MAILMSG_MSG_PONG)].
Definition demo_peer (k : nat) (m : carveout_mem) : carveout_mem :=
  m <| tx_full_observation := seen (all_stores (tx_full_blocks 7 6 demo_events)) demo_line 8 |>.
Definition demo_full : mailmsg_send_result := send_result_zero <| queue_result := MAILMSG_RING_FULL |>.

Lemma tx_full_snapshot_consistent_witness :
  exists o d' j, read_tx_full demo_peer host_probed = Some ((true, o), d') /\ (j <= 2)%nat /\
    o = tx_full_line 7 6 demo_line demo_events j.
Proof.
  destruct (tx_full_snapshot_consistent demo_writer demo_events demo_full (fun _ => 8%nat) demo_peer host_probed)
    as (_ & valid & o & d' & R & Hv & Hq); [reflexivity|unfold is_u32; cbn; lia|reflexivity|reflexivity|cbn; lia|
    lia|reflexivity|].
  rewrite (Hq 1%nat) in Hv, R by (cbn; lia || reflexivity).
  destruct (Hv eq_refl) as (j & Hj & Ho). exists o, d', j. split; [exact R|]. split; [exact Hj|exact Ho].
Defined.

(** * Stores out of order

    The only barrier of a publication stands before its last store.  What
    another core may see of the stores before it is any order of them. *)
Definition within_barriers {L : Type} (stores seen_stores : list (L -> L)) : Prop :=
  exists before store fields, stores = before ++ [store] /\ fields ≡ₚ before /\ seen_stores = fields ++ [store].

(** The store of the count becomes visible before that of the zero commit. *)
Definition early_count : list (mailmsg_tx_full_observation -> mailmsg_tx_full_observation) :=
  match tx_full_stores 8 7 0 MAILMSG_MSG_ACK MAILMSG_RING_FULL with
  | zero :: magic :: count :: rest => count :: zero :: magic :: rest
  | stores => stores
  end.
Definition early_peer (k : nat) (m : carveout_mem) : carveout_mem :=
  m <| tx_full_observation := seen early_count demo_line 1 |>.

(** Program order is needed: with the stores visible in an order the barriers
    allow, the reader takes a line for valid that was never published - here
    the count of publication 8 under the number of publication 7. *)
Theorem tx_full_reordering_tears :
  within_barriers (tx_full_stores 8 7 0 MAILMSG_MSG_ACK MAILMSG_RING_FULL) early_count /\
  exists o d', read_tx_full early_peer host_probed = Some ((true, o), d') /\
    forall j, o <> tx_full_line 7 6 demo_line [(0, MAILMSG_MSG_ACK)] j.
Proof.
  split.
  - set (stores := tx_full_stores 8 7 0 MAILMSG_MSG_ACK MAILMSG_RING_FULL).
    eexists (take 7 stores), _, (take 7 early_count). split; [reflexivity|]. split; [|reflexivity].
    etransitivity; [apply perm_swap|]. apply perm_skip, perm_swap.
  - destruct (run_read_tx_full early_peer (fun _ => seen early_count demo_line 1) host_probed) as (d' & R); [reflexivity|].
    eexists _, d'. split; [exact R|]. intros [|[|j]]; discriminate.
Qed.
