(* ===== verification/BootSpec.v ===== *)
(** CPU3 from reset to the announced session: binding the shared block,
    SESSION_READY, the mailbox interrupt, and switching the core off; and the
    invariant of the firmware's own synchronisation. *)
From S2P Require Import Prelude Protocol Ring Notify Endpoint EndpointSpec Frame DriverState Firmware FirmwareSpec.

(** * The mailbox as the firmware relies on it

    Writing ones to A2B_STATUS acknowledges those channels; the reverse
    direction's command and data registers do not disturb it. *)
Class Mailbox0Laws (platform : Cpu3Platform) : Prop := {
  a2b_status_w1c v regs :
    sys_write32 v MAILBOX_A2B_STATUS regs MAILBOX_A2B_STATUS =
    Z.land (regs MAILBOX_A2B_STATUS) (Z.lnot v);
  b2a_writes_keep_a2b_status v ch regs :
    0 <= ch < 4 ->
    sys_write32 v (MAILBOX_B2A_CMD ch) regs MAILBOX_A2B_STATUS = regs MAILBOX_A2B_STATUS /\
    sys_write32 v (MAILBOX_B2A_DAT ch) regs MAILBOX_A2B_STATUS = regs MAILBOX_A2B_STATUS;
}.

Section Boot.
Context {platform : Cpu3Platform} {coherent : CoherentOps mailmsg_queue_memory_ops} (cfg : fw_config).
Implicit Types (s : cpu3_state) (a : queues).

(** The SESSION_READY frame of session [gen] from a generator at [n]. *)
Definition ready_frame (gen n : Z) : mailmsg_message :=
  new_frame gen n MAILMSG_MSG_SESSION_READY (session_payload gen) MAILMSG_SESSION_BYTES.

Lemma length_session gen : length (session_payload gen) = 8%nat.
Proof. unfold session_payload, mailmsg_store_payload_u32. by rewrite !length_store_u32. Qed.

(** ** Announcing the session *)

(** What the control plane of the firmware can change while announcing. *)
Definition wview (s : cpu3_state) :=
  (mailmsg_pending_priorities s, mailmsg_work_sem s, mailmsg_endpoint_ready s, core s, irq_lines s).

Lemma run_ready_first s a :
  serving s a -> mailmsg_endpoint_ready s = true -> mailmsg_session_ready_published s = false ->
  mailmsg_session_ready_committed s = false ->
  exists ok a' s', q_send MAILMSG_PRIO_CRITICAL MAILMSG_MSG_SESSION_READY (session_payload (q_gen a))
      MAILMSG_SESSION_BYTES a = Some (ok, a') /\
    mailmsg_service_session_ready s = Some (tt, s') /\ serving s' a' /\ wview s' = wview s /\
    mailmsg_session_ready_committed s' = ok /\ mailmsg_session_ready_published s' = ok.
Proof.
  intros Hs Hr Hp Hc.
  destruct (run_cpu3_send s a MAILMSG_PRIO_CRITICAL MAILMSG_MSG_SESSION_READY (session_payload (q_gen a))
    MAILMSG_SESSION_BYTES indeterminate_result Hs) as (ok & a1 & res & s1 & E1 & R1 & Hs1 & K1 & Hacc).
  { unfold MAILMSG_PRIO_CRITICAL. lia. }
  { unfold MAILMSG_SESSION_BYTES. lia. }
  { by rewrite length_session. }
  assert (Hw : wview s1 = wview s).
  { pose proof (sv_core _ _ Hs1). pose proof (sv_core _ _ Hs). pose proof (sv_lines _ _ Hs1).
    pose proof (sv_lines _ _ Hs).
    assert (q_core a1 = q_core a /\ q_lines a1 = q_lines a) as [? ?].
    { revert E1. unfold q_send. run. destruct (_ =? 7)%nat; by intros [= <- <-]. }
    unfold wview, kview in *. rewrite !pair_eq in *. intuition congruence. }
  exists ok, a1. unfold mailmsg_service_session_ready. rewrite run_bind. cbn.
  rewrite Hr, Hp, Hc, (sv_gen _ _ Hs). cbn [negb orb]. unfold kview in K1. rewrite !pair_eq in K1.
  destruct ok.
  - rewrite (run_bind_some _ _ _ _ _ R1). eexists. split; [done|]. split; [reflexivity|].
    split; [by apply (serving_same s1)|]. split; [done|]. cbn. by rewrite Hacc.
  - destruct (silent_record MAILMSG_PRIO_CRITICAL MAILMSG_MSG_SESSION_READY res s1) as (s2 & R2 & V2).
    exists s2. split; [done|]. split; [by rewrite (run_bind_some _ _ _ _ _ R1)|].
    split; [by eapply serving_view|]. unfold sview, kview in V2. rewrite !pair_eq in V2.
    unfold wview in *. rewrite !pair_eq in *. intuition congruence.
Qed.

(** Once the frame is committed only the doorbell is rung again. *)
Lemma run_ready_again s :
  mailmsg_endpoint_ready s = true -> mailmsg_session_ready_published s = false ->
  mailmsg_session_ready_committed s = true ->
  exists s', mailmsg_service_session_ready s = Some (tt, s') /\ mem3 s' = mem3 s /\
    cpu3_endpoint s' = cpu3_endpoint s /\ wview s' = wview s /\
    mailmsg_session_ready_committed s' = true /\ mailmsg_session_ready_published s' = true.
Proof.
  intros Hr Hp Hc. unfold mailmsg_service_session_ready. rewrite run_bind. cbn [get]. cbv beta iota.
  rewrite Hr, Hp, Hc. cbn [negb orb].
  assert (H : exists nr regs, zoom mailbox (fun regs s => s <| mailbox := regs |>)
    (mailmsg_cpu3_notify MAILMSG_PRIO_CRITICAL) s = Some (nr, s <| mailbox := regs |>) /\
    mailmsg_notify_accepted nr = true).
  { unfold zoom, mailmsg_cpu3_notify. run. destruct (has_bit _ _); by do 2 eexists. }
  destruct H as (nr & regs & H & Hacc). rewrite (run_bind_some _ _ _ _ _ H), Hacc.
  eexists. split; [reflexivity|]. by repeat split.
Qed.
Lemma run_ready_idle s :
  mailmsg_endpoint_ready s = false \/ mailmsg_session_ready_published s = true ->
  mailmsg_service_session_ready s = Some (tt, s).
Proof.
  intros H. unfold mailmsg_service_session_ready. rewrite run_bind. cbn [get]. cbv beta iota.
  destruct H as [-> | ->]; [done|]. by rewrite orb_true_r.
Qed.

(** ** [main] up to its loop *)

(** The block carries the protocol and a session; its rings hold [rx], [tx]. *)
Record session_block (sh : mailmsg_shared) (gen : Z) (rx tx : Z -> list mailmsg_message) : Prop := {
  sb_magic : magic sh = MAILMSG_PROTOCOL_MAGIC;
  sb_version : version sh = MAILMSG_PROTOCOL_VERSION;
  sb_gen : shared_generation sh = gen;
  sb_nonzero : gen <> 0;
  sb_rx p : 0 <= p < 4 -> represents (mk_ring_ptr LinuxToCpu3 p) sh (rx p);
  sb_tx p : 0 <= p < 4 -> represents (mk_ring_ptr Cpu3ToLinux p) sh (tx p);
}.

Definition boot_queues gen rx tx : queues :=
  mk_queues rx tx 0 gen CoreRunning [true; true; true; true].

(** What the diagnostics of [main] leave alone. *)
Definition bview (s : cpu3_state) :=
  (cpu3_endpoint s, c_shared (mem3 s), core s, irq_lines s, mailmsg_endpoint_ready s,
   mailmsg_session_ready_committed s, mailmsg_session_ready_published s,
   mailmsg_pending_priorities s, mailmsg_work_sem s).
Lemma silent_bringup : silent bview main_bringup tt.
Proof.
  apply silent_unit; unfold main_bringup, mailmsg_reset_tx_full_observation,
    mailmsg_publish_tx_full_observation, mailmsg_publish_worker_observation,
    mailmsg_enable_a2b_channels, mailmsg_snapshot_gic_routes, observe, upd_mem, sys_read32_mailbox,
    sys_write32_mailbox, sys_read32_gicd; cbn [Z.eqb]; [total_auto|pres_auto].
Qed.

(** Everything [main] does before it announces the session. *)
Lemma run_main_init s gen rx tx :
  length (stats (cpu3_endpoint s)) = 4%nat -> core s = CoreRunning ->
  mailmsg_session_ready_committed s = false -> mailmsg_session_ready_published s = false ->
  session_block (c_shared (mem3 s)) gen rx tx ->
  exists s1, serving s1 (boot_queues gen rx tx) /\ mailmsg_endpoint_ready s1 = true /\
    mailmsg_session_ready_committed s1 = false /\ mailmsg_session_ready_published s1 = false /\
    mailmsg_pending_priorities s1 = mailmsg_pending_priorities s /\
    mailmsg_work_sem s1 = mailmsg_work_sem s /\
    main_init cfg s = when (negb (MAILMSG_TEST_SKIP_SESSION_READY cfg)) mailmsg_service_session_ready s1.
Proof.
  intros Hst Hco Hc Hp [Hm Hv Hg Hne Hrx Htx]. unfold main_init. step.
  set (s0 := set_field _ s).
  pose proof (run_bind_endpoint mailmsg_queue_memory_ops (Some mailmsg_cpu3_notify_endpoint)
    mailmsg_cpu3_notify MAILMSG_ENDPOINT_CPU3 (cpu3_world s0) eq_refl (or_intror eq_refl) Hst) as Hb.
  change (shm (cpu3_world s0)) with (c_shared (mem3 s)) in Hb.
  rewrite Hm, Hv, Hg, !Z.eqb_refl, (proj2 (Z.eqb_neq _ _) Hne) in Hb. cbn [negb orb] in Hb.
  erewrite run_bind_some by (unfold on_cpu3_endpoint, zoom; rewrite Hb; reflexivity).
  cbv beta iota. step.
  match goal with |- context [mbind _ main_bringup ?st] => set (s2 := st) end.
  destruct (silent_bringup s2) as (s3 & R3 & V3). step_with R3. step. step.
  set (s4 := set_field _ s3). exists s4.
  unfold bview in V3. rewrite !pair_eq in V3.
  destruct V3 as ((((((((He & Hsh) & Hco3) & _) & Hr3) & Hc3) & Hp3) & Hpe) & Hse).
  assert (Hr4 : mailmsg_endpoint_ready s4 = true) by exact Hr3. rewrite Hr4. cbn [andb].
  split; [|split; [done|split; [by transitivity (mailmsg_session_ready_committed s2)|
    split; [by transitivity (mailmsg_session_ready_published s2)|
    split; [exact Hpe|split; [exact Hse|done]]]]]].
  split; cbn; rewrite ?He, ?Hsh; cbn.
  - apply (bound_endpoint_ready mailmsg_queue_memory_ops (Some mailmsg_cpu3_notify_endpoint)
      mailmsg_cpu3_notify MAILMSG_ENDPOINT_CPU3 gen); done.
  - by repeat split.
  - done.
  - done.
  - done.
  - done.
  - rewrite Hco3. exact Hco.
  - done.
Qed.

(** ** The interrupt handler *)
Definition isr_command (index : Z) s : Z := mailbox s (MAILBOX_A2B_CMD index).
(** The registers after a raw probe has been echoed. *)
Definition echoed (index : Z) (regs : Z -> Z) : Z -> Z :=
  sys_write32 (regs (MAILBOX_A2B_DAT index)) (MAILBOX_B2A_DAT index)
    (sys_write32 (Z.lor 0xb2a00000 index) (MAILBOX_B2A_CMD index) regs).
Definition isr_registers (index : Z) (s : cpu3_state) : Z -> Z :=
  sys_write32 (BIT index) MAILBOX_A2B_STATUS
    (if protocol_command (isr_command index s) then mailbox s else echoed index (mailbox s)).
Definition wakes_worker (index : Z) (s : cpu3_state) : bool :=
  protocol_command (isr_command index s) ||
  (isr_command index s =? Z.lor AMP_MBOX_RAW_TEST_CMD index).

(** What the handler leaves alone. *)
Definition iview (s : cpu3_state) :=
  (cpu3_endpoint s, c_shared (mem3 s), core s, irq_lines s, mailmsg_endpoint_ready s,
   mailmsg_session_ready_committed s, mailmsg_session_ready_published s).
Lemma run_isr index s :
  0 <= index < 4 -> exists s', mailmsg_mailbox_a2b_matrix_isr index s = Some (tt, s') /\
    iview s' = iview s /\ mailbox s' = isr_registers index s /\
    (mailmsg_pending_priorities s', mailmsg_work_sem s') =
      (if wakes_worker index s then (Z.lor (mailmsg_pending_priorities s) (BIT index), 1)
       else (mailmsg_pending_priorities s, mailmsg_work_sem s)).
Proof.
  intros Hi. unfold mailmsg_mailbox_a2b_matrix_isr, RK3588_MAILBOX_CHANNELS.
  assert (index / 4 = 0 /\ index mod 4 = index) as [-> ->] by lia. cbv zeta.
  unfold sys_read32_mailbox, sys_write32_mailbox. cbn [Z.eqb]. do 3 step.
  unfold isr_registers, wakes_worker, isr_command.
  destruct (protocol_command _) eqn:Ep; cbn [negb when orb].
  - step. step. step. step. cbn [mailbox set_field]. eexists. split; [reflexivity|]. by repeat split.
  - erewrite run_bind_some by (step; reflexivity). cbv beta iota. step. step. step.
    destruct (_ =? _) eqn:Er; eexists; (split; [reflexivity|]); by repeat split.
Qed.

(** ** The queues right after SESSION_READY *)
Lemma q_send_room priority type bytes len a :
  length (txq a priority) <> 7%nat ->
  q_send priority type bytes len a = Some (true,
    a <| q_next := next_seq (q_next a) |>
      <| txq := upd_queue priority
           (txq a priority ++ [new_frame (q_gen a) (q_next a) type bytes len]) (txq a) |>).
Proof. intros H. unfold q_send. step. step. by rewrite (proj2 (Nat.eqb_neq _ _) H). Qed.

Lemma q_send_full priority type bytes len a :
  length (txq a priority) = 7%nat ->
  q_send priority type bytes len a = Some (false, a <| q_next := next_seq (q_next a) |>).
Proof. intros H. unfold q_send. step. step. by rewrite H. Qed.

(** ** The invariant of the firmware's synchronisation *)

(** The worker is past [k_sem_take] and has still to take the pending set, or
    has put bits back and has still to raise the semaphore. *)
Definition coming_back (pc : worker_pc) : bool :=
  match pc with
  | WTaken => true
  | WMerged _ _ reschedule => negb (reschedule =? 0)
  | _ => false
  end.
(** The semaphore is binary; a pending priority always has the semaphore up or
    the worker on its way; and the session is announced in order. *)
Record sync_inv s (pc : worker_pc) : Prop := {
  si_sem : mailmsg_work_sem s = 0 \/ mailmsg_work_sem s = 1;
  si_pending : mailmsg_pending_priorities s <> 0 -> mailmsg_work_sem s = 1 \/ coming_back pc = true;
  si_published : mailmsg_session_ready_published s = true -> mailmsg_session_ready_committed s = true;
  si_committed : mailmsg_session_ready_committed s = true -> mailmsg_endpoint_ready s = true;
}.
Definition fview (s : cpu3_state) :=
  (mailmsg_pending_priorities s, mailmsg_work_sem s, mailmsg_endpoint_ready s,
   mailmsg_session_ready_committed s, mailmsg_session_ready_published s).
Lemma sync_view s s' pc : fview s' = fview s -> sync_inv s pc -> sync_inv s' pc.
Proof.
  unfold fview. rewrite !pair_eq. intros ((((E1 & E2) & E3) & E4) & E5) [? ? ? ?].
  split; rewrite ?E1, ?E2, ?E3, ?E4, ?E5; done.
Qed.

Lemma fview_endpoint {A} (m : M (ep_world (Z -> Z)) A) : pres fview (on_cpu3_endpoint m).
Proof. unfold on_cpu3_endpoint. pres_auto. Qed.
Lemma fview_record priority type r : pres fview (mailmsg_record_tx_full priority type r).
Proof.
  unfold mailmsg_record_tx_full, mailmsg_publish_tx_full_observation, upd_mem. pres_auto.
Qed.
Lemma fview_publish_worker x y : pres fview (mailmsg_publish_worker_observation x y).
Proof. unfold mailmsg_publish_worker_observation, upd_mem. pres_auto. Qed.
#[local] Hint Resolve fview_endpoint fview_record fview_publish_worker : pres.
Lemma fview_core_off : pres fview mailmsg_cpu_off_after_ready.
Proof.
  unfold mailmsg_cpu_off_after_ready, r1_amp_checkpoint_c, upd_mem, sys_read32_mailbox,
    sys_write32_mailbox. pres_auto.
Qed.
Lemma fview_feedback priority type ps st : pres fview (mailmsg_send_feedback priority type ps st).
Proof. unfold mailmsg_send_feedback. pres_auto. Qed.
Lemma fview_stop_feedback type ps st : pres fview (mailmsg_send_stop_feedback type ps st).
Proof. unfold mailmsg_send_stop_feedback. pres_auto. Qed.
#[local] Hint Resolve fview_core_off fview_feedback fview_stop_feedback : pres.
Lemma fview_handle priority m : pres fview (handle_frame cfg priority m).
Proof. unfold handle_frame, mailmsg_send_pong. pres_auto. Qed.
Lemma fview_reject priority code m : pres fview (reject_frame priority code m).
Proof. unfold reject_frame, observe, upd_mem. pres_auto. Qed.
#[local] Hint Resolve fview_handle fview_reject : pres.
Lemma fview_priority turns priority : forall messages m, pres fview (service_priority cfg turns priority messages m).
Proof. induction turns as [|turns IH]; intros; cbn [service_priority]; pres_auto. Qed.
#[local] Hint Resolve fview_priority : pres.
Lemma fview_priorities ps : forall pending messages last reschedule,
  pres fview (service_priorities cfg ps pending messages last reschedule).
Proof. induction ps as [|p ps IH]; intros; cbn [service_priorities]; pres_auto. Qed.
#[local] Hint Resolve fview_priorities : pres.
Lemma fview_service pending last reschedule :
  pres fview (mailmsg_pingpong_test_service cfg pending last reschedule).
Proof. unfold mailmsg_pingpong_test_service. pres_auto. Qed.

Lemma fview_empty : pres fview worker_empty.
Proof. unfold worker_empty. pres_auto. Qed.
Lemma fview_serve pending : pres fview (worker_serve cfg pending).
Proof. pose proof fview_service. unfold worker_serve. pres_auto. Qed.

(** [pending] is kept by a step, or handed to the service. *)
Definition keeps_bits s (f' : fw_state) : Prop :=
  forall b, 0 <= b < 4 -> has_bit (mailmsg_pending_priorities s) b = true ->
  has_bit (mailmsg_pending_priorities (cpu f')) b = true \/
  exists pending, pc f' = WClaimed pending /\ has_bit pending b = true.
Lemma keeps_same s s' pc' :
  mailmsg_pending_priorities s' = mailmsg_pending_priorities s -> keeps_bits s (mk_fw s' pc').
Proof. intros E b _ H. left. cbn. by rewrite E. Qed.
Lemma keeps_view s s' pc' : fview s' = fview s -> keeps_bits s (mk_fw s' pc').
Proof. unfold fview. rewrite !pair_eq. intros ((((E & _) & _) & _) & _). by apply keeps_same. Qed.
Lemma keeps_lor s s' pc' v :
  mailmsg_pending_priorities s' = Z.lor (mailmsg_pending_priorities s) v -> keeps_bits s (mk_fw s' pc').
Proof. intros E b Hb H. left. cbn. rewrite E. apply has_bit_lor_l; [lia|exact H]. Qed.

Lemma sync_worker_step s pc f' :
  sync_inv s pc -> worker_step cfg s pc = Some f' -> sync_inv (cpu f') (Firmware.pc f') /\ keeps_bits s f'.
Proof.
  intros Hs. destruct pc as [| |pending|pending last reschedule|pending last reschedule]; cbn [worker_step].
  - destruct (_ =? 0); [done|]. intros [= <-]. split; [destruct Hs; by split; cbn; [left|right|..]|].
    by apply keeps_same.
  - intros [= <-]. split; [destruct Hs; by split; cbn|].
    intros b Hb H. right. by eexists.
  - destruct (pending =? 0).
    + destruct (worker_empty s) as [[[] s1]|] eqn:E; [|done]. intros [= <-]. apply fview_empty in E.
      split; [|by apply keeps_view]. eapply sync_view; [exact E|]. destruct Hs. by split.
    + destruct (worker_serve cfg pending s) as [[r s1]|] eqn:E; [|done]. apply fview_serve in E.
      assert (Hs1 : sync_inv s1 WWaiting).
      { eapply sync_view; [exact E|]. destruct Hs. by split. }
      destruct r as [[last reschedule]|]; intros [= <-]; (split; [|by apply keeps_view]); [|done].
      destruct Hs1. by split.
  - unfold worker_merge. destruct (reschedule =? 0) eqn:Er; cbn [negb when]; intros [= <-].
    + split; [|by apply keeps_view]. destruct Hs. split; cbn; rewrite ?Er; done.
    + split; [|by eapply keeps_lor]. destruct Hs. split; cbn; rewrite ?Er; auto.
  - unfold worker_finish, k_sem_give. cbn [coming_back] in Hs.
    destruct (reschedule =? 0) eqn:Er; cbn [negb when].
    + rewrite run_bind. cbn [mret M_ret].
      destruct (mailmsg_publish_worker_observation pending last s) as [[[] s1]|] eqn:E; [|done].
      intros [= <-]. apply fview_publish_worker in E. split; [|by apply keeps_view].
      eapply sync_view; [exact E|]. destruct Hs as [? Hpend ? ?]. split; try done.
      cbn in Hpend. by rewrite Er in Hpend.
    + rewrite run_bind. cbn [modify].
      destruct (mailmsg_publish_worker_observation pending last _) as [[[] s1]|] eqn:E; [|done].
      intros [= <-]. apply fview_publish_worker in E. split; [|apply keeps_same; unfold fview in E; by rewrite !pair_eq in E; destruct E as ((((-> & _) & _) & _) & _)].
      eapply sync_view; [exact E|]. destruct Hs. by split; [right|left|..].
Qed.

Lemma sync_ready s s' pc :
  sync_inv s pc -> mailmsg_service_session_ready s = Some (tt, s') -> sync_inv s' pc.
Proof.
  intros Hs. unfold mailmsg_service_session_ready. step.
  destruct (mailmsg_endpoint_ready s) eqn:Er; cbn [negb orb]; [|by intros [= <-]].
  destruct (mailmsg_session_ready_published s) eqn:Ep; [by intros [= <-]|].
  destruct (mailmsg_session_ready_committed s) eqn:Ec.
  - rewrite run_bind. unfold zoom. destruct (mailmsg_cpu3_notify _ _) as [[nr regs]|]; [|done].
    destruct (mailmsg_notify_accepted nr); cbn [when]; intros [= <-]; destruct Hs; split; cbn; auto.
  - intros E. apply run_bind_inv in E as ([ret res] & s1 & R1 & E). apply fview_endpoint in R1.
    pose proof (sync_view _ _ _ R1 Hs) as Hs1. destruct (negb (ret =? 0)).
    + eapply sync_view; [by eapply fview_record|done].
    + injection E as <-. unfold fview in R1. rewrite !pair_eq in R1.
      destruct Hs1. split; cbn; try done. intros _. by destruct R1 as [[[_ ->] _] _].
Qed.

Lemma sync_main_loop s s' pc : sync_inv s pc -> main_loop cfg s = Some (tt, s') -> sync_inv s' pc.
Proof.
  intros Hs. unfold main_loop. step. cbv zeta. intros E.
  apply run_bind_inv in E as ([] & s1 & R1 & E).
  assert (V1 : fview s1 = fview s).
  { revert R1. eapply (pres_when fview). unfold upd_mem, mailmsg_send_b2a_ack, observe, upd_mem,
      sys_read32_mailbox, sys_write32_mailbox. pres_auto. }
  pose proof (sync_view _ _ _ V1 Hs) as Hs1.
  apply run_bind_inv in E as ([] & s2 & R2 & E).
  assert (Hs2 : sync_inv s2 pc).
  { revert R2. destruct (negb _); cbn [when]; [by apply sync_ready|by intros [= <-]]. }
  eapply sync_view; [|exact Hs2]. revert E.
  match goal with |- ?m s2 = _ -> _ => assert (H : pres fview m) end; [|apply H].
  unfold r1_amp_checkpoint_c, upd_mem. pres_auto.
Qed.

(** The firmware's states: from [main] having brought up a core out of reset,
    under any interleaving of interrupts, threads and writes of Linux. *)
Definition cpu3_step (f f' : fw_state) : Prop := exists ev, cpu3_handle cfg ev f = Some f'.
Definition cpu3_reachable (f : fw_state) : Prop :=
  exists m regs gic s0, main_init cfg (cpu3_boot m regs gic) = Some (tt, s0) /\
    star cpu3_step (mk_fw s0 WWaiting) f.

Lemma sync_main_init m regs gic s :
  main_init cfg (cpu3_boot m regs gic) = Some (tt, s) -> sync_inv s WWaiting.
Proof.
  intros E. unfold main_init in E. apply run_bind_inv in E as ([] & s1 & R1 & E).
  injection R1 as <-. apply run_bind_inv in E as (z & s2 & R2 & E). apply fview_endpoint in R2.
  unfold fview in R2. rewrite !pair_eq in R2. destruct R2 as ((((P & S) & _) & C) & B). cbn in P, S, C, B.
  rewrite (run_bind_some _ _ _ tt _ eq_refl) in E. apply run_bind_inv in E as ([] & s3 & R3 & E).
  destruct (silent_bringup (s2 <| mailmsg_endpoint_ready := z =? MAILMSG_ENDPOINT_OK |>)) as (s4 & R4 & V4).
  rewrite R4 in R3. injection R3 as ->. unfold bview in V4. rewrite !pair_eq in V4. cbn in V4.
  destruct V4 as ((((((((_ & _) & _) & _) & _) & C4) & B4) & P4) & S4).
  rewrite (run_bind_some _ _ _ tt _ eq_refl) in E.
  rewrite (run_bind_some _ _ _ _ _ (eq_refl : gets mailmsg_endpoint_ready _ = Some (_, _))) in E.
  assert (H : sync_inv (s3 <| irq_lines := [true; true; true; true] |>) WWaiting).
  { split; cbn; rewrite ?S4, ?P4, ?B4, ?C4, ?S, ?P, ?B, ?C; try done. by left. }
  revert E. destruct (_ && _); cbn [when]; [by apply sync_ready|by intros [= <-]].
Qed.

Lemma fview_read controller offset : pres fview (sys_read32_mailbox controller offset).
Proof. unfold sys_read32_mailbox. pres_auto. Qed.
Lemma fview_write value controller offset : pres fview (sys_write32_mailbox value controller offset).
Proof. unfold sys_write32_mailbox. pres_auto. Qed.
#[local] Hint Resolve fview_read fview_write : pres.


(** What an interrupt can do to the synchronisation. *)
Lemma isr_effect index s s' :
  mailmsg_mailbox_a2b_matrix_isr index s = Some (tt, s') ->
  fview s' = fview s \/
  exists v, fview s' = (Z.lor (mailmsg_pending_priorities s) v, 1, mailmsg_endpoint_ready s,
    mailmsg_session_ready_committed s, mailmsg_session_ready_published s).
Proof.
  unfold mailmsg_mailbox_a2b_matrix_isr. cbv zeta. intros E.
  assert (Hpeel : forall A B (m : F A) (k : A -> F B) t r, pres fview m -> fview t = fview s ->
    (x ← m; k x) t = Some r -> exists x s1, fview s1 = fview s /\ k x s1 = Some r).
  { intros A B m k t r Hm Ht R. apply run_bind_inv in R as (x & t1 & R1 & R2).
    exists x, t1. split; [by rewrite (Hm _ _ _ R1)|done]. }
  do 3 (apply Hpeel in E as (? & ? & ? & E); [|pres_auto|done]).
  apply Hpeel in E as (? & ? & ? & E); [|apply pres_when; pres_auto|done].
  do 2 (apply Hpeel in E as (? & ? & ? & E); [|pres_auto|done]).
  apply Hpeel in E as (? & s7 & V7 & E); [|unfold observe, upd_mem; pres_auto|done].
  destruct (_ || _); cbn [when] in E; injection E as <-; [right|by left].
  unfold fview in V7. rewrite !pair_eq in V7. destruct V7 as ((((V1 & _) & V3) & V4) & V5).
  eexists. unfold fview. cbn. by rewrite V1, V3, V4, V5.
Qed.
Lemma sync_isr index s s' pc :
  sync_inv s pc -> mailmsg_mailbox_a2b_matrix_isr index s = Some (tt, s') ->
  sync_inv s' pc /\ keeps_bits s (mk_fw s' pc).
Proof.
  intros Hs E. destruct (isr_effect _ _ _ E) as [V|[v V]].
  - split; [by eapply sync_view|by apply keeps_view].
  - unfold fview in V. rewrite !pair_eq in V. destruct V as ((((V1 & V2) & V3) & V4) & V5).
    split; [|by eapply keeps_lor]. destruct Hs.
    split; rewrite ?V2, ?V3, ?V4, ?V5; try done; [by right|by left].
Qed.

Lemma pending_main_loop s s' :
  main_loop cfg s = Some (tt, s') -> mailmsg_pending_priorities s' = mailmsg_pending_priorities s.
Proof.
  assert (He : forall A (m : M (ep_world (Z -> Z)) A), pres mailmsg_pending_priorities (on_cpu3_endpoint m)).
  { intros. unfold on_cpu3_endpoint. pres_auto. }
  assert (H : pres mailmsg_pending_priorities (main_loop cfg)); [|apply H].
  unfold main_loop, mailmsg_service_session_ready, mailmsg_send_b2a_ack, observe, r1_amp_checkpoint_c,
    mailmsg_record_tx_full, mailmsg_publish_tx_full_observation, upd_mem, sys_read32_mailbox,
    sys_write32_mailbox. cbn [Z.eqb]. pres_auto.
Qed.

Lemma sync_handle ev f f' :
  sync_inv (cpu f) (pc f) -> cpu3_handle cfg ev f = Some f' ->
  sync_inv (cpu f') (pc f') /\ keeps_bits (cpu f) f'.
Proof.
  intros Hs E. unfold cpu3_handle in E. cbv zeta in E.
  destruct ev as [index| | |h g]; try (destruct (negb (bool_decide _)); [done|]).
  - destruct (negb _); [done|].
    destruct (mailmsg_mailbox_a2b_matrix_isr index (cpu f)) as [[[] s1]|] eqn:R; [|done].
    injection E as <-. by eapply sync_isr.
  - by eapply sync_worker_step.
  - destruct (pc f) eqn:Epc; try done.
    destruct (main_loop cfg (cpu f)) as [[[] s1]|] eqn:R; [|done]. injection E as <-.
    split; [by eapply sync_main_loop|]. intros b _ H. left. cbn. by rewrite (pending_main_loop _ _ R).
  - injection E as <-. split; [by destruct Hs|by apply keeps_view].
Qed.
Lemma sync_reachable f : cpu3_reachable f -> sync_inv (cpu f) (pc f).
Proof.
  intros (m & regs & gic & s0 & E & Hs).
  refine (star_invariant cpu3_step (fun f => sync_inv (cpu f) (pc f)) _ _ _ Hs (sync_main_init _ _ _ _ E)).
  intros f1 f2 H [ev R]. by apply (sync_handle ev f1 f2).
Qed.

Lemma run_boot m regs gic gen rx tx :
  MAILMSG_TEST_SKIP_SESSION_READY cfg = false ->
  session_block (c_shared m) gen rx tx -> length (tx 0) <> 7%nat ->
  exists s a, main_init cfg (cpu3_boot m regs gic) = Some (tt, s) /\ serving s a /\
    mailmsg_endpoint_ready s = true /\ mailmsg_session_ready_committed s = true /\
    mailmsg_session_ready_published s = true /\ irq_lines s = [true; true; true; true] /\
    rxq a = rx /\ txq a 0 = tx 0 ++ [ready_frame gen 0] /\ (forall p, p <> 0 -> txq a p = tx p) /\
    q_gen a = gen /\ mailmsg_pending_priorities s = 0 /\ mailmsg_work_sem s = 0.
Proof.
  intros Hskip Hb Hroom.
  destruct (run_main_init (cpu3_boot m regs gic) gen rx tx eq_refl eq_refl eq_refl eq_refl Hb)
    as (s1 & Hs1 & Hr1 & Hc1 & Hp1 & Hpe1 & Hse1 & E). rewrite Hskip in E. cbn [negb when] in E.
  destruct (run_ready_first s1 _ Hs1 Hr1 Hp1 Hc1) as (ok & a & s & Eq & R & Hs & Hw & Hc & Hp).
  rewrite q_send_room in Eq by done. injection Eq as <- <-.
  unfold wview in Hw. rewrite !pair_eq in Hw. destruct Hw as ((((W1 & W2) & W3) & W4) & W5).
  exists s. eexists. split; [by rewrite E|]. split; [exact Hs|].
  split; [congruence|]. split; [done|]. split; [done|]. split; [by rewrite W5, (sv_lines _ _ Hs1)|].
  split; [done|]. split; [reflexivity|]. split; [|split; [done|split; [by rewrite W1, Hpe1|by rewrite W2, Hse1]]].
  intros p Hne. cbn. unfold upd_queue, MAILMSG_PRIO_CRITICAL. by rewrite (proj2 (Z.eqb_neq _ _) Hne).
Qed.

(** * The properties *)

(** C21. No doorbell is lost: under every interleaving of mailbox interrupts,
    the pieces of the worker's turn, main loop turns and writes of Linux, a
    pending priority has the work semaphore up or the worker on its way to take
    the pending set; and no event drops a pending bit except the worker's
    [atomic_set], which hands it to the service.  The semaphore stays binary
    and the session flags advance in order (endpoint bound, frame committed,
    doorbell accepted). *)
Theorem firmware_sync_invariant f :
  cpu3_reachable f ->
  sync_inv (cpu f) (pc f) /\
  forall ev f', cpu3_handle cfg ev f = Some f' -> keeps_bits (cpu f) f'.
Proof.
  intros H. pose proof (sync_reachable f H) as Hs. split; [exact Hs|].
  intros ev f' E. by apply (sync_handle ev f f').
Qed.

(** Started on a block of a valid session, [main] binds it, enables the
    four mailbox interrupts and announces the session: exactly one frame, a
    SESSION_READY with this generation and the protocol version, joins the p0
    queue to Linux, every other queue is untouched, and the worker may serve. *)
Theorem boot_announces_session m regs gic gen rx tx :
  MAILMSG_TEST_SKIP_SESSION_READY cfg = false ->
  session_block (c_shared m) gen rx tx -> length (tx 0) <> 7%nat ->
  exists s a, main_init cfg (cpu3_boot m regs gic) = Some (tt, s) /\ serving s a /\
    mailmsg_endpoint_ready s = true /\ mailmsg_session_ready_committed s = true /\
    mailmsg_session_ready_published s = true /\ irq_lines s = [true; true; true; true] /\
    rxq a = rx /\ txq a 0 = tx 0 ++ [ready_frame gen 0] /\ (forall p, p <> 0 -> txq a p = tx p) /\
    q_gen a = gen /\ mailmsg_pending_priorities s = 0 /\ mailmsg_work_sem s = 0.
Proof. apply run_boot. Qed.

(** SESSION_READY is committed once: after the frame was committed, a
    retry only rings the doorbell and writes nothing to the shared memory;
    after that, or with no endpoint, the call does nothing; and a first try
    that finds the p0 queue full leaves every queue as it was and both flags
    down, to be tried again. *)
Theorem ready_committed_once s a :
  serving s a -> mailmsg_endpoint_ready s = true ->
  (mailmsg_session_ready_published s = true -> mailmsg_service_session_ready s = Some (tt, s)) /\
  (mailmsg_session_ready_published s = false -> mailmsg_session_ready_committed s = true ->
   exists s', mailmsg_service_session_ready s = Some (tt, s') /\ mem3 s' = mem3 s /\
     mailmsg_session_ready_published s' = true) /\
  (mailmsg_session_ready_published s = false -> mailmsg_session_ready_committed s = false ->
   length (txq a 0) = 7%nat -> exists s' a', mailmsg_service_session_ready s = Some (tt, s') /\
     serving s' a' /\ txq a' = txq a /\ rxq a' = rxq a /\
     mailmsg_session_ready_committed s' = false /\ mailmsg_session_ready_published s' = false).
Proof.
  intros Hs Hr. split; [|split].
  - intros Hp. apply run_ready_idle. by right.
  - intros Hp Hc. destruct (run_ready_again s Hr Hp Hc) as (s' & R & Hm & _ & _ & _ & Hp'). by exists s'.
  - intros Hp Hc Hfull.
    destruct (run_ready_first s a Hs Hr Hp Hc) as (ok & a' & s' & E & R & Hs' & _ & Hc' & Hp').
    rewrite q_send_full in E by done. injection E as <- <-.
    exists s'. eexists. split; [exact R|]. split; [exact Hs'|]. by repeat split.
Qed.

(** The mailbox interrupt of channel [index]: a protocol doorbell sets
    the priority's pending bit and raises the work semaphore without echo; a
    foreign command is echoed on the reverse channel and wakes the worker only
    if it is this channel's raw test word.  In every case exactly this
    channel's A2B bit is acknowledged, so the next doorbell interrupts again,
    and neither the queues nor the session change. *)
Theorem isr_takes_doorbell index s :
  Mailbox0Laws platform -> 0 <= index < 4 ->
  exists s', mailmsg_mailbox_a2b_matrix_isr index s = Some (tt, s') /\ iview s' = iview s /\
    (protocol_command (isr_command index s) = true ->
       has_bit (mailmsg_pending_priorities s') index = true /\ mailmsg_work_sem s' = 1) /\
    (wakes_worker index s = false ->
       mailmsg_pending_priorities s' = mailmsg_pending_priorities s /\
       mailmsg_work_sem s' = mailmsg_work_sem s) /\
    (forall i, 0 <= i < 4 -> has_bit (mailbox s' MAILBOX_A2B_STATUS) i =
       negb (i =? index) && has_bit (mailbox s MAILBOX_A2B_STATUS) i).
Proof.
  intros [Hw Hk] Hi. destruct (run_isr index s Hi) as (s' & R & V & Hm & Hp).
  exists s'. split; [done|]. split; [done|]. split; [|split].
  - intros Hc. unfold wakes_worker in Hp. rewrite Hc in Hp. injection Hp as -> ->.
    split; [|done]. apply has_bit_lor_r; lia.
  - intros Hn. rewrite Hn in Hp. by injection Hp as -> ->.
  - intros i Hi'. rewrite Hm. unfold isr_registers. rewrite Hw.
    assert (E : (if protocol_command (isr_command index s) then mailbox s else echoed index (mailbox s))
      MAILBOX_A2B_STATUS = mailbox s MAILBOX_A2B_STATUS).
    { destruct (protocol_command _); [done|]. unfold echoed.
      by rewrite (proj2 (Hk _ _ _ Hi)), (proj1 (Hk _ _ _ Hi)). }
    rewrite E. apply has_bit_ldiff; lia.
Qed.

(** Before CPU3 asks PSCI to switch it off it has disabled its four
    mailbox interrupts and acknowledged every pending A2B doorbell, so that
    the next [rearm] of Linux finds the mailbox quiet; the rings are untouched,
    the status word says STOPPING, or why CPU_OFF failed, and the core never
    runs again. *)
Theorem core_off_quiesces s :
  Mailbox0Laws platform -> length (irq_lines s) = 4%nat ->
  exists s', mailmsg_cpu_off_after_ready s = Some (tt, s') /\
    irq_lines s' = [false; false; false; false] /\
    Z.land (mailbox s' MAILBOX_A2B_STATUS) 0xf = 0 /\ c_shared (mem3 s') = c_shared (mem3 s) /\
    core s' = (match pm_cpu_off with None => CoreOff | Some _ => CoreParked end) /\
    status_words (mem3 s') =
      [match pm_cpu_off with
       | None => MARK_CPU_STOPPING
       | Some ret => Z.lor MARK_CPU_STOP_FAILED (Z.land (u32 (- ret)) 0xffff)
       end; current_el].
Proof.
  intros [Hw _] Hl. unfold mailmsg_cpu_off_after_ready.
  destruct (irq_lines s) as [|l0 [|l1 [|l2 [|l3 [|]]]]] eqn:El; try done.
  set (s1 := s <| irq_lines := [false; false; false; false] |>).
  assert (E1 : for_each priorities (fun index => modify (fun s =>
    s <| irq_lines := zset index false (irq_lines s) |>)) s = Some (tt, s1)).
  { unfold s1. cbn [for_each priorities]. do 3 step. unfold modify, mret, M_ret. cbn. by rewrite El. }
  step_with E1. unfold sys_read32_mailbox, sys_write32_mailbox. cbn [Z.eqb]. step. cbv zeta.
  set (pending := Z.land (mailbox s1 MAILBOX_A2B_STATUS) 0xf).
  assert (E2 : exists regs, when (negb (pending =? 0)) (modify (fun s =>
    s <| mailbox := sys_write32 pending MAILBOX_A2B_STATUS (mailbox s) |>)) s1 =
    Some (tt, s1 <| mailbox := regs |>) /\ Z.land (regs MAILBOX_A2B_STATUS) 0xf = 0).
  { destruct (Z.eqb_spec pending 0) as [Hz|Hz]; cbn [negb when].
    - exists (mailbox s1). by split.
    - eexists. split; [reflexivity|]. rewrite Hw. apply land_ldiff_mask. }
  destruct E2 as (regs & E2 & Hq). step_with E2. step. step.
  destruct pm_cpu_off; [step|]; (eexists; split; [reflexivity|]; by repeat split).
Qed.
End Boot.

(** * The properties at a concrete session *)

(** The mailbox0 registers: writing a DAT register raises the channel's status
    bit, writing ones to a status register lowers them. *)
Definition mailbox0_write (value offset : Z) (regs : Z -> Z) : Z -> Z := fun o =>
  if o =? MAILBOX_A2B_STATUS then
    if offset =? MAILBOX_A2B_STATUS then Z.land (regs o) (Z.lnot value)
    else fold_left (fun v ch => if offset =? MAILBOX_A2B_DAT ch then Z.lor v (BIT ch) else v)
           priorities (regs o)
  else if o =? MAILBOX_B2A_STATUS then
    if offset =? MAILBOX_B2A_STATUS then Z.land (regs o) (Z.lnot value)
    else fold_left (fun v ch => if offset =? MAILBOX_B2A_DAT ch then Z.lor v (BIT ch) else v)
           priorities (regs o)
  else if o =? offset then value else regs o.

Definition host_cpu3 : Cpu3Platform := {|
  sys_write32 := mailbox0_write;
  sys_cache_data_flush_range := fun _ sh => sh;
  sys_cache_data_invd_range := fun _ sh => sh;
  current_el := 4;
  pm_cpu_off := None;
  indeterminate_result := send_result_zero;
  indeterminate_message := message_zero;
|}.
#[export] Instance host_cpu3_coherent : CoherentOps (@mailmsg_queue_memory_ops host_cpu3).
Proof. by split. Qed.
#[export] Instance host_mailbox0 : Mailbox0Laws host_cpu3.
Proof.
  split; [done|]. intros v ch regs Hch.
  assert (ch = 0 \/ ch = 1 \/ ch = 2 \/ ch = 3) as [-> | [-> | [-> | ->]]] by lia; by split.
Qed.

(** A fresh session 7 in an empty carveout, the firmware booted on it, and the
    firmware some events later. *)
Definition demo_mem : carveout_mem :=
  mk_carveout [] [0; 0] payload_line_zero commit_line_zero payload_line_zero commit_line_zero
    observation_zero tx_full_zero worker_observation_zero (host_shared 7).
Definition demo_reset : cpu3_state := cpu3_boot demo_mem (fun _ => 0) (fun _ => 0).
Definition demo_booted : cpu3_state :=
  end_state (@main_init host_cpu3 default_config) demo_reset.
Fixpoint run_cpu3 (evs : list cpu3_event) (s : fw_state) : option fw_state :=
  match evs with
  | [] => Some s
  | ev :: evs => s' ← @cpu3_handle host_cpu3 default_config ev s; run_cpu3 evs s'
  end.
(** Linux rings the doorbell of priority [p]. *)
Definition ring_doorbell (p : Z) : cpu3_event :=
  CPeer (fun m => m) (fun regs => mailbox0_write p (MAILBOX_A2B_DAT p)
    (mailbox0_write (Z.lor AMP_MBOX_PROTOCOL_CMD p) (MAILBOX_A2B_CMD p) regs)).
Definition demo_fw : fw_state := mk_fw demo_booted WWaiting.
Definition demo_rung : cpu3_state := cpu (default demo_fw (run_cpu3 [ring_doorbell 1] demo_fw)).
(** The second doorbell comes in the middle of the worker's turn. *)
Definition demo_turns : list cpu3_event :=
  [ring_doorbell 1; CIsr 1; CMain; CWorker; CWorker; CIsr 2; CWorker; CWorker].
Definition demo_later : fw_state := default demo_fw (run_cpu3 demo_turns demo_fw).

Lemma demo_block : session_block (c_shared demo_mem) 7 (fun _ => []) (fun _ => []).
Proof. split; try done; intros p Hp; by apply host_represents. Qed.
Lemma demo_boots : @main_init host_cpu3 default_config demo_reset = Some (tt, demo_booted).
Proof.
  assert (B : defined (@main_init host_cpu3 default_config) demo_reset = true) by (vm_compute; reflexivity).
  unfold demo_booted. exact (run_end_state _ _ B).
Qed.
#[global] Opaque demo_booted.
Lemma demo_serving : exists a, @serving host_cpu3 demo_booted a /\
  mailmsg_endpoint_ready demo_booted = true /\ mailmsg_session_ready_committed demo_booted = true /\
  mailmsg_session_ready_published demo_booted = true /\ rxq a = (fun _ => []) /\
  txq a 0 = [ready_frame 7 0] /\ (forall p, p <> 0 -> txq a p = []) /\ q_gen a = 7.
Proof.
  destruct (@run_boot host_cpu3 _ default_config demo_mem (fun _ => 0) (fun _ => 0) 7 (fun _ => []) (fun _ => [])
    eq_refl demo_block ltac:(discriminate)) as (s & a & E & Hs & Hr & Hc & Hp & _ & Hrx & Ht & Hto & Hg & _).
  assert (Es : s = demo_booted) by (pose proof (eq_trans (eq_sym E) demo_boots) as E'; congruence).
  subst s. exists a. split; [exact Hs|]. split; [exact Hr|]. split; [exact Hc|]. split; [exact Hp|].
  split; [exact Hrx|]. split; [exact Ht|]. split; [exact Hto|exact Hg].
Qed.
Lemma demo_reachable : @cpu3_reachable host_cpu3 default_config demo_later.
Proof.
  exists demo_mem, (fun _ => 0), (fun _ => 0), demo_booted. split; [exact demo_boots|].
  fold demo_fw.
  assert (H : forall evs s s', run_cpu3 evs s = Some s' ->
    star (@cpu3_step host_cpu3 default_config) s s').
  { induction evs as [|ev evs IH]; intros s s'; cbn [run_cpu3]; [intros [= ->]; constructor|].
    destruct (cpu3_handle _ ev s) as [s1|] eqn:E; [|done]. intros R.
    eapply star_trans; [|by apply IH]. eapply star_snoc; [constructor|by exists ev]. }
  apply (H demo_turns). unfold demo_later.
  destruct (run_cpu3 demo_turns demo_fw) eqn:E; [done|].
  assert (B : (match run_cpu3 demo_turns demo_fw with Some _ => true | None => false end) = true)
    by (vm_compute; reflexivity).
  by rewrite E in B.
Qed.

Lemma firmware_sync_invariant_witness : @sync_inv (cpu demo_later) (pc demo_later).
Proof. apply (proj1 (firmware_sync_invariant default_config demo_later demo_reachable)). Defined.

Lemma boot_announces_session_witness :
  exists s a, @main_init host_cpu3 default_config demo_reset = Some (tt, s) /\
    @serving host_cpu3 s a /\ mailmsg_session_ready_published s = true /\
    txq a 0 = [ready_frame 7 0] /\ rxq a = (fun _ => []).
Proof.
  destruct (@boot_announces_session host_cpu3 _ default_config demo_mem (fun _ => 0) (fun _ => 0) 7
    (fun _ => []) (fun _ => []) eq_refl demo_block ltac:(discriminate))
    as (s & a & E & Hs & _ & _ & Hp & _ & Hrx & Ht & _).
  exists s, a. split; [exact E|]. split; [exact Hs|]. split; [exact Hp|]. by split.
Defined.

Lemma ready_committed_once_witness :
  @mailmsg_service_session_ready host_cpu3 demo_booted = Some (tt, demo_booted).
Proof.
  destruct demo_serving as (a & Hs & Hr & _ & Hp & _).
  apply (@ready_committed_once host_cpu3 _ demo_booted a Hs Hr). exact Hp.
Defined.

Lemma isr_takes_doorbell_witness :
  exists s', @mailmsg_mailbox_a2b_matrix_isr host_cpu3 1 demo_rung = Some (tt, s') /\
    iview s' = iview demo_rung /\ has_bit (mailmsg_pending_priorities s') 1 = true /\
    mailmsg_work_sem s' = 1.
Proof.
  destruct (@isr_takes_doorbell host_cpu3 1 demo_rung host_mailbox0 ltac:(lia)) as (s' & E & V & H & _).
  exists s'. split; [exact E|]. split; [exact V|]. apply H. vm_compute. reflexivity.
Defined.

Lemma core_off_quiesces_witness :
  exists s', @mailmsg_cpu_off_after_ready host_cpu3 demo_rung = Some (tt, s') /\
    irq_lines s' = [false; false; false; false] /\ core s' = CoreOff.
Proof.
  destruct (@core_off_quiesces host_cpu3 demo_rung host_mailbox0) as (s' & E & Hl & _ & _ & Hc & _).
  - vm_compute. reflexivity.
  - exists s'. split; [exact E|]. split; [exact Hl|exact Hc].
Defined.
