(* ===== verification/WorkerSpec.v ===== *)
(** What the CPU3 worker does with a doorbell: which frames it takes, what it
    answers, in which order, what it leaves queued, and what a lost doorbell
    costs. *)
From S2P Require Import Prelude Protocol Ring Notify Endpoint EndpointSpec Frame DriverState Firmware FirmwareSpec BootSpec.

(** * The answers to a frame *)
Definition ack_frame (gen n : Z) (m : mailmsg_message) : mailmsg_message :=
  new_frame gen n MAILMSG_MSG_ACK (feedback_payload (sequence m) 0) MAILMSG_FEEDBACK_BYTES.
Definition pong_frame (gen n : Z) (m : mailmsg_message) : mailmsg_message :=
  new_frame gen n (if type_ m =? MAILMSG_MSG_PING then MAILMSG_MSG_PONG else MAILMSG_MSG_NOP)
    (store_u32 (replicate 4 0) 0 (u32 (load_u32 (payload m) 0 + 1))) 4.
Definition answers (gen n p : Z) (m : mailmsg_message) : list mailmsg_message :=
  if mailmsg_priority_is_reliable p then [ack_frame gen n m; pong_frame gen (next_seq n) m]
  else [pong_frame gen n m].
Definition answer_count (p : Z) : nat := if mailmsg_priority_is_reliable p then 2 else 1.
(** The answers to a whole queue, numbered one after the other. *)
Fixpoint replies (gen n p : Z) (q : list mailmsg_message) : list mailmsg_message :=
  match q with
  | [] => []
  | m :: q => answers gen n p m ++ replies gen (Nat.iter (answer_count p) next_seq n) p q
  end.

Section Worker.
Context {platform : Cpu3Platform} {coherent : CoherentOps mailmsg_queue_memory_ops} (cfg : fw_config).
Implicit Types (s : cpu3_state) (a : queues) (q : list mailmsg_message).

(** A frame that is neither a stop request nor the self-off test value. *)
Definition plain (p : Z) (m : mailmsg_message) : bool :=
  negb ((p =? MAILMSG_PRIO_CRITICAL) && (type_ m =? MAILMSG_MSG_STOP_REQUEST)) &&
  negb (self_off_request cfg p m).

(** [n] sequence numbers were used on priority [p] to send [out], as far as
    the reverse queue had room. *)
Record advanced (p : Z) (n : nat) (out : list mailmsg_message) a a' : Prop := {
  ad_tx : txq a' p = take 7 (txq a p ++ out);
  ad_tx_other i : i <> p -> txq a' i = txq a i;
  ad_next : q_next a' = Nat.iter n next_seq (q_next a);
  ad_gen : q_gen a' = q_gen a;
  ad_core : q_core a' = q_core a;
  ad_lines : q_lines a' = q_lines a;
}.

Lemma take_take_app {A} n (t o1 o2 : list A) : take n (take n (t ++ o1) ++ o2) = take n (t ++ o1 ++ o2).
Proof.
  rewrite app_assoc. destruct (decide (length (t ++ o1) <= n)%nat).
  - by rewrite (take_ge (t ++ o1)).
  - rewrite (take_app_le (t ++ o1)) by lia.
    rewrite take_app_le by (rewrite length_take; lia). by rewrite take_take, Nat.min_id.
Qed.
Lemma advanced_trans p n1 n2 o1 o2 a1 a2 a3 :
  advanced p n1 o1 a1 a2 -> advanced p n2 o2 a2 a3 -> advanced p (n2 + n1) (o1 ++ o2) a1 a3.
Proof.
  intros [T1 O1 N1 G1 C1 L1] [T2 O2 N2 G2 C2 L2]. split; try congruence.
  - by rewrite T2, T1, take_take_app.
  - intros i Hi. by rewrite O2, O1.
  - by rewrite N2, N1, Nat.iter_add.
Qed.
Lemma advanced_room p n o a a' : advanced p n o a a' -> (length (txq a' p) <= 7)%nat.
Proof. intros [-> _ _ _ _ _]. rewrite length_take. lia. Qed.

Lemma q_send_advanced p type bytes len a :
  (length (txq a p) <= 7)%nat -> exists ok a', q_send p type bytes len a = Some (ok, a') /\
    advanced p 1 [new_frame (q_gen a) (q_next a) type bytes len] a a' /\ rxq a' = rxq a /\
    ok = negb (length (txq a p) =? 7)%nat.
Proof.
  intros Hl. unfold q_send. step. step. cbn [txq set_field].
  destruct (Nat.eqb_spec (length (txq a p)) 7) as [H7|H7]; do 2 eexists;
    (split; [reflexivity|split; [|done]]); split; cbn; try done.
  - by rewrite take_app_le, take_ge by lia.
  - unfold upd_queue. rewrite Z.eqb_refl, take_ge; [done|]. rewrite length_app. cbn. lia.
  - intros i Hi. unfold upd_queue. by rewrite (proj2 (Z.eqb_neq _ _) Hi).
Qed.

Lemma q_handle_plain p m a :
  plain p m = true -> (length (txq a p) <= 7)%nat ->
  exists a', q_handle cfg p m a = Some (true, a') /\ rxq a' = rxq a /\
    advanced p (answer_count p) (answers (q_gen a) (q_next a) p m) a a'.
Proof.
  unfold plain. intros [H1 H2]%andb_true_iff Hl. apply negb_true_iff in H1, H2.
  unfold q_handle, answers, answer_count. rewrite H1, H2.
  destruct (mailmsg_priority_is_reliable p); cbn [when].
  - destruct (q_send_advanced p MAILMSG_MSG_ACK (feedback_payload (sequence m) 0)
      MAILMSG_FEEDBACK_BYTES a Hl) as (ok1 & a1 & E1 & A1 & R1 & _).
    destruct (q_send_advanced p (if type_ m =? MAILMSG_MSG_PING then MAILMSG_MSG_PONG else MAILMSG_MSG_NOP)
      (store_u32 (replicate 4 0) 0 (u32 (load_u32 (payload m) 0 + 1))) 4 a1 (advanced_room _ _ _ _ _ A1))
      as (ok2 & a2 & E2 & A2 & R2 & _).
    exists a2. split.
    + unfold q_feedback, q_reply.
      erewrite run_bind_some by (erewrite run_bind_some by exact E1; reflexivity).
      by step_with E2.
    + split; [congruence|]. rewrite (ad_gen _ _ _ _ _ A1), (ad_next _ _ _ _ _ A1) in A2.
      exact (advanced_trans p 1 1 _ _ a a1 a2 A1 A2).
  - destruct (q_send_advanced p (if type_ m =? MAILMSG_MSG_PING then MAILMSG_MSG_PONG else MAILMSG_MSG_NOP)
      (store_u32 (replicate 4 0) 0 (u32 (load_u32 (payload m) 0 + 1))) 4 a Hl)
      as (ok2 & a2 & E2 & A2 & R2 & _).
    exists a2. split; [unfold q_reply; step; by step_with E2|done].
Qed.

Lemma q_priority_nil p turns messages a :
  rxq a p = [] -> q_priority cfg (S turns) p messages a = Some (Some (false, messages), a).
Proof. intros Eq. cbn [q_priority]. rewrite run_bind. unfold q_receive. step. by rewrite Eq. Qed.
Lemma q_priority_good p turns messages a m q :
  rxq a p = m :: q -> verdict (q_gen a) m = 0 ->
  q_priority cfg (S turns) p messages a =
  (on ← q_handle cfg p m;
   if on : bool then q_priority cfg turns p (u32 (messages + 1)) else mret None)
    (a <| rxq := upd_queue p q (rxq a) |>).
Proof.
  intros Eq Hv. cbn [q_priority]. unfold q_receive at 1. rewrite run_bind. step. rewrite Eq. step.
  cbn [mret M_ret]. step. cbv zeta. change (q_gen (set_field _ a)) with (q_gen a). by rewrite Hv.
Qed.
(** A queue of intact plain frames within the quota is answered in full. *)
Lemma q_priority_plain p : forall turns messages a,
  Forall (fun m => verdict (q_gen a) m = 0 /\ plain p m = true) (rxq a p) ->
  (length (rxq a p) <= turns)%nat -> (length (txq a p) <= 7)%nat ->
  exists a', q_priority cfg turns p messages a =
    Some (Some ((length (rxq a p) =? turns)%nat,
                Nat.iter (length (rxq a p)) (fun x => u32 (x + 1)) messages), a') /\
    rxq a' p = [] /\ (forall i, i <> p -> rxq a' i = rxq a i) /\
    advanced p (length (rxq a p) * answer_count p)
      (replies (q_gen a) (q_next a) p (rxq a p)) a a'.
Proof.
  induction turns as [|turns IH]; intros messages a Hq Hn Hl.
  - destruct (rxq a p) as [|m q] eqn:Eq; [|cbn in Hn; lia].
    exists a. repeat split; try done. by rewrite app_nil_r, take_ge.
  - destruct (rxq a p) as [|m q] eqn:Eq.
    { exists a. rewrite q_priority_nil by done. repeat split; try done. by rewrite app_nil_r, take_ge. }
    apply Forall_cons in Hq as [[Hv Hpl] Hq]. rewrite (q_priority_good p turns messages a m q Eq Hv).
    set (a1 := a <| rxq := upd_queue p q (rxq a) |>).
    assert (Hrx1 : rxq a1 p = q) by (cbn; unfold upd_queue; by rewrite Z.eqb_refl).
    destruct (q_handle_plain p m a1 Hpl Hl) as (a2 & E2 & R2 & A2). step_with E2.
    pose proof (ad_gen _ _ _ _ _ A2) as Hg2. change (q_gen a1) with (q_gen a) in Hg2.
    destruct (IH (u32 (messages + 1)) a2) as (a3 & E3 & R3 & O3 & A3).
    { rewrite R2, Hrx1, Hg2. done. }
    { rewrite R2, Hrx1. cbn in Hn. lia. }
    { by eapply advanced_room. }
    rewrite R2, Hrx1 in E3. rewrite R2, Hrx1, Hg2, (ad_next _ _ _ _ _ A2) in A3.
    exists a3. rewrite E3. split; [|split; [|split]].
    + cbn [length Nat.eqb]. by rewrite Nat.iter_succ_r.
    + done.
    + intros i Hi. rewrite O3, R2 by done. cbn. unfold upd_queue. by rewrite (proj2 (Z.eqb_neq _ _) Hi).
    + cbn [length replies Nat.mul].
      replace (answer_count p + length q * answer_count p)%nat
        with (length q * answer_count p + answer_count p)%nat by lia.
      destruct (advanced_trans _ _ _ _ _ _ _ _ A2 A3). by split.
Qed.

(** A doorbell on one priority serves that priority alone. *)
Lemma q_service_single p last reschedule :
  0 <= p < 4 -> p <> MAILMSG_TEST_SKIP_PRIORITY cfg -> forall a,
  q_service cfg (BIT p) last reschedule a =
  (r ← q_priority cfg MAILMSG_WORKER_DRAIN_QUOTA p 0;
   match r with
   | None => mret None
   | Some (quota_reached, messages) =>
       rest ← gets (fun a => rxq a p);
       mret (Some (messages, p, if (quota_reached : bool) && negb (length rest =? 0)%nat
         then Z.lor reschedule (BIT p) else reschedule))
   end) a.
Proof.
  intros Hp Hs a. unfold q_service.
  assert (Hskip : (p =? MAILMSG_TEST_SKIP_PRIORITY cfg) = false) by by apply Z.eqb_neq.
  assert (Hbit : forall i, 0 <= i < 4 -> has_bit (BIT p) i = (i =? p)).
  { intros i Hi. assert (p = 0 \/ p = 1 \/ p = 2 \/ p = 3) as [-> | [-> | [-> | ->]]] by lia;
      assert (i = 0 \/ i = 1 \/ i = 2 \/ i = 3) as [-> | [-> | [-> | ->]]] by lia; reflexivity. }
  assert (Hoff : forall ps messages last reschedule, Forall (fun i => 0 <= i < 4 /\ i <> p) ps ->
    q_priorities cfg ps (BIT p) messages last reschedule = mret (Some (messages, last, reschedule))).
  { intros ps m l r H. induction H as [|i ps [Hi Hne] _ IH]; [done|]. cbn [q_priorities].
    by rewrite Hbit, (proj2 (Z.eqb_neq _ _) Hne) by done. }
  assert (Hon : forall ps messages last reschedule, Forall (fun i => 0 <= i < 4 /\ i <> p) ps ->
    q_priorities cfg (p :: ps) (BIT p) messages last reschedule a =
    (r ← q_priority cfg MAILMSG_WORKER_DRAIN_QUOTA p messages;
     match r with
     | None => mret None
     | Some (quota_reached, messages) =>
         rest ← gets (fun a => rxq a p);
         mret (Some (messages, p, if (quota_reached : bool) && negb (length rest =? 0)%nat
           then Z.lor reschedule (BIT p) else reschedule))
     end) a).
  { intros ps m l r H. cbn [q_priorities]. rewrite Hbit, Z.eqb_refl, Hskip by done. cbn [negb orb].
    rewrite !run_bind. destruct (q_priority _ _ _ _ a) as [[[[reached m']|] a']|]; [|done..].
    step. step. by rewrite Hoff. }
  assert (Hskip1 : forall i ps messages last reschedule, 0 <= i < 4 -> i <> p ->
    q_priorities cfg (i :: ps) (BIT p) messages last reschedule =
    q_priorities cfg ps (BIT p) messages last reschedule).
  { intros i ps m l r Hi Hne. cbn [q_priorities]. by rewrite Hbit, (proj2 (Z.eqb_neq _ _) Hne) by done. }
  assert (p = 0 \/ p = 1 \/ p = 2 \/ p = 3) as [-> | [-> | [-> | ->]]] by lia; unfold priorities;
    rewrite ?Hskip1 by lia; apply Hon; repeat constructor; lia.
Qed.

(** ** From the queues to a turn of the worker *)
Lemma serving_bounds s a p :
  serving s a -> 0 <= p < 4 -> (length (rxq a p) <= 7)%nat /\ (length (txq a p) <= 7)%nat.
Proof.
  intros Hs Hp. split.
  - eapply represents_length. by apply (sv_rx _ _ Hs).
  - eapply represents_length. by apply (sv_tx _ _ Hs).
Qed.
Lemma BIT_nonzero p : 0 <= p < 4 -> BIT p <> 0.
Proof. intros Hp. assert (p = 0 \/ p = 1 \/ p = 2 \/ p = 3) as [-> | [-> | [-> | ->]]] by lia; done. Qed.

(** A frame that does not check out, at the head of its queue. *)
Lemma q_priority_bad p turns messages a m q :
  rxq a p = m :: q -> verdict (q_gen a) m <> 0 ->
  q_priority cfg (S turns) p messages a =
  (let code := verdict (q_gen a) m in
   if (code =? MAILMSG_RING_BAD_CRC) || (code =? MAILMSG_RING_INVALID) then
     q_reject p code m ;;
     mret (Some (match turns with O => true | _ => false end, u32 (messages + 1)))
   else mret (Some (false, messages))) (a <| rxq := upd_queue p q (rxq a) |>).
Proof.
  intros Eq Hv. cbn [q_priority]. unfold q_receive. rewrite run_bind. step. rewrite Eq. step.
  cbn [mret M_ret]. step. cbv zeta. change (q_gen (set_field _ a)) with (q_gen a).
  by rewrite (proj2 (Z.eqb_neq _ _) Hv).
Qed.

(** What a reliable priority answers to it. *)
Definition nack_frame (gen n code : Z) (m : mailmsg_message) : mailmsg_message :=
  new_frame gen n MAILMSG_MSG_NACK (feedback_payload (sequence m)
    (if code =? MAILMSG_RING_BAD_CRC then MAILMSG_NACK_BAD_CRC else MAILMSG_NACK_INVALID_FRAME))
    MAILMSG_FEEDBACK_BYTES.
Definition rejection (gen n p : Z) (m : mailmsg_message) : list mailmsg_message :=
  let code := verdict gen m in
  if mailmsg_priority_is_reliable p && ((code =? MAILMSG_RING_BAD_CRC) || (code =? MAILMSG_RING_INVALID))
  then [nack_frame gen n code m] else [].

(** Where the rejection fits, and what it is. *)
Lemma rejection_queued gen n p m (q : list mailmsg_message) :
  verdict gen m <> 0 -> (length q <= 7)%nat ->
  take 7 (q ++ rejection gen n p m) =
  if mailmsg_priority_is_reliable p && negb (verdict gen m =? MAILMSG_ENDPOINT_STALE_FRAME) && negb (length q =? 7)%nat
  then q ++ [nack_frame gen n (verdict gen m) m] else q.
Proof.
  intros Hv Hl. unfold rejection. cbv zeta.
  destruct (verdict_cases gen m) as [H|[H|[H|H]]]; rewrite ?H; [done|..];
    destruct (mailmsg_priority_is_reliable p); cbn -[take nack_frame]; rewrite ?app_nil_r; try by apply take_ge.
  all: destruct (Nat.eqb_spec (length q) 7) as [E|E]; cbn [negb];
    [rewrite <-E; apply take_app_length|apply take_ge; rewrite length_app; cbn; lia].
Qed.
Lemma q_priority_rejects p a m q :
  rxq a p = m :: q -> verdict (q_gen a) m <> 0 -> (length (txq a p) <= 7)%nat ->
  exists x a', q_priority cfg 7 p 0 a = Some (Some (false, x), a') /\
    rxq a' = upd_queue p q (rxq a) /\
    txq a' p = take 7 (txq a p ++ rejection (q_gen a) (q_next a) p m) /\
    (forall i, i <> p -> txq a' i = txq a i).
Proof.
  intros Eq Hv Htx. set (a1 := a <| rxq := upd_queue p q (rxq a) |>).
  rewrite (q_priority_bad p _ 0 a m q Eq Hv). fold a1. unfold rejection. cbv zeta.
  set (code := verdict (q_gen a) m). set (reason := if code =? MAILMSG_RING_BAD_CRC then MAILMSG_NACK_BAD_CRC else MAILMSG_NACK_INVALID_FRAME).
  assert (Hno : txq a1 p = take 7 (txq a p ++ [])) by by rewrite app_nil_r, take_ge by lia.
  destruct (_ || _); rewrite ?andb_true_r, ?andb_false_r;
    [|do 2 eexists; split; [reflexivity|by split]].
  unfold q_reject. fold reason. destruct (mailmsg_priority_is_reliable p); cbn [when];
    [|do 2 eexists; split; [reflexivity|by split]].
  destruct (q_send_advanced p MAILMSG_MSG_NACK (feedback_payload (sequence m) reason)
    MAILMSG_FEEDBACK_BYTES a1 Htx) as (ok & a2 & E2 & [T O _ _ _ _] & R2 & _).
  exists (u32 (0 + 1)), a2. split; [|by split].
  erewrite run_bind_some by (erewrite run_bind_some by exact E2; reflexivity). reflexivity.
Qed.

(** Priority [p] alone is pending, and the service will look at it. *)
Record rung s a (p : Z) : Prop := {
  rg_serving : serving s a;
  rg_ready : mailmsg_endpoint_ready s = true;
  rg_published : MAILMSG_TEST_SKIP_SESSION_READY cfg || mailmsg_session_ready_published s = true;
  rg_priority : 0 <= p < 4;
  rg_served : p <> MAILMSG_TEST_SKIP_PRIORITY cfg;
  rg_pending : mailmsg_pending_priorities s = BIT p;
}.

(** The worker's turn from what the service does to that priority's queue. *)
Lemma run_rung s a p reached messages a' :
  rung s a p ->
  q_priority cfg 7 p 0 a = Some (Some (reached, messages), a') ->
  (reached = true -> rxq a' p = []) ->
  exists s', mailmsg_worker cfg s = Some (tt, s') /\ serving s' a' /\
    mailmsg_pending_priorities s' = 0 /\ mailmsg_work_sem s' = 0 /\
    mailmsg_worker_message_count s' = u32 (mailmsg_worker_message_count s + messages).
Proof.
  intros [Hs Hr Hpub Hp Hskip Hpe] E Hrest.
  assert (E' : q_service cfg (mailmsg_pending_priorities s) MAILMSG_PRIORITY_COUNT 0 a =
    Some (Some (messages, p, 0), a')).
  { rewrite Hpe, q_service_single by done. rewrite (run_bind_some _ _ _ _ _ E). step.
    destruct reached; [rewrite Hrest by done|]; done. }
  destruct (run_worker cfg s a _ a' Hs Hr Hpub ltac:(rewrite Hpe; by apply BIT_nonzero) E')
    as (s' & R & Hs' & _ & _ & Hpe' & Hsem & Hcount).
  exists s'. split; [done|]. split; [exact Hs'|]. by repeat split.
Qed.

(** A whole queue of intact plain frames. *)
Lemma run_worker_plain s a p :
  rung s a p ->
  Forall (fun m => verdict (q_gen a) m = 0 /\ plain p m = true) (rxq a p) ->
  exists s' a', mailmsg_worker cfg s = Some (tt, s') /\ serving s' a' /\
    rxq a' p = [] /\ (forall i, i <> p -> rxq a' i = rxq a i) /\
    txq a' p = take 7 (txq a p ++ replies (q_gen a) (q_next a) p (rxq a p)) /\
    (forall i, i <> p -> txq a' i = txq a i) /\ core s' = core s /\ q_gen a' = q_gen a /\
    mailmsg_pending_priorities s' = 0 /\ mailmsg_work_sem s' = 0 /\
    mailmsg_worker_message_count s' =
      u32 (mailmsg_worker_message_count s + Nat.iter (length (rxq a p)) (fun x => u32 (x + 1)) 0).
Proof.
  intros Hg Hq. pose proof Hg as [Hs _ _ Hp _ _]. destruct (serving_bounds s a p Hs Hp) as [Hrx Htx].
  destruct (q_priority_plain p 7 0 a Hq Hrx Htx) as (a' & E & R & O & [T To _ G C _]).
  destruct (run_rung s a p _ _ a' Hg E (fun _ => R)) as (s' & R' & Hs' & Hpe & Hsem & Hcount).
  exists s', a'. split; [exact R'|]. split; [exact Hs'|]. split; [exact R|]. split; [exact O|].
  split; [exact T|]. split; [exact To|]. rewrite (sv_core _ _ Hs'), (sv_core _ _ Hs).
  by repeat split.
Qed.

(** A stop request: the answer, and whether the core goes down. *)
Definition stop_accepted a (m : mailmsg_message) : bool :=
  (length_ m =? 0) && MAILMSG_ENABLE_STOP_CONTROL cfg && negb (length (txq a 0) =? 7)%nat.
Definition stop_reply (gen n : Z) (m : mailmsg_message) : mailmsg_message :=
  let refused := negb (length_ m =? 0) || negb (MAILMSG_ENABLE_STOP_CONTROL cfg) in
  new_frame gen n (if refused then MAILMSG_MSG_STOP_REFUSED else MAILMSG_MSG_STOP_READY)
    (feedback_payload (sequence m)
       (if negb (length_ m =? 0) then MAILMSG_STOP_REFUSED_INVALID_REQUEST
        else if MAILMSG_ENABLE_STOP_CONTROL cfg then 0 else MAILMSG_STOP_REFUSED_BUSY))
    MAILMSG_FEEDBACK_BYTES.
Lemma q_handle_stop m a :
  type_ m = MAILMSG_MSG_STOP_REQUEST -> (length (txq a 0) <= 7)%nat ->
  exists a', q_handle cfg 0 m a = Some (negb (stop_accepted a m), a') /\ rxq a' = rxq a /\
    txq a' 0 = take 7 (txq a 0 ++ [stop_reply (q_gen a) (q_next a) m]) /\
    (forall i, i <> 0 -> txq a' i = txq a i) /\ q_gen a' = q_gen a /\
    q_core a' = (if stop_accepted a m then match pm_cpu_off with None => CoreOff | Some _ => CoreParked end
                 else q_core a).
Proof.
  intros Ht Hl. unfold q_handle, stop_accepted, stop_reply. rewrite Ht. cbn [MAILMSG_PRIO_CRITICAL Z.eqb].
  rewrite Z.eqb_refl. cbn [andb].
  assert (Hsend : forall type status, exists a', q_feedback 0 type (sequence m) status a =
      Some (negb (length (txq a 0) =? 7)%nat, a') /\ rxq a' = rxq a /\
      txq a' 0 = take 7 (txq a 0 ++ [new_frame (q_gen a) (q_next a) type
        (feedback_payload (sequence m) status) MAILMSG_FEEDBACK_BYTES]) /\
      (forall i, i <> 0 -> txq a' i = txq a i) /\ q_gen a' = q_gen a /\ q_core a' = q_core a).
  { intros type status. destruct (q_send_advanced 0 type (feedback_payload (sequence m) status)
      MAILMSG_FEEDBACK_BYTES a Hl) as (ok & a' & E & [T O _ G C _] & R & ->). by exists a'. }
  destruct (length_ m =? 0); cbn [negb andb orb].
  2:{ destruct (Hsend MAILMSG_MSG_STOP_REFUSED MAILMSG_STOP_REFUSED_INVALID_REQUEST) as (a' & E & ?).
      exists a'. by step_with E. }
  destruct (MAILMSG_ENABLE_STOP_CONTROL cfg); cbn [negb andb orb].
  2:{ destruct (Hsend MAILMSG_MSG_STOP_REFUSED MAILMSG_STOP_REFUSED_BUSY) as (a' & E & ?).
      exists a'. by step_with E. }
  destruct (Hsend MAILMSG_MSG_STOP_READY 0) as (a' & E & R & T & O & G & C). step_with E.
  destruct (negb _); [|by exists a']. eexists. split; [reflexivity|]. by repeat split.
Qed.

(** A turn of the worker on a stop request. *)
Lemma run_stop_request s a m :
  rung s a 0 -> rxq a 0 = [m] -> verdict (q_gen a) m = 0 -> type_ m = MAILMSG_MSG_STOP_REQUEST ->
  exists s' a', mailmsg_worker cfg s = Some (tt, s') /\ serving s' a' /\
    rxq a' 0 = [] /\ txq a' 0 = take 7 (txq a 0 ++ [stop_reply (q_gen a) (q_next a) m]) /\
    (forall i, i <> 0 -> rxq a' i = rxq a i /\ txq a' i = txq a i) /\
    core s' = (if stop_accepted a m
               then match pm_cpu_off with None => CoreOff | Some _ => CoreParked end else core s) /\
    mailmsg_pending_priorities s' = 0 /\ mailmsg_work_sem s' = 0 /\ q_gen a' = q_gen a.
Proof.
  intros Hg Eq Hv Ht. pose proof Hg as [Hs Hr Hpub Hp Hskip Hpe].
  destruct (serving_bounds s a 0 Hs Hp) as [_ Htx].
  set (a1 := a <| rxq := upd_queue 0 [] (rxq a) |>).
  destruct (q_handle_stop m a1 Ht Htx) as (a2 & E2 & R2 & T2 & O2 & G2 & C2).
  assert (Hrx : rxq a2 0 = [] /\ (forall i, i <> 0 -> rxq a2 i = rxq a i /\ txq a2 i = txq a i)).
  { rewrite R2. split; [done|]. intros i Hi. split; [|by apply O2]. cbn. unfold upd_queue.
    by rewrite (proj2 (Z.eqb_neq _ _) Hi). }
  assert (E : q_priority cfg 7 0 0 a =
    Some (if stop_accepted a1 m then None else Some (false, 1), a2)).
  { rewrite (q_priority_good 0 6 0 a m [] Eq Hv). fold a1. step_with E2.
    destruct (stop_accepted a1 m); cbn [negb]; [done|]. by apply q_priority_nil, Hrx. }
  assert (E' : q_service cfg (mailmsg_pending_priorities s) MAILMSG_PRIORITY_COUNT 0 a =
    Some (if stop_accepted a1 m then None else Some (1, 0, 0), a2)).
  { rewrite Hpe, q_service_single by done. rewrite (run_bind_some _ _ _ _ _ E).
    by destruct (stop_accepted a1 m). }
  destruct (run_worker cfg s a _ a2 Hs Hr Hpub ltac:(rewrite Hpe; by apply BIT_nonzero) E')
    as (s' & R & Hs' & _ & _ & H).
  exists s', a2. split; [exact R|]. split; [exact Hs'|]. split; [apply Hrx|]. split; [exact T2|].
  split; [apply Hrx|]. rewrite (sv_core _ _ Hs'), C2, (sv_core _ _ Hs).
  change (stop_accepted a m) with (stop_accepted a1 m). split; [done|].
  destruct (stop_accepted a1 m); [by destruct H|]. by destruct H as (H1 & H2 & _).
Qed.

(** * The properties *)

(** C22. The service of [mailmsg_pingpong_test_service] on the rings is the
    service [q_service] on the eight queues of the session: from related
    states, for any pending set, both come back, with the same counts and
    reschedule set, or both with the core switched off, in related states; the
    synchronisation, the counters of the threads and the endpoint's binding
    are left alone. *)
Theorem service_implements_queues pending last reschedule s a :
  serving s a -> mailmsg_endpoint_ready s = true ->
  MAILMSG_TEST_SKIP_SESSION_READY cfg || mailmsg_session_ready_published s = true ->
  exists x s' a', q_service cfg pending last reschedule a = Some (x, a') /\
    mailmsg_pingpong_test_service cfg pending last reschedule s = Some (x, s') /\
    serving s' a' /\ kview s' = kview s.
Proof.
  intros Hs Hr Hpub. destruct (total_q_service cfg pending last reschedule a) as (x & a' & E).
  destruct (service_refines cfg pending last reschedule s a x a' Hs Hr Hpub E) as (s' & R & Hs' & K).
  exists x, s', a'. split; [exact E|]. split; [exact R|]. split; [exact Hs'|exact K].
Qed.

(** One doorbell is enough for a whole queue: when every frame of the
    rung priority is intact, of this session, and no request to stop, one turn
    of the worker empties that queue and answers the frames in order, each by
    an ACK where the priority is reliable and a PONG carrying the value plus
    one, numbered consecutively, as far as the reverse queue has room.  No
    other queue changes, nothing stays pending and the semaphore is down. *)
Theorem worker_answers_in_order s a p :
  rung s a p ->
  Forall (fun m => verdict (q_gen a) m = 0 /\ plain p m = true) (rxq a p) ->
  exists s' a', mailmsg_worker cfg s = Some (tt, s') /\ serving s' a' /\
    rxq a' p = [] /\ (forall i, i <> p -> rxq a' i = rxq a i) /\
    txq a' p = take 7 (txq a p ++ replies (q_gen a) (q_next a) p (rxq a p)) /\
    (forall i, i <> p -> txq a' i = txq a i) /\ core s' = core s /\ q_gen a' = q_gen a /\
    mailmsg_pending_priorities s' = 0 /\ mailmsg_work_sem s' = 0 /\
    mailmsg_worker_message_count s' =
      u32 (mailmsg_worker_message_count s + Nat.iter (length (rxq a p)) (fun x => u32 (x + 1)) 0).
Proof. apply run_worker_plain. Qed.

(** C23. A defective frame ends the worker's turn.  It is removed whatever is
    wrong with it.  A NACK with its sequence number and the reason is queued
    exactly when the priority is reliable (p0, p1), the frame is of this
    session - a CRC or a header is wrong - and the reverse ring has a free slot;
    in every other case (p2, p3, a frame of another session, a full ring) the
    frame goes in silence.  Every frame behind it stays queued although nothing
    is left pending and the semaphore is down, so they wait for Linux's next
    doorbell. *)
Theorem worker_stops_at_bad_frame s a p m q :
  rung s a p -> rxq a p = m :: q -> verdict (q_gen a) m <> 0 ->
  exists s' a', mailmsg_worker cfg s = Some (tt, s') /\ serving s' a' /\
    rxq a' p = q /\ (forall i, i <> p -> rxq a' i = rxq a i) /\
    txq a' p = (if mailmsg_priority_is_reliable p && negb (verdict (q_gen a) m =? MAILMSG_ENDPOINT_STALE_FRAME) &&
                   negb (length (txq a p) =? 7)%nat
                then txq a p ++ [nack_frame (q_gen a) (q_next a) (verdict (q_gen a) m) m] else txq a p) /\
    (forall i, i <> p -> txq a' i = txq a i) /\
    mailmsg_pending_priorities s' = 0 /\ mailmsg_work_sem s' = 0.
Proof.
  intros Hg Eq Hv. pose proof Hg as [Hs _ _ Hp _ _]. destruct (serving_bounds s a p Hs Hp) as [_ Htx].
  destruct (q_priority_rejects p a m q Eq Hv Htx) as (x & a' & E & Hrx & Ht & Hto).
  destruct (run_rung s a p false x a' Hg E ltac:(discriminate)) as (s' & R & Hs' & Hpe & Hsem & _).
  exists s', a'. split; [exact R|]. split; [exact Hs'|]. rewrite Hrx. unfold upd_queue.
  split; [by rewrite Z.eqb_refl|]. split; [intros i Hi; by rewrite (proj2 (Z.eqb_neq _ _) Hi)|].
  split; [by rewrite Ht, rejection_queued|]. by repeat split.
Qed.

(** A doorbell taken before the session is announced is lost: the turn
    clears the pending set and the semaphore, touches no queue and asks for no
    further turn, so the frames behind it wait for another doorbell. *)
Theorem early_doorbell_lost s :
  MAILMSG_TEST_SKIP_SESSION_READY cfg = false -> mailmsg_session_ready_published s = false ->
  exists s', mailmsg_worker cfg s = Some (tt, s') /\
    mailmsg_pending_priorities s' = 0 /\ mailmsg_work_sem s' = 0 /\
    c_shared (mem3 s') = c_shared (mem3 s) /\ mailmsg_worker_message_count s' =
      (if mailmsg_pending_priorities s =? 0 then mailmsg_worker_message_count s
       else u32 (mailmsg_worker_message_count s + 0)).
Proof.
  intros Hskip Hp. rewrite run_worker_turn. destruct (mailmsg_pending_priorities s =? 0).
  - eexists. split; [reflexivity|]. by repeat split.
  - set (s1 := claimed s <| mailmsg_worker_drain_count := u32 (mailmsg_worker_drain_count (claimed s) + 1) |>).
    assert (E : mailmsg_pingpong_test_service cfg (mailmsg_pending_priorities s) MAILMSG_PRIORITY_COUNT 0 s1
      = Some (Some (0, MAILMSG_PRIORITY_COUNT, 0), s1)).
    { unfold mailmsg_pingpong_test_service. step. rewrite Hskip.
      change (mailmsg_session_ready_published s1) with (mailmsg_session_ready_published s). rewrite Hp.
      by destruct (negb (mailmsg_endpoint_ready s1)). }
    step_with (run_worker_serve cfg _ (claimed s) _ _ E).
    eexists. split; [reflexivity|]. by repeat split.
Qed.

(** C24. A stop request, alone on p0: it is always answered (unless the
    reverse queue is full) by STOP_READY if it has no payload and the image
    has stop control, by STOP_REFUSED with the reason otherwise; and the core
    goes down exactly when STOP_READY was queued, with the answer already in
    the ring Linux reads and all four queues otherwise as they were. *)
Theorem stop_request_outcome s a m :
  rung s a 0 -> rxq a 0 = [m] -> verdict (q_gen a) m = 0 -> type_ m = MAILMSG_MSG_STOP_REQUEST ->
  exists s' a', mailmsg_worker cfg s = Some (tt, s') /\ serving s' a' /\
    rxq a' 0 = [] /\ txq a' 0 = take 7 (txq a 0 ++ [stop_reply (q_gen a) (q_next a) m]) /\
    (forall i, i <> 0 -> rxq a' i = rxq a i /\ txq a' i = txq a i) /\
    core s' = (if stop_accepted a m
               then match pm_cpu_off with None => CoreOff | Some _ => CoreParked end else core s) /\
    mailmsg_pending_priorities s' = 0 /\ mailmsg_work_sem s' = 0.
Proof.
  intros Hg Eq Hv Ht. destruct (run_stop_request s a m Hg Eq Hv Ht)
    as (s' & a' & R & Hs' & Hrx & Htx & Ho & Hc & Hp & Hsem & _).
  by exists s', a'.
Qed.
End Worker.

(** * The properties at concrete queues *)

(** Session 7 with [frames] waiting for CPU3 on priority [p]. *)
Definition waiting_ring (frames : list mailmsg_message) : mailmsg_ring :=
  mk_ring (Z.of_nat (length frames)) 0 (frames ++ replicate (8 - length frames) message_zero).
Definition waiting_mem (p : Z) (frames : list mailmsg_message) : carveout_mem :=
  demo_mem <| c_shared := ring_set (mk_ring_ptr LinuxToCpu3 p) (waiting_ring frames) (host_shared 7) |>.

Lemma waiting_contents frames :
  (length frames <= 7)%nat -> ring_wf (waiting_ring frames) /\ ring_contents (waiting_ring frames) = frames.
Proof.
  intros Hl. split.
  - split; cbn; [lia..|]. rewrite length_app, length_replicate. lia.
  - unfold ring_contents, ring_length, waiting_ring. cbn [producer consumer].
    replace (Z.to_nat ((Z.of_nat (length frames) - 0) mod 8)) with (length frames) by lia.
    apply list_eq. intros i. rewrite list_lookup_fmap.
    destruct (decide (i < length frames)%nat) as [Hi|Hi].
    + rewrite lookup_seq_lt by done. cbn. unfold frame_at. cbn [consumer slot].
      replace ((0 + Z.of_nat i) mod 8) with (Z.of_nat i) by lia. unfold zget.
      rewrite (proj2 (Z.leb_le 0 (Z.of_nat i))) by lia. rewrite Nat2Z.id, lookup_app_l by done.
      destruct (lookup_lt_is_Some_2 frames i Hi) as [m E]. by rewrite E.
    + rewrite lookup_seq_ge by lia. cbn. symmetry. apply lookup_ge_None. lia.
Qed.
Lemma waiting_block p frames :
  0 <= p < 4 -> (length frames <= 7)%nat -> Forall (fun m => commit m = sequence m) frames ->
  session_block (c_shared (waiting_mem p frames)) 7 (upd_queue p frames (fun _ => [])) (fun _ => []).
Proof.
  intros Hp Hl Hc. set (ptr := mk_ring_ptr LinuxToCpu3 p).
  pose proof (same_but_set ptr (waiting_ring frames) (host_shared 7)) as Hsame.
  destruct (waiting_contents frames Hl) as [Hwf Hcont].
  split; try done; intros i Hi.
  - unfold upd_queue. destruct (Z.eqb_spec i p) as [->|Hne].
    + exists (waiting_ring frames). split; [|done]. unfold ptr. cbn [c_shared].
      destruct (host_represents LinuxToCpu3 p 7 Hp) as (r & Hr & _). by eapply ring_at_set.
    + eapply represents_other; [|exact Hsame|by apply host_represents]. unfold ptr. congruence.
  - eapply represents_other; [|exact Hsame|by apply host_represents]. done.
Qed.

(** The firmware booted on it, its doorbell of priority [p] taken. *)
Lemma demo_doorbell cfg p frames :
  MAILMSG_TEST_SKIP_SESSION_READY cfg = false -> p <> MAILMSG_TEST_SKIP_PRIORITY cfg ->
  0 <= p < 4 -> (length frames <= 7)%nat -> Forall (fun m => commit m = sequence m) frames ->
  exists s a, @rung host_cpu3 cfg s a p /\ rxq a p = frames /\ q_gen a = 7 /\
    (length (txq a p) <= 1)%nat.
Proof.
  intros Hskip Hserved Hp Hl Hc.
  destruct (@run_boot host_cpu3 _ cfg (waiting_mem p frames) (fun _ => 0) (fun _ => 0) 7 _ _ Hskip
    (waiting_block p frames Hp Hl Hc) ltac:(discriminate))
    as (s & a & _ & Hs & Hr & _ & Hpub & _ & Hrx & Ht & Hto & Hg & Hpe & _).
  set (s1 := s <| mailbox := fun _ => AMP_MBOX_PROTOCOL_CMD |>).
  destruct (@run_isr host_cpu3 p s1 Hp) as (s2 & _ & V & _ & Hpend).
  assert (Hwake : wakes_worker p s1 = true) by done. rewrite Hwake in Hpend.
  unfold iview in V. rewrite !pair_eq in V. destruct V as ((((((V1 & V2) & V3) & V4) & V5) & V6) & V7).
  exists s2, a. split; [split|].
  - by apply (serving_same s).
  - by rewrite V5.
  - rewrite V7. change (mailmsg_session_ready_published s1) with (mailmsg_session_ready_published s).
    rewrite Hpub. apply orb_true_r.
  - done.
  - done.
  - injection Hpend as -> _. change (mailmsg_pending_priorities s1) with (mailmsg_pending_priorities s).
    by rewrite Hpe.
  - rewrite Hrx. unfold upd_queue. rewrite Z.eqb_refl. split; [done|]. split; [done|].
    destruct (decide (p = 0)) as [->|Hne]; [by rewrite Ht|]. rewrite Hto by done. cbn. lia.
Qed.

Definition ping_frame (n value : Z) : mailmsg_message :=
  new_frame 7 n MAILMSG_MSG_PING (le_bytes value) 4.
(** A ping whose payload was damaged after the CRC was taken. *)
Definition damaged_frame : mailmsg_message :=
  ping_frame 0 41 <| payload := padded 4 (le_bytes 42) |>.
Definition stop_frame : mailmsg_message := new_frame 7 0 MAILMSG_MSG_STOP_REQUEST [] 0.
Definition stop_config : fw_config := mk_fw_config MAILMSG_PRIORITY_COUNT false true None.

Ltac demo_side := first [done | discriminate | lia | by repeat constructor | cbn; lia].

Lemma service_implements_queues_witness :
  exists s a x s' a', rxq a 1 = [ping_frame 0 41; ping_frame 1 7] /\
    @q_service host_cpu3 default_config (BIT 1) 4 0 a = Some (x, a') /\
    @mailmsg_pingpong_test_service host_cpu3 default_config (BIT 1) 4 0 s = Some (x, s') /\
    @serving host_cpu3 s' a'.
Proof.
  destruct (demo_doorbell default_config 1 [ping_frame 0 41; ping_frame 1 7])
    as (s & a & [Hs Hr Hpub _ _ _] & Eq & _); [demo_side..|].
  destruct (service_implements_queues default_config (BIT 1) 4 0 s a Hs Hr Hpub)
    as (x & s' & a' & E & R & Hs' & _).
  exists s, a, x, s', a'. split; [exact Eq|]. split; [exact E|]. split; [exact R|exact Hs'].
Defined.

Lemma worker_answers_in_order_witness :
  exists s a s' a', rxq a 1 = [ping_frame 0 41; ping_frame 1 7] /\
    @mailmsg_worker host_cpu3 default_config s = Some (tt, s') /\ @serving host_cpu3 s' a' /\
    rxq a' 1 = [] /\
    txq a' 1 = take 7 (txq a 1 ++ replies 7 (q_next a) 1 [ping_frame 0 41; ping_frame 1 7]).
Proof.
  destruct (demo_doorbell default_config 1 [ping_frame 0 41; ping_frame 1 7])
    as (s & a & Hg & Eq & Eg & _); [demo_side..|].
  destruct (worker_answers_in_order default_config s a 1 Hg) as (s' & a' & R & Hs' & Hrx & _ & Ht & _).
  { rewrite Eq, Eg. repeat constructor; vm_compute; reflexivity. }
  exists s, a, s', a'. split; [exact Eq|]. split; [exact R|]. split; [exact Hs'|]. split; [exact Hrx|].
  rewrite <-Eq, <-Eg. exact Ht.
Defined.

Lemma worker_stops_at_bad_frame_witness :
  exists s a s' a', rxq a 1 = [damaged_frame; ping_frame 1 7] /\
    @mailmsg_worker host_cpu3 default_config s = Some (tt, s') /\ @serving host_cpu3 s' a' /\
    rxq a' 1 = [ping_frame 1 7] /\
    txq a' 1 = txq a 1 ++ [nack_frame 7 (q_next a) MAILMSG_RING_BAD_CRC damaged_frame] /\
    mailmsg_pending_priorities s' = 0 /\ mailmsg_work_sem s' = 0.
Proof.
  destruct (demo_doorbell default_config 1 [damaged_frame; ping_frame 1 7])
    as (s & a & Hg & Eq & Eg & Hroom); [demo_side..|].
  assert (Hv : verdict (q_gen a) damaged_frame = MAILMSG_RING_BAD_CRC) by (rewrite Eg; vm_compute; reflexivity).
  destruct (worker_stops_at_bad_frame default_config s a 1 damaged_frame [ping_frame 1 7] Hg Eq)
    as (s' & a' & R & Hs' & Hrx & _ & Ht & _ & Hpe & Hsem); [by rewrite Hv|].
  exists s, a, s', a'. split; [exact Eq|]. split; [exact R|]. split; [exact Hs'|]. split; [exact Hrx|].
  split; [|split; [exact Hpe|exact Hsem]].
  rewrite Hv, Eg, (proj2 (Nat.eqb_neq (length (txq a 1)) 7)) in Ht by lia. exact Ht.
Defined.

Lemma early_doorbell_lost_witness :
  exists s', @mailmsg_worker host_cpu3 default_config
      (demo_reset <| mailmsg_pending_priorities := 2 |> <| mailmsg_work_sem := 1 |>) = Some (tt, s') /\
    mailmsg_pending_priorities s' = 0 /\ mailmsg_work_sem s' = 0.
Proof.
  destruct (@early_doorbell_lost host_cpu3 default_config
    (demo_reset <| mailmsg_pending_priorities := 2 |> <| mailmsg_work_sem := 1 |>)
    ltac:(reflexivity) ltac:(vm_compute; reflexivity))
    as (s' & R & Hpe & Hsem & _).
  exists s'. split; [exact R|]. split; [exact Hpe|exact Hsem].
Defined.

Lemma stop_request_outcome_witness :
  exists s a s' a', rxq a 0 = [stop_frame] /\
    @mailmsg_worker host_cpu3 stop_config s = Some (tt, s') /\ @serving host_cpu3 s' a' /\
    rxq a' 0 = [] /\ core s' = CoreOff.
Proof.
  destruct (demo_doorbell stop_config 0 [stop_frame])
    as (s & a & Hg & Eq & Eg & Hroom); [demo_side..|].
  destruct (stop_request_outcome stop_config s a stop_frame Hg Eq)
    as (s' & a' & R & Hs' & Hrx & _ & _ & Hcore & _); [by rewrite Eg|done|].
  exists s, a, s', a'. split; [exact Eq|]. split; [exact R|]. split; [exact Hs'|]. split; [exact Hrx|].
  assert (Hacc : stop_accepted stop_config a stop_frame = true).
  { unfold stop_accepted. rewrite (proj2 (Nat.eqb_neq (length (txq a 0)) 7)) by lia. reflexivity. }
  rewrite Hacc in Hcore. exact Hcore.
Defined.
