(* ===== verification/SystemSpec.v ===== *)
(** The two sides together: one shared memory and one mailbox between the
    driver and the firmware, the invariants that hold of both at once, the
    handshake that opens a session and the way of a PING. *)
From S2P Require Import Prelude Protocol Ring Notify Endpoint Frame EndpointSpec DriverState DriverLifecycle DriverUser DriverSysfs DriverProbe DriverSpec BlockSpec HostDemo LifecycleSpec ControlSpec NotifySpec UserSpec Firmware FirmwareSpec BootSpec WorkerSpec.

(** The mailbox keeps the doorbell word Linux wrote until it is overwritten. *)
Class A2bReadback (platform : Platform) : Prop := a2b_readback i command value regs :
  0 <= i < 4 ->
  mmio_write value (R1_AMP_MBOX_A2B_DAT i) (mmio_write command (R1_AMP_MBOX_A2B_CMD i) regs)
    (R1_AMP_MBOX_A2B_CMD i) = command.

(** * The composed system *)
Section System.
Context {linux_platform : Platform} {linux_coherent : CoherentOps mailmsg_linux_memory_ops}.
Context {cpu3_platform : Cpu3Platform} {cpu3_coherent : CoherentOps mailmsg_queue_memory_ops}.
Context (cfg : fw_config).
Implicit Types (d : r1_amp_cpu_on_data) (f : fw_state).

(** The carveout and the mailbox0 registers live in the driver's data; the
    firmware's state, once it runs, is looked at through [sees], which puts
    them in, and what it did to them is put back by [leaves]. *)
Record system := mk_system { linux : r1_amp_cpu_on_data; cpu3 : option fw_state }.
Definition sees d f : fw_state :=
  mk_fw (cpu f <| mem3 := carveout d |> <| mailbox := regs0 (mb d) |>) (pc f).
Definition leaves (s : cpu3_state) d : r1_amp_cpu_on_data :=
  d <| carveout := mem3 s |> <| mb := mb d <| mbox_regs := zset 0 (mailbox s) (mbox_regs (mb d)) |> |>.

(** A critical section of the driver; a step of the firmware; CPU3 out of
    reset, up to the main loop. *)
Inductive system_step : system -> system -> Prop :=
| step_linux ev d d' c :
    own_event ev -> handle ev d = Some d' -> system_step (mk_system d c) (mk_system d' c)
| step_cpu3 ev d f f' :
    (forall m g, ev <> CPeer m g) -> cpu3_handle cfg ev (sees d f) = Some f' ->
    system_step (mk_system d (Some f)) (mk_system (leaves (cpu f') d) (Some f'))
| step_reset gic d c s :
    (forall f, c = Some f -> core (cpu f) = CoreOff) ->
    main_init cfg (cpu3_boot (carveout d) (regs0 (mb d)) gic) = Some (tt, s) ->
    system_step (mk_system d c) (mk_system (leaves s d) (Some (mk_fw s WWaiting))).
Definition system_reachable (y : system) : Prop :=
  exists d0, probed d0 /\ star system_step (mk_system d0 None) y.

(** ** Each side's run is a run of that side in its environment *)
Lemma leaves_is_peer s d : handle (EvPeer (fun _ => mem3 s) (zset 0 (mailbox s))) d = Some (leaves s d).
Proof. done. Qed.
Lemma sees_is_peer d d' f :
  cpu3_handle cfg (CPeer (fun _ => carveout d') (fun _ => regs0 (mb d'))) (sees d f) = Some (sees d' f).
Proof. done. Qed.
Lemma sees_own_peer d f :
  cpu3_handle cfg (CPeer (fun _ => carveout d) (fun _ => regs0 (mb d))) f = Some (sees d f).
Proof. done. Qed.

Definition projects (y : system) : Prop :=
  reachable (linux y) /\ forall f, cpu3 y = Some f -> cpu3_reachable cfg (sees (linux y) f).
Lemma reachable_snoc d d' : reachable d -> driver_step d d' -> reachable d'.
Proof. intros (d0 & Hp & Hs) H. exists d0. split; [done|]. by eapply star_snoc. Qed.
Lemma cpu3_reachable_snoc f f' : cpu3_reachable cfg f -> cpu3_step cfg f f' -> cpu3_reachable cfg f'.
Proof.
  intros (m & regs & gic & s0 & E & Hs) H. exists m, regs, gic, s0. split; [done|]. by eapply star_snoc.
Qed.
Lemma projects_step y y' : projects y -> system_step y y' -> projects y'.
Proof.
  intros [Hl Hc] Hstep. destruct Hstep as [ev d d' c _ E|ev d f f' _ E|gic d c s Hoff E]; cbn in *.
  - split; [eapply reachable_snoc; [exact Hl|by exists ev]|]. cbn. intros f ->.
    eapply cpu3_reachable_snoc; [by apply Hc|]. eexists. apply sees_is_peer.
  - split; [eapply reachable_snoc; [exact Hl|eexists; apply leaves_is_peer]|]. intros f1 [= <-].
    eapply cpu3_reachable_snoc; [|eexists; apply sees_own_peer].
    eapply cpu3_reachable_snoc; [by apply Hc|by exists ev].
  - split; [eapply reachable_snoc; [exact Hl|eexists; apply leaves_is_peer]|]. intros f1 [= <-].
    eapply cpu3_reachable_snoc; [|eexists; apply sees_own_peer].
    do 4 eexists. split; [exact E|constructor].
Qed.

(** ** The shared block *)
#[local] Abbreviation cpu3_role := (role_ok cpu3_pushes cpu3_pops).
Definition system_block (y : system) : Prop :=
  block_inv (linux y) /\ forall f, cpu3 y = Some f -> cpu3_role (cpu3_endpoint (cpu f)).

Lemma block_leaves s d L :
  block_inv d -> cpu3_keeps (block_sound (header (c_shared (carveout d)))) L s -> block_inv (leaves s d).
Proof.
  intros [Hw Hh Hr Hq Hz] [[[Hw' Hh'] Hq'] _]. split; cbn; [done|intros Hg; by rewrite <-Hh|done|done|].
  intros E%Hz. unfold header in Hh'. by injection Hh' as _ _ ->.
Qed.
Lemma block_sees B d f L : B (c_shared (carveout d)) -> linux_lines (carveout d) = L ->
  cpu3_role (cpu3_endpoint (cpu f)) -> cpu3_keeps B L (cpu (sees d f)).
Proof. done. Qed.
Lemma block_step y y' : system_block y -> system_step y y' -> system_block y'.
Proof.
  intros [Hl Hc] Hstep. destruct Hstep as [ev d d' c Hown E|ev d f f' Hown E|gic d c s Hoff E]; cbn in *.
  - split; [by eapply block_event|exact Hc].
  - assert (Hb : block_sound (header (c_shared (carveout d))) (c_shared (carveout d))) by by destruct Hl.
    pose proof (cpu3_invariant_step cfg _ _ ev (sees d f) f' Hown E (block_sees _ d f _ Hb eq_refl (Hc f eq_refl))) as H.
    split; [by eapply block_leaves|]. intros f1 [= <-]. apply H.
  - assert (H : cpu3_keeps (block_sound (header (c_shared (carveout d)))) (linux_lines (carveout d)) s).
    { apply (stable_main_init cfg _ _ _ _ _ E). destruct Hl as [Hw _ _ Hq]. split; [by split|]. split; [apply role_zero|done]. }
    split; [by eapply block_leaves|]. intros f1 [= <-]. apply H.
Qed.

Lemma probed_block d : probed d -> block_inv d.
Proof.
  intros Hd. set (v := fun d : r1_amp_cpu_on_data =>
    (c_shared (carveout d), session_generation d, mailmsg_endpoint_ d)).
  assert (Hu : pres v r1_amp_unregister_mailmsg_user).
  { unfold r1_amp_unregister_mailmsg_user, upd_user_channel, get_user_channel. pres_auto. }
  assert (Hr : forall result ps, pres v (register_from result ps)).
  { intros result ps. induction ps as [|p ps IH]; cbn [register_from];
      unfold upd_user_channel, get_user_channel; pres_auto. }
  assert (MbView v) by done. destruct (probed_view v d Hr Hd) as [la Hv]. unfold v in Hv. injection Hv as E1 E2 E3.
  unfold block_inv. rewrite E1, E2, E3. split; [exact shared_wf_zero|done|apply role_zero|apply (sound_queues_new 0)|done].
Qed.

Lemma system_reachable_inv y : system_reachable y -> projects y /\ system_block y.
Proof.
  intros (d0 & Hp & Hs). split.
  - eapply (star_invariant system_step projects); [|exact Hs|]; [intros a b; apply projects_step|].
    split; [by exists d0; split; [|constructor]|done].
  - eapply (star_invariant system_step system_block); [|exact Hs|]; [intros a b; apply block_step|].
    split; [by apply probed_block|done].
Qed.

(** In the system the session is always bound to the block that carries it. *)
Lemma system_bound y :
  system_reachable y -> mailmsg_state (linux y) <> R1_AMP_MAILMSG_UNARMED -> linux_bound (linux y).
Proof.
  intros H Hst. destruct (system_reachable_inv y H) as [[Hr _] [[_ Hh _ _] _]].
  destruct (li_session _ (reachable_inv _ Hr) Hst) as [Hg Hk]. split; [exact Hk|exact Hg|].
  specialize (Hh Hg). unfold header, session_header in Hh. rewrite !pair_eq in Hh.
  destruct Hh as ((E1 & E2) & E3). split; [done|]. split; [done|]. rewrite E3.
  unfold ep_key, linux_key, ep_key in Hk. by injection Hk.
Qed.

(** ** The session frame, as Linux checks it *)
Lemma frame_verdict_new gen n type bytes len :
  gen <> 0 -> len <= 28 -> frame_verdict (new_frame gen n type bytes len) = 0.
Proof.
  intros Hg Hl. unfold frame_verdict.
  set (e := (endpoint_zero (C := unit)) <| ep_generation := gen |> <| next_sequence := n |>).
  change (frame_invalid (new_frame gen n type bytes len)) with (frame_invalid (sent_message e type bytes len)).
  rewrite sent_message_valid by done.
  change (crc32 (new_frame gen n type bytes len)) with
    (mailmsg_frame_crc32 (mk_message gen type (next_seq n) len (padded len bytes) 0 0)).
  change (mailmsg_frame_crc32 (new_frame gen n type bytes len)) with
    (mailmsg_frame_crc32 (mk_message gen type (next_seq n) len (padded len bytes) 0 0)).
  by rewrite Z.eqb_refl.
Qed.
Lemma load_padded bytes len off :
  0 <= off -> off + 4 <= len -> len <= Z.of_nat (length bytes) ->
  load_u32 (padded len bytes) off = load_u32 bytes off.
Proof.
  intros Ho Hl Hb. unfold load_u32, byte_at, padded.
  assert (H : forall k, 0 <= k < len ->
    zget (take (Z.to_nat len) bytes ++ drop (Z.to_nat len) (payload message_zero)) k = zget bytes k).
  { intros k Hk. unfold zget. rewrite (proj2 (Z.leb_le 0 k)) by lia.
    rewrite lookup_app_l by (rewrite length_take; lia). apply lookup_take_lt. lia. }
  by rewrite !H by lia.
Qed.
Lemma ready_frame_settles d gen :
  mailmsg_state d = R1_AMP_MAILMSG_STARTING -> session_generation d = gen -> gen <> 0 -> is_u32 gen ->
  settles d (ready_frame gen 0) = true.
Proof.
  intros Hst Hg Hne Hu. unfold settles. rewrite Hst, state_is_refl, Hg.
  unfold ready_frame. rewrite frame_verdict_new by done. cbn [Z.eqb].
  change (generation (new_frame gen 0 MAILMSG_MSG_SESSION_READY (session_payload gen) MAILMSG_SESSION_BYTES))
    with gen. rewrite Z.eqb_refl. cbn [andb].
  unfold session_ready_matches. rewrite Hg.
  change (payload (new_frame gen 0 MAILMSG_MSG_SESSION_READY (session_payload gen) MAILMSG_SESSION_BYTES))
    with (padded 8 (session_payload gen)).
  unfold DriverState.mailmsg_payload_u32, MAILMSG_SESSION_GENERATION_OFFSET, MAILMSG_SESSION_VERSION_OFFSET.
  rewrite !load_padded by (rewrite ?length_session; lia).
  unfold session_payload, Firmware.mailmsg_store_payload_u32, MAILMSG_SESSION_GENERATION_OFFSET,
    MAILMSG_SESSION_VERSION_OFFSET.
  rewrite store_load_u32_ne by lia. rewrite !store_load_u32 by
    (rewrite ?length_store_u32, ?length_replicate; done || lia).
  rewrite !Z.eqb_refl. reflexivity.
Qed.

(** ** Linux after CPU3 has left the memory *)
Lemma leaves_bound d s (e : mailmsg_endpoint (Z -> Z)) :
  linux_bound d -> session_ok e (c_shared (mem3 s)) -> ep_generation e = session_generation d ->
  linux_bound (leaves s d).
Proof.
  intros [Hk Hg _] (E1 & E2 & E3) He. split; [exact Hk|exact Hg|]. split; [done|]. split; [done|].
  cbn. rewrite E3, He. unfold ep_key, linux_key, ep_key in Hk. by injection Hk.
Qed.

(** The mailbox callback while an operation is pending. *)
Lemma run_callback i msg d c c0 :
  zget (mbox (mb d)) i = Some c0 -> mc_index c0 = i -> zget (mailmsg_user d) i = Some c ->
  lifecycle_pending (mailmsg_state d) = true ->
  exists d', r1_amp_mbox_rx_callback i msg d = Some (tt, d') /\
    lview d' = lview d /\ carveout d' = carveout d /\ mailmsg_endpoint_ d' = mailmsg_endpoint_ d /\
    lifecycle_deadline d' = lifecycle_deadline d /\ control_work d' = true.
Proof.
  intros Hc0 Hidx Hc Hst. unfold r1_amp_mbox_rx_callback.
  set (b1 := match msg with
    | Some (cmd, dat) => mb d <| mbox := zupd i (fun c => c <| rx_last_cmd := cmd |> <| rx_last_data := dat |>)
        (mbox (mb d)) |>
    | None => mb d end).
  assert (E1 : on_mb (match msg with
    | Some (cmd, dat) => upd_channel i (fun c => c <| rx_last_cmd := cmd |> <| rx_last_data := dat |>)
    | None => mret tt end) d = Some (tt, d <| mb := b1 |>)).
  { unfold on_mb, zoom, b1. destruct msg as [[cmd dat]|]; [by rewrite (run_upd_channel _ i c0) by done|].
    by destruct d. }
  step_with E1.
  assert (Hb1 : exists c1, zget (mbox b1) i = Some c1 /\ mc_index c1 = i).
  { unfold b1. destruct msg as [[cmd dat]|]; [|by exists c0]. cbn. rewrite zget_zupd, Hc0. by eexists. }
  destruct Hb1 as (c1 & Hc1 & Hidx1).
  erewrite run_bind_some by (unfold on_mb, zoom; rewrite (run_upd_channel b1 i c1) by done; reflexivity).
  match goal with |- context [mbind _ (on_mb _) ?st] => set (d2 := st) end.
  assert (E2 : on_mb (c ← get_channel i; mret (mc_index c)) d2 = Some (i, d2)).
  { unfold on_mb, zoom.
    erewrite run_bind_some by (apply run_get_channel; cbn; rewrite zget_zupd, Hc1; reflexivity).
    cbn. by rewrite Hidx1. }
  step_with E2. step. change (mailmsg_user d2) with (mailmsg_user d). rewrite Hc. step. step. step.
  change (mailmsg_state (wake_reader i d2)) with (mailmsg_state d). fold (lifecycle_pending (mailmsg_state d)).
  rewrite Hst. cbn [when]. eexists. split; [reflexivity|]. by repeat split.
Qed.

(** The callback and the control work on a waiting SESSION_READY. *)
Lemma linux_opens d gen c c0 msg env fuel :
  linux_bound d -> mailmsg_state d = R1_AMP_MAILMSG_STARTING -> session_generation d = gen -> is_u32 gen ->
  represents control_ring (c_shared (carveout d)) [ready_frame gen 0] ->
  zget (mbox (mb d)) 0 = Some c0 -> mc_index c0 = 0 -> zget (mailmsg_user d) 0 = Some c -> (8 <= fuel)%nat ->
  (forall k, time_after_eq (jiffies env k) (lifecycle_deadline d) = false) ->
  exists d2 d3, r1_amp_mbox_rx_callback 0 msg d = Some (tt, d2) /\ control_work d2 = true /\
    r1_amp_mailmsg_control_work fuel env (d2 <| control_work := false |>) = Some (true, d3) /\
    mailmsg_state d3 = R1_AMP_MAILMSG_ACTIVE /\ linux_bound d3 /\
    peer_generation d3 = session_generation d3 /\ session_generation d3 = gen /\
    represents control_ring (c_shared (carveout d3)) [] /\
    same_but control_ring (c_shared (carveout d)) (c_shared (carveout d3)).
Proof.
  intros Hb Hst Hgen Hu Hq Hc0 Hidx Hc Hfuel Htime.
  destruct (run_callback 0 msg d c c0 Hc0 Hidx Hc ltac:(by rewrite Hst)) as (d2 & R & Hv2 & Hco2 & Hep2 & Hdl2 & Hcw).
  set (d2' := d2 <| control_work := false |>).
  assert (Hb2 : linux_bound d2').
  { apply (linux_bound_same d); [done|exact Hv2|by cbn; rewrite Hco2|exact Hep2]. }
  pose proof (lview_parts _ _ Hv2) as Hparts.
  assert (Hst2 : mailmsg_state d2' = R1_AMP_MAILMSG_STARTING) by (etransitivity; [apply Hparts|exact Hst]).
  assert (Hgen2 : session_generation d2' = gen) by (etransitivity; [apply Hparts|exact Hgen]).
  rewrite <-Hco2 in Hq |- *. change (carveout d2) with (carveout d2') in Hq |- *.
  destruct (run_control_work env d2' [ready_frame gen 0] fuel Hb2) as (d4 & k & [Hbd Hdr _ Hrings] & H);
    [by rewrite Hst2|exact Hq|intros j; change (lifecycle_deadline d2') with (lifecycle_deadline d2);
      by rewrite Hdl2|exact Hfuel|].
  cbn [first_settling] in H.
  rewrite (ready_frame_settles d2' gen Hst2 Hgen2) in H by (done || by rewrite <-Hgen; apply Hb).
  destruct H as [Hrest R4].
  assert (Hst4 : mailmsg_state d4 = R1_AMP_MAILMSG_STARTING) by by rewrite (dr_state _ _ Hdr).
  assert (Hset : settle env k (ready_frame gen 0) d4 = cancel_lifecycle_timeout
    (d4 <| peer_generation := session_generation d4 |> <| session_result := 0 |>
       <| affinity_seen_on := true |> <| mailmsg_state := R1_AMP_MAILMSG_ACTIVE |>))
    by (unfold settle; by rewrite Hst4, state_is_refl).
  rewrite Hset in R4. exists d2. eexists. split; [exact R|]. split; [exact Hcw|]. split; [exact R4|].
  split; [done|]. split; [destruct Hbd; by split|]. split; [done|].
  split; [by rewrite <-Hgen2, <-(dr_gen _ _ Hdr)|]. by split.
Qed.

Lemma linux_bound_send d d1 p :
  linux_bound d -> lview d1 = lview d -> same_but p (c_shared (carveout d)) (c_shared (carveout d1)) ->
  linux_bound d1.
Proof.
  intros [Hk Hg (E1 & E2 & E3)] Hv (S1 & S2 & S3 & _). pose proof (lview_parts _ _ Hv) as Hp.
  assert (Hg1 : session_generation d1 = session_generation d) by apply Hp.
  unfold lview in Hv. rewrite !pair_eq in Hv. destruct Hv as [_ He].
  split; [by rewrite He, Hg1|by rewrite Hg1|]. split; [by rewrite S1|]. split; [by rewrite S2|].
  rewrite S3, E3. unfold ep_key in He. by injection He.
Qed.
(** ** A frame of Linux, as CPU3 finds it *)
Lemma shared_generation_agree d f a :
  linux_bound d -> serving (cpu (sees d f)) a -> q_gen a = session_generation d.
Proof.
  intros [Hk _ (_ & _ & E)] Hs. rewrite <-(sv_gen _ _ Hs). destruct (sv_session _ _ Hs) as (_ & _ & E').
  rewrite <-E'. change (c_shared (mem3 (cpu (sees d f)))) with (c_shared (carveout d)). rewrite E. unfold ep_key, linux_key, ep_key in Hk. by injection Hk.
Qed.
Lemma serving_frame d d1 f a i q :
  serving (cpu (sees d f)) a -> 0 <= i < 4 ->
  represents (mk_ring_ptr LinuxToCpu3 i) (c_shared (carveout d1)) q ->
  same_but (mk_ring_ptr LinuxToCpu3 i) (c_shared (carveout d)) (c_shared (carveout d1)) ->
  serving (cpu (sees d1 f)) (a <| rxq := upd_queue i q (rxq a) |>).
Proof.
  intros [Hr (E1 & E2 & E3) Hg Hn Hrx Htx Hco Hl] Hi Hq Hsame. pose proof Hsame as (S1 & S2 & S3 & _).
  split; try done.
  - split; [|split]; cbn in *; congruence.
  - intros p Hp. cbn. unfold upd_queue. destruct (Z.eqb_spec p i) as [->|Hne]; [exact Hq|].
    eapply represents_other; [|exact Hsame|by apply Hrx]. congruence.
  - intros p Hp. eapply represents_other; [|exact Hsame|by apply Htx]. done.
Qed.

(** The doorbell Linux rings is a protocol command of its channel. *)
Lemma doorbell_command {readback : A2bReadback linux_platform} d i :
  0 <= i < 4 -> forall f regs, regs0 (mb d) = NotifySpec.rung i (Z.lor R1_AMP_MAILMSG_DOORBELL i) i regs ->
  isr_command i (cpu (sees d f)) = Z.lor AMP_MBOX_PROTOCOL_CMD i /\
  protocol_command (Z.lor AMP_MBOX_PROTOCOL_CMD i) = true.
Proof.
  intros Hi f regs E. split.
  - unfold isr_command. change (mailbox (cpu (sees d f))) with (regs0 (mb d)). rewrite E. unfold NotifySpec.rung.
    change (MAILBOX_A2B_CMD i) with (R1_AMP_MBOX_A2B_CMD i). by rewrite a2b_readback.
  - assert (i = 0 \/ i = 1 \/ i = 2 \/ i = 3) as [-> | [-> | [-> | ->]]] by lia; reflexivity.
Qed.

(** The answers to a good frame are good frames. *)
Lemma answers_received (e : mailmsg_endpoint mbox_state) gen n p m :
  gen <> 0 -> ep_generation e = gen -> Forall (fun r => received_code e r = 0) (answers gen n p m).
Proof.
  intros Hg He.
  assert (H : forall n type bytes len, len <= 28 -> received_code e (new_frame gen n type bytes len) = 0).
  { intros n' type bytes len Hl. unfold received_code. rewrite frame_verdict_new by done.
    change (generation (new_frame gen n' type bytes len)) with gen. by rewrite He, !Z.eqb_refl. }
  unfold answers, ack_frame, pong_frame.
  destruct (mailmsg_priority_is_reliable p); rewrite ?Forall_cons, Forall_nil.
  - split; [by apply H|]. split; [by apply H|done].
  - split; [by apply H|done].
Qed.
Lemma pong_value gen gen' n n' value bytes :
  length bytes = 32%nat -> load_u32 bytes 0 = value ->
  load_u32 (payload (pong_frame gen n (new_frame gen' n' MAILMSG_MSG_PING bytes 4))) 0 = u32 (value + 1).
Proof.
  intros Hl Hv.
  change (payload (pong_frame gen n (new_frame gen' n' MAILMSG_MSG_PING bytes 4))) with
    (padded 4 (store_u32 (replicate 4 0) 0 (u32 (load_u32 (padded 4 bytes) 0 + 1)))).
  rewrite !load_padded by (rewrite ?length_store_u32, ?length_replicate; lia).
  rewrite Hv. apply store_load_u32; [apply u32_range|lia|rewrite length_replicate; lia].
Qed.

(** Both sides idle in an open session, priority [i] with nothing under way. *)
Record idle_pair d f a (i : Z) : Prop := {
  ip_active : mailmsg_state d = R1_AMP_MAILMSG_ACTIVE;
  ip_bound : linux_bound d;
  ip_mbox : mbox_ok (mb d);
  ip_not_injected : injected (mb d) i = false;
  ip_quiet : has_bit (regs0 (mb d) R1_AMP_MBOX_A2B_STATUS) i = false;
  ip_serving : serving (cpu (sees d f)) a;
  ip_ready : mailmsg_endpoint_ready (cpu f) = true;
  ip_published : mailmsg_session_ready_published (cpu f) = true;
  ip_pending : mailmsg_pending_priorities (cpu f) = 0;
  ip_rx : rxq a i = [];
  ip_tx : txq a i = [];
}.

(** The interrupt of a doorbell, with nothing else pending. *)
Lemma isr_rings f a i d1 :
  serving (cpu (sees d1 f)) a -> 0 <= i < 4 -> i <> MAILMSG_TEST_SKIP_PRIORITY cfg ->
  mailmsg_endpoint_ready (cpu f) = true -> mailmsg_session_ready_published (cpu f) = true ->
  mailmsg_pending_priorities (cpu f) = 0 -> wakes_worker i (cpu (sees d1 f)) = true ->
  exists s1, mailmsg_mailbox_a2b_matrix_isr i (cpu (sees d1 f)) = Some (tt, s1) /\ rung cfg s1 a i.
Proof.
  intros Hs Hi Hskip Hr Hpub Hpe Hw.
  destruct (run_isr i (cpu (sees d1 f)) Hi) as (s1 & R1 & V & _ & Hpend). rewrite Hw in Hpend.
  unfold BootSpec.iview in V. rewrite !pair_eq in V. destruct V as ((((((V1 & V2) & V3) & V4) & V5) & _) & V7).
  exists s1. split; [exact R1|].
  split; [by apply (serving_same (cpu (sees d1 f)))|by rewrite V5|by rewrite V7, orb_true_iff; right|
    done|done|]. injection Hpend as -> _. cbn. by rewrite Hpe.
Qed.

(** CPU3's side of it: interrupt and worker on one intact frame. *)
Lemma cpu3_answers f a i m d1 :
  serving (cpu (sees d1 f)) a -> 0 <= i < 4 -> i <> MAILMSG_TEST_SKIP_PRIORITY cfg ->
  mailmsg_endpoint_ready (cpu f) = true -> mailmsg_session_ready_published (cpu f) = true ->
  mailmsg_pending_priorities (cpu f) = 0 -> wakes_worker i (cpu (sees d1 f)) = true ->
  rxq a i = [m] -> txq a i = [] -> verdict (q_gen a) m = 0 -> plain cfg i m = true ->
  exists s1 s2 a', mailmsg_mailbox_a2b_matrix_isr i (cpu (sees d1 f)) = Some (tt, s1) /\
    mailmsg_worker cfg s1 = Some (tt, s2) /\ serving s2 a' /\ rxq a' i = [] /\
    txq a' i = answers (q_gen a) (q_next a) i m /\ q_gen a' = q_gen a.
Proof.
  intros Hs Hi Hskip Hr Hpub Hpe Hw Hrx Htx Hv Hpl.
  destruct (isr_rings f a i d1 Hs Hi Hskip Hr Hpub Hpe Hw) as (s1 & R1 & Hg).
  destruct (run_worker_plain cfg s1 a i Hg) as (s2 & a' & R2 & Hs2 & Hrx2 & _ & Ht2 & _ & _ & Hg2 & _).
  { rewrite Hrx. by repeat constructor. }
  exists s1, s2, a'. split; [exact R1|]. split; [exact R2|]. split; [exact Hs2|]. split; [exact Hrx2|].
  split; [|exact Hg2]. rewrite Ht2, Hrx, Htx. cbn [replies app]. rewrite app_nil_r.
  apply take_ge. unfold answers. by destruct (mailmsg_priority_is_reliable i); cbn; lia.
Qed.

(** * The properties *)

(** Every run of the composed system is, seen from the driver, a run of
    the driver with some peer and, seen from CPU3, a run of the firmware with
    some peer; so the invariants proved of each side hold together: the
    lifecycle and the devices of the driver, the synchronisation of the
    firmware. *)
Theorem system_invariants y :
  system_reachable y ->
  reachable (linux y) /\ lifecycle_inv (linux y) /\ device_inv (linux y) /\
  forall f, cpu3 y = Some f -> cpu3_reachable cfg (sees (linux y) f) /\ sync_inv (cpu f) (pc f).
Proof.
  intros H. destruct (system_reachable_inv y H) as [[Hr Hc] _].
  split; [exact Hr|]. split; [by apply reachable_inv|]. split; [by apply reachable_device|].
  intros f Hf. split; [by apply Hc|].
  eapply (sync_view (cpu (sees (linux y) f))); [reflexivity|]. apply (sync_reachable cfg _ (Hc f Hf)).
Qed.

(** The shared block keeps its type under both sides: four rings each way
    with eight slots each and both indices in range, whatever sequence of
    operations of the driver and of the firmware, resets of CPU3 included; and
    from the first start on its header is the one of the driver's session, so
    an endpoint that is not UNARMED is bound to the block. *)
Theorem shared_block_typed y :
  system_reachable y ->
  shared_wf (c_shared (carveout (linux y))) /\
  (session_generation (linux y) <> 0 ->
   header (c_shared (carveout (linux y))) = session_header (session_generation (linux y))) /\
  (mailmsg_state (linux y) <> R1_AMP_MAILMSG_UNARMED -> linux_bound (linux y)).
Proof.
  intros H. destruct (system_reachable_inv y H) as [_ [[Hw Hh _ _] _]].
  split; [exact Hw|]. split; [exact Hh|]. by apply system_bound.
Qed.

(** C29. The handshake opens the session: after a [start] whose CPU_ON
    succeeds, CPU3's [main] on the block Linux prepared, the mailbox callback
    of p0 and the control work it queues - run before the deadline - Linux is
    ACTIVE, both sides agree on a generation that is not the previous one, the
    firmware has its session announced and serves it, and all eight rings are
    empty. *)
Theorem handshake_opens_session d env buf count aff on gic msg env' fuel c0 :
  reachable d -> sysfs_streq buf "start" = true -> cpu_on_attempted d = false ->
  image_written d = image_size d -> psci_affinity_info env = Some aff ->
  psci_cpu_on env = Some on -> aff (mpidr d) 0 = PSCI_0_2_AFFINITY_LEVEL_OFF -> on (mpidr d) (entry d) = 0 ->
  MAILMSG_TEST_SKIP_SESSION_READY cfg = false ->
  zget (mbox (mb d)) 0 = Some c0 -> mc_index c0 = 0 -> (8 <= fuel)%nat ->
  (forall k, time_after_eq (jiffies env' k)
     (u64 (jiffies env 0 + msecs_to_jiffies R1_AMP_LIFECYCLE_TIMEOUT_MS)) = false) ->
  exists d1 s d2 d3 a, start_store env buf count d = Some (count, d1) /\
    main_init cfg (cpu3_boot (carveout d1) (regs0 (mb d1)) gic) = Some (tt, s) /\
    r1_amp_mbox_rx_callback 0 msg (leaves s d1) = Some (tt, d2) /\ control_work d2 = true /\
    r1_amp_mailmsg_control_work fuel env' (d2 <| control_work := false |>) = Some (true, d3) /\
    mailmsg_state d3 = R1_AMP_MAILMSG_ACTIVE /\ linux_bound d3 /\
    peer_generation d3 = session_generation d3 /\ session_generation d3 <> session_generation d /\
    serving s a /\ mailmsg_session_ready_published s = true /\ q_gen a = session_generation d3 /\
    (forall dir i, 0 <= i < 4 -> represents (mk_ring_ptr dir i) (c_shared (carveout d3)) []).
Proof.
  intros Hr Hbuf Hatt Himg Hf Hg Hoff Hon Hskip Hc0 Hidx Hfuel Htime.
  destruct (run_started env buf count d aff on Hr Hbuf Hatt Himg Hf Hg Hoff Hon)
    as (d1 & R1 & Hb1 & He1 & Hst1 & Hgen1 & Hdl1 & Hmb1 & Hregs1).
  set (gen := session_generation d1) in *.
  assert (Hblock : session_block (c_shared (carveout d1)) gen (fun _ => []) (fun _ => [])).
  { destruct Hb1 as [Hk Hg0 (E1 & E2 & E3)].
    split; [done|done| |exact Hg0|intros p Hp; by apply He1|intros p Hp; by apply He1].
    rewrite E3. unfold ep_key, linux_key, ep_key in Hk. by injection Hk. }
  destruct (run_boot cfg (carveout d1) (regs0 (mb d1)) gic gen _ _ Hskip Hblock ltac:(discriminate))
    as (s & a & R2 & Hs & _ & _ & Hpub & _ & Hrx & Ht0 & Hto & Hga & _).
  assert (Hb : linux_bound (leaves s d1)).
  { eapply (leaves_bound d1 s (cpu3_endpoint s)); [done|apply (sv_session _ _ Hs)|].
    by rewrite (sv_gen _ _ Hs), Hga. }
  assert (Hr2 : reachable (leaves s d1)).
  { apply (reachable_snoc d1); [|eexists; apply leaves_is_peer].
    apply (reachable_snoc d); [done|]. exists (EvStart env buf count). cbn [handle]. unfold run_event.
    by rewrite R1. }
  destruct (user_channel_exists (leaves s d1) 0 (dv_user _ (reachable_device _ Hr2)) ltac:(lia)) as (c & Hc & _).
  destruct (linux_opens (leaves s d1) gen c c0 msg env' fuel) as
    (d2 & d3 & R3 & Hcw & R4 & Hact & Hb3 & Hpeer & Hgen3 & Hrest & Hrings);
    [done|done|done|rewrite Hgen1; apply next_seq_u32| |by rewrite <-Hc0, <-Hmb1|done|done|done| |].
  { rewrite <-(app_nil_l [_]), <-Ht0. by apply (sv_tx _ _ Hs). }
  { intros j. change (lifecycle_deadline (leaves s d1)) with (lifecycle_deadline d1). by rewrite Hdl1. }
  exists d1, s, d2, d3, a. split; [exact R1|]. split; [exact R2|]. split; [exact R3|]. split; [exact Hcw|].
  split; [exact R4|]. split; [exact Hact|]. split; [exact Hb3|]. split; [exact Hpeer|].
  split; [rewrite Hgen3, Hgen1; apply next_generation_fresh|]. split; [exact Hs|]. split; [exact Hpub|].
  split; [by rewrite Hgen3|]. intros dir i Hi.
  destruct (decide (mk_ring_ptr dir i = control_ring)) as [->|Hne]; [exact Hrest|].
  eapply represents_other; [exact Hne|exact Hrings|]. cbn. destruct dir.
  - pose proof (sv_rx _ _ Hs i Hi) as Hi'. by rewrite Hrx in Hi'.
  - pose proof (sv_tx _ _ Hs i Hi) as Hi'. rewrite Hto in Hi'; [done|]. by intros ->.
Qed.

(** The frame a PING written by Linux becomes. *)
Definition ping_message d (frame : mailmsg_user_frame) : mailmsg_message :=
  new_frame (session_generation d) (next_sequence (mailmsg_endpoint_ d)) MAILMSG_MSG_PING (uf_payload frame) 4.
(** Linux's side of it: the write queues the frame and wakes CPU3's worker. *)
Lemma ping_written {readback : A2bReadback linux_platform} d f a i file u frame :
  idle_pair d f a i -> reachable d -> user_files d !! file = Some u -> channel u = i ->
  uf_priority frame = i -> uf_type frame = MAILMSG_MSG_PING -> uf_length frame = 4 ->
  length (uf_payload frame) = 32%nat ->
  exists d1, 0 <= i < 4 /\
    r1_amp_mailmsg_user_write file (Some frame) sizeof_user_frame d = Some (sizeof_user_frame, d1) /\
    serving (cpu (sees d1 f)) (a <| rxq := upd_queue i [ping_message d frame] (rxq a) |>) /\
    wakes_worker i (cpu (sees d1 f)) = true /\ linux_bound d1 /\
    session_generation d1 = session_generation d /\ mailmsg_state d1 = R1_AMP_MAILMSG_ACTIVE.
Proof.
  intros [Hact Hb Hmb Hinj Hquiet Hs Hr Hpub Hpe Hrx Htx] Hre Hf Hch Hprio Hty Hlen Hpay.
  pose proof (dv_user _ (reachable_device d Hre)) as Hdev.
  assert (Hi : 0 <= i < 4) by (subst i; by apply (ui_files _ Hdev file)).
  destruct (user_channel_exists d i Hdev Hi) as (c & Hc & Hcp).
  pose proof (sv_rx _ _ Hs i Hi) as Hq. rewrite Hrx in Hq.
  destruct (run_write_active d file i u c frame [] Hf Hch Hc Hcp Hi Hprio ltac:(lia) Hpay Hact Hb Hmb Hq
    ltac:(cbn; lia)) as (d1 & R & Hrep & Hsame & Hv1 & Hregs & _).
  rewrite Hinj, Hquiet in Hregs. cbn [orb app] in *. rewrite Hty, Hlen in Hrep.
  assert (Em : committed (sent_message (mailmsg_endpoint_ d) MAILMSG_MSG_PING (uf_payload frame) 4) =
    ping_message d frame) by (unfold sent_message; by rewrite (linux_generation d Hb)).
  rewrite Em in Hrep. destruct (doorbell_command d1 i Hi f _ Hregs) as [Hcmd Hproto].
  pose proof (lview_parts _ _ Hv1) as Hparts.
  exists d1. split; [done|]. split; [exact R|]. split; [by eapply serving_frame|].
  split; [unfold wakes_worker; by rewrite Hcmd, Hproto|]. split; [by eapply linux_bound_send|].
  split; [apply Hparts|]. etransitivity; [apply Hparts|exact Hact].
Qed.

(** An ACK where the priority is reliable, then the PONG. *)
Lemma answers_split gen n i m :
  exists acks n', answers gen n i m = acks ++ [pong_frame gen n' m] /\
    length acks = (if mailmsg_priority_is_reliable i then 1 else 0)%nat.
Proof.
  unfold answers. destruct (mailmsg_priority_is_reliable i); [by exists [ack_frame gen n m], (next_seq n)|].
  by exists [], n.
Qed.

(** A PING comes back: written to an idle open session, the frame's
    doorbell interrupts CPU3, whose worker takes it and leaves in Linux's ring
    exactly its answers - an ACK where the priority is reliable, then a PONG
    carrying the value plus one - every one of which Linux's receive accepts;
    the request ring is empty again and the session still open. *)
Theorem ping_comes_back {readback : A2bReadback linux_platform} d f a i file u frame :
  idle_pair d f a i -> reachable d -> user_files d !! file = Some u -> channel u = i ->
  uf_priority frame = i -> uf_type frame = MAILMSG_MSG_PING -> uf_length frame = 4 ->
  length (uf_payload frame) = 32%nat ->
  i <> MAILMSG_TEST_SKIP_PRIORITY cfg -> MAILMSG_TEST_SELF_OFF_VALUE cfg = None ->
  exists d1 s1 s2 pong,
    r1_amp_mailmsg_user_write file (Some frame) sizeof_user_frame d = Some (sizeof_user_frame, d1) /\
    mailmsg_mailbox_a2b_matrix_isr i (cpu (sees d1 f)) = Some (tt, s1) /\
    mailmsg_worker cfg s1 = Some (tt, s2) /\
    mailmsg_state (leaves s2 d1) = R1_AMP_MAILMSG_ACTIVE /\ linux_bound (leaves s2 d1) /\
    represents (mk_ring_ptr LinuxToCpu3 i) (c_shared (carveout (leaves s2 d1))) [] /\
    (exists acks, represents (mk_ring_ptr Cpu3ToLinux i) (c_shared (carveout (leaves s2 d1))) (acks ++ [pong]) /\
       length acks = (if mailmsg_priority_is_reliable i then 1 else 0)%nat /\
       Forall (fun r => received_code (mailmsg_endpoint_ (leaves s2 d1)) r = 0) (acks ++ [pong])) /\
    type_ pong = MAILMSG_MSG_PONG /\ length_ pong = 4 /\
    load_u32 (payload pong) 0 = u32 (load_u32 (uf_payload frame) 0 + 1).
Proof.
  intros Hidle Hre Hf Hch Hprio Hty Hlen Hpay Hskip Hoff.
  destruct (ping_written d f a i file u frame Hidle Hre Hf Hch Hprio Hty Hlen Hpay)
    as (d1 & Hi & R & Hs1 & Hwake & Hb1 & Hg1 & Hact1).
  destruct Hidle as [Hact Hb _ _ _ Hs Hr Hpub Hpe Hrx Htx].
  set (gen := session_generation d) in *. pose proof (shared_generation_agree d f a Hb Hs) as Hga. fold gen in Hga.
  set (m := ping_message d frame) in *. set (a1 := a <| rxq := upd_queue i [m] (rxq a) |>) in *.
  destruct (cpu3_answers f a1 i m d1 Hs1 Hi Hskip Hr Hpub Hpe Hwake) as (s1 & s2 & a2 & R1 & R2 & Hs2 & Hrx2 & Ht2 & Hg2).
  { cbn. unfold upd_queue. by rewrite Z.eqb_refl. }
  { exact Htx. }
  { change (q_gen a1) with (q_gen a). rewrite Hga. unfold verdict, m, ping_message.
    rewrite frame_verdict_new by (done || apply Hb). cbn [Z.eqb andb].
    change (generation (new_frame _ _ _ _ _)) with gen. by rewrite Z.eqb_refl. }
  { unfold plain, self_off_request. rewrite Hoff. cbn. by rewrite andb_false_r. }
  change (q_gen a1) with (q_gen a) in Ht2. change (q_next a1) with (q_next a) in Ht2. rewrite Hga in Ht2.
  assert (Hb2 : linux_bound (leaves s2 d1)).
  { eapply (leaves_bound d1 s2 (cpu3_endpoint s2)); [done|apply (sv_session _ _ Hs2)|].
    rewrite (sv_gen _ _ Hs2), Hg2. by rewrite Hg1, <-Hga. }
  pose proof (sv_rx _ _ Hs2 i Hi) as Hrx'. pose proof (sv_tx _ _ Hs2 i Hi) as Htx'.
  rewrite Hrx2 in Hrx'. rewrite Ht2 in Htx'.
  assert (Hok := answers_received (mailmsg_endpoint_ (leaves s2 d1)) gen (q_next a) i m
    ltac:(apply Hb) ltac:(by rewrite (linux_generation _ Hb2))).
  destruct (answers_split gen (q_next a) i m) as (acks & n & Hans & Hacks). rewrite Hans in Htx', Hok.
  exists d1, s1, s2, (pong_frame gen n m). split; [exact R|]. split; [exact R1|]. split; [exact R2|].
  split; [exact Hact1|]. split; [exact Hb2|]. split; [exact Hrx'|].
  split; [by exists acks|]. split; [done|]. split; [done|]. by apply pong_value.
Qed.
End System.

(** * The properties at a scripted session *)
#[local] Existing Instance host_platform.
#[local] Existing Instance host_cpu3.
#[export] Instance host_readback : A2bReadback host_platform.
Proof.
  intros i command value regs Hi.
  assert (i = 0 \/ i = 1 \/ i = 2 \/ i = 3) as [-> | [-> | [-> | ->]]] by lia; reflexivity.
Qed.

(** Deciding that all eight rings are empty. *)
Definition check_empty (sh : mailmsg_shared) : bool :=
  forallb (fun i => check_ring (mk_ring_ptr LinuxToCpu3 i) sh 0 &&
                    check_ring (mk_ring_ptr Cpu3ToLinux i) sh 0) priorities.
Lemma check_empty_ok sh :
  check_empty sh = true -> forall dir i, 0 <= i < 4 -> represents (mk_ring_ptr dir i) sh [].
Proof.
  unfold check_empty. intros H dir i Hi. rewrite forallb_forall in H.
  assert (Hin : In i priorities) by
    (assert (i = 0 \/ i = 1 \/ i = 2 \/ i = 3) as [->|[->|[->| ->]]] by lia; cbn; auto).
  specialize (H i Hin). apply andb_true_iff in H as [H1 H2].
  destruct (check_ring_represents _ _ _ H1) as (q1 & Hq1 & L1), (check_ring_represents _ _ _ H2) as (q2 & Hq2 & L2).
  destruct q1, q2; try done. by destruct dir.
Qed.

(** Linux has started the session; CPU3 boots on it; Linux takes its
    announcement and a file is opened on p1. *)
Definition duo_reset : cpu3_state :=
  cpu3_boot (carveout host_starting) (regs0 (mb host_starting)) (fun _ => 0).
Definition duo_cpu3 : cpu3_state := end_state (main_init default_config) duo_reset.
Definition duo_fw : fw_state := mk_fw duo_cpu3 WWaiting.
Definition duo_events : list driver_event :=
  [EvMailbox 0 (Some (0xb2a10000, 0)); EvControlWork 8 (host_env 200 0); EvOpen 7 1 true].
Definition duo_linux : r1_amp_cpu_on_data :=
  default host_starting (run_events duo_events (leaves duo_cpu3 host_starting)).

Lemma duo_boots : main_init default_config duo_reset = Some (tt, duo_cpu3).
Proof.
  assert (B : defined (main_init default_config) duo_reset = true) by (vm_compute; reflexivity).
  unfold duo_cpu3. exact (run_end_state _ _ B).
Qed.
Lemma duo_runs : run_events duo_events (leaves duo_cpu3 host_starting) = Some duo_linux.
Proof.
  assert (B : match run_events duo_events (leaves duo_cpu3 host_starting) with Some _ => true | None => false end
    = true) by (vm_compute; reflexivity).
  unfold duo_linux. by destruct (run_events duo_events (leaves duo_cpu3 host_starting)).
Qed.
Lemma linux_steps evs c : Forall own_event evs -> forall d d', run_events evs d = Some d' ->
  star (system_step default_config) (mk_system d c) (mk_system d' c).
Proof.
  intros H. induction H as [|ev evs Hev _ IH]; intros d d'; cbn [run_events]; [intros [= ->]; constructor|].
  destruct (handle ev d) as [d1|] eqn:E; [|done]. intros R.
  eapply star_trans; [|by apply IH]. eapply star_snoc; [constructor|by eapply step_linux].
Qed.
Lemma duo_reachable : system_reachable default_config (mk_system duo_linux (Some duo_fw)).
Proof.
  exists host_probed. split; [apply host_probed_ok|].
  assert (R : run_events events_start host_probed = Some host_starting).
  { assert (B : match run_events events_start host_probed with Some _ => true | None => false end = true)
      by (vm_compute; reflexivity).
    unfold host_starting, host_run. by destruct (run_events events_start host_probed). }
  eapply star_trans; [apply (linux_steps events_start None); [by repeat constructor|exact R]|].
  eapply star_trans.
  { eapply star_snoc; [constructor|]. eapply step_reset; [done|exact duo_boots]. }
  apply (linux_steps duo_events); [by repeat constructor|exact duo_runs].
Qed.

Definition duo_system : system := mk_system duo_linux (Some duo_fw).
Lemma duo_system_reachable : system_reachable default_config duo_system.
Proof. exact duo_reachable. Qed.
Lemma duo_started : mailmsg_state (linux duo_system) <> R1_AMP_MAILMSG_UNARMED.
Proof. vm_compute. discriminate. Qed.
Lemma duo_running : cpu3 duo_system = Some duo_fw.
Proof. reflexivity. Qed.
Lemma system_invariants_witness :
  lifecycle_inv (linux duo_system) /\ device_inv (linux duo_system) /\ sync_inv (cpu duo_fw) (pc duo_fw).
Proof.
  destruct (system_invariants default_config duo_system duo_system_reachable) as (_ & Hl & Hd & Hf).
  split; [exact Hl|]. split; [exact Hd|]. apply (Hf duo_fw duo_running).
Defined.
Lemma shared_block_typed_witness :
  shared_wf (c_shared (carveout (linux duo_system))) /\ linux_bound (linux duo_system).
Proof.
  destruct (shared_block_typed default_config duo_system duo_system_reachable) as (Hw & _ & Hb).
  split; [exact Hw|]. exact (Hb duo_started).
Defined.

Lemma handshake_opens_session_witness :
  exists d1 s d2 d3, start_store (host_env 100 1) "start" 5 host_loaded = Some (5, d1) /\
    main_init default_config (cpu3_boot (carveout d1) (regs0 (mb d1)) (fun _ => 0)) = Some (tt, s) /\
    r1_amp_mbox_rx_callback 0 None (leaves s d1) = Some (tt, d2) /\
    r1_amp_mailmsg_control_work 8 (host_env 200 0) (d2 <| control_work := false |>) = Some (true, d3) /\
    mailmsg_state d3 = R1_AMP_MAILMSG_ACTIVE.
Proof.
  assert (Hc : exists c, zget (mbox (mb host_loaded)) 0 = Some c /\ mc_index c = 0).
  { assert (B : match zget (mbox (mb host_loaded)) 0 with Some c => mc_index c =? 0 | None => false end = true)
      by (vm_compute; reflexivity).
    destruct (zget (mbox (mb host_loaded)) 0) as [c|]; [|done]. exists c. split; [done|by apply Z.eqb_eq]. }
  destruct Hc as (c & Hc & Hidx).
  destruct (handshake_opens_session default_config host_loaded (host_env 100 1) "start" 5 (fun _ _ => 1)
    (fun _ _ => 0) (fun _ => 0) None (host_env 200 0) 8 c) as
    (d1 & s & d2 & d3 & a & R1 & R2 & R3 & _ & R4 & Hact & _).
  1: apply host_run_reachable. 1-7: vm_compute; reflexivity.
  - vm_compute. reflexivity.
  - reflexivity.
  - exact Hc.
  - exact Hidx.
  - lia.
  - intros k. vm_compute. reflexivity.
  - exists d1, s, d2, d3. split; [exact R1|]. split; [exact R2|]. split; [exact R3|].
    split; [exact R4|exact Hact].
Defined.

(** Both sides are idle. *)
Lemma duo_serving : exists a, serving duo_cpu3 a /\ mailmsg_endpoint_ready duo_cpu3 = true /\
  mailmsg_session_ready_published duo_cpu3 = true /\ q_gen a = 1 /\
  mailmsg_pending_priorities duo_cpu3 = 0.
Proof.
  assert (Hb : session_block (c_shared (carveout host_starting)) 1 (fun _ => []) (fun _ => [])).
  { assert (He : check_empty (c_shared (carveout host_starting)) = true) by (vm_compute; reflexivity).
    split; [vm_compute; reflexivity..|discriminate|intros p Hp; by apply check_empty_ok|
      intros p Hp; by apply check_empty_ok]. }
  destruct (run_boot default_config (carveout host_starting) (regs0 (mb host_starting)) (fun _ => 0) 1
    _ _ eq_refl Hb ltac:(discriminate)) as (s & a & E & Hs & Hr & _ & Hp & _ & _ & _ & _ & Hg & Hpe & _).
  assert (Es : s = duo_cpu3).
  { pose proof (eq_trans (eq_sym E) duo_boots) as E'. congruence. }
  subst s. exists a. split; [exact Hs|]. split; [exact Hr|]. split; [exact Hp|]. split; [exact Hg|exact Hpe].
Qed.
Lemma duo_header : magic (c_shared (carveout duo_linux)) = MAILMSG_PROTOCOL_MAGIC /\
  version (c_shared (carveout duo_linux)) = MAILMSG_PROTOCOL_VERSION /\
  shared_generation (c_shared (carveout duo_linux)) = 1.
Proof. split; [|split]; vm_compute; reflexivity. Qed.
Lemma duo_mailbox : mbox_ok (mb duo_linux) /\ injected (mb duo_linux) 1 = false /\
  has_bit (regs0 (mb duo_linux) R1_AMP_MBOX_A2B_STATUS) 1 = false.
Proof. split; [apply check_mbox_ok|split]; vm_compute; reflexivity. Qed.
Lemma duo_active : mailmsg_state duo_linux = R1_AMP_MAILMSG_ACTIVE /\
  user_files duo_linux !! 7%nat = Some (mk_user_file 1 false).
Proof. split; vm_compute; reflexivity. Qed.
Lemma duo_linux_reachable : reachable duo_linux.
Proof.
  assert (H : forall d c, system_reachable default_config (mk_system d c) -> reachable d).
  { intros d c Hy. exact (proj1 (proj1 (system_reachable_inv default_config _ Hy))). }
  exact (H _ _ duo_reachable).
Qed.
Lemma duo_bound : linux_bound duo_linux.
Proof. apply reachable_bound; [exact duo_linux_reachable|vm_compute; reflexivity]. Qed.

Lemma idle_from_empty d s a i :
  serving s a -> mailmsg_endpoint_ready s = true -> mailmsg_session_ready_published s = true ->
  mailmsg_pending_priorities s = 0 ->
  mailmsg_state d = R1_AMP_MAILMSG_ACTIVE -> linux_bound d -> mbox_ok (mb d) -> injected (mb d) i = false ->
  has_bit (regs0 (mb d) R1_AMP_MBOX_A2B_STATUS) i = false ->
  magic (c_shared (carveout d)) = MAILMSG_PROTOCOL_MAGIC ->
  version (c_shared (carveout d)) = MAILMSG_PROTOCOL_VERSION ->
  shared_generation (c_shared (carveout d)) = q_gen a ->
  check_empty (c_shared (carveout d)) = true ->
  exists a', idle_pair d (mk_fw s WWaiting) a' i.
Proof.
  intros [Hre (E1 & E2 & E3) Hg Hn _ _ Hco Hl] Hr Hp Hpe Hact Hb Hm Hi Hq D1 D2 D3 Hem.
  exists (mk_queues (fun _ => []) (fun _ => []) (q_next a) (q_gen a) (q_core a) (q_lines a)).
  split; [done..| |done|done|done|done|done].
  split; [exact Hre| |exact Hg|exact Hn|intros p Hp'; by apply check_empty_ok|intros p Hp'; by apply check_empty_ok|
    exact Hco|exact Hl].
  split; [exact D1|]. split; [exact D2|]. etransitivity; [exact D3|]. symmetry. exact Hg.
Qed.
Lemma duo_empty : check_empty (c_shared (carveout duo_linux)) = true.
Proof. vm_compute. reflexivity. Qed.
Lemma duo_idle : exists a, idle_pair duo_linux (mk_fw duo_cpu3 WWaiting) a 1.
Proof.
  destruct duo_serving as (a & Hs & Hr & Hp & Ha & Hpe).
  destruct duo_mailbox as (Hm & Hi & Hq). destruct duo_header as (D1 & D2 & D3).
  exact (idle_from_empty _ _ a 1 Hs Hr Hp Hpe (proj1 duo_active) duo_bound Hm Hi Hq D1 D2
    (eq_trans D3 (eq_sym Ha)) duo_empty).
Qed.

Definition duo_frame : mailmsg_user_frame :=
  mk_user_frame 1 MAILMSG_MSG_PING 0 4 ([41; 0; 0; 0] ++ replicate 28 0).
Lemma ping_comes_back_witness :
  exists d1 s1 s2 pong,
    r1_amp_mailmsg_user_write 7 (Some duo_frame) sizeof_user_frame duo_linux = Some (sizeof_user_frame, d1) /\
    mailmsg_mailbox_a2b_matrix_isr 1 (cpu (sees d1 (mk_fw duo_cpu3 WWaiting))) = Some (tt, s1) /\
    mailmsg_worker default_config s1 = Some (tt, s2) /\
    type_ pong = MAILMSG_MSG_PONG /\ load_u32 (payload pong) 0 = 42.
Proof.
  destruct duo_idle as (a & Ha).
  destruct (ping_comes_back default_config duo_linux (mk_fw duo_cpu3 WWaiting) a 1 7 (mk_user_file 1 false) duo_frame Ha
    duo_linux_reachable (proj2 duo_active) eq_refl eq_refl eq_refl eq_refl eq_refl
    ltac:(discriminate) eq_refl) as (d1 & s1 & s2 & pong & R & R1 & R2 & _ & _ & _ & _ & Ht & _ & Hv).
  exists d1, s1, s2, pong. split; [exact R|]. split; [exact R1|]. split; [exact R2|].
  split; [exact Ht|]. rewrite Hv. reflexivity.
Defined.
