(* ===== verification/StopSpec.v ===== *)
(** How a session ends: the stop handshake through both sides, from the [stop]
    written to sysfs to the CPU that PSCI reports off and the driver that may
    be loaded again. *)
From S2P Require Import Prelude Protocol Ring Notify Endpoint Frame EndpointSpec DriverState DriverLifecycle DriverUser DriverSysfs DriverProbe DriverSpec BlockSpec HostDemo LifecycleSpec ControlSpec NotifySpec UserSpec Firmware FirmwareSpec BootSpec WorkerSpec SystemSpec.

Section Stop.
Context {linux_platform : Platform} {linux_coherent : CoherentOps mailmsg_linux_memory_ops}.
Context {cpu3_platform : Cpu3Platform} {cpu3_coherent : CoherentOps mailmsg_queue_memory_ops}.
Context (cfg : fw_config).
Implicit Types (d : r1_amp_cpu_on_data) (f : fw_state) (a : queues).

(** ** Linux asks *)

(** The request as it lies in CPU3's ring. *)
Definition stop_message d : mailmsg_message :=
  new_frame (session_generation d) (next_sequence (mailmsg_endpoint_ d)) MAILMSG_MSG_STOP_REQUEST [] 0.

(** The channel numbers, which no doorbell changes. *)
Definition indices (b : mbox_state) : list Z := map mc_index (mbox b).
Lemma indices_upd i g : (forall c, mc_index (g c) = mc_index c) -> pres indices (upd_channel i g).
Proof.
  intros Hf. unfold upd_channel, get_channel. pres_auto. apply pres_modify. intros b.
  unfold indices. cbn. by apply map_zupd_same.
Qed.
#[local] Hint Extern 2 (pres indices (upd_channel _ _)) => apply indices_upd; reflexivity : pres.
Lemma indices_notify priority : pres indices (mailmsg_notify_locked priority).
Proof.
  unfold mailmsg_notify_locked, r1_amp_mbox_direct_send_locked, readl_relaxed, writel_relaxed, get_channel.
  pres_auto.
Qed.

Lemma mbox_ok_set b regs : mbox_ok b -> mbox_ok (b <| mbox_regs := zset 0 regs (mbox_regs b) |>).
Proof. intros [Hl Hc Hr]. split; [exact Hl|exact Hc|]. by transitivity (length (mbox_regs b)); [apply length_zset|]. Qed.

(** A stop that passes the preflight, with CPU3's p0 channel quiet. *)
Lemma run_stop env buf count d q :
  sysfs_streq buf "stop" = true -> mailmsg_state d = R1_AMP_MAILMSG_ACTIVE -> linux_bound d -> mbox_ok (mb d) ->
  has_bit (regs0 (mb d) R1_AMP_MBOX_A2B_STATUS) 0 = false -> mailmsg_user_open_count d = 0 ->
  represents control_ring (c_shared (carveout d)) [] ->
  represents (mk_ring_ptr LinuxToCpu3 0) (c_shared (carveout d)) q -> (length q < 7)%nat ->
  exists d1, mailmsg_stop_store env buf count d = Some (count, d1) /\
    represents (mk_ring_ptr LinuxToCpu3 0) (c_shared (carveout d1)) (q ++ [stop_message d]) /\
    same_but (mk_ring_ptr LinuxToCpu3 0) (c_shared (carveout d)) (c_shared (carveout d1)) /\
    mailmsg_state d1 = R1_AMP_MAILMSG_STOPPING /\ linux_bound d1 /\
    session_generation d1 = session_generation d /\
    stop_request_sequence d1 = sequence (stop_message d) /\
    lifecycle_deadline d1 = u64 (jiffies env 0 + msecs_to_jiffies R1_AMP_LIFECYCLE_TIMEOUT_MS) /\
    affinity_seen_on d1 = affinity_seen_on d /\ indices (mb d1) = indices (mb d) /\
    stop_result d1 = - EINPROGRESS /\ mbox_ok (mb d1) /\
    regs0 (mb d1) = NotifySpec.rung 0 (Z.lor R1_AMP_MAILMSG_DOORBELL 0) 0 (regs0 (mb d)).
Proof.
  intros Hbuf Ha Hb Hmb Hquiet Hopen Hctl Hq Hroom.
  unfold mailmsg_stop_store. rewrite Hbuf. cbn [negb]. step. rewrite Ha. cbn [state_is].
  change (state_is R1_AMP_MAILMSG_ACTIVE R1_AMP_MAILMSG_OFFLINE) with false.
  change (state_is R1_AMP_MAILMSG_ACTIVE R1_AMP_MAILMSG_ACTIVE) with true. cbn [negb].
  step_with (run_preflight d [] Hb Hopen Hctl). rewrite Z.eqb_refl. cbn [negb]. step.
  match goal with |- context [mbind _ (on_endpoint _) ?st] => set (d0 := st) end.
  assert (Hmb0 : mbox_ok (mb d0)) by (destruct Hmb; by split).
  pose proof (run_send mailmsg_linux_memory_ops LinuxToCpu3 mailmsg_linux_notify (endpoint_world d0)
    MAILMSG_PRIO_CRITICAL MAILMSG_MSG_STOP_REQUEST None 0 send_result_zero q (linux_ready d Hb) (lb_session d Hb)
    ltac:(unfold MAILMSG_PRIO_CRITICAL; lia) ltac:(lia) ltac:(done) Hq) as Hsend. cbv zeta in Hsend.
  rewrite (proj2 (Nat.eqb_neq _ _)) in Hsend by lia.
  destruct Hsend as (sh' & Hrep & Hsame & Hsend).
  destruct (run_notify (mb d0) 0 Hmb0 ltac:(lia)) as (b' & Hn & Hmb' & _ & _ & _ & Hregs).
  change (ctx (endpoint_world d0)) with (mb d0) in Hsend.
  change (MAILMSG_PRIO_CRITICAL) with 0 in Hsend |- *.
  unfold mailmsg_linux_notify in Hsend at 1. rewrite Hn in Hsend.
  assert (Hinj : injected (mb d0) 0 = false) by done.
  unfold notify_outcome in Hsend, Hn. rewrite Hinj in Hsend, Hn, Hregs. change (regs0 (mb d0)) with (regs0 (mb d)) in *.
  rewrite Hquiet in Hsend, Hn, Hregs.
  erewrite run_bind_some by (unfold on_endpoint, zoom; rewrite Hsend; reflexivity). cbv beta iota.
  step. cbv zeta. rewrite Z.eqb_refl. cbn [negb]. step. cbn [notify_result].
  change (mailmsg_notify_accepted MAILMSG_NOTIFY_SENT) with true. cbn [negb andb]. rewrite Z.eqb_refl.
  eexists. split; [reflexivity|].
  assert (Hgen : ep_generation (mailmsg_endpoint_ d) = session_generation d) by by apply linux_generation.
  assert (Em : committed (sent_message (mailmsg_endpoint_ d) MAILMSG_MSG_STOP_REQUEST [] 0) = stop_message d)
    by (unfold sent_message; by rewrite Hgen).
  split; [rewrite <-Em; exact Hrep|]. split; [exact Hsame|]. split; [done|]. split.
  { destruct Hb as [Hk Hg (E1 & E2 & E3)]. destruct Hsame as (S1 & S2 & S3 & _).
    split; [|exact Hg|].
    - unfold ep_key in *. cbn in *. by rewrite length_zupd.
    - unfold session_ok in *. cbn in *. by rewrite S1, S2, S3. }
  split; [done|]. split; [done|]. split; [done|]. split; [done|].
  split; [by apply indices_notify in Hn|]. split; [done|]. split; [by destruct Hmb'; split|exact Hregs].
Qed.

(** ** CPU3 answers and goes down *)
Lemma stop_message_valid d : session_generation d <> 0 -> verdict (session_generation d) (stop_message d) = 0.
Proof.
  intros Hg. unfold verdict, stop_message. rewrite frame_verdict_new by (done || lia). cbn [Z.eqb andb].
  change (generation (new_frame (session_generation d) (next_sequence (mailmsg_endpoint_ d))
    MAILMSG_MSG_STOP_REQUEST [] 0)) with (session_generation d). by rewrite Z.eqb_refl.
Qed.
(** The answer of an image with stop control. *)
Definition ready_to_stop (gen n : Z) (m : mailmsg_message) : mailmsg_message :=
  new_frame gen n MAILMSG_MSG_STOP_READY (feedback_payload (sequence m) 0) MAILMSG_FEEDBACK_BYTES.

Lemma cpu3_stops f a d1 m :
  serving (cpu (sees d1 f)) a -> 0 <> MAILMSG_TEST_SKIP_PRIORITY cfg ->
  mailmsg_endpoint_ready (cpu f) = true -> mailmsg_session_ready_published (cpu f) = true ->
  mailmsg_pending_priorities (cpu f) = 0 -> wakes_worker 0 (cpu (sees d1 f)) = true ->
  rxq a 0 = [m] -> txq a 0 = [] -> verdict (q_gen a) m = 0 ->
  type_ m = MAILMSG_MSG_STOP_REQUEST -> length_ m = 0 -> MAILMSG_ENABLE_STOP_CONTROL cfg = true ->
  exists s1 s2 a', mailmsg_mailbox_a2b_matrix_isr 0 (cpu (sees d1 f)) = Some (tt, s1) /\
    mailmsg_worker cfg s1 = Some (tt, s2) /\ serving s2 a' /\ rxq a' 0 = [] /\
    txq a' 0 = [ready_to_stop (q_gen a) (q_next a) m] /\
    (forall i, i <> 0 -> rxq a' i = rxq a i /\ txq a' i = txq a i) /\ q_gen a' = q_gen a /\
    core s2 = match pm_cpu_off with None => CoreOff | Some _ => CoreParked end.
Proof.
  intros Hs Hskip Hr Hpub Hpe Hw Hrx Htx Hv Ht Hl Hen.
  destruct (isr_rings cfg f a 0 d1 Hs ltac:(lia) Hskip Hr Hpub Hpe Hw) as (s1 & R1 & Hg).
  destruct (run_stop_request cfg s1 a m Hg Hrx Hv Ht) as (s2 & a' & R2 & Hs2 & Hrx2 & Htx2 & Ho & Hc & _ & _ & Hg2).
  exists s1, s2, a'. split; [exact R1|]. split; [exact R2|]. split; [exact Hs2|]. split; [exact Hrx2|].
  unfold stop_accepted in Hc. unfold stop_reply in Htx2. rewrite Htx, Hl, Hen in Htx2. rewrite Htx, Hl, Hen in Hc.
  split; [exact Htx2|]. split; [exact Ho|]. split; [exact Hg2|exact Hc].
Qed.

(** ** Linux takes the answer *)
Lemma ready_to_stop_settles d gen n m :
  mailmsg_state d = R1_AMP_MAILMSG_STOPPING -> session_generation d = gen -> gen <> 0 ->
  stop_request_sequence d = sequence m -> is_u32 (sequence m) ->
  settles d (ready_to_stop gen n m) = true.
Proof.
  intros Hst Hg Hne Hseq Hu. unfold settles, ready_to_stop. rewrite Hst, Hg.
  rewrite frame_verdict_new by (done || (unfold MAILMSG_FEEDBACK_BYTES; lia)). cbn [Z.eqb].
  change (generation (new_frame gen n MAILMSG_MSG_STOP_READY (feedback_payload (sequence m) 0)
    MAILMSG_FEEDBACK_BYTES)) with gen. rewrite Z.eqb_refl. cbn [andb].
  change (state_is R1_AMP_MAILMSG_STOPPING R1_AMP_MAILMSG_STARTING) with false. cbv iota.
  unfold stop_reply_matches. rewrite Hseq.
  change (payload (new_frame gen n MAILMSG_MSG_STOP_READY (feedback_payload (sequence m) 0) MAILMSG_FEEDBACK_BYTES))
    with (padded 8 (feedback_payload (sequence m) 0)).
  unfold DriverState.mailmsg_payload_u32, MAILMSG_FEEDBACK_SEQUENCE_OFFSET.
  rewrite load_padded by (rewrite ?length_feedback; lia).
  unfold feedback_payload, Firmware.mailmsg_store_payload_u32, MAILMSG_FEEDBACK_SEQUENCE_OFFSET,
    MAILMSG_FEEDBACK_STATUS_OFFSET.
  rewrite store_load_u32_ne by lia. rewrite store_load_u32 by (rewrite ?length_replicate; done || lia).
  exact (Z.eqb_refl (sequence m)).
Qed.

(** The callback and the control work on a waiting STOP_READY: the core has
    accepted, and gets until a new deadline to be off. *)
Lemma linux_accepts d m n c c0 msg env fuel :
  linux_bound d -> mailmsg_state d = R1_AMP_MAILMSG_STOPPING ->
  stop_request_sequence d = sequence m -> is_u32 (sequence m) ->
  represents control_ring (c_shared (carveout d)) [ready_to_stop (session_generation d) n m] ->
  zget (mbox (mb d)) 0 = Some c0 -> mc_index c0 = 0 -> zget (mailmsg_user d) 0 = Some c -> (8 <= fuel)%nat ->
  (forall k, time_after_eq (jiffies env k) (lifecycle_deadline d) = false) ->
  exists d2 d3 k, r1_amp_mbox_rx_callback 0 msg d = Some (tt, d2) /\ control_work d2 = true /\
    r1_amp_mailmsg_control_work fuel env (d2 <| control_work := false |>) = Some (true, d3) /\
    mailmsg_state d3 = R1_AMP_MAILMSG_STOPPING /\ stop_reply_type d3 = MAILMSG_MSG_STOP_READY /\
    stop_result d3 = 0 /\ lifecycle_deadline d3 =
      u64 (jiffies env (S k) + msecs_to_jiffies R1_AMP_LIFECYCLE_TIMEOUT_MS) /\
    represents control_ring (c_shared (carveout d3)) [] /\
    same_but control_ring (c_shared (carveout d)) (c_shared (carveout d3)).
Proof.
  intros Hb Hst Hseq Hu Hq Hc0 Hidx Hc Hfuel Htime.
  destruct (run_callback 0 msg d c c0 Hc0 Hidx Hc ltac:(by rewrite Hst)) as (d2 & R & Hv2 & Hco2 & Hep2 & Hdl2 & Hcw).
  set (d2' := d2 <| control_work := false |>).
  assert (Hb2 : linux_bound d2').
  { apply (linux_bound_same d); [done|exact Hv2|by cbn; rewrite Hco2|exact Hep2]. }
  pose proof (lview_parts _ _ Hv2) as (P1 & _ & _ & _ & P5 & _ & _ & P8 & _).
  assert (Hst2 : mailmsg_state d2' = R1_AMP_MAILMSG_STOPPING) by by transitivity (mailmsg_state d).
  rewrite <-Hco2 in Hq |- *. change (carveout d2) with (carveout d2') in Hq |- *.
  destruct (run_control_work env d2' _ fuel Hb2 ltac:(by rewrite Hst2) Hq) as (d4 & k & [Hbd Hdr _ Hrings] & H);
    [intros j; change (lifecycle_deadline d2') with (lifecycle_deadline d2); by rewrite Hdl2|exact Hfuel|].
  cbn [first_settling] in H.
  rewrite ready_to_stop_settles in H by (done || apply Hb || by transitivity (stop_request_sequence d)).
  destruct H as [Hrest R4].
  assert (Hst4 : mailmsg_state d4 = R1_AMP_MAILMSG_STOPPING) by by rewrite (dr_state _ _ Hdr).
  unfold settle in R4. rewrite Hst4 in R4.
  change (state_is R1_AMP_MAILMSG_STOPPING R1_AMP_MAILMSG_STARTING) with false in R4. cbv iota in R4.
  exists d2. do 2 eexists. split; [exact R|]. split; [exact Hcw|]. split; [exact R4|].
  split; [exact Hst4|]. split; [reflexivity|]. split; [reflexivity|]. split; [reflexivity|].
  split; [exact Hrest|exact Hrings].
Qed.

(** ** The core is off *)
Lemma refreshed_off d :
  cpu_on_ret d = 0 -> affinity_seen_on d = true -> monitored (mailmsg_state d) = true ->
  let d' := refreshed PSCI_0_2_AFFINITY_LEVEL_OFF d in
  mailmsg_state d' = R1_AMP_MAILMSG_OFFLINE /\ lifecycle_timeout_work d' = None /\
  stop_result d' = stop_result d.
Proof.
  intros Hret Hon Hm. unfold refreshed, sampled, offlined. cbv zeta.
  change ((PSCI_0_2_AFFINITY_LEVEL_OFF =? PSCI_0_2_AFFINITY_LEVEL_ON) ||
    (PSCI_0_2_AFFINITY_LEVEL_OFF =? PSCI_0_2_AFFINITY_LEVEL_ON_PENDING)) with false. cbv iota.
  cbn [cpu_on_ret affinity_seen_on mailmsg_state set_field]. rewrite Hret, Hon, Hm, !Z.eqb_refl. cbn [andb].
  rewrite (wake_all_keeps stop_result) by done.
  match goal with |- context [wake_all_readers ?x] => destruct (wake_all_views x) as (Hv & _) end.
  apply lview_parts in Hv as (-> & _ & _ & -> & _). by repeat split.
Qed.
Lemma run_affinity_off env aff d :
  cpu_on_ret d = 0 -> mailmsg_user_removing d = false -> monitored (mailmsg_state d) = true ->
  affinity_seen_on d = true -> psci_affinity_info env = Some aff ->
  aff (mpidr d) 0 = PSCI_0_2_AFFINITY_LEVEL_OFF ->
  exists d', r1_amp_affinity_work env d = Some (tt, d') /\ mailmsg_state d' = R1_AMP_MAILMSG_OFFLINE /\
    lifecycle_timeout_work d' = None /\ affinity_work d' = affinity_work d /\ stop_result d' = stop_result d.
Proof.
  intros Hret Hrem Hm Hon Hf Hoff. unfold r1_amp_affinity_work. step.
  rewrite Hm, Hrem. cbn [negb orb]. step.
  set (d1 := set_field _ d).
  erewrite run_bind_some by (by apply run_refresh). cbv beta iota.
  change (aff (mpidr d1) 0) with (aff (mpidr d) 0). rewrite Hoff.
  destruct (refreshed_off d1 Hret Hon Hm) as (E1 & E2 & E5).
  destruct (refreshed_fields PSCI_0_2_AFFINITY_LEVEL_OFF d1) as (_ & _ & E3 & _).
  change (PSCI_0_2_AFFINITY_LEVEL_OFF <? 0) with false. cbn [when]. step. step.
  unfold lifecycle_pending. rewrite !E1. cbn [state_is orb when].
  change (state_is R1_AMP_MAILMSG_OFFLINE R1_AMP_MAILMSG_STARTING || state_is R1_AMP_MAILMSG_OFFLINE
    R1_AMP_MAILMSG_STOPPING) with false. cbn [when]. step. cbn [monitored andb when].
  eexists. split; [reflexivity|]. by repeat split.
Qed.

(** ** What the works leave alone meanwhile *)

(** No device is open, the mailbox is set up and CPU3 was once seen running. *)
Record calm d : Prop := {
  cm_open : mailmsg_user_open_count d = 0;
  cm_mbox : mbox_ok (mb d);
  cm_seen : affinity_seen_on d = true;
}.
Lemma wake_all_calm d : calm d -> calm (wake_all_readers d).
Proof.
  intros []. split; by rewrite (wake_all_keeps mailmsg_user_open_count) ||
    rewrite (wake_all_keeps mb) || rewrite (wake_all_keeps affinity_seen_on).
Qed.
Ltac calm_modify := apply stable_modify; intros ?; first
  [ done | by intros [] | apply wake_all_calm ].
#[local] Hint Extern 3 (stable calm (modify _)) => calm_modify : stable.

Lemma stable_ctx (P : mbox_state -> Prop) {A} (m : M mailmsg_shared A) :
  stable (fun w : ep_world mbox_state => P (ctx w)) (on_shared m).
Proof. by apply (stable_zoom _ (fun _ => True)); [|done|]. Qed.
Lemma calm_receive prio buf : stable calm (on_endpoint (mailmsg_endpoint_receive prio buf)).
Proof.
  apply (stable_zoom calm (fun w => mbox_ok (ctx w))); [|by intros d []|by intros w d []].
  pose proof (fun A => @stable_ctx mbox_ok A). unfold mailmsg_endpoint_receive.
  unfold mailmsg_endpoint_session_valid, upd_stats, upd_ep. stable_auto.
Qed.
#[local] Hint Resolve calm_receive : stable.
Lemma calm_mb {A} (m : M mbox_state A) : stable mbox_ok m -> stable calm (on_mb m).
Proof. intros Hm. apply (stable_zoom calm mbox_ok); [done|by intros d []|by intros b d []]. Qed.
Lemma mbox_ok_upd_channel i g :
  (forall c, controller (g c) = controller c /\ controller_channel (g c) = controller_channel c) ->
  stable mbox_ok (upd_channel i g).
Proof.
  intros Hg. unfold upd_channel, get_channel. stable_auto. apply stable_modify. intros b Hb.
  by apply mbox_ok_upd.
Qed.
Lemma calm_callback i msg : stable calm (r1_amp_mbox_rx_callback i msg).
Proof.
  unfold r1_amp_mbox_rx_callback.
  apply stable_bind; [apply calm_mb; destruct msg as [[? ?]|]; [by apply mbox_ok_upd_channel|apply stable_ret]|].
  intros _. apply stable_bind; [by apply calm_mb, mbox_ok_upd_channel|]. intros _.
  apply stable_bind; [apply calm_mb; unfold get_channel; stable_auto|]. intros ?. stable_auto.
Qed.
Lemma calm_control_work fuel env : stable calm (r1_amp_mailmsg_control_work fuel env).
Proof.
  assert (H : forall k buf, stable calm (control_loop fuel env k buf)).
  { induction fuel as [|fuel IH]; intros k buf; cbn [control_loop];
      unfold r1_amp_mailmsg_set_timeout_locked; stable_auto.
    all: apply stable_modify; intros d []; by destruct (mailmsg_state d). }
  unfold r1_amp_mailmsg_control_work, r1_amp_mailmsg_set_timeout_locked. stable_auto.
  apply stable_modify. intros d []. by destruct (mailmsg_state d).
Qed.
Lemma calm_affinity_work env : stable calm (r1_amp_affinity_work env).
Proof.
  unfold r1_amp_affinity_work, r1_amp_refresh_affinity_locked, r1_amp_mailmsg_mark_offline_locked.
  stable_auto.
Qed.

(** ** The driver is loadable again *)
Lemma run_rearm env buf count aff d :
  sysfs_streq buf "rearm" = true -> lifecycle_inv d -> mailmsg_state d = R1_AMP_MAILMSG_OFFLINE ->
  mailmsg_user_open_count d = 0 -> psci_affinity_info env = Some aff ->
  aff (mpidr d) 0 = PSCI_0_2_AFFINITY_LEVEL_OFF -> mbox_ok (mb d) ->
  regs0 (mb d) R1_AMP_MBOX_A2B_STATUS = 0 ->
  exists d', rearm_store env buf count d = Some (count, d') /\
    mailmsg_state d' = R1_AMP_MAILMSG_UNARMED /\ cpu_on_attempted d' = false /\ image_written d' = 0 /\
    rx (mailmsg_endpoint_ d') = None /\ session_generation d' = session_generation d.
Proof.
  intros Hbuf Hi Hst Hopen Hf Hoff Hmb Hregs. unfold rearm_store. rewrite Hbuf. cbn [negb]. step.
  destruct (cpu_on_attempted d) eqn:Hatt; [|by rewrite (li_attempted _ Hi Hatt) in Hst]. cbn [negb].
  rewrite Hopen, Z.eqb_refl. cbn [negb]. rewrite Hf.
  erewrite run_bind_some by (by apply run_refresh). cbv beta iota. rewrite Hoff. step.
  set (d1 := refreshed _ d). destruct (refreshed_fields PSCI_0_2_AFFINITY_LEVEL_OFF d) as
    (_ & _ & _ & E4 & _ & _ & E7 & _). fold d1 in E4, E7. rewrite E7, Z.eqb_refl. cbn [negb].
  assert (Hmb1 : mb d1 = mb d).
  { unfold d1, refreshed, sampled, offlined. cbv zeta.
    change ((PSCI_0_2_AFFINITY_LEVEL_OFF =? PSCI_0_2_AFFINITY_LEVEL_ON) ||
      (PSCI_0_2_AFFINITY_LEVEL_OFF =? PSCI_0_2_AFFINITY_LEVEL_ON_PENDING)) with false. cbv iota.
    destruct (_ && _); [|done]. cbn [mailmsg_state set_field]. by rewrite Hst. }
  assert (Hq : on_mb (a2b_quiet [0]) d1 = Some (true, d1)).
  { unfold on_mb, zoom. cbn [a2b_quiet]. rewrite Hmb1.
    erewrite run_bind_some by (by apply run_readl). cbv beta iota. rewrite Hregs. cbn [Z.eqb negb].
    rewrite <-Hmb1. by destruct d1. }
  step_with Hq. cbn [negb]. step. step. eexists. split; [reflexivity|]. by repeat split.
Qed.
(** ** The way through both sides *)

(** A [stop] that passes its preflight, up to the core that is off: Linux's
    request, the interrupt and the worker of CPU3. *)
Lemma stop_reaches_cpu3 {readback : A2bReadback linux_platform} d f a env buf count :
  idle_pair d f a 0 -> reachable d -> calm d -> sysfs_streq buf "stop" = true ->
  MAILMSG_ENABLE_STOP_CONTROL cfg = true -> 0 <> MAILMSG_TEST_SKIP_PRIORITY cfg -> pm_cpu_off = None ->
  exists d1 s1 s2 a', mailmsg_stop_store env buf count d = Some (count, d1) /\
    mailmsg_mailbox_a2b_matrix_isr 0 (cpu (sees d1 f)) = Some (tt, s1) /\
    mailmsg_worker cfg s1 = Some (tt, s2) /\ core s2 = CoreOff /\ serving s2 a' /\
    rxq a' 0 = [] /\ txq a' 0 = [ready_to_stop (session_generation d) (q_next a) (stop_message d)] /\
    (forall i, i <> 0 -> rxq a' i = rxq a i /\ txq a' i = txq a i) /\
    mailmsg_state d1 = R1_AMP_MAILMSG_STOPPING /\ linux_bound (leaves s2 d1) /\
    session_generation d1 = session_generation d /\ calm (leaves s2 d1) /\
    stop_request_sequence d1 = sequence (stop_message d) /\ stop_result d1 = - EINPROGRESS /\
    lifecycle_deadline d1 = u64 (jiffies env 0 + msecs_to_jiffies R1_AMP_LIFECYCLE_TIMEOUT_MS) /\
    indices (mb (leaves s2 d1)) = indices (mb d).
Proof.
  intros [Hact Hb Hmb Hinj Hquiet Hs Hr Hpub Hpe Hrx Htx] Hre [Hopen _ Hon] Hbuf Hen Hskip Hoff.
  pose proof (sv_rx _ _ Hs 0 ltac:(lia)) as Hq. rewrite Hrx in Hq.
  pose proof (sv_tx _ _ Hs 0 ltac:(lia)) as Hc. rewrite Htx in Hc.
  destruct (run_stop env buf count d [] Hbuf Hact Hb Hmb Hquiet Hopen Hc Hq ltac:(cbn; lia))
    as (d1 & R & Hrep & Hsame & Hst1 & Hb1 & Hg1 & Hseq1 & Hdl1 & Hon1 & Hidx1 & Hres1 & Hmb1 & Hregs).
  assert (Hs1 : serving (cpu (sees d1 f)) (a <| rxq := upd_queue 0 [stop_message d] (rxq a) |>))
    by (by eapply (serving_frame d d1 f a 0)).
  destruct (doorbell_command d1 0 ltac:(lia) f _ Hregs) as [Hcmd Hproto].
  pose proof (shared_generation_agree d f a Hb Hs) as Hga.
  set (a1 := a <| rxq := upd_queue 0 [stop_message d] (rxq a) |>) in *.
  destruct (cpu3_stops f a1 d1 (stop_message d) Hs1 Hskip Hr Hpub Hpe) as
    (s1 & s2 & a2 & R1 & R2 & Hs2 & Hrx2 & Ht2 & Ho2 & Hg2 & Hco); try done.
  { unfold wakes_worker. by rewrite Hcmd, Hproto. }
  { change (q_gen a1) with (q_gen a). rewrite Hga. apply stop_message_valid, Hb. }
  rewrite Hoff in Hco. change (q_gen a1) with (q_gen a) in *. change (q_next a1) with (q_next a) in Ht2.
  rewrite Hga in Ht2.
  exists d1, s1, s2, a2. split; [exact R|]. split; [exact R1|]. split; [exact R2|]. split; [exact Hco|].
  split; [exact Hs2|]. split; [exact Hrx2|]. split; [exact Ht2|]. split.
  { intros i Hi. destruct (Ho2 i Hi) as [E1 E2]. split; [|exact E2]. rewrite E1. cbn. unfold upd_queue.
    by rewrite (proj2 (Z.eqb_neq _ _) Hi). }
  split; [exact Hst1|]. split.
  { eapply (leaves_bound d1 s2 (cpu3_endpoint s2)); [done|apply (sv_session _ _ Hs2)|].
    by rewrite (sv_gen _ _ Hs2), Hg2, Hg1. }
  split; [exact Hg1|]. split.
  { split; cbn; [|by apply mbox_ok_set|by rewrite Hon1].
    pose proof (uview_stop env buf count _ _ _ R) as Hu. unfold uview in Hu. injection Hu as _ -> _. exact Hopen. }
  by repeat split.
Qed.

Lemma leaves_reachable d d1 s ev :
  reachable d -> handle ev d = Some d1 -> reachable (leaves s d1).
Proof.
  intros Hr E. apply (reachable_snoc d1); [|eexists; apply leaves_is_peer].
  apply (reachable_snoc d); [done|]. by exists ev.
Qed.
Lemma indexed_channel b c0 b' :
  zget (mbox b) 0 = Some c0 -> mc_index c0 = 0 -> indices b' = indices b ->
  exists c1, zget (mbox b') 0 = Some c1 /\ mc_index c1 = 0.
Proof.
  unfold indices. intros Hc H0 H. apply (f_equal (fun l => zget l 0)) in H.
  rewrite !zget_map, Hc in H. destruct (zget (mbox b') 0) as [c1|]; [|done].
  injection H as H. exists c1. split; [done|]. by rewrite H.
Qed.

(** The affinity monitor on a session CPU3 has left. *)
Lemma monitor_ends env aff d :
  reachable d -> monitored (mailmsg_state d) = true -> affinity_seen_on d = true ->
  psci_affinity_info env = Some aff -> aff (mpidr d) 0 = PSCI_0_2_AFFINITY_LEVEL_OFF ->
  exists d', handle (EvAffinityWork env) d = Some d' /\
    r1_amp_affinity_work env (d <| affinity_work := None |>) = Some (tt, d') /\
    mailmsg_state d' = R1_AMP_MAILMSG_OFFLINE /\
    lifecycle_timeout_work d' = None /\ affinity_work d' = None /\ stop_result d' = stop_result d.
Proof.
  intros Hr Hm Hon Hf Hoff. pose proof (reachable_inv d Hr) as Hi.
  destruct (li_monitor _ Hi Hm) as [delay Hw].
  destruct (run_affinity_off env aff (d <| affinity_work := None |>)) as (d' & R & H1 & H2 & H3 & H4); try done.
  { apply (li_started _ Hi). by destruct (mailmsg_state d). }
  { apply (li_removing _ Hi). }
  exists d'. split; [cbn [handle]; rewrite Hw; unfold run_event; by rewrite R|]. by repeat split.
Qed.

(** C31. The stop handshake ends the session on both sides.  With no device
    open and p0 idle, [stop] written to sysfs is accepted; its doorbell
    interrupts CPU3, whose worker answers STOP_READY and switches the core off,
    the frames of the other priorities staying where they are; the mailbox
    callback and the control work take the answer - run before the deadline -
    and grant the core a new interval; and once PSCI reports the core OFF the
    affinity monitor closes the session, its timers disarmed, after which
    [rearm] leaves the driver UNARMED and empty, the next image welcome, if the
    mailbox is quiet.  Should the monitor notice before the answer is taken,
    the session is closed all the same, and [stop_result] keeps reporting the
    stop as in progress. *)
Theorem stop_handshake_closes {readback : A2bReadback linux_platform}
    d f a c0 env buf count msg env' fuel env'' aff :
  idle_pair d f a 0 -> reachable d -> calm d -> sysfs_streq buf "stop" = true ->
  MAILMSG_ENABLE_STOP_CONTROL cfg = true -> 0 <> MAILMSG_TEST_SKIP_PRIORITY cfg -> pm_cpu_off = None ->
  zget (mbox (mb d)) 0 = Some c0 -> mc_index c0 = 0 -> (8 <= fuel)%nat ->
  (forall k, time_after_eq (jiffies env' k)
     (u64 (jiffies env 0 + msecs_to_jiffies R1_AMP_LIFECYCLE_TIMEOUT_MS)) = false) ->
  psci_affinity_info env'' = Some aff -> (forall cpu, aff cpu 0 = PSCI_0_2_AFFINITY_LEVEL_OFF) ->
  exists d1 s1 s2 d2 d3 d4, mailmsg_stop_store env buf count d = Some (count, d1) /\
    mailmsg_mailbox_a2b_matrix_isr 0 (cpu (sees d1 f)) = Some (tt, s1) /\
    mailmsg_worker cfg s1 = Some (tt, s2) /\ core s2 = CoreOff /\
    r1_amp_mbox_rx_callback 0 msg (leaves s2 d1) = Some (tt, d2) /\ control_work d2 = true /\
    r1_amp_mailmsg_control_work fuel env' (d2 <| control_work := false |>) = Some (true, d3) /\
    mailmsg_state d3 = R1_AMP_MAILMSG_STOPPING /\ stop_reply_type d3 = MAILMSG_MSG_STOP_READY /\
    stop_result d3 = 0 /\
    (forall i, 0 <= i < 4 ->
       represents (mk_ring_ptr LinuxToCpu3 i) (c_shared (carveout d3)) (rxq a i) /\
       represents (mk_ring_ptr Cpu3ToLinux i) (c_shared (carveout d3)) (txq a i)) /\
    handle (EvAffinityWork env'') d3 = Some d4 /\ mailmsg_state d4 = R1_AMP_MAILMSG_OFFLINE /\
    lifecycle_timeout_work d4 = None /\ affinity_work d4 = None /\ stop_result d4 = 0 /\
    (forall buf' count', sysfs_streq buf' "rearm" = true -> regs0 (mb d4) R1_AMP_MBOX_A2B_STATUS = 0 ->
     exists d5, rearm_store env'' buf' count' d4 = Some (count', d5) /\
       mailmsg_state d5 = R1_AMP_MAILMSG_UNARMED /\ cpu_on_attempted d5 = false /\ image_written d5 = 0 /\
       rx (mailmsg_endpoint_ d5) = None /\ session_generation d5 <> 0) /\
    exists d4', handle (EvAffinityWork env'') (leaves s2 d1) = Some d4' /\
      mailmsg_state d4' = R1_AMP_MAILMSG_OFFLINE /\ stop_result d4' = - EINPROGRESS.
Proof.
  intros Hidle Hre Hcalm Hbuf Hen Hskip Hoff Hc0 Hidx Hfuel Htime Hf Haff.
  destruct (stop_reaches_cpu3 d f a env buf count Hidle Hre Hcalm Hbuf Hen Hskip Hoff)
    as (d1 & s1 & s2 & a2 & R & R1 & R2 & Hco & Hs2 & Hrx & Htx & Ho & Hst1 & Hb & Hg1 & Hcalm1 & Hseq & Hres & Hdl & Hind).
  set (dl := leaves s2 d1) in *.
  assert (Hrl : reachable dl).
  { apply (leaves_reachable d d1 s2 (EvStop env buf count) Hre). cbn [handle]. unfold run_event. by rewrite R. }
  destruct (user_channel_exists dl 0 (dv_user _ (reachable_device _ Hrl)) ltac:(lia)) as (c & Hc & _).
  destruct (indexed_channel _ _ _ Hc0 Hidx Hind) as (c1 & Hc1 & Hidx1).
  assert (Hq : represents control_ring (c_shared (carveout dl))
    [ready_to_stop (session_generation dl) (q_next a) (stop_message d)]).
  { change (session_generation dl) with (session_generation d1). rewrite Hg1, <-Htx. by apply (sv_tx _ _ Hs2). }
  destruct (linux_accepts dl (stop_message d) (q_next a) c c1 msg env' fuel Hb Hst1 Hseq (next_seq_u32 _) Hq Hc1 Hidx1 Hc
    Hfuel) as (d2 & d3 & k & R3 & Hcw & R4 & Hst3 & Hty & Hres3 & _ & Hrest & Hrings).
  { intros j. change (lifecycle_deadline dl) with (lifecycle_deadline d1). by rewrite Hdl. }
  assert (Hcalm2 : calm d2) by by eapply calm_callback.
  assert (Hcalm3 : calm d3) by (eapply calm_control_work; [exact R4|by destruct Hcalm2]).
  assert (Hr3 : reachable d3).
  { apply (reachable_snoc d2); [apply (reachable_snoc dl); [done|]|].
    - exists (EvMailbox 0 msg). cbn [handle]. unfold run_event. by rewrite R3.
    - exists (EvControlWork fuel env'). cbn [handle]. by rewrite Hcw, R4. }
  destruct (monitor_ends env'' aff d3 Hr3 ltac:(by rewrite Hst3) (cm_seen _ Hcalm3) Hf (Haff _))
    as (d4 & E4 & R5 & Hst4 & Ht4 & Ha4 & Hres4).
  destruct (monitor_ends env'' aff dl Hrl ltac:(change (mailmsg_state dl) with (mailmsg_state d1); by rewrite Hst1)
    (cm_seen _ Hcalm1) Hf (Haff _)) as (d4' & E4' & _ & Hst4' & _ & _ & Hres4').
  assert (Hcalm4 : calm d4) by (eapply calm_affinity_work; [exact R5|by destruct Hcalm3]).
  exists d1, s1, s2, d2, d3, d4. do 10 (split; [done|]). split.
  { intros i Hi. destruct Hidle as [_ _ _ _ _ Hs0 _ _ _ Hrx0 Htx0].
    assert (Hra : rxq a2 i = rxq a i) by (destruct (decide (i = 0)) as [->|Hne]; [congruence|by apply Ho]).
    split.
    - eapply represents_other; [|exact Hrings|]; [done|]. rewrite <-Hra. by apply (sv_rx _ _ Hs2).
    - destruct (decide (i = 0)) as [->|Hne]; [by rewrite Htx0|].
      eapply represents_other; [|exact Hrings|]; [unfold control_ring, MAILMSG_PRIO_CRITICAL; congruence|].
      rewrite <-(proj2 (Ho i Hne)). by apply (sv_tx _ _ Hs2). }
  split; [done|]. split; [done|]. split; [done|]. split; [done|]. split; [by rewrite Hres4|]. split.
  { intros buf' count' Hbuf' Hregs.
    assert (Hr4 : reachable d4) by (apply (reachable_snoc d3); [done|by exists (EvAffinityWork env'')]).
    pose proof (reachable_inv d4 Hr4) as Hi4.
    destruct (run_rearm env'' buf' count' aff d4 Hbuf' Hi4 Hst4 (cm_open _ Hcalm4) Hf (Haff _) (cm_mbox _ Hcalm4) Hregs)
      as (d5 & R6 & H1 & H2 & H3 & H4 & H5).
    exists d5. do 5 (split; [done|]). rewrite H5. apply (li_session _ Hi4). by rewrite Hst4. }
  exists d4'. split; [done|]. split; [done|]. by rewrite Hres4'.
Qed.
End Stop.

(** * The property at the scripted session *)
#[local] Existing Instance host_platform.
#[local] Existing Instance host_cpu3.

(** The open session of [SystemSpec], its file closed again. *)
Definition closed_linux : r1_amp_cpu_on_data := default duo_linux (handle (EvRelease 7) duo_linux).
Lemma closed_linux_reachable : reachable closed_linux.
Proof.
  assert (B : match handle (EvRelease 7) duo_linux with Some _ => true | None => false end = true)
    by (vm_compute; reflexivity).
  unfold closed_linux. destruct (handle (EvRelease 7) duo_linux) as [d|] eqn:E; [|done].
  apply (reachable_snoc duo_linux); [exact duo_linux_reachable|by exists (EvRelease 7)].
Qed.
Lemma closed_mbox : mbox_ok (mb closed_linux).
Proof. apply check_mbox_ok. vm_compute. reflexivity. Qed.
Lemma closed_calm : calm closed_linux.
Proof. split; [vm_compute; reflexivity|exact closed_mbox|vm_compute; reflexivity]. Qed.
Lemma closed_idle : exists a, idle_pair closed_linux duo_fw a 0.
Proof.
  destruct duo_serving as (a & Hs & Hr & Hp & Ha & Hpe).
  apply (idle_from_empty closed_linux duo_cpu3 a 0 Hs Hr Hp Hpe).
  - vm_compute. reflexivity.
  - apply reachable_bound; [exact closed_linux_reachable|vm_compute; reflexivity].
  - exact closed_mbox.
  - vm_compute. reflexivity.
  - vm_compute. reflexivity.
  - vm_compute. reflexivity.
  - vm_compute. reflexivity.
  - rewrite Ha. vm_compute. reflexivity.
  - vm_compute. reflexivity.
Qed.
Lemma closed_channel : exists c, zget (mbox (mb closed_linux)) 0 = Some c /\ mc_index c = 0.
Proof.
  assert (B : match zget (mbox (mb closed_linux)) 0 with Some c => mc_index c =? 0 | None => false end = true)
    by (vm_compute; reflexivity).
  destruct (zget (mbox (mb closed_linux)) 0) as [c|]; [|done]. exists c. split; [done|by apply Z.eqb_eq].
Qed.

Lemma stop_handshake_closes_witness :
  exists d1 s1 s2 d2 d3 d4,
    mailmsg_stop_store (host_env 300 0) "stop" 4 closed_linux = Some (4, d1) /\
    mailmsg_mailbox_a2b_matrix_isr 0 (cpu (sees d1 duo_fw)) = Some (tt, s1) /\
    mailmsg_worker stop_config s1 = Some (tt, s2) /\ core s2 = CoreOff /\
    r1_amp_mbox_rx_callback 0 None (leaves s2 d1) = Some (tt, d2) /\
    r1_amp_mailmsg_control_work 8 (host_env 400 0) (d2 <| control_work := false |>) = Some (true, d3) /\
    handle (EvAffinityWork (host_env 500 1)) d3 = Some d4 /\
    mailmsg_state d4 = R1_AMP_MAILMSG_OFFLINE /\ stop_result d4 = 0.
Proof.
  destruct closed_idle as (a & Ha). destruct closed_channel as (c & Hc & Hidx).
  destruct (stop_handshake_closes stop_config closed_linux duo_fw a c (host_env 300 0) "stop" 4 None (host_env 400 0) 8
    (host_env 500 1) (fun _ _ => 1) Ha closed_linux_reachable closed_calm) as
    (d1 & s1 & s2 & d2 & d3 & d4 & R1 & R2 & R3 & Hco & R4 & _ & R5 & _ & _ & _ & _ & R6 & Hst & _ & _ & Hres & _).
  1-2: vm_compute; reflexivity.
  - intros H. vm_compute in H. discriminate H.
  - reflexivity.
  - exact Hc.
  - exact Hidx.
  - reflexivity.
  - intros k. vm_compute. reflexivity.
  - reflexivity.
  - reflexivity.
  - exists d1, s1, s2, d2, d3, d4. split; [exact R1|]. split; [exact R2|]. split; [exact R3|]. split; [exact Hco|].
    split; [exact R4|]. split; [exact R5|]. split; [exact R6|]. split; [exact Hst|exact Hres].
Defined.
