(* ===== verification/QueueSpec.v ===== *)
(** What can wait in the rings of the composed system, and what the two sides
    therefore receive. *)
From S2P Require Import Prelude Protocol Ring Notify Endpoint Frame EndpointSpec DriverState DriverLifecycle DriverUser DriverSysfs DriverProbe DriverSpec HostDemo LifecycleSpec ControlSpec NotifySpec UserSpec Firmware BlockSpec FirmwareSpec BootSpec WorkerSpec SystemSpec.

Section Queues.
Context {linux_platform : Platform} {linux_coherent : CoherentOps mailmsg_linux_memory_ops}.
Context {cpu3_platform : Cpu3Platform} {cpu3_coherent : CoherentOps mailmsg_queue_memory_ops}.
Context (cfg : fw_config).
Implicit Types (d : r1_amp_cpu_on_data) (f : fw_state).

(** What waits for Linux in a sound block is received OK. *)
Lemma sound_received d i q :
  linux_bound d -> sound_queues (c_shared (carveout d)) -> 0 <= i < 4 ->
  represents (mk_ring_ptr Cpu3ToLinux i) (c_shared (carveout d)) q ->
  Forall (fun m => received_code (mailmsg_endpoint_ d) m = 0) q.
Proof.
  intros Hb Hs Hi Hq. destruct (Hs Cpu3ToLinux i Hi) as (q' & Hq' & Hf).
  rewrite (represents_unique _ _ _ _ Hq Hq'). eapply Forall_impl; [exact Hf|]. intros m (Hg & _ & Hv). cbn.
  unfold received_code. rewrite (Hv eq_refl), Hg. destruct (lb_session d Hb) as (_ & _ & ->). by rewrite !Z.eqb_refl.
Qed.
Lemma linux_receives_sound d i buf :
  linux_bound d -> sound_queues (c_shared (carveout d)) -> 0 <= i < 4 ->
  exists code m d', on_endpoint (mailmsg_endpoint_receive i buf) d = Some ((code, m), d') /\
    (code = MAILMSG_ENDPOINT_OK \/ code = MAILMSG_RING_EMPTY /\ m = buf).
Proof.
  intros Hb Hs Hi. destruct (Hs Cpu3ToLinux i Hi) as (q & Hq & _).
  pose proof (run_linux_receive d i buf q Hb Hi Hq) as R.
  pose proof (sound_received d i q Hb Hs Hi Hq) as Hf. destruct q as [|m q].
  - exists MAILMSG_RING_EMPTY, buf. eexists. split; [exact R|by right].
  - destruct R as (w & R & _). apply Forall_cons in Hf as [Hv _]. rewrite Hv in R. do 3 eexists.
    split; [exact R|by left].
Qed.

(** CPU3 serves a sound queue: only the CRC can be off. *)
Lemma cpu3_serves_sound s a p :
  serving s a -> sound_queues (c_shared (mem3 s)) -> 0 <= p < 4 ->
  Forall (fun m => verdict (q_gen a) m = 0 \/ verdict (q_gen a) m = MAILMSG_RING_BAD_CRC) (rxq a p).
Proof.
  intros Hs Hq Hp. destruct (Hq LinuxToCpu3 p Hp) as (q & Hr & Hf).
  rewrite (represents_unique _ _ _ _ (sv_rx _ _ Hs p Hp) Hr).
  assert (Hg : shared_generation (c_shared (mem3 s)) = q_gen a).
  { rewrite <-(sv_gen _ _ Hs). by destruct (sv_session _ _ Hs) as (_ & _ & ->). }
  eapply Forall_impl; [exact Hf|]. intros m (Hm & Hi & _). cbn. unfold verdict, frame_verdict.
  rewrite Hi, Hm, Hg, !Z.eqb_refl. destruct (crc32 m =? mailmsg_frame_crc32 m); cbn; auto.
Qed.

(** C27. In every reachable state of the composed system - whatever the
    interleaving, restarts and resets included - each of the eight rings is a
    queue of at most seven committed frames that pass the format checks and
    carry the generation of the block, intact on the way to Linux. So in an
    armed session Linux receives OK or EMPTY and nothing else on every
    priority, and all that a serving CPU3 can find wrong with a frame is a CRC
    the driver's test hook has broken. *)
Theorem queues_always_sound y :
  system_reachable cfg y ->
  let sh := c_shared (carveout (linux y)) in
  (forall dir i, 0 <= i < 4 -> exists q, represents (mk_ring_ptr dir i) sh q /\ (length q <= 7)%nat /\
     Forall (fun m => commit m = sequence m /\ generation m = shared_generation sh /\ frame_invalid m = false /\
       (dir = Cpu3ToLinux -> frame_verdict m = MAILMSG_RING_OK)) q) /\
  (mailmsg_state (linux y) <> R1_AMP_MAILMSG_UNARMED -> forall i buf, 0 <= i < 4 ->
     exists code m d', on_endpoint (mailmsg_endpoint_receive i buf) (linux y) = Some ((code, m), d') /\
       (code = MAILMSG_ENDPOINT_OK \/ code = MAILMSG_RING_EMPTY /\ m = buf)) /\
  (forall f a, cpu3 y = Some f -> serving (cpu (sees (linux y) f)) a -> forall p, 0 <= p < 4 ->
     Forall (fun m => verdict (q_gen a) m = 0 \/ verdict (q_gen a) m = MAILMSG_RING_BAD_CRC) (rxq a p)).
Proof.
  intros H sh. destruct (system_reachable_inv cfg y H) as [_ [[_ _ _ Hq] _]].
  split; [|split].
  - intros dir i Hi. destruct (Hq dir i Hi) as (q & Hr & Hf). exists q. split; [exact Hr|].
    split; [by eapply represents_length|]. destruct Hr as (r & _ & _ & _ & Hc).
    apply Forall_and. split; [exact Hc|exact Hf].
  - intros Hst i buf Hi. apply linux_receives_sound; [by apply (system_bound cfg)|exact Hq|exact Hi].
  - intros f a _ Hs p Hp. by apply (cpu3_serves_sound (cpu (sees (linux y) f))).
Qed.

(** What waits in the ring at [r]. *)
Definition waiting (sh : mailmsg_shared) (r : ring_ptr) : list mailmsg_message :=
  match ring_at r sh with Some ring => ring_contents ring | None => [] end.
Lemma waiting_represents sh dir i :
  sound_queues sh -> 0 <= i < 4 -> represents (mk_ring_ptr dir i) sh (waiting sh (mk_ring_ptr dir i)).
Proof.
  intros Hs Hi. destruct (Hs dir i Hi) as (q & Hq & _). pose proof Hq as (r & Hat & _ & <- & _).
  unfold waiting. by rewrite Hat.
Qed.
End Queues.

(** * The property at a scripted session *)
#[local] Existing Instance host_platform.
#[local] Existing Instance host_cpu3.
Lemma queues_always_sound_witness :
  exists code m d', on_endpoint (mailmsg_endpoint_receive 1 message_zero) (linux duo_system) = Some ((code, m), d') /\
    (code = MAILMSG_ENDPOINT_OK \/ code = MAILMSG_RING_EMPTY /\ m = message_zero).
Proof.
  destruct (queues_always_sound default_config duo_system duo_system_reachable) as (_ & Hl & _).
  apply (Hl duo_started 1 message_zero). lia.
Defined.
