(* ===== verification/ServeSpec.v ===== *)
(** Which session CPU3 serves: in every state the two sides reach together the
    firmware either serves the rings of the block's session by the
    specification on queues, or leaves the block alone. *)
From S2P Require Import Prelude Protocol Ring Notify Endpoint Frame EndpointSpec DriverState DriverLifecycle DriverUser DriverSysfs DriverProbe DriverSpec HostDemo LifecycleSpec ControlSpec NotifySpec Firmware BlockSpec FirmwareSpec BootSpec WorkerSpec SystemSpec QueueSpec.

(** * The firmware's endpoint *)
Section Fit.
Context {platform : Cpu3Platform} {coherent : CoherentOps mailmsg_queue_memory_ops} (cfg : fw_config).
Implicit Types (s : cpu3_state) (e : mailmsg_endpoint (Z -> Z)).

(** Bound to the rings of CPU3, or to none. *)
Definition endpoint_fit (ready : bool) e : Prop :=
  hooks_ok (memory_ops e) /\
  if ready then ep_ready e mailmsg_queue_memory_ops Cpu3ToLinux mailmsg_cpu3_notify else tx e = None /\ rx e = None.
Definition fit s : Prop := endpoint_fit (mailmsg_endpoint_ready s) (cpu3_endpoint s).
Definition fit_as (ready : bool) s : Prop := mailmsg_endpoint_ready s = ready /\ endpoint_fit ready (cpu3_endpoint s).

Lemma endpoint_fit_key ready e e' : ep_key e' = ep_key e -> endpoint_fit ready e -> endpoint_fit ready e'.
Proof.
  unfold ep_key. rewrite !pair_eq. intros ((((((E1 & E2) & E3) & E4) & E5) & E6) & E7) [Hk H]. split; [by rewrite E4|].
  destruct ready; [|by rewrite E2, E3]. destruct H. split; congruence.
Qed.
#[export] Instance fit_invariant ready : Cpu3Invariant (fit_as ready) (fun w => endpoint_fit ready (ep w)).
Proof.
  assert (H : forall A (m : M (ep_world (Z -> Z)) A), pres (fun w => ep_key (ep w)) m ->
    stable (fun w => endpoint_fit ready (ep w)) m).
  { intros A m Hm. apply (stable_pres _ _ _ Hm). intros w w'. apply endpoint_fit_key. }
  split; [|by intros s []|by intros w s [H1 _] H2; split|intros; apply H, pres_send|intros; apply H, pres_receive|
    intros; apply H, pres_has_received].
  intros s s' E. unfold seen_by_endpoint in E. rewrite !pair_eq in E. destruct E as (((E1 & _) & _) & E2).
  unfold fit_as. by rewrite E1, E2.
Qed.
Lemma fit_init mem regs gic s : main_init cfg (cpu3_boot mem regs gic) = Some (tt, s) -> fit s.
Proof.
  unfold main_init. intros E. apply run_bind_inv in E as ([] & s1 & [= <-] & E).
  apply run_bind_inv in E as (ret & s2 & E2 & E). apply run_bind_inv in E as ([] & s3 & [= <-] & E).
  set (s3 := set_field _ s2) in *.
  assert (H : fit_as (ret =? MAILMSG_ENDPOINT_OK) s3).
  { split; [done|]. change (cpu3_endpoint s3) with (cpu3_endpoint s2). unfold on_cpu3_endpoint, zoom in E2.
    rewrite (run_bind_endpoint mailmsg_queue_memory_ops (Some mailmsg_cpu3_notify_endpoint)
      mailmsg_cpu3_notify MAILMSG_ENDPOINT_CPU3) in E2 by (try reflexivity; by right).
    destruct (_ || _); [by injection E2 as <- <-|]. destruct (_ =? 0) eqn:Hg; injection E2 as <- <-; [done|].
    split; [by intros ops [= <-]|]. apply (bound_endpoint_ready _ _ _ MAILMSG_ENDPOINT_CPU3); [done|].
    by apply Z.eqb_neq. }
  destruct (stable_main_rest cfg (fit_as (ret =? MAILMSG_ENDPOINT_OK)) _ _ _ _ E H) as [H1 H2]. unfold fit. by rewrite H1.
Qed.
Lemma fit_step ev f f' : (forall m g, ev <> CPeer m g) -> cpu3_handle cfg ev f = Some f' -> fit (cpu f) -> fit (cpu f').
Proof.
  intros Hown E H. destruct (cpu3_invariant_step cfg (fit_as (mailmsg_endpoint_ready (cpu f))) _ ev f f' Hown E) as [H1 H2];
    [by split|]. unfold fit. by rewrite H1.
Qed.

(** ** A block of another session *)
Definition foreign e (sh : mailmsg_shared) : Prop :=
  hooks_ok (memory_ops e) /\ (tx e = None /\ rx e = None \/ ep_generation e <> shared_generation sh).
Definition untouched (sh : mailmsg_shared) s : Prop := c_shared (mem3 s) = sh /\ foreign (cpu3_endpoint s) sh.
Definition world_untouched (sh : mailmsg_shared) (w : ep_world (Z -> Z)) : Prop := shm w = sh /\ foreign (ep w) sh.

(** The session check turns every operation away. *)
Lemma foreign_session sh w code w' : mailmsg_endpoint_session_valid w = Some (code, w') -> world_untouched sh w ->
  w' = w /\ (code = 0 -> ep_generation (ep w) = shared_generation sh).
Proof.
  intros E [Hs [Hk _]]. unfold mailmsg_endpoint_session_valid in E.
  apply run_bind_inv in E as (e & s & [= <- <-] & E). destruct (_ || _); [by injection E as <- <-|].
  apply run_bind_inv in E as ([] & w1 & E1 & E). assert (w1 = w) as ->.
  { unfold on_shared, zoom in E1. destruct (memory_ops (ep w)) as [ops|] eqn:Em; [|done].
    pose proof (Hk ops eq_refl). rewrite run_acquire in E1 by done. injection E1 as <-. by destruct w. }
  apply run_bind_inv in E as (sh' & s & [= <- <-] & E). rewrite Hs in E.
  destruct (_ || _); [by injection E as <- <-|].
  destruct (Z.eqb_spec (shared_generation sh) (ep_generation (ep w))); by injection E as <- <-.
Qed.
(** A bound endpoint goes no further than the check. *)
Lemma foreign_checked {A} sh w (refuse : Z -> A) (m : M (ep_world (Z -> Z)) A) x w' :
  (code ← mailmsg_endpoint_session_valid; if negb (code =? 0) then mret (refuse code) else m) w = Some (x, w') ->
  ~ (tx (ep w) = None /\ rx (ep w) = None) -> world_untouched sh w -> world_untouched sh w'.
Proof.
  intros E Hb Hw. apply run_bind_inv in E as (code & w1 & E1 & E).
  destruct (foreign_session sh w code w1 E1 Hw) as [-> Hc].
  destruct (Z.eqb_spec code 0) as [H0|]; cbn [negb] in E; [|by injection E as <- <-].
  destruct Hw as [_ [_ [Hn|Hn]]]; [by destruct Hb|by destruct Hn; apply Hc].
Qed.
#[export] Instance foreign_invariant sh : Cpu3Invariant (untouched sh) (world_untouched sh).
Proof.
  split; [|done|by intros [e sh' c] s _ [H1 H2]| | |].
  - intros s s' E. unfold seen_by_endpoint in E. rewrite !pair_eq in E. destruct E as (((E1 & E2) & _) & _).
    unfold untouched. by rewrite E1, E2.
  - intros prio type p len r w x w' E Hw. unfold mailmsg_endpoint_send in E.
    apply run_bind_inv in E as (e & s & [= <- <-] & E).
    destruct (tx (ep w)) as [dir|] eqn:Ht; [|by injection E as <- <-].
    destruct (memory_ops (ep w)); [|by injection E as <- <-]. destruct (_ || _); [by injection E as <- <-|].
    cbv zeta in E. eapply foreign_checked; [exact E|by rewrite Ht; intros []|exact Hw].
  - intros prio buf w x w' E Hw. unfold mailmsg_endpoint_receive in E.
    apply run_bind_inv in E as (e & s & [= <- <-] & E).
    destruct (rx (ep w)) as [dir|] eqn:Ht; [|by injection E as <- <-].
    destruct (memory_ops (ep w)); [|by injection E as <- <-]. destruct (_ <=? _); [by injection E as <- <-|].
    eapply foreign_checked; [exact E|by rewrite Ht; intros []|exact Hw].
  - intros prio w x w' E Hw. unfold mailmsg_endpoint_has_received in E.
    apply run_bind_inv in E as (e & s & [= <- <-] & E).
    destruct (rx (ep w)) as [dir|] eqn:Ht; [|by injection E as <- <-].
    destruct (memory_ops (ep w)); [|by injection E as <- <-]. destruct (_ <=? _); [by injection E as <- <-|].
    eapply foreign_checked; [exact E|by rewrite Ht; intros []|exact Hw].
Qed.
End Fit.

(** * The composed system *)
Section Serve.
Context {linux_platform : Platform} {linux_coherent : CoherentOps mailmsg_linux_memory_ops}.
Context {cpu3_platform : Cpu3Platform} {cpu3_coherent : CoherentOps mailmsg_queue_memory_ops}.
Context (cfg : fw_config).
Implicit Types (d : r1_amp_cpu_on_data) (f : fw_state).

Lemma fit_reachable y f : system_reachable cfg y -> cpu3 y = Some f -> fit (cpu f).
Proof.
  intros (d0 & _ & Hs). revert f.
  refine (star_invariant (system_step cfg) (fun y => forall f, cpu3 y = Some f -> fit (cpu f)) _ _ _ Hs _); [|done].
  intros y1 y2 H Hstep. destruct Hstep as [ev d d' c _ E|ev d f f' Hown E|gic d c s Hoff E]; cbn [cpu3] in *.
  - exact H.
  - intros f1 [= <-]. apply (fit_step cfg ev (sees d f) f' Hown E). exact (H f eq_refl).
  - intros f1 [= <-]. exact (fit_init cfg _ _ _ _ E).
Qed.

(** A block with a generation carries the protocol. *)
Lemma reachable_header y : system_reachable cfg y ->
  let sh := c_shared (carveout (linux y)) in
  shared_generation sh <> 0 -> magic sh = MAILMSG_PROTOCOL_MAGIC /\ version sh = MAILMSG_PROTOCOL_VERSION.
Proof.
  intros H sh Hg. destruct (system_reachable_inv cfg y H) as [_ [[_ Hh _ _ Hz] _]].
  destruct (decide (session_generation (linux y) = 0)) as [E|E]; [by destruct Hg; apply Hz|].
  specialize (Hh E). unfold header, session_header in Hh. by injection Hh as H1 H2 _.
Qed.

(** CPU3 came up on the session the block carries now. *)
Definition of_session d f : Prop :=
  mailmsg_endpoint_ready (cpu f) = true /\
  ep_generation (cpu3_endpoint (cpu f)) = shared_generation (c_shared (carveout d)).
(** The eight queues in the rings, and the rest of what the specification of
    the service sees. *)
Definition queues_in d f : queues :=
  let sh := c_shared (carveout d) in
  mk_queues (fun p => waiting sh (mk_ring_ptr LinuxToCpu3 p)) (fun p => waiting sh (mk_ring_ptr Cpu3ToLinux p))
    (next_sequence (cpu3_endpoint (cpu f))) (ep_generation (cpu3_endpoint (cpu f))) (core (cpu f)) (irq_lines (cpu f)).

Lemma reachable_serving y f : system_reachable cfg y -> cpu3 y = Some f -> of_session (linux y) f ->
  serving (cpu (sees (linux y) f)) (queues_in (linux y) f).
Proof.
  intros H Hf [Hr Hg]. destruct (fit_reachable y f H Hf) as [_ He]. rewrite Hr in He.
  destruct (reachable_header y H) as [Hm Hv]; [rewrite <-Hg; apply He|].
  destruct (system_reachable_inv cfg y H) as [_ [[_ _ _ Hq _] _]].
  split; try done; intros p Hp; by apply waiting_represents.
Qed.

Lemma reachable_foreign y f : system_reachable cfg y -> cpu3 y = Some f -> ~ of_session (linux y) f ->
  untouched (c_shared (carveout (linux y))) (cpu (sees (linux y) f)).
Proof.
  intros H Hf Ho. split; [done|]. destruct (fit_reachable y f H Hf) as [Hk He]. split; [exact Hk|].
  destruct (mailmsg_endpoint_ready (cpu f)) eqn:Hr; [right|left; exact He]. intros Hg. by apply Ho.
Qed.

(** The worker has served [pending] with the queues [a] and the result [x]. *)
Record serves_as f (a : queues) (x : option (Z * Z * Z)) (pending : Z) : Prop := {
  sa_serving : serving (cpu f) a;
  sa_pc : pc f = match x with Some (_, last, reschedule) => WServed pending last reschedule | None => WWaiting end;
}.

(** C26. CPU3 serves the session its endpoint was bound to, and no other. In
    every state the two sides reach together: when the firmware came up on the
    session the block carries now, its rings, its endpoint and the eight queues
    are those of the specification, and the worker's service of whatever set it
    has claimed gives the queues and the results of [q_service]; when it did
    not - it found no valid block at boot, or Linux has started a new session
    over it - nothing CPU3 does changes the block. *)
Theorem serves_its_session_only y f :
  system_reachable cfg y -> cpu3 y = Some f ->
  (of_session (linux y) f ->
     serving (cpu (sees (linux y) f)) (queues_in (linux y) f) /\
     forall pending, pc f = WClaimed pending -> pending <> 0 -> core (cpu f) = CoreRunning ->
       MAILMSG_TEST_SKIP_SESSION_READY cfg || mailmsg_session_ready_published (cpu f) = true ->
       exists x a' f', q_service cfg pending MAILMSG_PRIORITY_COUNT 0 (queues_in (linux y) f) = Some (x, a') /\
         cpu3_handle cfg CWorker (sees (linux y) f) = Some f' /\ serves_as f' a' x pending) /\
  (~ of_session (linux y) f -> forall ev f', (forall m g, ev <> CPeer m g) ->
     cpu3_handle cfg ev (sees (linux y) f) = Some f' ->
     c_shared (mem3 (cpu f')) = c_shared (carveout (linux y))).
Proof.
  intros H Hf. split.
  - intros Ho. pose proof (reachable_serving y f H Hf Ho) as Hs. split; [exact Hs|]. intros pending Hpc Hne Hco Hpub.
    set (s1 := cpu (sees (linux y) f) <| mailmsg_worker_drain_count := u32 (mailmsg_worker_drain_count (cpu f) + 1) |>).
    destruct (total_q_service cfg pending MAILMSG_PRIORITY_COUNT 0 (queues_in (linux y) f)) as (x & a' & E).
    assert (Hs1 : serving s1 (queues_in (linux y) f)) by by apply (serving_same (cpu (sees (linux y) f))).
    destruct (service_refines cfg pending MAILMSG_PRIORITY_COUNT 0 s1 _ x a' Hs1 (proj1 Ho) Hpub E) as (s2 & R & Hs2 & _).
    assert (Rw : worker_serve cfg pending (cpu (sees (linux y) f)) = _) by exact (run_worker_serve cfg pending _ x s2 R).
    exists x, a'. unfold cpu3_handle. cbv zeta. change (core (cpu (sees (linux y) f))) with (core (cpu f)).
    rewrite Hco, bool_decide_true by done. cbn [negb]. unfold worker_step. change (pc (sees (linux y) f)) with (pc f).
    rewrite Hpc, (proj2 (Z.eqb_neq _ _) Hne), Rw.
    destruct x as [[[messages last] reschedule]|]; eexists; (split; [exact E|split; [reflexivity|split; [|done]]]);
      [by eapply (serving_same s2)|exact Hs2].
  - intros Ho ev f' Hown E. apply (cpu3_invariant_step cfg (untouched (c_shared (carveout (linux y)))) _ ev _ f' Hown E).
    by apply reachable_foreign.
Qed.
End Serve.

(** * The property at a scripted session *)
#[local] Existing Instance host_platform.
#[local] Existing Instance host_cpu3.

(** Linux sends a PING on p1; the interrupt comes; the worker takes the
    semaphore and claims the pending set. *)
Definition claim_frame : mailmsg_user_frame := mk_user_frame 1 MAILMSG_MSG_PING 0 4 (store_u32 (replicate 32 0) 0 41).
Definition claim_events : list driver_event := [EvWrite 7 (Some claim_frame) sizeof_user_frame].
Definition claim_linux : r1_amp_cpu_on_data := default duo_linux (run_events claim_events duo_linux).
Fixpoint cpu3_turns (evs : list cpu3_event) (d : r1_amp_cpu_on_data) (f : fw_state) : option (r1_amp_cpu_on_data * fw_state) :=
  match evs with
  | [] => Some (d, f)
  | ev :: evs => f' ← cpu3_handle default_config ev (sees d f); cpu3_turns evs (leaves (cpu f') d) f'
  end.
Definition claim_pair : r1_amp_cpu_on_data * fw_state :=
  default (claim_linux, duo_fw) (cpu3_turns [CIsr 1; CWorker; CWorker] claim_linux duo_fw).
Definition claim_system : system := mk_system claim_pair.1 (Some claim_pair.2).

Lemma cpu3_turns_steps evs : Forall (fun ev => forall m g, ev <> CPeer m g) evs -> forall d f d' f',
  cpu3_turns evs d f = Some (d', f') ->
  star (system_step default_config) (mk_system d (Some f)) (mk_system d' (Some f')).
Proof.
  intros H. induction H as [|ev evs Hev _ IH]; intros d f d' f'; cbn [cpu3_turns]; [intros [= <- <-]; constructor|].
  destruct (cpu3_handle default_config ev (sees d f)) as [f1|] eqn:E; [|done]. intros R.
  eapply star_trans; [eapply star_snoc; [constructor|by eapply step_cpu3]|by apply IH].
Qed.
Lemma claim_reachable : system_reachable default_config claim_system.
Proof.
  destruct duo_reachable as (d0 & Hp & Hs). exists d0. split; [exact Hp|]. eapply star_trans; [exact Hs|].
  assert (R : run_events claim_events duo_linux = Some claim_linux).
  { assert (B : match run_events claim_events duo_linux with Some _ => true | None => false end = true)
      by (vm_compute; reflexivity).
    unfold claim_linux. by destruct (run_events claim_events duo_linux). }
  eapply star_trans; [apply (linux_steps claim_events); [by repeat constructor|exact R]|].
  apply (cpu3_turns_steps [CIsr 1; CWorker; CWorker]); [by repeat constructor|].
  assert (B : match cpu3_turns [CIsr 1; CWorker; CWorker] claim_linux duo_fw with Some _ => true | None => false end
    = true) by (vm_compute; reflexivity).
  unfold claim_pair. destruct (cpu3_turns _ claim_linux duo_fw) as [[d f]|]; done.
Qed.
Lemma serves_its_session_only_witness :
  exists x a f, q_service default_config 2 MAILMSG_PRIORITY_COUNT 0 (queues_in (linux claim_system) claim_pair.2) = Some (x, a) /\
    cpu3_handle default_config CWorker (sees (linux claim_system) claim_pair.2) = Some f /\ serves_as f a x 2.
Proof.
  destruct (serves_its_session_only default_config claim_system claim_pair.2 claim_reachable eq_refl) as [Hs _].
  destruct Hs as [_ Hs]; [split; vm_compute; reflexivity|].
  destruct (Hs 2) as (x & a & f & E & R & H); [vm_compute; reflexivity|done|vm_compute; reflexivity|vm_compute; reflexivity|].
  exists x, a, f. split; [exact E|]. split; [exact R|exact H].
Defined.
