(* ===== verification/DebtSpec.v ===== *)
(** How much CPU3 can still send: every frame it takes is answered by at most
    two, and the session is announced once.  So the frames in the reverse
    rings, twice those in the forward rings and the announcement still to come
    bound what Linux will ever read unless it writes again. *)
From S2P Require Import Prelude Protocol Ring Notify Endpoint Frame DriverState DriverLifecycle DriverUser DriverSysfs DriverProbe DriverSpec HostDemo Firmware BlockSpec FirmwareSpec BootSpec WorkerSpec SystemSpec QueueSpec ServeSpec.

(** * On the queues of the specification *)
Definition backlog (q : Z -> list mailmsg_message) : nat := sum_list (map (fun p => length (q p)) priorities).
Definition debt (a : queues) : nat := (backlog (txq a) + 2 * backlog (rxq a))%nat.

Lemma backlog_upd p q f : 0 <= p < 4 -> (backlog (upd_queue p q f) + length (f p) = backlog f + length q)%nat.
Proof.
  intros Hp. unfold backlog, upd_queue, priorities. cbn [map sum_list sum_list_with foldr].
  assert (p = 0 \/ p = 1 \/ p = 2 \/ p = 3) as [-> | [-> | [-> | ->]]] by lia; cbn; lia.
Qed.
Lemma backlog_append p m f : (backlog (upd_queue p (f p ++ [m]) f) <= backlog f + 1)%nat.
Proof.
  destruct (decide (0 <= p < 4)) as [Hp|Hp].
  - pose proof (backlog_upd p (f p ++ [m]) f Hp) as H. rewrite length_app in H. cbn [length] in H. lia.
  - unfold backlog, upd_queue, priorities. cbn [map sum_list sum_list_with foldr].
    rewrite !(proj2 (Z.eqb_neq _ p)) by lia. lia.
Qed.

(** [m] adds at most [n] to the debt. *)
Definition adds {A} (n : nat) (m : M queues A) : Prop := keeps (fun a a' => (debt a' <= debt a + n)%nat) m.

Lemma adds_ret {A} (x : A) : adds 0 (mret x).
Proof. intros a y a' [= <- <-]. lia. Qed.
Lemma adds_gets {A} (f : queues -> A) : adds 0 (gets f).
Proof. intros a y a' [= <- <-]. lia. Qed.
Lemma adds_bind {A B} n1 n2 (m : M queues A) (k : A -> M queues B) :
  adds n1 m -> (forall x, adds n2 (k x)) -> adds (n1 + n2) (x ← m; k x).
Proof.
  intros Hm Hk a y a' E. apply run_bind_inv in E as (x & a1 & E1 & E2).
  specialize (Hm _ _ _ E1). specialize (Hk _ _ _ _ E2). cbn in *. lia.
Qed.
Lemma adds_weaken {A} n n' (m : M queues A) : adds n m -> (n <= n')%nat -> adds n' m.
Proof. intros Hm Hn a y a' E. specialize (Hm _ _ _ E). cbn in *. lia. Qed.
Lemma adds_when b n (m : M queues unit) : adds n m -> adds n (when b m).
Proof. destruct b; [done|intros _]. eapply adds_weaken; [apply adds_ret|lia]. Qed.
(** A refused send adds nothing. *)
Lemma send_debt priority type bytes len a ok a' :
  q_send priority type bytes len a = Some (ok, a') -> (debt a' <= debt a + (if ok : bool then 1 else 0))%nat.
Proof.
  intros E. unfold q_send in E. apply run_bind_inv in E as (b & s & [= <- <-] & E).
  apply run_bind_inv in E as ([] & s & [= <-] & E). destruct (_ =? 7)%nat; [injection E as <- <-; unfold debt; cbn; lia|].
  apply run_bind_inv in E as ([] & s & [= <-] & E). injection E as <- <-. unfold debt. cbn [txq rxq set_field].
  pose proof (backlog_append priority (new_frame (q_gen a) (q_next a) type bytes len) (txq a)). lia.
Qed.
Lemma adds_send priority type bytes len : adds 1 (q_send priority type bytes len).
Proof. intros a ok a' E. apply send_debt in E. destruct ok; lia. Qed.

Section Service.
Context {platform : Cpu3Platform} (cfg : fw_config).

Lemma adds_core_off : adds 0 q_core_off.
Proof. intros a y a' [= <- <-]. unfold debt. cbn. lia. Qed.
Lemma adds_handle priority request : adds 2 (q_handle cfg priority request).
Proof.
  assert (Hret : forall n b, adds n (mret (M := M queues) (b : bool))).
  { intros. eapply adds_weaken; [apply adds_ret|lia]. }
  unfold q_handle, q_feedback, q_reply. destruct (_ && _).
  - destruct (negb _); [apply (adds_bind 1 1); [apply adds_send|done]|].
    destruct (MAILMSG_ENABLE_STOP_CONTROL cfg); [|apply (adds_bind 1 1); [apply adds_send|done]].
    apply (adds_bind 1 1); [apply adds_send|intros [|]; [|done]].
    apply (adds_bind 0 1); [apply adds_core_off|done].
  - destruct (self_off_request _ _ _); [apply (adds_bind 0 2); [apply adds_core_off|done]|].
    apply (adds_bind 1 1); [apply adds_when, (adds_bind 1 0); [apply adds_send|intros; apply adds_ret]|intros _].
    apply (adds_bind 1 0); [apply adds_send|done].
Qed.
Lemma adds_reject priority code request : adds 1 (q_reject priority code request).
Proof. apply adds_when, (adds_bind 1 0); [apply adds_send|intros; apply adds_ret]. Qed.

(** A frame taken makes room for its two answers. *)
Lemma receive_pays {A} priority (k : option mailmsg_message -> M queues A) :
  0 <= priority < 4 -> adds 0 (k None) -> (forall m, adds 2 (k (Some m))) -> adds 0 (r ← q_receive priority; k r).
Proof.
  intros Hp Hnone Hsome a y a' E. apply run_bind_inv in E as (r & a1 & E1 & E).
  unfold q_receive in E1. apply run_bind_inv in E1 as (b & s & [= <- <-] & E1).
  destruct (rxq a priority) as [|m q] eqn:Hq; [injection E1 as <- <-; exact (Hnone _ _ _ E)|].
  apply run_bind_inv in E1 as ([] & s & [= <-] & E1). injection E1 as <- <-.
  specialize (Hsome m _ _ _ E). pose proof (backlog_upd priority q (rxq a) Hp) as Hb. rewrite Hq in Hb.
  unfold debt in *. cbn in *. lia.
Qed.
Lemma adds_priority turns priority : 0 <= priority < 4 -> forall messages, adds 0 (q_priority cfg turns priority messages).
Proof.
  intros Hp. induction turns as [|turns IH]; intros messages; cbn [q_priority]; [apply adds_ret|].
  apply receive_pays; [done|apply adds_ret|]. intros m. apply (adds_bind 0 2); [apply adds_gets|intros gen]. cbv zeta.
  destruct (_ =? 0).
  - apply (adds_bind 2 0); [apply adds_handle|intros [|]; [apply IH|apply adds_ret]].
  - destruct (_ || _); [|eapply adds_weaken; [apply adds_ret|lia]].
    eapply adds_weaken; [apply (adds_bind 1 0); [apply adds_reject|intros; apply adds_ret]|lia].
Qed.
Lemma adds_service pending last reschedule : adds 0 (q_service cfg pending last reschedule).
Proof.
  unfold q_service. assert (H : forall ps, Forall (fun p => 0 <= p < 4) ps -> forall messages last reschedule,
    adds 0 (q_priorities cfg ps pending messages last reschedule)).
  { intros ps Hps. induction Hps as [|p ps Hp _ IH]; intros; cbn [q_priorities]; [apply adds_ret|].
    destruct (_ || _); [apply IH|]. apply (adds_bind 0 0); [by apply adds_priority|intros [[reached messages']|]; [|apply adds_ret]].
    apply (adds_bind 0 0); [apply adds_gets|intros rest; apply IH]. }
  apply H. by repeat constructor.
Qed.
End Service.

(** * On the firmware *)

(** The same of the rings of a block. *)
Definition block_debt (sh : mailmsg_shared) : nat :=
  (backlog (fun p => waiting sh (mk_ring_ptr Cpu3ToLinux p)) +
   2 * backlog (fun p => waiting sh (mk_ring_ptr LinuxToCpu3 p)))%nat.
(** The announcement, until its frame is committed. *)
Definition to_announce (s : cpu3_state) : nat := if mailmsg_session_ready_committed s then 0%nat else 1%nat.
Definition owes (s : cpu3_state) : nat := (block_debt (c_shared (mem3 s)) + to_announce s)%nat.

Lemma represents_waiting r sh q : represents r sh q -> waiting sh r = q.
Proof. intros (ring & Hat & _ & <- & _). unfold waiting. by rewrite Hat. Qed.
Lemma backlog_ext q q' : (forall p, 0 <= p < 4 -> q p = q' p) -> backlog q = backlog q'.
Proof. intros H. unfold backlog, priorities. cbn. by rewrite !H by lia. Qed.
Lemma serving_debt `{platform : Cpu3Platform} s a : serving s a -> block_debt (c_shared (mem3 s)) = debt a.
Proof.
  intros []. unfold block_debt, debt. f_equal; [|f_equal]; apply backlog_ext; intros p Hp; apply represents_waiting; auto.
Qed.

Section Owes.
Context {platform : Cpu3Platform} {coherent : CoherentOps mailmsg_queue_memory_ops} (cfg : fw_config).
Implicit Types (s : cpu3_state).

(** What the debt depends on; most of the firmware leaves it alone. *)
Definition dview s := (c_shared (mem3 s), mailmsg_session_ready_committed s).
Lemma owes_view s s' : dview s' = dview s -> owes s' = owes s.
Proof. unfold dview, owes, to_announce. by intros [= -> ->]. Qed.
Lemma dview_publish_worker x y : pres dview (mailmsg_publish_worker_observation x y).
Proof. unfold mailmsg_publish_worker_observation, upd_mem. pres_auto. Qed.
Lemma dview_read controller offset : pres dview (sys_read32_mailbox controller offset).
Proof. unfold sys_read32_mailbox. pres_auto. Qed.
Lemma dview_write value controller offset : pres dview (sys_write32_mailbox value controller offset).
Proof. unfold sys_write32_mailbox. pres_auto. Qed.
#[local] Hint Resolve dview_publish_worker dview_read dview_write : pres.
Lemma dview_isr index : pres dview (mailmsg_mailbox_a2b_matrix_isr index).
Proof. unfold mailmsg_mailbox_a2b_matrix_isr, observe, upd_mem, k_sem_give. pres_auto. Qed.
Lemma dview_merge reschedule : pres dview (worker_merge reschedule).
Proof. unfold worker_merge. pres_auto. Qed.
Lemma dview_finish pending last reschedule : pres dview (worker_finish pending last reschedule).
Proof. unfold worker_finish, k_sem_give. pres_auto. Qed.
Lemma dview_empty : pres dview worker_empty.
Proof. unfold worker_empty. pres_auto. Qed.

(** CPU3 serves the block, or leaves it alone. *)
Definition attached s : Prop :=
  (exists a, serving s a /\ mailmsg_endpoint_ready s = true) \/ exists sh, untouched sh s.
Lemma attached_same s s' : seen_by_endpoint s' = seen_by_endpoint s -> core s' = core s -> irq_lines s' = irq_lines s ->
  attached s -> attached s'.
Proof.
  intros E Hc Hl [(a & Hs & Hr)|(sh & H)]; [left; exists a|right; exists sh; by apply (ci_seen s)].
  unfold seen_by_endpoint in E. rewrite !pair_eq in E. destruct E as (((E1 & E2) & _) & E3).
  split; [by apply (serving_same s)|by rewrite E3].
Qed.

(** Announcing costs what was set aside for it. *)
Lemma owes_announce s s' : attached s -> mailmsg_service_session_ready s = Some (tt, s') -> (owes s' <= owes s)%nat.
Proof.
  intros Hs E. destruct (mailmsg_endpoint_ready s) eqn:Hr; [|rewrite run_ready_idle in E by auto; by injection E as <-].
  destruct (mailmsg_session_ready_published s) eqn:Hp; [rewrite run_ready_idle in E by auto; by injection E as <-|].
  destruct (mailmsg_session_ready_committed s) eqn:Hc.
  { destruct (run_ready_again s Hr Hp Hc) as (s1 & E1 & Hm & _ & _ & Hc1 & _). rewrite E1 in E. injection E as ->.
    unfold owes, to_announce. by rewrite Hm, Hc, Hc1. }
  destruct Hs as [(a & Hs & _)|(sh & Hu)].
  - destruct (run_ready_first s a Hs Hr Hp Hc) as (ok & a' & s1 & Eq & E1 & Hs1 & _ & Hc1 & _). rewrite E1 in E. injection E as ->.
    apply send_debt in Eq. unfold owes, to_announce. rewrite (serving_debt _ _ Hs), (serving_debt _ _ Hs1), Hc, Hc1.
    destruct ok; lia.
  - assert (Hu' : untouched sh s') by exact (stable_session_ready _ _ _ _ _ E Hu). destruct Hu as [Hu _], Hu' as [Hu' _].
    unfold owes, to_announce. rewrite Hu, Hu', Hc. destruct (mailmsg_session_ready_committed s'); lia.
Qed.

(** The worker's service: on the queues, or none before the announcement. *)
Lemma idle_service pending last reschedule s :
  MAILMSG_TEST_SKIP_SESSION_READY cfg || mailmsg_session_ready_published s = false ->
  mailmsg_pingpong_test_service cfg pending last reschedule s = Some (Some (0, last, reschedule), s).
Proof.
  intros [Hsk Hp]%orb_false_iff. unfold mailmsg_pingpong_test_service. step. rewrite Hsk, Hp.
  by destruct (mailmsg_endpoint_ready s).
Qed.
Lemma serve_debt pending s a r s' :
  serving s a -> mailmsg_endpoint_ready s = true -> worker_serve cfg pending s = Some (r, s') ->
  (block_debt (c_shared (mem3 s')) <= block_debt (c_shared (mem3 s)))%nat.
Proof.
  intros Hs Hr E. set (s1 := s <| mailmsg_worker_drain_count := u32 (mailmsg_worker_drain_count s + 1) |>).
  destruct (MAILMSG_TEST_SKIP_SESSION_READY cfg || mailmsg_session_ready_published s) eqn:Hp.
  - destruct (total_q_service cfg pending MAILMSG_PRIORITY_COUNT 0 a) as (x & a' & Eq).
    assert (Hs1 : serving s1 a) by by apply (serving_same s).
    destruct (service_refines cfg pending MAILMSG_PRIORITY_COUNT 0 s1 a x a' Hs1 Hr Hp Eq) as (s2 & R & Hs2 & _).
    rewrite (run_worker_serve cfg pending s x s2 R) in E. apply adds_service in Eq.
    rewrite (serving_debt _ _ Hs). rewrite <-(serving_debt _ _ Hs2) in Eq.
    destruct x as [[[m l] rs]|]; injection E as <- <-; cbn [mem3 set_field]; lia.
  - rewrite (run_worker_serve cfg pending s _ _ (idle_service pending MAILMSG_PRIORITY_COUNT 0 s1 Hp)) in E.
    by injection E as <- <-.
Qed.
Lemma owes_serve pending s r s' : attached s -> worker_serve cfg pending s = Some (r, s') -> (owes s' <= owes s)%nat.
Proof.
  intros Hs E. pose proof (fview_serve cfg pending _ _ _ E) as Hv. unfold fview in Hv. rewrite !pair_eq in Hv.
  destruct Hv as ((((_ & _) & _) & Hc) & _). unfold owes, to_announce. rewrite Hc. apply Nat.add_le_mono_r.
  destruct Hs as [(a & Hs & Hr)|(sh & Hu)]; [by eapply serve_debt|].
  assert (Hu' : untouched sh s') by exact (stable_worker_serve cfg _ _ _ _ _ _ E Hu). by destruct Hu as [-> _], Hu' as [-> _].
Qed.

(** A turn of the main loop. *)
Lemma owes_main_loop s s' : attached s -> main_loop cfg s = Some (tt, s') -> (owes s' <= owes s)%nat.
Proof.
  intros Hs E. set (v := fun s => (seen_by_endpoint s, core s, irq_lines s, mailmsg_session_ready_committed s)).
  assert (Hv : forall s s', v s' = v s -> owes s' = owes s /\ (attached s -> attached s')).
  { intros t t' H. unfold v in H. rewrite !pair_eq in H. destruct H as (((H1 & H2) & H3) & H4).
    split; [|by apply attached_same]. apply owes_view. unfold seen_by_endpoint in H1. rewrite !pair_eq in H1.
    destruct H1 as (((_ & H1) & _) & _). unfold dview. congruence. }
  unfold main_loop in E. apply run_bind_inv in E as (t & s0 & [= <- <-] & E). cbv zeta in E.
  apply run_bind_inv in E as ([] & s1 & E1 & E). apply run_bind_inv in E as ([] & s2 & E2 & E).
  destruct (Hv s s1) as [H1 Ha]; [|specialize (Ha Hs)].
  { revert E1. eapply (pres_when v). unfold mailmsg_send_b2a_ack, observe, upd_mem, sys_read32_mailbox, sys_write32_mailbox.
    cbn [Z.eqb]. pres_auto. }
  assert (H2 : (owes s2 <= owes s1)%nat).
  { revert E2. destruct (negb _); cbn [when]; [by apply owes_announce|by intros [= <-]]. }
  destruct (Hv s2 s') as [H3 _]; [|lia]. revert E.
  match goal with |- ?m s2 = _ -> _ => assert (H : pres v m) end; [|apply H].
  unfold r1_amp_checkpoint_c, upd_mem. pres_auto.
Qed.

(** Nothing CPU3 does raises the debt. *)
Lemma owes_step ev f f' : (forall m g, ev <> CPeer m g) -> attached (cpu f) -> cpu3_handle cfg ev f = Some f' ->
  (owes (cpu f') <= owes (cpu f))%nat.
Proof.
  intros Hown Hs E. unfold cpu3_handle in E. cbv zeta in E.
  destruct ev as [index| | |m g]; try (destruct (negb (bool_decide _)); [done|]); [| | |by destruct (Hown m g)].
  - destruct (negb _); [done|]. destruct (mailmsg_mailbox_a2b_matrix_isr index (cpu f)) as [[[] s1]|] eqn:R; [|done].
    injection E as <-. apply dview_isr in R. cbn [cpu]. by rewrite (owes_view _ _ R).
  - unfold worker_step in E. assert (Hv : forall A (m : F A) a s', pres dview m -> m (cpu f) = Some (a, s') ->
      (owes s' <= owes (cpu f))%nat) by (intros A m a s' Hm R; by rewrite (owes_view _ _ (Hm _ _ _ R))).
    destruct (pc f) as [| |pending|pending last reschedule|pending last reschedule].
    + destruct (_ =? 0); [done|]. by injection E as <-.
    + by injection E as <-.
    + destruct (pending =? 0).
      * destruct (worker_empty _) as [[[] s']|] eqn:R; [|done]. injection E as <-. eapply Hv, R. apply dview_empty.
      * destruct (worker_serve cfg pending _) as [[r s']|] eqn:R; [|done]. apply owes_serve in R; [|done].
        by destruct r as [[last reschedule]|]; injection E as <-.
    + destruct (worker_merge _ _) as [[[] s']|] eqn:R; [|done]. injection E as <-. eapply Hv, R. apply dview_merge.
    + destruct (worker_finish _ _ _ _) as [[[] s']|] eqn:R; [|done]. injection E as <-. eapply Hv, R. apply dview_finish.
  - destruct (pc f); try done. destruct (main_loop cfg (cpu f)) as [[[] s1]|] eqn:R; [|done]. injection E as <-.
    by apply owes_main_loop in R.
Qed.
End Owes.

(** * On the composed system *)
Section System.
Context {linux_platform : Platform} {linux_coherent : CoherentOps mailmsg_linux_memory_ops}.
Context {cpu3_platform : Cpu3Platform} {cpu3_coherent : CoherentOps mailmsg_queue_memory_ops}.
Context (cfg : fw_config).
Implicit Types (y : system) (d : r1_amp_cpu_on_data).

Definition system_owes y : nat :=
  (block_debt (c_shared (carveout (linux y))) + match cpu3 y with Some f => to_announce (cpu f) | None => 0 end)%nat.

#[export] Instance of_session_dec d f : Decision (of_session d f) := and_dec _ _.
Lemma reachable_attached y f : system_reachable cfg y -> cpu3 y = Some f -> attached (cpu (sees (linux y) f)).
Proof.
  intros H Hf. destruct (decide (of_session (linux y) f)) as [Ho|Ho].
  - left. eexists. split; [by apply (reachable_serving cfg y)|apply Ho].
  - right. eexists. by apply (reachable_foreign cfg y).
Qed.
Lemma cpu3_debt ev y f f' : system_reachable cfg y -> cpu3 y = Some f -> (forall m g, ev <> CPeer m g) ->
  cpu3_handle cfg ev (sees (linux y) f) = Some f' ->
  (system_owes (mk_system (leaves (cpu f') (linux y)) (Some f')) <= system_owes y)%nat.
Proof.
  intros H Hf Hown E. unfold system_owes. rewrite Hf. cbn [linux cpu3].
  exact (owes_step cfg ev _ f' Hown (reachable_attached y f H Hf) E).
Qed.

(** ** What Linux does besides sending *)
Definition indebted (h : Z * Z * Z) (n : nat) (sh : mailmsg_shared) : Prop :=
  block_sound h sh /\ (block_debt sh <= n)%nat.
Lemma debt_of_rings sh sh' : (forall dir i, 0 <= i < 4 ->
    (length (waiting sh' (mk_ring_ptr dir i)) <= length (waiting sh (mk_ring_ptr dir i)))%nat) ->
  (block_debt sh' <= block_debt sh)%nat.
Proof.
  intros H.
  assert (Hb : forall dir, (backlog (fun p => waiting sh' (mk_ring_ptr dir p)) <= backlog (fun p => waiting sh (mk_ring_ptr dir p)))%nat).
  { intros dir. unfold backlog, priorities. cbn.
    pose proof (H dir 0 ltac:(lia)). pose proof (H dir 1 ltac:(lia)). pose proof (H dir 2 ltac:(lia)).
    pose proof (H dir 3 ltac:(lia)). lia. }
  unfold block_debt. pose proof (Hb Cpu3ToLinux). pose proof (Hb LinuxToCpu3). lia.
Qed.
Lemma debt_taken sh sh' i q m : 0 <= i < 4 ->
  waiting sh (mk_ring_ptr Cpu3ToLinux i) = m :: q -> represents (mk_ring_ptr Cpu3ToLinux i) sh' q ->
  same_but (mk_ring_ptr Cpu3ToLinux i) sh sh' -> (block_debt sh' < block_debt sh)%nat.
Proof.
  intros Hi Hw Hq%represents_waiting (_ & _ & _ & Hs).
  assert (Ho : forall p, p <> mk_ring_ptr Cpu3ToLinux i -> waiting sh' p = waiting sh p).
  { intros p Hp. unfold waiting. by rewrite Hs. }
  assert (Hf : forall p, waiting sh' (mk_ring_ptr LinuxToCpu3 p) = waiting sh (mk_ring_ptr LinuxToCpu3 p)) by (intros; by apply Ho).
  assert (Hr : forall p, p <> i -> waiting sh' (mk_ring_ptr Cpu3ToLinux p) = waiting sh (mk_ring_ptr Cpu3ToLinux p))
    by (intros p Hp; apply Ho; by intros [= ->]).
  unfold block_debt, backlog, priorities. cbn [map sum_list sum_list_with foldr]. rewrite !Hf.
  assert (i = 0 \/ i = 1 \/ i = 2 \/ i = 3) as [-> | [-> | [-> | ->]]] by lia; rewrite Hw, Hq, !Hr by done; cbn; lia.
Qed.
(** What a ring operation does to the frames waiting. *)
Lemma sound_waiting h sh r ring : block_sound h sh -> ring_at r sh = Some ring -> represents r sh (waiting sh r).
Proof.
  intros [Hb Hs] Hr. pose proof (block_ring_index h r sh ring Hb Hr) as Hi. destruct r. by apply waiting_represents.
Qed.
Lemma same_waiting r sh sh' r' : same_but r sh sh' -> r' <> r -> waiting sh' r' = waiting sh r'.
Proof. intros (_ & _ & _ & Hs) H. unfold waiting. by rewrite Hs. Qed.
Lemma waiting_pop h o r m sh x sh' : CoherentOps o -> block_sound h sh ->
  mailmsg_ring_pop r (Some o) m sh = Some (x, sh') ->
  waiting sh' r = tail (waiting sh r) /\ forall r', r' <> r -> waiting sh' r' = waiting sh r'.
Proof.
  intros Ho Hb E. destruct (run_needs_ring _ _ _ _ _ E) as [ring Hr].
  destruct (pop_refines o r m sh _ (sound_waiting h sh r ring Hb Hr)) as (sh1 & R & Hq & Hsame).
  assert (sh1 = sh') as -> by congruence. split; [|intros r'; by apply same_waiting].
  rewrite (represents_waiting _ _ _ Hq). by destruct (waiting sh r).
Qed.
Lemma waiting_push h o r m sh x sh' : CoherentOps o -> block_sound h sh ->
  mailmsg_ring_push r (Some o) m sh = Some (x, sh') ->
  (waiting sh r) `prefix_of` (waiting sh' r) /\ forall r', r' <> r -> waiting sh' r' = waiting sh r'.
Proof.
  intros Ho Hb E. destruct (run_needs_ring _ _ _ _ _ E) as [ring Hr].
  destruct (push_refines o r m sh _ (sound_waiting h sh r ring Hb Hr)) as (sh1 & R & Hq & Hsame & _).
  assert (sh1 = sh') as -> by congruence. split; [|intros r'; by apply same_waiting].
  rewrite (represents_waiting _ _ _ Hq). unfold Queue.push.
  destruct (frame_invalid m); [done|]. destruct (_ =? _)%nat; [done|]. by apply prefix_app_r.
Qed.
Lemma pop_pays h n ops p m : hooks_ok ops -> stable (indebted h n) (mailmsg_ring_pop p ops m).
Proof.
  intros Hk. destruct ops as [o|]; [|apply sound_no_hooks].
  intros sh a sh' E [Hb Hn]. split; [by eapply sound_pop; [by apply Hk|exact E|]|].
  destruct (waiting_pop h o p m sh a sh' (Hk o eq_refl) Hb E) as [Hp Ho].
  etransitivity; [|exact Hn]. apply debt_of_rings. intros dir i _.
  destruct (decide (mk_ring_ptr dir i = p)) as [->|Hne]; [rewrite Hp; by destruct (waiting sh p); cbn; lia|by rewrite Ho].
Qed.

(** The driver's own activity: the mailbox callback and the three works. *)
Definition background (ev : driver_event) : Prop :=
  match ev with
  | EvMailbox _ _ | EvAffinityWork _ | EvControlWork _ _ | EvTimeoutWork _ => True
  | _ => False
  end.
#[export] Instance background_dec ev : Decision (background ev).
Proof. unfold Decision. destruct ev; (left; exact I) || (right; exact (fun H => H)). Defined.
Lemma background_own ev : background ev -> own_event ev.
Proof. by destruct ev. Qed.

Lemma background_debt ev d d' : background ev -> block_inv d -> handle ev d = Some d' ->
  (block_debt (c_shared (carveout d')) <= block_debt (c_shared (carveout d)))%nat.
Proof.
  intros Hev Hd E. set (n := block_debt (c_shared (carveout d))).
  set (B := indebted (header (c_shared (carveout d))) n).
  set (K := linux_keeps B (session_generation d) (cpu3_lines (carveout d))).
  assert (Hk : K d) by (destruct (block_inv_keeps d Hd) as (H1 & H2); by split).
  enough (K d') by by destruct H as [[_ H] _].
  assert (Hrun : forall A (m : D A) d0, stable K m -> K d0 -> run_event m d0 = Some d' -> K d').
  { intros A m d0 Hm H0 R. apply run_event_inv in R as [a R]. by eapply Hm. }
  destruct ev; try done; cbn [handle] in E.
  - eapply Hrun, E; [apply stable_callback|exact Hk].
  - destruct (affinity_work d); [|done]. eapply Hrun, E; [apply stable_affinity_work|exact Hk].
  - destruct (control_work d); [|done]. destruct (r1_amp_mailmsg_control_work _ _ _) as [[[] d1]|] eqn:R; [|done..].
    injection E as <-. refine (stable_control_receive B _ _ _ _ _ _ _ _ R Hk). intros buf.
    apply stable_on_endpoint, stable_receive_pops. intros ops p m Hops _. by apply pop_pays.
  - destruct (lifecycle_timeout_work d); [|done]. eapply Hrun, E; [apply stable_timeout_work|exact Hk].
Qed.

(** A step of the system in which userspace starts nothing. *)
Inductive quiet_step : system -> system -> Prop :=
| quiet_cpu3 ev d f f' : (forall m g, ev <> CPeer m g) -> cpu3_handle cfg ev (sees d f) = Some f' ->
    quiet_step (mk_system d (Some f)) (mk_system (leaves (cpu f') d) (Some f'))
| quiet_linux ev d c d' : background ev -> handle ev d = Some d' -> quiet_step (mk_system d c) (mk_system d' c).
#[local] Hint Constructors quiet_step star : core.

Lemma quiet_is_step y y' : quiet_step y y' -> system_step cfg y y'.
Proof. intros []; [by apply (step_cpu3 cfg ev)|by apply (step_linux cfg ev); [apply background_own|]]. Qed.
Lemma system_reachable_snoc y y' : system_reachable cfg y -> system_step cfg y y' -> system_reachable cfg y'.
Proof. intros (d0 & Hp & Hs) H. exists d0. split; [exact Hp|]. by eapply star_snoc. Qed.
Lemma quiet_step_debt y y' : system_reachable cfg y -> quiet_step y y' -> (system_owes y' <= system_owes y)%nat.
Proof.
  intros H Q. destruct Q as [ev d f f' Hown E|ev d c d' Hb E]; [by apply (cpu3_debt ev (mk_system d (Some f)) f f' H)|].
  unfold system_owes. cbn [linux cpu3]. apply Nat.add_le_mono_r. apply (background_debt ev); [done| |done].
  apply (system_reachable_inv cfg _ H).
Qed.
Lemma quiet_debt y y' : star quiet_step y y' -> system_reachable cfg y ->
  system_reachable cfg y' /\ (system_owes y' <= system_owes y)%nat.
Proof.
  induction 1 as [y|y y1 y' _ IH Hq]; intros H; [by split|]. destruct (IH H) as [H1 Hle].
  split; [by eapply system_reachable_snoc, quiet_is_step|].
  etransitivity; [by apply quiet_step_debt|exact Hle].
Qed.

(** The same as a function, for whoever schedules the steps: a move that is not
    possible is none. *)
Inductive move :=
| MCpu3 (ev : cpu3_event)
| MLinux (ev : driver_event).
Definition is_peer (ev : cpu3_event) : bool := match ev with CPeer _ _ => true | _ => false end.
Definition make_move (m : move) y : system :=
  match m with
  | MCpu3 ev =>
      if is_peer ev then y else
      default y (f ← cpu3 y; f' ← cpu3_handle cfg ev (sees (linux y) f);
                 Some (mk_system (leaves (cpu f') (linux y)) (Some f')))
  | MLinux ev =>
      if decide (background ev) then default y (d ← handle ev (linux y); Some (mk_system d (cpu3 y))) else y
  end.
Definition make_moves (ms : list move) y : system := fold_left (fun y m => make_move m y) ms y.

Lemma make_move_quiet m y : star quiet_step y (make_move m y).
Proof.
  destruct m as [ev|ev]; cbn [make_move].
  - destruct (is_peer ev) eqn:Hp; [constructor|]. destruct y as [d [f|]]; [|constructor]. cbn [cpu3 linux mbind option_bind].
    destruct (cpu3_handle cfg ev (sees d f)) as [f'|] eqn:E; [|constructor]. eapply star_snoc; [constructor|].
    apply (quiet_cpu3 ev); [by destruct ev|done].
  - destruct (decide (background ev)) as [Hb|]; [|constructor]. destruct y as [d c]. cbn [linux cpu3].
    destruct (handle ev d) as [d'|] eqn:E; [|constructor]. eapply star_snoc; [constructor|]. by apply (quiet_linux ev).
Qed.
Lemma make_moves_quiet ms y : star quiet_step y (make_moves ms y).
Proof.
  revert y. induction ms as [|m ms IH]; intros y; [constructor|]. cbn.
  eapply star_trans; [apply make_move_quiet|apply IH].
Qed.
#[local] Abbreviation to_linux y := (fun p => waiting (c_shared (carveout (linux y))) (mk_ring_ptr Cpu3ToLinux p)).
#[local] Abbreviation to_cpu3 y := (fun p => waiting (c_shared (carveout (linux y))) (mk_ring_ptr LinuxToCpu3 p)).

(** C15. CPU3 sends at most what it owes.  Start from any state the driver and
    the firmware reach together, and let CPU3 (interrupts, worker, main loop)
    and the driver's own activity (mailbox callback, the three works) run in
    any order, for as long as they like, with no system call of userspace
    between.  The frames then waiting for Linux, and twice those still waiting
    for CPU3, are no more than the frames that waited for Linux, twice those
    that waited for CPU3, and one announcement if the session was not announced
    yet.  So every request brings at most two answers, a rejected or refused
    frame included, and a system nobody writes to falls silent.  ([system_owes]
    is this sum.) *)
Theorem no_amplification y y' :
  system_reachable cfg y -> star quiet_step y y' ->
  (system_owes y' <= system_owes y)%nat /\
  (backlog (to_linux y') + 2 * backlog (to_cpu3 y') <=
   backlog (to_linux y) + 2 * backlog (to_cpu3 y) +
   match cpu3 y with Some f => if mailmsg_session_ready_committed (cpu f) then 0 else 1 | None => 0 end)%nat.
Proof.
  intros H Q. destruct (quiet_debt y y' Q H) as [_ Hle]. split; [exact Hle|].
  unfold system_owes, block_debt, to_announce in Hle. lia.
Qed.
End System.

(** * The property at a scripted session *)
#[local] Existing Instance host_platform.
#[local] Existing Instance host_cpu3.

(** CPU3 has claimed a PING on p1: it answers, and Linux takes the doorbell. *)
Definition answered_system : system :=
  make_moves default_config (replicate 4 (MCpu3 CWorker) ++ [MLinux (EvMailbox 1 None)]) claim_system.
Lemma no_amplification_witness :
  let q p := waiting (c_shared (carveout (linux answered_system))) (mk_ring_ptr Cpu3ToLinux p) in
  length (q 1) = 2%nat /\ (backlog q <= 2)%nat.
Proof.
  split; [vm_compute; reflexivity|].
  destruct (no_amplification default_config claim_system answered_system claim_reachable (make_moves_quiet _ _ _)) as [_ H].
  etransitivity; [apply Nat.le_add_r|]. etransitivity; [exact H|].
  apply Nat.leb_le. vm_compute. reflexivity.
Defined.
