(* ===== verification/DrainSpec.v ===== *)
(** [mailmsg_response] against a CPU3 that keeps sending.  The reader holds
    [data->lock] while it drains the reverse rings, but neither CPU3 nor the
    mailbox callback takes that lock: they run between any two of its receives.
    What it prints, and why it ends all the same. *)
From S2P Require Import Prelude Protocol Ring Notify Endpoint Frame EndpointSpec DriverState DriverLifecycle DriverUser DriverSysfs DriverProbe DriverSpec HostDemo LifecycleSpec ControlSpec NotifySpec UserSpec Firmware BlockSpec FirmwareSpec BootSpec WorkerSpec SystemSpec QueueSpec ServeSpec DebtSpec.

(** * The reverse rings only grow under CPU3 *)
Section Growth.
Context (h : Z * Z * Z) (q : Z -> list mailmsg_message).

Definition grown (sh : mailmsg_shared) : Prop :=
  block_sound h sh /\ forall p, 0 <= p < 4 -> q p `prefix_of` waiting sh (mk_ring_ptr Cpu3ToLinux p).
#[export] Instance grown_kept : KeepsBlock grown cpu3_pushes cpu3_pops.
Proof.
  exists (fun g => g = h.2).
  - intros sh [[[_ Hh] _] _]. by rewrite <-Hh.
  - intros [o|] r m Ho _ Hg; [|apply sound_no_hooks]. intros sh a sh' E [Hb Hq].
    split; [by eapply sound_push; [by apply Ho|exact Hg|exact E|]|]. intros p Hp.
    destruct (waiting_push h o r m sh a sh' (Ho o eq_refl) Hb E) as [Hr Hs]. etransitivity; [by apply Hq|].
    destruct (decide (mk_ring_ptr Cpu3ToLinux p = r)) as [->|Hne]; [exact Hr|by rewrite Hs].
  - intros [o|] r m Ho Hd; [|apply sound_no_hooks]. intros sh a sh' E [Hb Hq].
    split; [by eapply sound_pop; [by apply Ho|exact E|]|]. intros p Hp.
    destruct (waiting_pop h o r m sh a sh' (Ho o eq_refl) Hb E) as [_ Hs]. rewrite Hs; [by apply Hq|].
    intros <-. discriminate Hd.
Defined.
End Growth.

(** * What is printed *)
Section Text.
Implicit Types (received : Z -> list mailmsg_message).

(** The lines of the frames received, p0's first. *)
Definition printed received : list response_line := mjoin (map (fun p => map (response_of p) (received p)) priorities).

Lemma printed_snoc received before p after m :
  before ++ p :: after = priorities -> (forall p', p' ∈ after -> received p' = []) ->
  printed (fun p' => if p' =? p then received p ++ [m] else received p') = printed received ++ [response_of p m].
Proof.
  intros E Hafter. unfold printed. rewrite <-E, !map_app, !join_app. cbn [map mjoin list_join]. rewrite Z.eqb_refl, map_app.
  assert (Hnd : NoDup (before ++ p :: after)) by (rewrite E; by apply (bool_decide_unpack (NoDup priorities))).
  apply NoDup_app in Hnd as (_ & Hb & Ha). apply NoDup_cons in Ha as [Ha _].
  assert (Hz : forall f, (forall p', p' ∈ after -> f p' = @nil mailmsg_message) ->
    mjoin (map (fun p' => map (response_of p') (f p')) after) = []).
  { intros f Hf. clear -Hf. induction after as [|x l IH]; [done|]. cbn. rewrite Hf by by left. apply IH.
    intros p' H. apply Hf. by right. }
  rewrite !Hz; [|done|intros p' H; rewrite (proj2 (Z.eqb_neq p' p)); [by apply Hafter|by intros ->]].
  rewrite !app_nil_r, app_assoc. f_equal. f_equal. f_equal. apply map_ext_in. intros p' Hin%list_elem_of_In.
  rewrite (proj2 (Z.eqb_neq p' p)); [done|]. intros ->. apply (Hb p Hin). by left.
Qed.
End Text.

(** * The reader among the others *)
Section Drain.
Context {linux_platform : Platform} {linux_coherent : CoherentOps mailmsg_linux_memory_ops}.
Context {cpu3_platform : Cpu3Platform} {cpu3_coherent : CoherentOps mailmsg_queue_memory_ops}.
Context (cfg : fw_config).
Implicit Types (d : r1_amp_cpu_on_data) (y : system) (received : Z -> list mailmsg_message).

(** What waits for Linux on priority [p]. *)
Definition reverse y (p : Z) : list mailmsg_message := waiting (c_shared (carveout (linux y))) (mk_ring_ptr Cpu3ToLinux p).

(** Runs from one point of the reader to another, with the turns it has taken:
    between two turns come any steps of CPU3 and any mailbox callbacks.
    Whatever else the driver does needs the lock. *)
Inductive show_run (start : response_pc * system) : nat -> response_pc -> system -> Prop :=
| show_start : show_run start 0 start.1 start.2
| show_turn n ps response lines d c pc d' :
    show_run start n (ShowDrain ps response lines) (mk_system d c) ->
    response_turn ps response lines d = Some (pc, d') ->
    show_run start (S n) pc (mk_system d' c)
| show_cpu3 n pc ev d f f' :
    show_run start n pc (mk_system d (Some f)) ->
    (forall m g, ev <> CPeer m g) -> cpu3_handle cfg ev (sees d f) = Some f' ->
    show_run start n pc (mk_system (leaves (cpu f') d) (Some f'))
| show_callback n pc i msg d c d' :
    show_run start n pc (mk_system d c) -> handle (EvMailbox i msg) d = Some d' ->
    show_run start n pc (mk_system d' c).

(** One turn: the frame at the head of the ring is taken and printed, or the
    ring is empty and the next one is looked at. *)
Lemma run_response_turn p ps response lines d :
  linux_bound d -> sound_queues (c_shared (carveout d)) -> 0 <= p < 4 ->
  match waiting (c_shared (carveout d)) (mk_ring_ptr Cpu3ToLinux p) with
  | [] => response_turn (p :: ps) response lines d = Some (ShowDrain ps response lines, d)
  | m :: q => exists d',
      response_turn (p :: ps) response lines d = Some (ShowDrain (p :: ps) m (lines ++ [response_of p m]), d') /\
      lview d' = lview d /\ waiting (c_shared (carveout d')) (mk_ring_ptr Cpu3ToLinux p) = q /\
      same_but (mk_ring_ptr Cpu3ToLinux p) (c_shared (carveout d)) (c_shared (carveout d'))
  end.
Proof.
  intros Hb Hs Hp. pose proof (waiting_represents _ Cpu3ToLinux p Hs Hp) as Hq.
  pose proof (sound_received d p _ Hb Hs Hp Hq) as Hok. pose proof (run_linux_receive d p response _ Hb Hp Hq) as R.
  cbn [response_turn]. destruct (waiting _ _) as [|m q].
  - step_with R. by rewrite endpoint_back_id.
  - destruct R as (w & R & Hq' & Hkey & Hsame). apply Forall_cons in Hok as [Hm _]. rewrite Hm in R.
    exists (endpoint_back w d). split; [by step_with R|]. split; [|split; [by apply represents_waiting|exact Hsame]].
    unfold lview, endpoint_back. cbn. by rewrite Hkey.
Qed.

(** The two kinds of other steps. *)
Lemma cpu3_grows ev d f f' p :
  system_reachable cfg (mk_system d (Some f)) -> (forall m g, ev <> CPeer m g) ->
  cpu3_handle cfg ev (sees d f) = Some f' -> 0 <= p < 4 ->
  reverse (mk_system d (Some f)) p `prefix_of` reverse (mk_system (leaves (cpu f') d) (Some f')) p.
Proof.
  intros H Hown E Hp. destruct (system_reachable_inv cfg _ H) as [_ [[Hw Hh Hr Hq _] Hc]].
  set (h := header (c_shared (carveout d))). set (q := reverse (mk_system d (Some f))).
  assert (Hg : grown h q (c_shared (carveout d))) by by split.
  destruct (cpu3_invariant_step cfg _ _ ev (sees d f) f' Hown E (block_sees _ d f _ Hg eq_refl (Hc f eq_refl)))
    as [[_ Hgrown] _].
  by apply Hgrown.
Qed.
#[local] Instance carveout_mb : MbView carveout.
Proof. done. Qed.
Lemma pres_callback_memory i msg : pres carveout (r1_amp_mbox_rx_callback i msg).
Proof. unfold r1_amp_mbox_rx_callback. pres_auto. Qed.

(** ** What holds at every point of a run *)
Record showing (y0 : system) (n : nat) (ps : list Z) (lines : list response_line) (y : system) : Prop := {
  sg_reach : system_reachable cfg y;
  sg_active : mailmsg_state (linux y) = R1_AMP_MAILMSG_ACTIVE;
  sg_turns : (n + system_owes y + length ps <= system_owes y0 + 4)%nat;
  sg_text : exists before received, before ++ ps = priorities /\ lines = printed received /\
    (forall p, p ∈ tail ps -> received p = []) /\
    (forall p, p ∈ before -> reverse y0 p `prefix_of` received p) /\
    (forall p, 0 <= p < 4 -> reverse y0 p `prefix_of` received p ++ reverse y p);
}.
Definition shown y0 n (pc : response_pc) y : Prop :=
  match pc with
  | ShowDrain ps _ lines => showing y0 n ps lines y
  | ShowDone text => (n <= system_owes y0 + 5)%nat /\ exists received, text = RespLines (printed received) /\
      forall p, 0 <= p < 4 -> reverse y0 p `prefix_of` received p
  end.

Lemma priorities_range p : p ∈ priorities <-> 0 <= p < 4.
Proof.
  unfold priorities. rewrite !elem_of_cons, elem_of_nil. split; [|lia].
  intros [->|[->|[->|[->|[]]]]]; by split.
Qed.
Lemma showing_sound y0 n ps lines y : showing y0 n ps lines y ->
  linux_bound (linux y) /\ sound_queues (c_shared (carveout (linux y))) /\ Forall (fun p => 0 <= p < 4) ps.
Proof.
  intros [H Ha _ (before & received & E & _)]. destruct (system_reachable_inv cfg y H) as [_ [[_ _ _ Hs _] _]].
  split; [apply (system_bound cfg); [done|by rewrite Ha]|]. split; [exact Hs|].
  apply Forall_forall. intros p Hp. apply priorities_range. rewrite <-E. apply elem_of_app. by right.
Qed.

(** A step of the others. *)
Lemma shown_other y0 n pc y y' :
  shown y0 n pc y -> quiet_step cfg y y' -> mailmsg_state (linux y') = mailmsg_state (linux y) ->
  (system_reachable cfg y -> forall p, 0 <= p < 4 -> reverse y p `prefix_of` reverse y' p) -> shown y0 n pc y'.
Proof.
  destruct pc as [ps response lines|text]; [|done]. intros [H Ha Hn (before & received & E & El & Hr & Hb & Hp)] Hq Hst Hg.
  pose proof (quiet_step_debt cfg y y' H Hq). split; [by eapply system_reachable_snoc, quiet_is_step|congruence|lia|].
  exists before, received. do 4 (split; [done|]). intros p Hp4. etransitivity; [by apply Hp|]. by apply prefix_app, Hg.
Qed.

(** A turn of the reader. *)
Lemma debt_less y d' p m q :
  0 <= p < 4 -> sound_queues (c_shared (carveout d')) -> reverse y p = m :: q ->
  waiting (c_shared (carveout d')) (mk_ring_ptr Cpu3ToLinux p) = q ->
  same_but (mk_ring_ptr Cpu3ToLinux p) (c_shared (carveout (linux y))) (c_shared (carveout d')) ->
  (system_owes (mk_system d' (cpu3 y)) < system_owes y)%nat.
Proof.
  intros Hp Hs Hm Hq Hsame. unfold system_owes. cbn [linux cpu3]. apply Nat.add_lt_mono_r.
  eapply (debt_taken _ _ p q m); [done|exact Hm| |exact Hsame]. rewrite <-Hq. by apply waiting_represents.
Qed.
Lemma shown_turn y0 n ps response lines d c pc d' :
  showing y0 n ps lines (mk_system d c) -> response_turn ps response lines d = Some (pc, d') ->
  shown y0 (S n) pc (mk_system d' c).
Proof.
  intros Hsh E. destruct (showing_sound _ _ _ _ _ Hsh) as (Hb & Hs & Hps). destruct Hsh as [H Ha Hn Ht].
  assert (H' : system_reachable cfg (mk_system d' c)).
  { eapply system_reachable_snoc; [exact H|]. apply (step_linux cfg (EvResponseTurn ps response lines)); [done|].
    cbn [handle]. unfold run_event. by rewrite E. }
  destruct Ht as (before & received & Ep & El & Hr & Hbef & Hp). destruct ps as [|p ps].
  { injection E as <- <-. cbn [shown]. split; [lia|]. rewrite app_nil_r in Ep. exists received. split; [by rewrite El|].
    intros p Hp4. apply Hbef. rewrite Ep. by apply priorities_range. }
  apply Forall_cons in Hps as [Hp4 Hps]. cbn [linux] in *.
  pose proof (run_response_turn p ps response lines d Hb Hs Hp4) as R.
  destruct (waiting _ _) as [|m q] eqn:Hw.
  - assert (pc = ShowDrain ps response lines /\ d' = d) as [-> ->] by (split; congruence).
    split; [exact H|exact Ha|cbn in *; lia|]. exists (before ++ [p]), received. rewrite <-app_assoc.
    split; [exact Ep|]. split; [exact El|]. split; [|split; [|exact Hp]].
    + intros p' Hin. apply Hr. cbn. destruct ps; [done|]. by right.
    + intros p' [Hin|Hin%list_elem_of_singleton]%elem_of_app; [by apply Hbef|]. subst p'.
      specialize (Hp p Hp4). unfold reverse at 2 in Hp. cbn [linux] in Hp. by rewrite Hw, app_nil_r in Hp.
  - destruct R as (d1 & R & Hv & Hq & Hsame).
    assert (pc = ShowDrain (p :: ps) m (lines ++ [response_of p m]) /\ d' = d1) as [-> ->] by (split; congruence).
    destruct (system_reachable_inv cfg _ H') as [_ [[_ _ _ Hs' _] _]].
    pose proof (debt_less (mk_system d c) d1 p m q Hp4 Hs' Hw Hq Hsame) as Hless. cbn [cpu3] in Hless.
    split; [exact H'| |cbn in *; lia|]; [unfold lview in Hv; cbn [linux]; congruence|].
    exists before, (fun p' => if p' =? p then received p ++ [m] else received p'). split; [exact Ep|].
    assert (Hnd : NoDup (before ++ p :: ps)) by (rewrite Ep; by apply (bool_decide_unpack (NoDup priorities))).
    apply NoDup_app in Hnd as (_ & Hnb & Hna). apply NoDup_cons in Hna as [Hna _].
    split; [by rewrite (printed_snoc received before p ps m Ep Hr), El|]. split; [|split].
    + intros p' Hin. cbn [tail] in Hin. rewrite (proj2 (Z.eqb_neq p' p)); [by apply Hr|by intros ->].
    + intros p' Hin. rewrite (proj2 (Z.eqb_neq p' p)); [by apply Hbef|]. intros ->. apply (Hnb p Hin). by left.
    + intros p' Hp'. specialize (Hp p' Hp'). destruct (Z.eqb_spec p' p) as [->|Hne].
      * unfold reverse at 2 in Hp. unfold reverse at 2. cbn [linux] in Hp |- *. rewrite Hw in Hp. rewrite Hq. by rewrite <-app_assoc.
      * unfold reverse at 2 in Hp. unfold reverse at 2. cbn [linux] in Hp |- *.
        rewrite (same_waiting _ _ _ _ Hsame); [exact Hp|by intros [=]].
Qed.

Lemma shown_run y0 n pc y :
  system_reachable cfg y0 -> mailmsg_state (linux y0) = R1_AMP_MAILMSG_ACTIVE ->
  show_run (ShowDrain priorities message_zero [], y0) n pc y -> shown y0 n pc y.
Proof.
  intros H Ha R. induction R as [|n ps response lines d c pc d' _ IH E|n pc ev d f f' _ IH Hown E|n pc i msg d c d' _ IH E].
  - cbn. split; [done|done|cbn; lia|]. exists [], (fun _ => []). split; [done|]. split; [done|]. split; [done|].
    split; [by intros p ?%not_elem_of_nil|done].
  - by eapply shown_turn.
  - eapply shown_other; [exact IH|by eapply quiet_cpu3|done|]. intros Hy p Hp. by eapply (cpu3_grows ev).
  - eapply shown_other; [exact IH|by apply (quiet_linux cfg (EvMailbox i msg))| |]; apply run_event_inv in E as [a E].
    + apply pres_rx_callback in E. unfold lview in E. cbn [linux]. congruence.
    + intros _ p _. apply pres_callback_memory in E. unfold reverse. cbn [linux]. by rewrite E.
Qed.

(** A run that ends is a run of the reader as a whole: [others] is what the
    steps between its turns did. *)
Lemma run_is_show y0 n pc y : show_run (ShowDrain priorities message_zero [], y0) n pc y ->
  exists before : nat -> r1_amp_cpu_on_data, forall others,
    (forall k, (k < n)%nat -> others k = fun _ => before k) -> forall fuel, exists d,
    response_loop others 0 (n + fuel) (ShowDrain priorities message_zero []) (linux y0) = response_loop others n fuel pc d.
Proof.
  intros R. induction R as [|n ps response lines d c pc d' _ IH E|n pc ev d f f' _ IH Hown E|n pc i msg d c d' _ IH E];
    [exists (fun _ => linux y0); intros others _ fuel; by exists (linux y0)| |exact IH|exact IH].
  destruct IH as (before & IH). exists (fun k => if (k =? n)%nat then d else before k). intros others Ho fuel.
  destruct (IH others) with (fuel := S fuel) as (d0 & E0).
  { intros k Hk. rewrite Ho by lia. by rewrite (proj2 (Nat.eqb_neq k n)) by lia. }
  rewrite Nat.add_succ_comm, E0.
  exists d'. cbn [response_loop]. step. rewrite (Ho n) by lia. rewrite Nat.eqb_refl. by step_with E.
Qed.

End Drain.

(** * The property at a scripted session *)
#[local] Existing Instance host_platform.
#[local] Existing Instance host_cpu3.

(** A script of the reader and CPU3. *)
Inductive show_event := ShowTurn | ShowCpu3 (ev : cpu3_event) | ShowCallback (i : Z) (msg : option (Z * Z)).
Definition show_event_ok (ev : show_event) : bool :=
  match ev with ShowCpu3 (CPeer _ _) => false | _ => true end.
Fixpoint play (evs : list show_event) (n : nat) (pc : response_pc) (y : system) : option (nat * response_pc * system) :=
  match evs with
  | [] => Some (n, pc, y)
  | ShowTurn :: evs =>
      match pc with
      | ShowDone _ => None
      | ShowDrain ps response lines =>
          '(pc', d') ← response_turn ps response lines (linux y); play evs (S n) pc' (mk_system d' (cpu3 y))
      end
  | ShowCpu3 ev :: evs =>
      f ← cpu3 y; f' ← cpu3_handle default_config ev (sees (linux y) f);
      play evs n pc (mk_system (leaves (cpu f') (linux y)) (Some f'))
  | ShowCallback i msg :: evs => d' ← handle (EvMailbox i msg) (linux y); play evs n pc (mk_system d' (cpu3 y))
  end.
Lemma play_runs start evs n pc y n' pc' y' : forallb show_event_ok evs = true ->
  show_run default_config start n pc y -> play evs n pc y = Some (n', pc', y') ->
  show_run default_config start n' pc' y'.
Proof.
  revert n pc y. induction evs as [|ev evs IH]; intros n pc [d c] Hok R; cbn [play]; [by intros [= <- <- <-]|].
  cbn [forallb] in Hok. apply andb_true_iff in Hok as [Hev Hok]. destruct ev as [|ev|i msg]; cbn [linux cpu3].
  - destruct pc as [ps response lines|]; [|done].
    destruct (response_turn ps response lines d) as [[pc1 d1]|] eqn:E; [|done]. apply IH; [done|]. by eapply show_turn.
  - destruct c as [f|]; [|done]. cbn [mbind option_bind].
    destruct (cpu3_handle default_config ev (sees d f)) as [f'|] eqn:E; [|done]. apply IH; [done|].
    eapply (show_cpu3 _ _ _ _ ev); [exact R| |exact E]. by destruct ev.
  - destruct (handle (EvMailbox i msg) d) as [d1|] eqn:E; [|done]. apply IH; [done|]. by eapply show_callback.
Qed.

Lemma play_from evs pc y n' pc' y' : forallb show_event_ok evs = true ->
  play evs 0 pc y = Some (n', pc', y') -> show_run default_config (pc, y) n' pc' y'.
Proof. intros Hok. apply play_runs; [exact Hok|]. exact (show_start default_config (pc, y)). Qed.

(** The reader finds p0 empty; only then CPU3 answers the PING it has claimed on
    p1 and rings; the reader takes both answers and goes through p2 and p3. *)
Definition drain_script : list show_event :=
  [ShowTurn; ShowCpu3 CWorker; ShowCallback 1 None; ShowTurn; ShowCpu3 CWorker; ShowTurn; ShowTurn; ShowTurn; ShowTurn; ShowTurn].
Abbreviation drain_played := (play drain_script 0 (ShowDrain priorities message_zero []) claim_system).
Definition drain_text : list response_line := [RespFeedback 1 MAILMSG_MSG_ACK 2 1 0; RespValue 1 MAILMSG_MSG_PONG 3 42].
Lemma drain_played_text : match drain_played with Some (n, ShowDone (RespLines l), _) => Some (n, l) | _ => None end =
  Some (7%nat, drain_text).
Proof. vm_compute. reflexivity. Qed.
Lemma claim_active : mailmsg_state (linux claim_system) = R1_AMP_MAILMSG_ACTIVE.
Proof. vm_compute. reflexivity. Qed.
Lemma drain_run : exists y, show_run default_config (ShowDrain priorities message_zero [], claim_system)
  7 (ShowDone (RespLines drain_text)) y.
Proof.
  pose proof drain_played_text as Ht. destruct drain_played as [[[n pc] y]|] eqn:E; [|discriminate Ht].
  destruct pc as [|[| |l]]; try discriminate Ht. injection Ht as -> ->. exists y.
  exact (play_from drain_script _ claim_system _ _ _ eq_refl E).
Qed.
