(* ===== verification/BurstSpec.v ===== *)
(** A burst of PINGs between the two sides: one after the other on one
    priority, before CPU3 looks; the doorbells coalesce, the worker answers
    them all. *)
From S2P Require Import Prelude Protocol Ring Notify Endpoint DriverState DriverLifecycle DriverUser DriverSysfs DriverProbe DriverSpec HostDemo LifecycleSpec ControlSpec NotifySpec UserSpec Firmware BlockSpec FirmwareSpec BootSpec WorkerSpec SystemSpec.

Section Burst.
Context {linux_platform : Platform} {linux_coherent : CoherentOps mailmsg_linux_memory_ops}.
Context {cpu3_platform : Cpu3Platform} {cpu3_coherent : CoherentOps mailmsg_queue_memory_ops}.
Context (cfg : fw_config) {readback : A2bReadback linux_platform}.
Implicit Types (d : r1_amp_cpu_on_data) (f : fw_state).

(** The program's writes, one system call after the other. *)
Fixpoint write_all (file : nat) (frames : list mailmsg_user_frame) : D (list Z) :=
  match frames with
  | [] => mret []
  | frame :: frames =>
      n ← r1_amp_mailmsg_user_write file (Some frame) sizeof_user_frame;
      ns ← write_all file frames;
      mret (n :: ns)
  end.

(** A PING record for priority [i]. *)
Record ping_record (i : Z) (frame : mailmsg_user_frame) : Prop := {
  pr_priority : uf_priority frame = i;
  pr_type : uf_type frame = MAILMSG_MSG_PING;
  pr_length : uf_length frame = 4;
  pr_payload : length (uf_payload frame) = 32%nat;
}.
(** The frames they become, numbered one after the other. *)
Fixpoint ping_frames (gen n : Z) (frames : list mailmsg_user_frame) : list mailmsg_message :=
  match frames with
  | [] => []
  | frame :: frames =>
      new_frame gen n MAILMSG_MSG_PING (uf_payload frame) 4 :: ping_frames gen (next_seq n) frames
  end.
Lemma length_ping_frames gen n frames : length (ping_frames gen n frames) = length frames.
Proof. revert n. induction frames as [|fr frames IH]; intros n; cbn; [done|by rewrite IH]. Qed.

(** The doorbell word of priority [i] is in its registers. *)
Definition belled (i : Z) d : Prop := regs0 (mb d) (R1_AMP_MBOX_A2B_CMD i) = Z.lor R1_AMP_MAILMSG_DOORBELL i.
Definition quiet (i : Z) d : Prop := has_bit (regs0 (mb d) R1_AMP_MBOX_A2B_STATUS) i = false.

(** Ready for another write of the burst. *)
Record may_write (i : Z) (file : nat) d q : Prop := {
  mw_active : mailmsg_state d = R1_AMP_MAILMSG_ACTIVE;
  mw_bound : linux_bound d;
  mw_mbox : mbox_ok (mb d);
  mw_injected : injected (mb d) i = false;
  mw_file : exists u c, user_files d !! file = Some u /\ channel u = i /\
    zget (mailmsg_user d) i = Some c /\ uc_priority c = i;
  mw_queue : represents (mk_ring_ptr LinuxToCpu3 i) (c_shared (carveout d)) q;
  mw_bell : quiet i d \/ belled i d;
}.

Lemma one_written i file d q frame :
  0 <= i < 4 -> may_write i file d q -> ping_record i frame -> (length q < 7)%nat ->
  exists d', r1_amp_mailmsg_user_write file (Some frame) sizeof_user_frame d = Some (sizeof_user_frame, d') /\
    may_write i file d' (q ++ [new_frame (session_generation d) (next_sequence (mailmsg_endpoint_ d))
      MAILMSG_MSG_PING (uf_payload frame) 4]) /\
    same_but (mk_ring_ptr LinuxToCpu3 i) (c_shared (carveout d)) (c_shared (carveout d')) /\
    session_generation d' = session_generation d /\
    next_sequence (mailmsg_endpoint_ d') = next_seq (next_sequence (mailmsg_endpoint_ d)) /\ belled i d'.
Proof.
  intros Hi [Hact Hb Hmb Hinj (u & c & Hf & Hch & Hc & Hcp) Hq Hbell] [Hprio Hty Hlen Hpay] Hroom.
  destruct (run_write_active d file i u c frame q Hf Hch Hc Hcp Hi Hprio ltac:(lia) Hpay Hact Hb Hmb Hq Hroom)
    as (d' & R & Hrep & Hsame & Hv & Hregs & [Hmb' Hinj' Hf' Hc' Hn']).
  rewrite Hty, Hlen in Hrep.
  assert (Em : committed (sent_message (mailmsg_endpoint_ d) MAILMSG_MSG_PING (uf_payload frame) 4) =
    new_frame (session_generation d) (next_sequence (mailmsg_endpoint_ d)) MAILMSG_MSG_PING (uf_payload frame) 4)
    by (unfold sent_message; by rewrite (linux_generation d Hb)).
  rewrite Em in Hrep. pose proof (lview_parts _ _ Hv) as Hparts.
  assert (Hbd : belled i d').
  { unfold belled. rewrite Hregs, Hinj. cbn [orb]. unfold quiet, belled, NotifySpec.rung in *.
    destruct (has_bit _ i); [by destruct Hbell|]. by rewrite a2b_readback. }
  exists d'. split; [exact R|]. split; [|split; [exact Hsame|split; [apply Hparts|split; [exact Hn'|exact Hbd]]]].
  split; [etransitivity; [apply Hparts|exact Hact]|by eapply linux_bound_send|exact Hmb'|by apply Hinj'| |exact Hrep|by right].
  exists u, c. by rewrite Hf', Hc'.
Qed.

Lemma burst_written i file frames : 0 <= i < 4 -> Forall (ping_record i) frames -> forall d q,
  may_write i file d q -> (length q + length frames <= 7)%nat ->
  exists d', write_all file frames d = Some (map (fun _ => sizeof_user_frame) frames, d') /\
    may_write i file d' (q ++ ping_frames (session_generation d) (next_sequence (mailmsg_endpoint_ d)) frames) /\
    same_but (mk_ring_ptr LinuxToCpu3 i) (c_shared (carveout d)) (c_shared (carveout d')) /\
    session_generation d' = session_generation d /\ (belled i d \/ frames <> [] -> belled i d').
Proof.
  intros Hi H. induction H as [|fr frames Hfr _ IH]; intros d q Hw Hl; cbn [write_all ping_frames map length] in *.
  { exists d. rewrite app_nil_r. split; [done|]. split; [exact Hw|]. split; [auto|]. split; [done|]. by intros [?|?]. }
  destruct (one_written i file d q fr Hi Hw Hfr ltac:(lia)) as (d1 & R1 & Hw1 & Hs1 & Hg1 & Hn1 & Hb1).
  destruct (IH d1 _ Hw1) as (d2 & R2 & Hw2 & Hs2 & Hg2 & Hb2); [rewrite length_app; cbn; lia|].
  exists d2. step_with R1. step_with R2. split; [done|].
  rewrite Hg1, Hn1, <-app_assoc in Hw2. split; [exact Hw2|].
  split; [by eapply same_but_trans|]. split; [congruence|]. intros _. apply Hb2. by left.
Qed.

(** ** The answers to the burst *)
Lemma replies_received (e : mailmsg_endpoint mbox_state) gen p q : forall n,
  gen <> 0 -> ep_generation e = gen -> Forall (fun r => received_code e r = 0) (replies gen n p q).
Proof.
  induction q as [|m q IH]; intros n Hg He; cbn; [constructor|].
  apply Forall_app. split; [by apply answers_received|by apply IH].
Qed.
Lemma replies_values gen p frames : mailmsg_priority_is_reliable p = false ->
  forall n n', Forall (ping_record p) frames ->
  map (fun r => load_u32 (payload r) 0) (replies gen n p (ping_frames gen n' frames)) =
  map (fun frame => u32 (load_u32 (uf_payload frame) 0 + 1)) frames.
Proof.
  intros Hrel. induction frames as [|fr frames IH]; intros n n' H; [done|].
  apply Forall_cons in H as [[_ _ _ Hpay] H]. cbn [ping_frames replies]. unfold answers at 1. rewrite Hrel.
  cbn [app map]. f_equal; [by apply pong_value|by apply IH].
Qed.
Lemma pings_plain gen n i frames : gen <> 0 -> MAILMSG_TEST_SELF_OFF_VALUE cfg = None ->
  Forall (fun m => verdict gen m = 0 /\ plain cfg i m = true) (ping_frames gen n frames).
Proof.
  intros Hg Hoff. revert n. induction frames as [|fr frames IH]; intros n; cbn [ping_frames]; constructor; [|apply IH].
  split.
  - unfold verdict. rewrite frame_verdict_new by done. cbn [Z.eqb andb].
    change (generation (new_frame _ _ _ _ _)) with gen. by rewrite Z.eqb_refl.
  - unfold plain, self_off_request. rewrite Hoff. cbn. by rewrite andb_false_r.
Qed.
Lemma belled_wakes d i f : 0 <= i < 4 -> belled i d -> wakes_worker i (cpu (sees d f)) = true.
Proof.
  intros Hi Hb. unfold wakes_worker, isr_command. change (mailbox (cpu (sees d f))) with (regs0 (mb d)).
  change (MAILBOX_A2B_CMD i) with (R1_AMP_MBOX_A2B_CMD i). rewrite Hb.
  assert (i = 0 \/ i = 1 \/ i = 2 \/ i = 3) as [-> | [-> | [-> | ->]]] by lia; reflexivity.
Qed.

(** C30. A burst comes back: up to seven PINGs written one after the other to
    an idle open session share one interrupt. The worker, woken once, leaves
    the request ring empty and in Linux's ring exactly the answers to all of
    them in the order they were written - as many as seven slots hold, where
    the reliable priorities have an ACK and a PONG for each - every one of
    which Linux's receive accepts; on the other priorities the PONGs carry the
    written values plus one, none missing. *)
Theorem burst_comes_back d f a i file u frames :
  idle_pair d f a i -> reachable d -> user_files d !! file = Some u -> channel u = i ->
  Forall (ping_record i) frames -> frames <> [] -> (length frames <= 7)%nat ->
  i <> MAILMSG_TEST_SKIP_PRIORITY cfg -> MAILMSG_TEST_SELF_OFF_VALUE cfg = None ->
  exists d1 s1 s2 answers_,
    write_all file frames d = Some (map (fun _ => sizeof_user_frame) frames, d1) /\
    mailmsg_mailbox_a2b_matrix_isr i (cpu (sees d1 f)) = Some (tt, s1) /\
    mailmsg_worker cfg s1 = Some (tt, s2) /\
    mailmsg_state (leaves s2 d1) = R1_AMP_MAILMSG_ACTIVE /\ linux_bound (leaves s2 d1) /\
    represents (mk_ring_ptr LinuxToCpu3 i) (c_shared (carveout (leaves s2 d1))) [] /\
    represents (mk_ring_ptr Cpu3ToLinux i) (c_shared (carveout (leaves s2 d1))) answers_ /\
    answers_ = take 7 (replies (session_generation d) (q_next a) i
      (ping_frames (session_generation d) (next_sequence (mailmsg_endpoint_ d)) frames)) /\
    Forall (fun r => received_code (mailmsg_endpoint_ (leaves s2 d1)) r = 0) answers_ /\
    (mailmsg_priority_is_reliable i = false ->
     map (fun r => load_u32 (payload r) 0) answers_ =
     map (fun frame => u32 (load_u32 (uf_payload frame) 0 + 1)) frames).
Proof.
  intros [Hact Hb Hmb Hinj Hquiet Hs Hr Hpub Hpe Hrx Htx] Hre Hf Hch Hfr Hne Hlen Hskip Hoff.
  pose proof (dv_user _ (reachable_device d Hre)) as Hdev.
  assert (Hi : 0 <= i < 4) by (subst i; by apply (ui_files _ Hdev file)).
  destruct (user_channel_exists d i Hdev Hi) as (c & Hc & Hcp).
  set (gen := session_generation d). set (msgs := ping_frames gen (next_sequence (mailmsg_endpoint_ d)) frames).
  pose proof (shared_generation_agree d f a Hb Hs) as Hga. fold gen in Hga.
  assert (Hw : may_write i file d []).
  { split; [done..|by exists u, c| |by left]. rewrite <-Hrx. by apply (sv_rx _ _ Hs). }
  destruct (burst_written i file frames Hi Hfr d [] Hw Hlen) as (d1 & R & [Hact1 Hb1 _ _ _ Hq1 _] & Hsame & Hg1 & Hbell).
  specialize (Hbell (or_intror Hne)). cbn [app] in Hq1. fold gen msgs in Hq1.
  pose proof (serving_frame d d1 f a i msgs Hs Hi Hq1 Hsame) as Hs1.
  set (a1 := a <| rxq := upd_queue i msgs (rxq a) |>) in *.
  destruct (isr_rings cfg f a1 i d1 Hs1 Hi Hskip Hr Hpub Hpe (belled_wakes d1 i f Hi Hbell)) as (s1 & R1 & Hrung).
  assert (Hrx1 : rxq a1 i = msgs) by (cbn; unfold upd_queue; by rewrite Z.eqb_refl).
  destruct (run_worker_plain cfg s1 a1 i Hrung) as (s2 & a2 & R2 & Hs2 & Hrx2 & _ & Ht2 & _ & _ & Hg2 & _).
  { rewrite Hrx1. change (q_gen a1) with (q_gen a). rewrite Hga. apply pings_plain; [apply Hb|done]. }
  change (q_gen a1) with (q_gen a) in *. change (q_next a1) with (q_next a) in *. change (txq a1 i) with (txq a i) in Ht2.
  rewrite Hrx1, Htx, Hga in Ht2. cbn [app] in Ht2.
  assert (Hb2 : linux_bound (leaves s2 d1)).
  { eapply (leaves_bound d1 s2 (cpu3_endpoint s2)); [done|apply (sv_session _ _ Hs2)|].
    by rewrite (sv_gen _ _ Hs2), Hg2, Hga, Hg1. }
  pose proof (sv_rx _ _ Hs2 i Hi) as Hrx'. pose proof (sv_tx _ _ Hs2 i Hi) as Htx'. rewrite Hrx2 in Hrx'. rewrite Ht2 in Htx'.
  exists d1, s1, s2. eexists. split; [exact R|]. split; [exact R1|]. split; [exact R2|]. split; [exact Hact1|].
  split; [exact Hb2|]. split; [exact Hrx'|]. split; [exact Htx'|]. split; [reflexivity|]. split.
  - apply Forall_take, replies_received; [apply Hb|]. by rewrite (linux_generation _ Hb2).
  - intros Hrel. rewrite <-(replies_values gen i frames Hrel (q_next a) (next_sequence (mailmsg_endpoint_ d)) Hfr).
    rewrite take_ge; [done|].
    assert (Hcount : forall q n, length (replies gen n i q) = length q).
    { induction q as [|m q IH]; intros n; cbn; [done|]. unfold answers. rewrite Hrel. cbn. by rewrite IH. }
    rewrite Hcount. unfold msgs. by rewrite length_ping_frames.
Qed.
End Burst.

(** * The property at a scripted session *)
#[local] Existing Instance host_platform.
#[local] Existing Instance host_cpu3.
Definition burst_frame (v : Z) : mailmsg_user_frame :=
  mk_user_frame 1 MAILMSG_MSG_PING 0 4 ([v; 0; 0; 0] ++ replicate 28 0).
Definition burst_frames : list mailmsg_user_frame := [burst_frame 41; burst_frame 7; burst_frame 255].
Lemma burst_comes_back_witness :
  exists d1 s1 s2 answers_,
    write_all 7 burst_frames duo_linux = Some ([sizeof_user_frame; sizeof_user_frame; sizeof_user_frame], d1) /\
    mailmsg_mailbox_a2b_matrix_isr 1 (cpu (sees d1 (mk_fw duo_cpu3 WWaiting))) = Some (tt, s1) /\
    mailmsg_worker default_config s1 = Some (tt, s2) /\
    represents (mk_ring_ptr Cpu3ToLinux 1) (c_shared (carveout (leaves s2 d1))) answers_ /\
    map (fun r => (type_ r, load_u32 (payload r) 0)) answers_ =
      [(MAILMSG_MSG_ACK, 1); (MAILMSG_MSG_PONG, 42); (MAILMSG_MSG_ACK, 2); (MAILMSG_MSG_PONG, 8);
       (MAILMSG_MSG_ACK, 3); (MAILMSG_MSG_PONG, 256)].
Proof.
  destruct duo_idle as (a & Ha).
  assert (Hfr : Forall (ping_record 1) burst_frames) by (repeat constructor).
  destruct (burst_comes_back default_config duo_linux (mk_fw duo_cpu3 WWaiting) a 1 7 (mk_user_file 1 false) burst_frames Ha
    duo_linux_reachable (proj2 duo_active) eq_refl Hfr ltac:(discriminate) ltac:(cbn; lia)
    ltac:(discriminate) eq_refl) as (d1 & s1 & s2 & q & R & R1 & R2 & _ & _ & _ & Hq & Hv & _).
  exists d1, s1, s2, q. split; [exact R|]. split; [exact R1|]. split; [exact R2|]. split; [exact Hq|].
  rewrite Hv. generalize (q_next a). intros n.
  replace (session_generation duo_linux) with 1 by (vm_compute; reflexivity).
  replace (next_sequence (mailmsg_endpoint_ duo_linux)) with 0 by (vm_compute; reflexivity).
  reflexivity.
Defined.
