(* ===== verification/OwnSpec.v ===== *)
(** Who writes what: the carveout is divided between the two sides, and in the
    system each side stores into its own part only. *)
From S2P Require Import Prelude Protocol Ring Notify Endpoint Frame DriverState DriverLifecycle DriverUser DriverSysfs DriverProbe DriverSpec HostDemo LifecycleSpec NotifySpec UserSpec Firmware BlockSpec FirmwareSpec BootSpec SystemSpec.

(** * The two parts of the carveout *)

(** The producer of a ring owns its producer index and its slots, the consumer
    its consumer index. *)
Definition produced (dir : direction) (sh : mailmsg_shared) : list (Z * list mailmsg_message) :=
  (fun r => (producer r, slot r)) <$> rings dir sh.
Definition consumed (dir : direction) (sh : mailmsg_shared) : list Z := consumer <$> rings dir sh.

Definition linux_block (sh : mailmsg_shared) := (header sh, produced LinuxToCpu3 sh, consumed Cpu3ToLinux sh).
Definition cpu3_block (sh : mailmsg_shared) := (produced Cpu3ToLinux sh, consumed LinuxToCpu3 sh).
(** Linux owns the image, the request lines and its part of the block; CPU3
    the status words, the response lines, the observations and its part. *)
Definition linux_part (c : carveout_mem) := (linux_lines c, linux_block (c_shared c)).
Definition cpu3_part (c : carveout_mem) := (cpu3_lines c, cpu3_block (c_shared c)).

(** ** The parts make up the carveout *)
Lemma rings_determined (l l' : list mailmsg_ring) :
  (fun r => (producer r, slot r)) <$> l = (fun r => (producer r, slot r)) <$> l' ->
  consumer <$> l = consumer <$> l' -> l = l'.
Proof.
  revert l'. induction l as [|r l IH]; intros [|r' l']; try done. cbn. intros [= E1 E2 El] [= E3 El'].
  f_equal; [|by apply IH]. by destruct r, r'; cbn in *; subst.
Qed.
Lemma parts_determine c c' : linux_part c = linux_part c' -> cpu3_part c = cpu3_part c' -> c = c'.
Proof.
  destruct c as [im st rp rc pp pc mo tx wo sh], c' as [im' st' rp' rc' pp' pc' mo' tx' wo' sh'].
  unfold linux_part, cpu3_part, linux_lines, cpu3_lines, linux_block, cpu3_block, produced, consumed, header. cbn.
  intros [= -> -> -> E1 E2 E3 Ep Ec] [= -> -> -> -> -> -> Ep' Ec'].
  pose proof (rings_determined _ _ Ep Ec') as E4. pose proof (rings_determined _ _ Ep' Ec) as E5.
  f_equal. by destruct sh, sh'; cbn in *; subst.
Qed.

Lemma linux_part_produced c c' :
  linux_part c = linux_part c' -> produced LinuxToCpu3 (c_shared c) = produced LinuxToCpu3 (c_shared c').
Proof. by intros [= _ _ _ _ _ _ ? _]. Qed.

(** ** A side's stores leave the other part alone *)
Lemma zset_fmap {A B} (g : A -> B) i x (l : list A) y :
  zget l i = Some y -> g x = g y -> g <$> zset i x l = g <$> l.
Proof.
  intros Hy Hg. unfold zset, zget in *. destruct (0 <=? i); [|done].
  rewrite list_fmap_insert, Hg. apply list_insert_id. by rewrite list_lookup_fmap, Hy.
Qed.
Lemma produced_set p sh r r' dir :
  ring_at p sh = Some r -> (ring_dir p = dir -> producer r' = producer r /\ slot r' = slot r) ->
  produced dir (ring_set p r' sh) = produced dir sh.
Proof.
  intros Hr Hf. unfold produced, ring_set. destruct (decide (dir = ring_dir p)) as [->|Hne].
  - rewrite rings_set_rings. eapply zset_fmap; [exact Hr|]. by destruct Hf as [-> ->].
  - by rewrite rings_set_rings_ne.
Qed.
Lemma consumed_set p sh r r' dir :
  ring_at p sh = Some r -> (ring_dir p = dir -> consumer r' = consumer r) ->
  consumed dir (ring_set p r' sh) = consumed dir sh.
Proof.
  intros Hr Hf. unfold consumed, ring_set. destruct (decide (dir = ring_dir p)) as [->|Hne].
  - rewrite rings_set_rings. eapply zset_fmap; [exact Hr|]. by rewrite Hf.
  - by rewrite rings_set_rings_ne.
Qed.
Lemma block_parts_set p sh r r' :
  ring_at p sh = Some r ->
  ((ring_dir p = Cpu3ToLinux -> producer r' = producer r /\ slot r' = slot r) ->
   (ring_dir p = LinuxToCpu3 -> consumer r' = consumer r) -> cpu3_block (ring_set p r' sh) = cpu3_block sh) /\
  ((ring_dir p = LinuxToCpu3 -> producer r' = producer r /\ slot r' = slot r) ->
   (ring_dir p = Cpu3ToLinux -> consumer r' = consumer r) -> linux_block (ring_set p r' sh) = linux_block sh).
Proof.
  intros Hr. destruct (ring_set_header p r' sh) as (E1 & E2 & E3).
  split; intros Hp Hc; unfold cpu3_block, linux_block, header;
    rewrite (produced_set p sh r r'), (consumed_set p sh r r') by done; congruence.
Qed.
#[export] Instance cpu3_block_kept X : KeptByStores (fun sh => cpu3_block sh = X) linux_pushes linux_pops.
Proof.
  split; unfold linux_pushes, linux_pops; intros p sh r x; intros;
    (etransitivity; [|eassumption]); (eapply block_parts_set; [eassumption|..]); intros; cbn; split || idtac; congruence.
Qed.
#[export] Instance linux_block_kept X : KeptByStores (fun sh => linux_block sh = X) cpu3_pushes cpu3_pops.
Proof.
  split; unfold cpu3_pushes, cpu3_pops; intros p sh r x; intros;
    (etransitivity; [|eassumption]); (eapply block_parts_set; [eassumption|..]); intros; cbn; split || idtac; congruence.
Qed.

(** * Ownership in the system *)
Section Own.
Context {linux_platform : Platform} {linux_coherent : CoherentOps mailmsg_linux_memory_ops}.
Context {cpu3_platform : Cpu3Platform} {cpu3_coherent : CoherentOps mailmsg_queue_memory_ops}.
Context (cfg : fw_config).
Implicit Types (d : r1_amp_cpu_on_data) (f : fw_state).

Lemma linux_event_own ev d d' : block_inv d -> own_event ev ->
  (forall env buf count, ev <> EvStart env buf count) -> handle ev d = Some d' ->
  cpu3_part (carveout d') = cpu3_part (carveout d).
Proof.
  intros [_ _ Hr _] Hown Hns E.
  destruct (linux_keeps_event (fun sh => cpu3_block sh = cpu3_block (c_shared (carveout d)))
    (session_generation d) (cpu3_lines (carveout d)) ev d d' Hown Hns E) as (E1 & _ & _ & E2); [by split|].
  unfold cpu3_part. by rewrite E1, E2.
Qed.
(** A [start] touches CPU3's part only past its checks, the last of which has
    PSCI report the core off. *)
Lemma start_own env buf count d a d' : block_inv d -> start_store env buf count d = Some (a, d') ->
  cpu3_part (carveout d') = cpu3_part (carveout d) \/
  cpu_on_attempted d = false /\ image_written d = image_size d /\
  exists aff, psci_affinity_info env = Some aff /\ aff (mpidr d) 0 = PSCI_0_2_AFFINITY_LEVEL_OFF.
Proof.
  intros Hb E. pose proof E as R. revert E. unfold start_store.
  destruct (negb (sysfs_streq _ _)); [by intros [= <- <-]; left|]. step.
  destruct (mailmsg_user_removing d); [by intros [= <- <-]; left|].
  destruct (cpu_on_attempted d) eqn:Ha; [by intros [= <- <-]; left|].
  destruct (Z.eqb_spec (image_written d) (image_size d)) as [Hi|]; [|by intros [= <- <-]; left]. cbn [negb].
  destruct (psci_affinity_info env) as [aff|] eqn:Haff; [|by intros [= <- <-]; left].
  destruct (psci_cpu_on env); [|by intros [= <- <-]; left].
  step_with (run_refresh env aff d Haff). step.
  pose proof (refreshed_fields (aff (mpidr d) 0) d) as (_ & _ & _ & _ & _ & _ & -> & _).
  destruct (Z.eqb_spec (aff (mpidr d) 0) PSCI_0_2_AFFINITY_LEVEL_OFF) as [Hoff|]; [|intros [= _ <-]].
  - right. split; [done|]. split; [done|]. by exists aff.
  - left. unfold cpu3_part. destruct Hb as [_ _ Hr _].
    destruct (stable_refresh (fun sh => cpu3_block sh = cpu3_block (c_shared (carveout d))) (session_generation d)
      (cpu3_lines (carveout d)) env _ _ _ (run_refresh env aff d Haff)) as (E1 & _ & _ & E2); [by split|].
    by rewrite E1, E2.
Qed.
Lemma firmware_own ev d f f' : role_ok cpu3_pushes cpu3_pops (cpu3_endpoint (cpu f)) ->
  (forall m g, ev <> CPeer m g) -> cpu3_handle cfg ev (sees d f) = Some f' ->
  linux_part (mem3 (cpu f')) = linux_part (carveout d).
Proof.
  intros Hr Hown E.
  destruct (cpu3_invariant_step cfg (cpu3_keeps (fun sh => linux_block sh = linux_block (c_shared (carveout d)))
    (linux_lines (carveout d))) _ ev (sees d f) f' Hown E) as (E1 & _ & E2); [by split|].
  unfold linux_part. by rewrite E1, E2.
Qed.
Lemma boot_own mem regs gic s :
  main_init cfg (cpu3_boot mem regs gic) = Some (tt, s) -> linux_part (mem3 s) = linux_part mem.
Proof.
  intros E. destruct (stable_main_init cfg (fun sh => linux_block sh = linux_block (c_shared mem))
    (linux_lines mem) _ _ _ E) as (E1 & _ & E2).
  - split; [done|]. split; [apply role_zero|done].
  - unfold linux_part. by rewrite E1, E2.
Qed.

(** C28. Every byte of the carveout has one writer: the two parts make up the
    carveout, no operation of the driver changes CPU3's part and no step of the
    firmware, from reset on, changes Linux's - but for a [start] that finds
    PSCI reporting the core off, which clears the whole state area before the
    firmware runs. *)
Theorem one_writer y :
  system_reachable cfg y ->
  (forall c c', linux_part c = linux_part c' -> cpu3_part c = cpu3_part c' -> c = c') /\
  (forall ev d', own_event ev -> handle ev (linux y) = Some d' ->
     cpu3_part (carveout d') = cpu3_part (carveout (linux y)) \/
     exists env buf count aff, ev = EvStart env buf count /\ cpu_on_attempted (linux y) = false /\
       psci_affinity_info env = Some aff /\ aff (mpidr (linux y)) 0 = PSCI_0_2_AFFINITY_LEVEL_OFF) /\
  (forall ev f f', cpu3 y = Some f -> (forall m g, ev <> CPeer m g) ->
     cpu3_handle cfg ev (sees (linux y) f) = Some f' ->
     linux_part (mem3 (cpu f')) = linux_part (carveout (linux y))) /\
  (forall gic s, main_init cfg (cpu3_boot (carveout (linux y)) (regs0 (mb (linux y))) gic) = Some (tt, s) ->
     linux_part (mem3 s) = linux_part (carveout (linux y))).
Proof.
  intros H. destruct (system_reachable_inv cfg y H) as [_ [Hb Hc]].
  split; [apply parts_determine|]. split; [|split; [intros ev f f' Hf; apply firmware_own, Hc, Hf|intros gic s; apply boot_own]].
  intros ev d' Hown E. assert (Hs : (exists env buf count, ev = EvStart env buf count) \/
    forall env buf count, ev <> EvStart env buf count) by (destruct ev; eauto; by right).
  destruct Hs as [(env & buf & count & ->)|Hns]; [|left; by eapply linux_event_own].
  apply run_event_inv in E as (a & E). destruct (start_own _ _ _ _ _ _ Hb E) as [?|(Ha & _ & aff & Hf & Hoff)];
    [by left|right]. by exists env, buf, count, aff.
Qed.
End Own.

(** * The property at a scripted session *)
#[local] Existing Instance host_platform.
#[local] Existing Instance host_cpu3.
Lemma one_writer_witness :
  exists d', handle (EvSendPing "1 41" 4 false) (linux duo_system) = Some d' /\
    cpu3_part (carveout d') = cpu3_part (carveout (linux duo_system)) /\
    linux_part (carveout d') <> linux_part (carveout (linux duo_system)).
Proof.
  destruct (one_writer default_config duo_system duo_system_reachable) as (_ & Hl & _).
  assert (B : match handle (EvSendPing "1 41" 4 false) (linux duo_system) with Some d' =>
    bool_decide (produced LinuxToCpu3 (c_shared (carveout d')) = produced LinuxToCpu3 (c_shared (carveout (linux duo_system))))
    | None => true end = false) by (vm_compute; reflexivity).
  destruct (handle (EvSendPing "1 41" 4 false) (linux duo_system)) as [d'|] eqn:E; [|done].
  exists d'. split; [reflexivity|]. split.
  - destruct (Hl (EvSendPing "1 41" 4 false) d' I E) as [Hk|(env & buf & count & aff & Habs & _)]; [exact Hk|].
    discriminate Habs.
  - intros Hp. apply bool_decide_eq_false in B. exact (B (linux_part_produced _ _ Hp)).
Defined.
