(* ===== verification/Layout.v ===== *)
(** The shared memory as bytes: codecs for the C types both sides map onto it,
    the layout of the frames, rings and lines, and the addresses of the state
    area. *)
From S2P Require Import Prelude Protocol Ring DriverState.

(** * Codecs

    How a C object lies in memory: its size, its bytes, the object a run of
    bytes is read as, and the values the type holds. *)
Record codec (A : Type) := mk_codec {
  csize : nat;
  enc : A -> list Z;
  dec : list Z -> A;
  holds : A -> Prop;
}.
Arguments csize {A} _. Arguments enc {A} _ _. Arguments dec {A} _ _. Arguments holds {A} _ _.

(** [n] little-endian bytes of an unsigned integer. *)
Fixpoint le_enc (n : nat) (v : Z) : list Z :=
  match n with O => [] | S n => u8 v :: le_enc n (Z.shiftr v 8) end.
Definition word (n : nat) : codec Z :=
  mk_codec Z n (le_enc n) (fun bs => le_word (take n bs)) (fun v => 0 <= v < 2 ^ (8 * Z.of_nat n)).
(** [s32], by its two's complement. *)
Definition sword : codec Z :=
  mk_codec Z 4 (fun v => le_enc 4 (u32 v)) (fun bs => s32 (le_word (take 4 bs))) (fun v => - 2 ^ 31 <= v < 2 ^ 31).
(** [u8 x[n]] *)
Definition octets (n : nat) : codec (list Z) :=
  mk_codec (list Z) n (fun l => l) (take n) (fun l => length l = n /\ Forall is_u8 l).
(** A field after another, an array, padding at the end, a struct. *)
Definition pair_codec {A B} (a : codec A) (b : codec B) : codec (A * B) :=
  mk_codec (A * B) (csize a + csize b) (fun x => enc a (fst x) ++ enc b (snd x))
    (fun bs => (dec a bs, dec b (drop (csize a) bs))) (fun x => holds a (fst x) /\ holds b (snd x)).
Fixpoint dec_array {A} (a : codec A) (n : nat) (bs : list Z) : list A :=
  match n with O => [] | S n => dec a bs :: dec_array a n (drop (csize a) bs) end.
Definition array {A} (n : nat) (a : codec A) : codec (list A) :=
  mk_codec (list A) (n * csize a) (fun l => mjoin (enc a <$> l)) (dec_array a n)
    (fun l => length l = n /\ Forall (holds a) l).
Definition padded_to {A} (n : nat) (a : codec A) : codec A :=
  mk_codec A (csize a + (n - csize a)) (fun x => enc a x ++ replicate (n - csize a) 0) (dec a) (holds a).
Definition struct {A B} (a : codec A) (make : A -> B) (fields : B -> A) : codec B :=
  mk_codec B (csize a) (fun x => enc a (fields x)) (fun bs => make (dec a bs)) (fun x => holds a (fields x)).

Declare Scope codec_scope.
Delimit Scope codec_scope with codec.
Notation "a ⊗ b" := (pair_codec a b) (at level 40, b at level 40, right associativity) : codec_scope.
#[local] Open Scope codec_scope.
Abbreviation c_u32 := (word 4).
Abbreviation c_u64 := (word 8).

(** * The types of the protocol *)
Definition message_codec : codec mailmsg_message :=
  struct (c_u32 ⊗ c_u32 ⊗ c_u32 ⊗ c_u32 ⊗ octets 28 ⊗ c_u32 ⊗ c_u32)
    (fun '(g, (t, (s, (l, (p, (c, k)))))) => mk_message g t s l p c k)
    (fun m => (generation m, (type_ m, (sequence m, (length_ m, (payload m, (crc32 m, commit m))))))).
Definition ring_codec : codec mailmsg_ring :=
  struct (c_u32 ⊗ c_u32 ⊗ array 8 message_codec)
    (fun '(p, (c, s)) => mk_ring p c s) (fun r => (producer r, (consumer r, slot r))).
Definition shared_codec : codec mailmsg_shared :=
  struct (c_u32 ⊗ c_u32 ⊗ c_u32 ⊗ array 4 ring_codec ⊗ array 4 ring_codec)
    (fun '(m, (v, (g, (a, b)))) => mk_shared m v g a b)
    (fun s => (magic s, (version s, (shared_generation s, (linux_to_cpu3 s, cpu3_to_linux s))))).

(** ** The lines of the state area *)
Definition payload_line_codec : codec r1_amp_payload_line :=
  padded_to 64 (struct (c_u32 ⊗ c_u32 ⊗ sword ⊗ c_u32)
    (fun '(a, (b, (c, d))) => mk_payload_line a b c d)
    (fun l => (pl_command l, (pl_value l, (pl_status l, pl_result l))))).
Definition commit_line_codec : codec r1_amp_commit_line :=
  padded_to 64 (struct (c_u64 ⊗ c_u64) (fun '(a, b) => mk_commit_line a b)
    (fun l => (cl_sequence l, cl_sequence_inv l))).
Definition observation_codec : codec r1_amp_mbox_observation_line :=
  padded_to 64 (struct (c_u32 ⊗ c_u32 ⊗ c_u32 ⊗ c_u32)
    (fun '(a, (b, (c, d))) => mk_observation_line a b c d)
    (fun l => (ob_magic l, (ob_a2b_status l, (ob_command l, ob_data l))))).
Definition tx_full_codec : codec mailmsg_tx_full_observation :=
  padded_to 64 (struct (c_u32 ⊗ c_u32 ⊗ c_u32 ⊗ c_u32 ⊗ c_u32 ⊗ c_u32 ⊗ sword)
    (fun '(a, (b, (c, (d, (e, (f, g)))))) => mk_tx_full_observation a b c d e f g)
    (fun o => (txo_magic o, (txo_commit o, (txo_commit_inv o, (full_count o, (last_priority o,
      (last_type o, last_result o)))))))).
Definition worker_codec : codec r1_amp_mailmsg_worker_observation_line :=
  padded_to 64 (struct (c_u32 ⊗ c_u32 ⊗ c_u32 ⊗ c_u32 ⊗ c_u32 ⊗ c_u32 ⊗ c_u32 ⊗ c_u32 ⊗ c_u32 ⊗ c_u32 ⊗ c_u32)
    (fun '(a, (b, (c, (d, (e, (f, (g, (h, (i, (j, k)))))))))) => mk_worker_observation a b c d e f g h i j k)
    (fun w => (wo_magic w, (wo_commit w, (wo_commit_inv w, (wo_irq_count w, (wo_wake_count w,
      (wo_drain_count w, (wo_message_count w, (wo_empty_wake_count w, (wo_last_pending w,
      (wo_pending_now w, wo_last_priority w)))))))))))).
(** The two status words; nothing uses the rest of their line. *)
Definition status_codec : codec (list Z) := padded_to 64 (array 2 c_u64).

(** ** The same lines as the firmware declares them *)
Definition AMP_CACHE_LINE_SIZE : Z := 64.
Definition amp_payload_line : codec r1_amp_payload_line :=
  padded_to 64 (struct (c_u32 ⊗ c_u32 ⊗ sword ⊗ c_u32)
    (fun '(command, (value, (status, result))) => mk_payload_line command value status result)
    (fun l => (pl_command l, (pl_value l, (pl_status l, pl_result l))))).
Definition amp_commit_line : codec r1_amp_commit_line :=
  padded_to 64 (struct (c_u64 ⊗ c_u64) (fun '(seq, inv) => mk_commit_line seq inv)
    (fun l => (cl_sequence l, cl_sequence_inv l))).
Definition amp_mbox_observation_line : codec r1_amp_mbox_observation_line :=
  padded_to 64 (struct (c_u32 ⊗ c_u32 ⊗ c_u32 ⊗ c_u32)
    (fun '(mag, (status, (command, data))) => mk_observation_line mag status command data)
    (fun l => (ob_magic l, (ob_a2b_status l, (ob_command l, ob_data l))))).
Definition mailmsg_worker_observation_line : codec r1_amp_mailmsg_worker_observation_line :=
  padded_to 64 (struct (c_u32 ⊗ c_u32 ⊗ c_u32 ⊗ c_u32 ⊗ c_u32 ⊗ c_u32 ⊗ c_u32 ⊗ c_u32 ⊗ c_u32 ⊗ c_u32 ⊗ c_u32)
    (fun '(mag, (commit, (inv, (irq, (wake, (drain, (messages, (empty, (last, (now, prio)))))))))) =>
       mk_worker_observation mag commit inv irq wake drain messages empty last now prio)
    (fun w => (wo_magic w, (wo_commit w, (wo_commit_inv w, (wo_irq_count w, (wo_wake_count w,
      (wo_drain_count w, (wo_message_count w, (wo_empty_wake_count w, (wo_last_pending w,
      (wo_pending_now w, wo_last_priority w)))))))))))).

(** ** The static assertions of both sources: every line is a cache line *)
Definition fills {A} (line : Z) (c : codec A) : bool := Z.of_nat (csize c) =? line.

(** * The state area and the carveout *)
Definition state_fields (c : carveout_mem) :=
  (status_words c, (req_payload c, (req_commit c, (rsp_payload c, (rsp_commit c, (mbox_observation c,
    (tx_full_observation c, (worker_observation c, c_shared c)))))))).
Definition state_codec := status_codec ⊗ payload_line_codec ⊗ commit_line_codec ⊗ payload_line_codec ⊗
  commit_line_codec ⊗ observation_codec ⊗ tx_full_codec ⊗ worker_codec ⊗ shared_codec.
Definition carveout_of (image : list Z) : _ -> carveout_mem :=
  fun '(st, (rqp, (rqc, (rsp, (rsc, (ob, (tx, (wo, sh)))))))) => mk_carveout image st rqp rqc rsp rsc ob tx wo sh.
(** The reserved memory holds the image area, then the state area. *)
Definition carveout_codec (status_offset : nat) : codec carveout_mem :=
  struct (octets status_offset ⊗ state_codec) (fun '(im, st) => carveout_of im st)
    (fun c => (image c, state_fields c)).

(** Offsets from the status words, as the driver has them. *)
Definition R1_AMP_CACHE_LINE_SIZE : Z := 64.
Definition R1_AMP_REQ_PAYLOAD_OFF : Z := 0x40.
Definition R1_AMP_REQ_COMMIT_OFF : Z := 0x80.
Definition R1_AMP_RSP_PAYLOAD_OFF : Z := 0xc0.
Definition R1_AMP_RSP_COMMIT_OFF : Z := 0x100.
Definition R1_AMP_MBOX_OBS_OFF : Z := 0x140.
Definition R1_AMP_MAILMSG_TX_FULL_OBS_OFF : Z := 0x180.
Definition R1_AMP_MAILMSG_WORKER_OBS_OFF : Z := 0x1c0.
Definition R1_AMP_PROTOCOL_SIZE : Z := 0x200.

Definition driver_static_asserts : bool :=
  fills R1_AMP_CACHE_LINE_SIZE payload_line_codec && fills R1_AMP_CACHE_LINE_SIZE commit_line_codec &&
  fills R1_AMP_CACHE_LINE_SIZE observation_codec && fills R1_AMP_CACHE_LINE_SIZE worker_codec &&
  fills R1_AMP_CACHE_LINE_SIZE tx_full_codec.
Definition firmware_static_asserts : bool :=
  fills AMP_CACHE_LINE_SIZE amp_payload_line && fills AMP_CACHE_LINE_SIZE amp_commit_line &&
  fills AMP_CACHE_LINE_SIZE amp_mbox_observation_line && fills AMP_CACHE_LINE_SIZE mailmsg_worker_observation_line &&
  fills AMP_CACHE_LINE_SIZE tx_full_codec.

(** The driver's pointers, into a carveout mapped at [carveout]. *)
Definition r1_amp_status_ptr (carveout status_offset : Z) : Z := carveout + status_offset.
Definition r1_amp_protocol_ptr (carveout status_offset offset : Z) : Z :=
  r1_amp_status_ptr carveout status_offset + offset.
Definition r1_amp_mbox_observation_ptr (carveout status_offset : Z) : Z :=
  r1_amp_protocol_ptr carveout status_offset R1_AMP_MBOX_OBS_OFF.
Definition r1_amp_mailmsg_tx_full_observation_ptr (carveout status_offset : Z) : Z :=
  r1_amp_protocol_ptr carveout status_offset R1_AMP_MAILMSG_TX_FULL_OBS_OFF.
Definition r1_amp_mailmsg_worker_observation_ptr (carveout status_offset : Z) : Z :=
  r1_amp_protocol_ptr carveout status_offset R1_AMP_MAILMSG_WORKER_OBS_OFF.
Definition mailmsg_linux_shared_ptr (carveout status_offset : Z) : Z :=
  r1_amp_protocol_ptr carveout status_offset R1_AMP_MAILMSG_OFF.

(** The firmware's addresses. *)
Definition AMP_STATUS_ADDR : Z := 0x500ff000.
Definition AMP_REQ_PAYLOAD_ADDR : Z := AMP_STATUS_ADDR + 0x40.
Definition AMP_REQ_COMMIT_ADDR : Z := AMP_STATUS_ADDR + 0x80.
Definition AMP_RSP_PAYLOAD_ADDR : Z := AMP_STATUS_ADDR + 0xc0.
Definition AMP_RSP_COMMIT_ADDR : Z := AMP_STATUS_ADDR + 0x100.
Definition AMP_MBOX_OBS_ADDR : Z := AMP_STATUS_ADDR + 0x140.
Definition AMP_MAILMSG_TX_FULL_OBS_ADDR : Z := AMP_STATUS_ADDR + 0x180.
Definition AMP_MAILMSG_WORKER_OBS_ADDR : Z := AMP_STATUS_ADDR + 0x1c0.
Definition AMP_QUEUE_ADDR : Z := AMP_STATUS_ADDR + 0x200.

(** * The ranges handed to the memory hooks

    [&ring->producer] and the like, as offsets into the block, with their
    lengths. *)
Definition ring_offset (p : ring_ptr) : Z :=
  3 * 4 + ring_index p * sizeof_ring +
  match ring_dir p with LinuxToCpu3 => 0 | Cpu3ToLinux => MAILMSG_PRIORITY_COUNT * sizeof_ring end.
Definition slot_offset (p : ring_ptr) (i : Z) : Z := ring_offset p + 8 + i * sizeof_message.
Definition region_range (rg : region) : Z * Z :=
  match rg with
  | RegHeader => (0, 4 + 4 + 4)
  | RegShared => (0, sizeof_shared)
  | RegProducer p => (ring_offset p, 4)
  | RegConsumer p => (ring_offset p + 4, 4)
  | RegSlot p i => (slot_offset p i, sizeof_message)
  | RegCommit p i => (slot_offset p i + 48, 4)
  end.

(** * Who owns which byte of the state area *)
Inductive owner := OwnLinux | OwnCpu3 | OwnNobody.
#[export] Instance owner_eq_dec : EqDecision owner.
Proof. solve_decision. Defined.
(** A line of one side: its fields, then its reserved bytes. *)
Definition line_owners (who : owner) (fields : nat) : list owner :=
  replicate fields who ++ replicate (64 - fields) OwnNobody.
Definition ring_owners (push pop : owner) : list owner :=
  replicate 4 push ++ replicate 4 pop ++ replicate (8 * 52) push.
Definition block_owners : list owner :=
  replicate 12 OwnLinux ++ mjoin (replicate 4 (ring_owners OwnLinux OwnCpu3)) ++
  mjoin (replicate 4 (ring_owners OwnCpu3 OwnLinux)).
Definition state_owners : list owner :=
  line_owners OwnCpu3 16 ++ line_owners OwnLinux 16 ++ line_owners OwnLinux 16 ++ line_owners OwnCpu3 16 ++
  line_owners OwnCpu3 16 ++ line_owners OwnCpu3 16 ++ line_owners OwnCpu3 28 ++ line_owners OwnCpu3 44 ++
  block_owners.
(** The owners of the bytes in the k-th cache line. *)
Definition line_of (k : nat) : list owner := take 64 (drop (64 * k) state_owners).
