(* ===== verification/Safe.v ===== *)
(** Definedness: computations that never run into undefined behaviour and keep
    an invariant, for the ring and endpoint operations; the invariant includes
    that every frame of the block holds values of its C types. *)
From S2P Require Import Prelude Protocol Ring Notify Endpoint Frame DriverState Layout BlockSpec.

(** * Computations that are defined and keep [P] *)
Definition safe {S A} (P : S -> Prop) (m : M S A) : Prop := triple P m (fun _ => P).

Section Safe.
Context {S : Type} (P : S -> Prop).

Lemma safe_ret {A} (a : A) : safe P (mret a).
Proof. intros s H. by exists a, s. Qed.
Lemma safe_triple_bind {A B} (m : M S A) (k : A -> M S B) Q :
  triple P m Q -> (forall a, triple (Q a) (k a) (fun _ => P)) -> safe P (x ← m; k x).
Proof.
  intros Hm Hk s Hs. destruct (Hm s Hs) as (a & s1 & E1 & H1). destruct (Hk a s1 H1) as (b & s2 & E2 & H2).
  exists b, s2. by rewrite (run_bind_some _ _ _ _ _ E1).
Qed.
Lemma safe_bind {A B} (m : M S A) (k : A -> M S B) :
  safe P m -> (forall a, safe P (k a)) -> safe P (x ← m; k x).
Proof. intros Hm. by apply safe_triple_bind. Qed.
(** A result of which something is known. *)
Definition safe_with {A} (m : M S A) (R : A -> Prop) : Prop := triple P m (fun a s => P s /\ R a).
Lemma safe_bind_with {A B} (m : M S A) (k : A -> M S B) R :
  safe_with m R -> (forall a, R a -> safe P (k a)) -> safe P (x ← m; k x).
Proof. intros Hm Hk. apply (safe_triple_bind m k _ Hm). intros a s [Hs Ha]. by apply Hk. Qed.
Lemma safe_forget {A} (m : M S A) R : safe_with m R -> safe P m.
Proof. intros Hm s Hs. destruct (Hm s Hs) as (a & s' & E & Hs' & _). by exists a, s'. Qed.
(** What is read is read from a state that satisfies the invariant. *)
Lemma safe_bind_gets {A B} (f : S -> A) (k : A -> M S B) :
  (forall s, P s -> safe P (k (f s))) -> safe P (x ← gets f; k x).
Proof. intros H s Hs. by apply (H s Hs s). Qed.
Lemma safe_bind_get {B} (k : S -> M S B) : (forall s, P s -> safe P (k s)) -> safe P (x ← get; k x).
Proof. intros H s Hs. by apply (H s Hs s). Qed.
Lemma safe_gets {A} (f : S -> A) : safe P (gets f).
Proof. intros s H. by exists (f s), s. Qed.
Lemma safe_get : safe P get.
Proof. intros s H. by exists s, s. Qed.
Lemma safe_from_option {A} (o : option A) : is_Some o -> safe P (from_option_ub o).
Proof. intros [a ->]. apply safe_ret. Qed.
Lemma safe_bind_some {A B} (o : option A) a (k : A -> M S B) :
  o = Some a -> safe P (k a) -> safe P (x ← from_option_ub o; k x).
Proof. intros -> Hk s Hs. by apply (Hk s). Qed.
(** A lookup that succeeds in every state of the invariant. *)
Lemma safe_lookup {A} (f : S -> option A) : (forall s, P s -> is_Some (f s)) -> safe P (s ← get; from_option_ub (f s)).
Proof. intros H. apply safe_bind_get. intros s Hs. by apply safe_from_option, H. Qed.
Lemma safe_modify f : (forall s, P s -> P (f s)) -> safe P (modify f).
Proof. intros H s Hs. exists tt, (f s). split; [done|by apply H]. Qed.
Lemma safe_when b (m : M S unit) : safe P m -> safe P (when b m).
Proof. destruct b; [done|intros _; apply safe_ret]. Qed.
Lemma safe_for_each {A} (l : list A) (body : A -> M S unit) :
  (forall a, a ∈ l -> safe P (body a)) -> safe P (for_each l body).
Proof.
  intros H. induction l as [|x l IH]; [apply safe_ret|].
  apply safe_bind; [apply H; left|intros _]. apply IH. intros a Ha. apply H. by right.
Qed.
Lemma safe_stable {A} (m : M S A) : stable P m -> (forall s, P s -> is_Some (m s)) -> safe P m.
Proof. intros Hm Hd s Hs. destruct (Hd s Hs) as [[a s'] E]. exists a, s'. split; [exact E|by eapply Hm]. Qed.
(** Working on a component, given the invariant it inherits. *)
Lemma triple_zoom {U A} (Q : U -> Prop) (R : A -> U -> Prop) (R' : A -> S -> Prop) (getc : S -> U) setc (m : M U A) :
  triple Q m R -> (forall s, P s -> Q (getc s)) -> (forall a u s, P s -> R a u -> R' a (setc u s)) ->
  triple P (zoom getc setc m) R'.
Proof.
  intros Hm Hg Hset s Hs. destruct (Hm (getc s) (Hg s Hs)) as (a & u & E & Hu).
  exists a, (setc u s). unfold zoom. rewrite E. split; [done|by apply Hset].
Qed.
Lemma safe_zoom {U A} (Q : U -> Prop) (getc : S -> U) setc (m : M U A) :
  safe Q m -> (forall s, P s -> Q (getc s)) -> (forall u s, P s -> Q u -> P (setc u s)) ->
  safe P (zoom getc setc m).
Proof. intros Hm Hg Hset. eapply triple_zoom; [exact Hm|exact Hg|]. intros ?. exact Hset. Qed.
End Safe.

Lemma triple_mono {S A} (P : S -> Prop) (m : M S A) (Q R : A -> S -> Prop) :
  triple P m Q -> (forall a s, Q a s -> R a s) -> triple P m R.
Proof. intros Hm H s Hs. destruct (Hm s Hs) as (a & s' & E & Hq). exists a, s'. auto. Qed.
Lemma safe_runs {S A} (P : S -> Prop) (m : M S A) s : safe P m -> P s -> is_Some (m s).
Proof. intros Hm Hs. destruct (Hm s Hs) as (a & s' & -> & _). by eexists. Qed.

Create HintDb safe.
#[export] Hint Resolve safe_ret safe_gets safe_get : safe.

(** Go through a computation whose plain updates keep the invariant by
    conversion. *)
Ltac safe_step :=
  match goal with
  | |- safe _ (mbind _ _) => apply safe_bind; [|intros ?]
  | |- safe _ (modify _) => apply safe_modify; intros ? ?; assumption
  | |- safe _ (when _ _) => apply safe_when
  | |- safe _ (match ?x with _ => _ end) => destruct x
  | |- safe _ (let _ := _ in _) => cbv zeta
  | |- safe _ _ => solve [auto with safe]
  end.
Ltac safe_auto := repeat (cbv beta; safe_step).

(** * Frames, rings and blocks that hold values of their C types *)
Record frame_typed (m : mailmsg_message) : Prop := {
  ft_generation : is_u32 (generation m);
  ft_type : is_u32 (type_ m);
  ft_sequence : is_u32 (sequence m);
  ft_length : is_u32 (length_ m);
  ft_payload : length (payload m) = 28%nat /\ Forall is_u8 (payload m);
  ft_crc : is_u32 (crc32 m);
  ft_commit : is_u32 (commit m);
}.
Definition ring_typed (r : mailmsg_ring) : Prop := ring_wf r /\ Forall frame_typed (slot r).
Record block_typed (sh : mailmsg_shared) : Prop := {
  bt_header : is_u32 (magic sh) /\ is_u32 (version sh) /\ is_u32 (shared_generation sh);
  bt_length : length (linux_to_cpu3 sh) = 4%nat /\ length (cpu3_to_linux sh) = 4%nat;
  bt_rings : Forall ring_typed (linux_to_cpu3 sh) /\ Forall ring_typed (cpu3_to_linux sh);
}.

Lemma frame_typed_holds m : frame_typed m -> holds message_codec m.
Proof.
  intros [H1 H2 H3 H4 H5 H6 H7]. exact (conj H1 (conj H2 (conj H3 (conj H4 (conj H5 (conj H6 H7)))))).
Qed.
Lemma ring_typed_holds r : ring_typed r -> holds ring_codec r.
Proof.
  intros [[Hp Hc Hl] Hf]. cbn. split; [lia|]. split; [lia|]. split; [done|].
  eapply Forall_impl; [exact Hf|apply frame_typed_holds].
Qed.
Lemma block_typed_holds sh : block_typed sh -> holds shared_codec sh.
Proof.
  intros [(H1 & H2 & H3) [L1 L2] [R1 R2]]. split; [exact H1|]. split; [exact H2|]. split; [exact H3|].
  split; (split; [done|]); (eapply Forall_impl; [done|apply ring_typed_holds]).
Qed.
Lemma block_typed_wf sh : block_typed sh -> shared_wf sh.
Proof. intros [_ [L1 L2] [R1 R2]]. repeat split; try done; (eapply Forall_impl; [done|by intros r []]). Qed.
Lemma block_typed_ring sh p r : block_typed sh -> ring_at p sh = Some r -> ring_typed r.
Proof.
  intros [_ _ [R1 R2]]. unfold ring_at, zget. destruct (0 <=? _); [|done].
  destruct (ring_dir p); by apply Forall_lookup_1.
Qed.
Lemma block_typed_at sh p : block_typed sh -> 0 <= ring_index p < 4 -> exists r, ring_at p sh = Some r /\ ring_typed r.
Proof.
  intros Hs Hp. destruct (shared_wf_ring_at sh (ring_dir p) (ring_index p) (block_typed_wf sh Hs) Hp) as (r & Hr & _).
  destruct p as [dir i]. exists r. split; [done|]. by eapply block_typed_ring.
Qed.
Lemma block_typed_set p r sh : block_typed sh -> ring_typed r -> block_typed (ring_set p r sh).
Proof.
  intros [H [L1 L2] [R1 R2]] Hr. unfold ring_set.
  destruct (ring_dir p); split; cbn; rewrite ?length_zset; try done; split; try done; by apply Forall_zset.
Qed.

Lemma frame_typed_zero : frame_typed message_zero.
Proof. split; cbn; unfold is_u32; try lia. split; [done|]. by repeat (constructor; [unfold is_u8; lia|]). Qed.
Lemma ring_typed_zero : ring_typed ring_zero.
Proof. split; [by split|]. by repeat (constructor; [apply frame_typed_zero|]). Qed.
Lemma block_typed_new gen : is_u32 gen -> block_typed (shared_zero <| magic := MAILMSG_PROTOCOL_MAGIC |>
  <| version := MAILMSG_PROTOCOL_VERSION |> <| shared_generation := gen |>).
Proof.
  intros Hg. split; cbn; [split; [by vm_compute|split; [by vm_compute|exact Hg]]|done|].
  split; by repeat (constructor; [apply ring_typed_zero|]).
Qed.
Lemma block_typed_zero : block_typed shared_zero.
Proof.
  split; cbn; [by repeat split|done|]. split; by repeat (constructor; [apply ring_typed_zero|]).
Qed.

(** A frame as an operation builds it, before CRC and commit. *)
Lemma frame_typed_made gen type seq len bytes :
  is_u32 gen -> is_u32 type -> is_u32 seq -> is_u32 len -> length bytes = 28%nat -> Forall is_u8 bytes ->
  frame_typed (mk_message gen type seq len bytes 0 0).
Proof. intros. by split. Qed.
Lemma crc_u32 m : is_u32 (mailmsg_frame_crc32 m).
Proof. unfold mailmsg_frame_crc32, u32_not. apply is_u32_lxor; [apply u32_range|by unfold is_u32]. Qed.
Lemma frame_typed_committed m : frame_typed m -> frame_typed (committed m).
Proof. intros []. split; try done. apply crc_u32. Qed.
Lemma ring_typed_put x r : ring_typed r -> frame_typed x -> ring_typed (put_frame x r).
Proof. intros [Hw Hf] Hx. split; [by apply put_wf|]. by apply Forall_zset. Qed.
Lemma ring_typed_popped r : ring_typed r -> ring_typed (popped r).
Proof. intros [Hw Hf]. split; [by apply popped_wf|done]. Qed.

(** ** The ring operations *)
Section SafeRing.
Context (o : mailmsg_memory_ops) `{!CoherentOps o} (p : ring_ptr).
Hypothesis Hp : 0 <= ring_index p < 4.

Lemma safe_push m : frame_typed m -> safe block_typed (mailmsg_ring_push p (Some o) m).
Proof.
  intros Hm sh Hs. destruct (block_typed_at sh p Hs Hp) as (r & Hr & Ht).
  rewrite (run_push o p r m sh Hr (proj1 Ht)).
  destruct (frame_invalid m); [by do 2 eexists|]. destruct (_ =? _); [by do 2 eexists|].
  do 2 eexists. split; [done|]. apply block_typed_set; [done|]. by apply ring_typed_put, frame_typed_committed.
Qed.
(** A frame popped OK is typed and its length is in bounds. *)
Definition good_frame (m : mailmsg_message) : Prop := frame_typed m /\ length_ m <= 28.
Lemma safe_pop buf : safe_with block_typed (mailmsg_ring_pop p (Some o) buf) (fun x => x.1 = 0 -> good_frame x.2).
Proof.
  intros sh Hs. destruct (block_typed_at sh p Hs Hp) as (r & Hr & Ht). pose proof Ht as [Hw Hf].
  destruct (zget_is_Some (slot r) (consumer r)) as [m Hm]; [rewrite (wf_slots _ Hw); apply Hw|].
  rewrite (run_pop o p r m buf sh Hr Hw Hm). destruct (_ =? producer r); [by do 2 eexists|].
  destruct (_ =? sequence m); [|by do 2 eexists]. do 2 eexists. split; [done|].
  split; [by apply block_typed_set, ring_typed_popped|]. cbn. unfold frame_verdict, frame_invalid.
  destruct ((generation m =? 0) || (sequence m =? 0)); [done|]. cbn [orb].
  destruct (Z.ltb_spec MAILMSG_PAYLOAD_BYTES (length_ m)); [done|]. intros _. split; [|done].
  unfold zget in Hm. destruct (0 <=? _); [|done]. by eapply Forall_lookup_1.
Qed.
Lemma safe_has_data : safe block_typed (mailmsg_ring_has_data (Some p) (Some o)).
Proof.
  intros sh Hs. destruct (block_typed_at sh p Hs Hp) as (r & Hr & _).
  rewrite (run_has_data o p r sh Hr). by do 2 eexists.
Qed.
Lemma safe_count : safe block_typed (mailmsg_ring_count (Some p) (Some o)).
Proof.
  intros sh Hs. destruct (block_typed_at sh p Hs Hp) as (r & Hr & Ht).
  rewrite (run_count o p r sh Hr (proj1 Ht)). by do 2 eexists.
Qed.
End SafeRing.
Lemma safe_acquire o rg : CoherentOps o -> safe block_typed (ops_acquire (Some o) rg).
Proof. intros Ho sh Hs. rewrite run_acquire by done. by do 2 eexists. Qed.

(** * The endpoint operations *)

(** What a caller hands to [send]: as many bytes as it says, up to a frame. *)
Definition payload_given (p : option (list Z)) (len : Z) : Prop :=
  forall bytes, p = Some bytes -> Forall is_u8 bytes /\ (len <= 28 -> (Z.to_nat len <= length bytes)%nat).

Section SafeEndpoint.
Context {C : Type} (K : C -> Prop).

(** Hooks that are there, a doorbell that may be rung, types. *)
Record endpoint_safe (e : mailmsg_endpoint C) : Prop := {
  es_hooks : hooks_ok (memory_ops e);
  es_notify g i : notify_fn (ep_notify e) = Some g -> 0 <= i < 4 -> safe K (g i);
  es_generation : is_u32 (ep_generation e);
  es_stats : length (stats e) = 4%nat;
}.
Record world_safe (w : ep_world C) : Prop := {
  ws_block : block_typed (shm w);
  ws_endpoint : endpoint_safe (ep w);
  ws_ctx : K (ctx w);
}.

Lemma endpoint_safe_zero : endpoint_safe endpoint_zero.
Proof. by split. Qed.
Lemma endpoint_safe_same e e' : memory_ops e' = memory_ops e -> ep_notify e' = ep_notify e ->
  ep_generation e' = ep_generation e -> length (stats e') = length (stats e) -> endpoint_safe e -> endpoint_safe e'.
Proof. intros E1 E2 E3 E4 []. split; by rewrite ?E1, ?E2, ?E3, ?E4. Qed.

Lemma safe_on_shared {A} (m : M mailmsg_shared A) : safe block_typed m -> safe world_safe (on_shared m).
Proof. intros Hm. by apply (safe_zoom world_safe block_typed); [done|intros w []|intros u w [] ?; split]. Qed.
Lemma safe_on_ctx {A} (m : M C A) : safe K m -> safe world_safe (on_ctx m).
Proof. intros Hm. by apply (safe_zoom world_safe K); [done|intros w []|intros u w [] ?; split]. Qed.
Lemma safe_upd_ep f : (forall e, endpoint_safe e -> endpoint_safe (f e)) -> safe world_safe (upd_ep f).
Proof. intros Hf. apply safe_modify. intros w [Hb He Hc]. split; [exact Hb|by apply Hf|exact Hc]. Qed.
Lemma safe_upd_stats prio f : safe world_safe (upd_stats prio f).
Proof. apply safe_upd_ep. intros e. apply endpoint_safe_same; cbn; by rewrite ?length_zupd. Qed.
#[local] Hint Resolve safe_on_shared safe_on_ctx safe_upd_stats safe_acquire : safe.

Lemma safe_session_valid : safe world_safe mailmsg_endpoint_session_valid.
Proof.
  unfold mailmsg_endpoint_session_valid. apply safe_bind_gets. intros w [_ He _].
  destruct (memory_ops (ep w)) as [o|] eqn:Eo; [pose proof (es_hooks _ He o Eo); safe_auto|].
  cbn [no_acquire]. rewrite orb_true_r. apply safe_ret.
Qed.
#[local] Hint Resolve safe_session_valid : safe.
Lemma safe_mailmsg_notify ne i : (forall g, notify_fn ne = Some g -> safe K (g i)) -> safe K (mailmsg_notify ne i).
Proof. intros H. unfold mailmsg_notify. destruct (notify_fn ne) as [g|]; [|safe_auto]. pose proof (H g eq_refl). safe_auto. Qed.

(** The frame [send] builds. *)
Lemma payload_copied p len : is_u32 len -> len <= 28 -> payload_given p len -> (len = 0 \/ p <> None) ->
  exists bytes, copy_bytes (Z.to_nat len) 0 (default [] p) (payload message_zero) = Some bytes /\
    length bytes = 28%nat /\ Forall is_u8 bytes.
Proof.
  intros Hu Hl Hp Hn. assert (Hlen : (Z.to_nat len <= length (default [] p))%nat /\ Forall is_u8 (default [] p)).
  { destruct p as [bytes|]; [destruct (Hp bytes eq_refl); split; [auto|done]|]. destruct Hn as [->|]; [|done]. by split. }
  destruct Hlen as [Hlen Hb]. unfold is_u32 in Hu.
  exists (padded len (default [] p)). rewrite copy_payload by (done || lia). split; [done|].
  split; [apply length_padded; [lia|done]|]. unfold padded. apply Forall_app.
  split; [by apply Forall_take|]. apply Forall_drop, frame_typed_zero.
Qed.
Lemma safe_next_sequence : safe_with world_safe mailmsg_endpoint_next_sequence is_u32.
Proof.
  intros w [Hb He Hc]. eexists _, _. split; [reflexivity|]. split; [|apply next_seq_u32].
  split; [exact Hb| |exact Hc]. by eapply endpoint_safe_same, He.
Qed.
Lemma safe_send prio type p len r :
  0 <= prio -> is_u32 type -> is_u32 len -> payload_given p len ->
  safe world_safe (mailmsg_endpoint_send prio type p len r).
Proof.
  intros Hprio Ht Hlen Hp. unfold mailmsg_endpoint_send. apply safe_bind_gets. intros w [_ He _].
  destruct (tx (ep w)) as [dir|]; [|safe_auto]. destruct (memory_ops (ep w)) as [o|] eqn:Eo; [|safe_auto].
  pose proof (es_hooks _ He o Eo) as Ho. destruct (_ || _) eqn:Eb; [safe_auto|].
  apply orb_false_iff in Eb as [[E1 E2]%orb_false_iff E3]. apply Z.leb_gt in E1. apply Z.ltb_ge in E2.
  destruct (payload_copied p len Hlen E2 Hp) as (bytes & Ec & Hl & Hu).
  { destruct (Z.eqb_spec len 0); [by left|right]. by destruct p. }
  clear E3.
  apply safe_bind; [safe_auto|intros code]. destruct (negb _); [safe_auto|].
  apply (safe_bind_with _ mailmsg_endpoint_next_sequence _ _ safe_next_sequence). intros seq Hseq.
  apply (safe_bind_some _ _ bytes); [exact Ec|].
  assert (Hi : 0 <= ring_index (mk_ring_ptr dir prio) < 4) by (cbn; unfold MAILMSG_PRIORITY_COUNT in E1; lia).
  pose proof (frame_typed_made _ type seq len bytes (es_generation _ He) Ht Hseq Hlen Hl Hu) as Hm.
  assert (Hn : safe K (mailmsg_notify (ep_notify (ep w)) prio)).
  { apply safe_mailmsg_notify. intros g Hg. by apply (es_notify _ He). }
  pose proof (safe_push o _ Hi _ Hm). pose proof (safe_count o _ Hi). safe_auto.
Qed.

Lemma safe_receive prio buf : 0 <= prio ->
  safe_with world_safe (mailmsg_endpoint_receive prio buf) (fun x => x.1 = 0 -> good_frame x.2).
Proof.
  intros Hprio w [Hb He Hc]. unfold mailmsg_endpoint_receive. step.
  destruct (rx (ep w)) as [dir|]; [|by do 2 eexists]. destruct (memory_ops (ep w)) as [o|] eqn:Eo; [|by do 2 eexists].
  pose proof (es_hooks _ He o Eo) as Ho. destruct (Z.leb_spec MAILMSG_PRIORITY_COUNT prio) as [|E1]; [by do 2 eexists|].
  destruct (safe_session_valid w) as (code & w1 & R1 & Hw1); [by split|]. step_with R1.
  destruct (Z.eqb_spec code 0) as [->|]; cbn [negb]; [|by do 2 eexists].
  assert (Hi : 0 <= ring_index (mk_ring_ptr dir prio) < 4) by (cbn; unfold MAILMSG_PRIORITY_COUNT in E1; lia).
  destruct (triple_zoom world_safe block_typed (fun x sh => block_typed sh /\ (x.1 = 0 -> good_frame x.2))
    (fun x w => world_safe w /\ (x.1 = 0 -> good_frame x.2)) shm (fun s w => w <| shm := s |>) _ (safe_pop o _ Hi buf))
    with (s := w1) as ([ret m] & w2 & R2 & Hw2 & Hm); [by intros ? []|by intros ? ? ? [] []|done|].
  step_with R2. cbn [fst snd] in Hm.
  assert (H : forall ret', (ret' = 0 -> good_frame m) -> safe_with world_safe
    ((if ret' =? 0 then upd_stats prio (fun s => s <| rx_ok := u32 (rx_ok s + 1) |>)
      else if ret' =? MAILMSG_RING_INCOMPLETE
      then upd_stats prio (fun s => s <| rx_incomplete := u32 (rx_incomplete s + 1) |>)
      else if ret' =? MAILMSG_RING_BAD_CRC
      then upd_stats prio (fun s => s <| rx_bad_crc := u32 (rx_bad_crc s + 1) |>)
      else when (ret' =? MAILMSG_RING_INVALID)
             (upd_stats prio (fun s => s <| rx_invalid := u32 (rx_invalid s + 1) |>))) ;; mret (ret', m))
    (fun x : Z * mailmsg_message => x.1 = 0 -> good_frame x.2)).
  { intros ret' Hm' w3 Hw3. match goal with |- exists a s', (?k ;; _) _ = _ /\ _ => assert (Hk : safe world_safe k) by safe_auto end.
    destruct (Hk w3 Hw3) as ([] & w4 & R4 & Hw4). exists (ret', m), w4. by rewrite (run_bind_some _ _ _ _ _ R4). }
  destruct ((ret =? 0) && negb (generation m =? ep_generation (ep w))).
  - destruct (safe_upd_stats prio (fun s => s <| rx_stale := u32 (rx_stale s + 1) |>) w2 Hw2) as ([] & w3 & R3 & Hw3).
    erewrite run_bind_some by (rewrite (run_bind_some _ _ _ _ _ R3); reflexivity). cbv beta. by apply (H MAILMSG_ENDPOINT_STALE_FRAME).
  - step. by apply (H ret).
Qed.
Lemma safe_has_received prio : 0 <= prio -> safe world_safe (mailmsg_endpoint_has_received prio).
Proof.
  intros Hprio. unfold mailmsg_endpoint_has_received. apply safe_bind_gets. intros w [_ He _].
  destruct (rx (ep w)) as [dir|]; [|safe_auto]. destruct (memory_ops (ep w)) as [o|] eqn:Eo; [|safe_auto].
  pose proof (es_hooks _ He o Eo) as Ho. destruct (Z.leb_spec MAILMSG_PRIORITY_COUNT prio) as [|E1]; [safe_auto|].
  assert (Hi : 0 <= ring_index (mk_ring_ptr dir prio) < 4) by (cbn; unfold MAILMSG_PRIORITY_COUNT in E1; lia).
  pose proof (safe_has_data o _ Hi). safe_auto.
Qed.

(** Binding with hooks and a doorbell that are there. *)
Lemma safe_bind_endpoint sh mops ne role :
  hooks_ok mops -> (forall g i, notify_fn ne = Some g -> 0 <= i < 4 -> safe K (g i)) ->
  safe world_safe (mailmsg_endpoint_bind sh mops ne role).
Proof.
  intros Hk Hn. unfold mailmsg_endpoint_bind. destruct (_ || _) eqn:Eb; [safe_auto|].
  destruct mops as [o|]; [|rewrite orb_true_r in Eb; done]. clear Eb. pose proof (Hk o eq_refl) as Ho.
  apply safe_bind; [safe_auto|intros _]. apply safe_bind_gets. intros w [[(_ & _ & Hg) _ _] _ _].
  destruct (_ || _); [safe_auto|]. destruct (_ =? 0); [safe_auto|].
  apply safe_bind; [apply safe_upd_ep; intros e []; by split|intros _].
  apply safe_bind; [unfold mailmsg_endpoint_reset_stats; apply safe_for_each; intros; apply safe_upd_stats|intros _].
  apply safe_bind; [destruct (role =? _); (apply safe_upd_ep; intros e; by apply endpoint_safe_same)|intros _; apply safe_ret].
Qed.
End SafeEndpoint.
#[export] Hint Resolve safe_on_shared safe_on_ctx safe_upd_stats safe_acquire safe_session_valid safe_send safe_has_received : safe.
