(* ===== verification/SafeLinux.v ===== *)
(** The driver never runs into undefined behaviour: every handler, called as
    the kernel calls it, is defined and keeps the arrays, pointers and types it
    relies on. *)
From S2P Require Import Prelude Protocol Ring Notify Endpoint Frame DriverState DriverLifecycle DriverUser DriverSysfs DriverProbe DriverSpec ProbeSpec LifecycleSpec BlockSpec NotifySpec LoaderSpec Layout Safe.

(** [%u] stores an unsigned int. *)
Class ScanLaws (platform : Platform) : Prop := scan_unsigned buf priority value :
  sscanf_u_u buf = Some (priority, value) -> is_u32 priority /\ is_u32 value.

(** * The mailbox *)
Record mailbox_shape (channels : list r1_amp_mbox_channel) (regs : list (Z -> Z)) : Prop := {
  ms_length : length channels = 4%nat;
  ms_channel i c : zget channels i = Some c -> controller c = 0 /\ controller_channel c = i /\ mc_index c = i;
  ms_regs : length regs = 1%nat;
}.
Definition mbox_safe (b : mbox_state) : Prop := mailbox_shape (mbox b) (mbox_regs b).
(** What the driver never changes of a channel. *)
Definition channel_place (c : r1_amp_mbox_channel) := (controller c, controller_channel c, mc_index c).

Section SafeMailbox.
Context {platform : Platform}.

Lemma safe_get_channel i : 0 <= i < 4 -> safe_with mbox_safe (get_channel i) (fun c => controller c = 0 /\ mc_index c = i).
Proof.
  intros Hi b Hb. destruct (zget_is_Some (mbox b) i) as [c Hc]; [rewrite (ms_length _ _ Hb); lia|].
  exists c, b. split; [unfold get_channel; step; by rewrite Hc|]. split; [exact Hb|].
  destruct (ms_channel _ _ Hb i c Hc) as (? & _ & ?). by split.
Qed.
Lemma safe_upd_channel i f : 0 <= i < 4 -> (forall c, channel_place (f c) = channel_place c) ->
  safe mbox_safe (upd_channel i f).
Proof.
  intros Hi Hf. unfold upd_channel. eapply safe_bind_with; [by apply safe_get_channel|]. intros c0 _.
  apply safe_modify. intros b [Hl Hc Hr]. split; cbn; [by rewrite length_zupd| |exact Hr].
  intros j c Hj. destruct (decide (i = j)) as [->|Hne].
  - rewrite zget_zupd in Hj. destruct (zget (mbox b) j) as [c1|] eqn:E; [|done]. injection Hj as <-.
    pose proof (Hf c1) as [= E1 E2 E3]. rewrite E1, E2, E3. by apply Hc.
  - rewrite zget_zupd_ne in Hj by done. by apply Hc.
Qed.
Lemma safe_regs (b : mbox_state) : mbox_safe b -> is_Some (zget (mbox_regs b) 0).
Proof. intros Hb. destruct (zget_is_Some (mbox_regs b) 0) as [r Hr]; [rewrite (ms_regs _ _ Hb); lia|]. by exists r. Qed.
Lemma safe_readl off : safe mbox_safe (readl_relaxed 0 off).
Proof.
  unfold readl_relaxed. apply safe_bind_get. intros b Hb.
  apply safe_bind; [by apply safe_from_option, safe_regs|intros regs]. apply safe_ret.
Qed.
Lemma safe_writel value off : safe mbox_safe (writel_relaxed value 0 off).
Proof.
  unfold writel_relaxed. apply safe_bind_get. intros b Hb.
  apply safe_bind; [by apply safe_from_option, safe_regs|intros _].
  apply safe_modify. intros b1 [Hl Hc Hr]. split; cbn; [done..|by rewrite length_zupd].
Qed.
#[local] Hint Resolve safe_readl safe_writel : safe.
#[local] Hint Extern 1 (safe _ (upd_channel _ _)) => apply safe_upd_channel; [assumption|reflexivity] : safe.

Lemma safe_direct_send i command value : 0 <= i < 4 -> safe mbox_safe (r1_amp_mbox_direct_send_locked i command value).
Proof.
  intros Hi. unfold r1_amp_mbox_direct_send_locked. eapply safe_bind_with; [by apply safe_get_channel|].
  intros c [-> _]. safe_auto.
Qed.
#[local] Hint Resolve safe_direct_send : safe.
Lemma safe_notify_locked priority : 0 <= priority < 4 -> safe mbox_safe (mailmsg_notify_locked priority).
Proof.
  intros Hp. unfold mailmsg_notify_locked. eapply safe_bind_with; [by apply safe_get_channel|]. intros c _. safe_auto.
Qed.
Lemma safe_quiet : safe mbox_safe (a2b_quiet [0]).
Proof. cbn [a2b_quiet]. safe_auto. Qed.
End SafeMailbox.
#[export] Hint Resolve safe_readl safe_writel safe_direct_send safe_notify_locked safe_quiet : safe.
#[export] Hint Extern 1 (safe _ (upd_channel _ _)) => apply safe_upd_channel; [assumption|reflexivity] : safe.

(** * The driver's data *)
Record linux_parts (sh : mailmsg_shared) (e : mailmsg_endpoint mbox_state) (channels : list r1_amp_mbox_channel)
    (regs : list (Z -> Z)) (priorities_ : list Z) (files : gmap nat r1_amp_mailmsg_user_file)
    (img : list Z) (written size : Z) : Prop := {
  lp_block : block_typed sh;
  lp_endpoint : endpoint_safe mbox_safe e;
  lp_mailbox : mailbox_shape channels regs;
  lp_user : priorities_ = priorities;
  lp_files file u : files !! file = Some u -> 0 <= channel u < 4;
  lp_image : is_u32 size /\ 0 <= written <= size /\ size <= Z.of_nat (length img);
}.
Definition linux_safe (d : r1_amp_cpu_on_data) : Prop :=
  linux_parts (c_shared (carveout d)) (mailmsg_endpoint_ d) (mbox (mb d)) (mbox_regs (mb d))
    (map uc_priority (mailmsg_user d)) (user_files d) (image (carveout d)) (image_written d) (image_size d).

(** A record of userspace, by its C types. *)
Record user_frame_typed (frame : mailmsg_user_frame) : Prop := {
  uft_type : is_u32 (uf_type frame);
  uft_length : is_u32 (uf_length frame);
  uft_payload : length (uf_payload frame) = 32%nat /\ Forall is_u8 (uf_payload frame);
}.

Section SafeLinux.
Context {platform : Platform} {coherent : CoherentOps mailmsg_linux_memory_ops} {scan : ScanLaws platform}.
Implicit Types (d : r1_amp_cpu_on_data).

Lemma safe_on_mb {A} (m : M mbox_state A) : safe mbox_safe m -> safe linux_safe (on_mb m).
Proof.
  intros Hm. apply (safe_zoom linux_safe mbox_safe); [done|by intros d []|]. intros b d [] Hb. by split.
Qed.
Lemma safe_on_block {A} (m : M mailmsg_shared A) : safe block_typed m -> safe linux_safe (on_block m).
Proof.
  intros Hm. apply (safe_zoom linux_safe block_typed); [done|by intros d []|]. intros sh d [] Hb. by split.
Qed.
Lemma linux_world d : linux_safe d -> world_safe mbox_safe (endpoint_world d).
Proof. intros []. by split. Qed.
Lemma linux_world_back w d : linux_safe d -> world_safe mbox_safe w -> linux_safe (endpoint_back w d).
Proof. intros [] []. by split. Qed.
Lemma safe_on_endpoint {A} (m : M (ep_world mbox_state) A) : safe (world_safe mbox_safe) m -> safe linux_safe (on_endpoint m).
Proof.
  intros Hm. apply (safe_zoom linux_safe (world_safe mbox_safe)); [done|apply linux_world|].
  intros w d. apply linux_world_back.
Qed.
Lemma safe_linux_receive i buf : 0 <= i ->
  safe_with linux_safe (on_endpoint (mailmsg_endpoint_receive i buf)) (fun x => x.1 = 0 -> good_frame x.2).
Proof.
  intros Hi. eapply triple_zoom; [by apply safe_receive|apply linux_world|].
  intros x w d Hd [Hw Hx]. split; [by apply linux_world_back|exact Hx].
Qed.
Lemma safe_linux_receive' i buf : 0 <= i -> safe linux_safe (on_endpoint (mailmsg_endpoint_receive i buf)).
Proof. intros Hi. eapply safe_forget. by apply safe_linux_receive. Qed.
#[local] Hint Resolve safe_on_mb safe_on_block safe_on_endpoint : safe.
#[local] Hint Extern 2 (safe _ (on_endpoint (mailmsg_endpoint_receive ?i _))) =>
  apply safe_linux_receive'; first [assumption | unfold MAILMSG_PRIO_CRITICAL; lia] : safe.

(** ** The lifecycle *)
Lemma linux_safe_wake i d : linux_safe (wake_reader i d) = linux_safe d.
Proof.
  unfold linux_safe, wake_reader. cbn. by rewrite (map_zupd_same uc_priority (fun c => c <| rx_generation := u32 (rx_generation c + 1) |>)).
Qed.
Lemma linux_safe_wake_all d : linux_safe (wake_all_readers d) = linux_safe d.
Proof. apply wake_all_keeps. exact linux_safe_wake. Qed.
Lemma safe_mark_offline : safe linux_safe r1_amp_mailmsg_mark_offline_locked.
Proof.
  unfold r1_amp_mailmsg_mark_offline_locked. apply safe_bind; [safe_auto|intros st].
  apply safe_when, safe_modify. intros d. by rewrite linux_safe_wake_all.
Qed.
#[local] Hint Resolve safe_mark_offline : safe.
Lemma safe_refresh env : is_Some (psci_affinity_info env) -> safe linux_safe (r1_amp_refresh_affinity_locked env).
Proof. intros [f E]. unfold r1_amp_refresh_affinity_locked. rewrite E. safe_auto. Qed.
#[local] Hint Resolve safe_refresh : safe.
Lemma safe_set_timeout : safe linux_safe r1_amp_mailmsg_set_timeout_locked.
Proof.
  unfold r1_amp_mailmsg_set_timeout_locked. apply safe_bind.
  - apply safe_modify. intros d Hd. by destruct (mailmsg_state d).
  - intros _. apply safe_modify. intros d. by rewrite linux_safe_wake_all.
Qed.
#[local] Hint Resolve safe_set_timeout : safe.
Lemma safe_affinity_work env : is_Some (psci_affinity_info env) -> safe linux_safe (r1_amp_affinity_work env).
Proof. intros H. unfold r1_amp_affinity_work. safe_auto. Qed.
Lemma safe_timeout_work env : is_Some (psci_affinity_info env) -> safe linux_safe (r1_amp_mailmsg_lifecycle_timeout_work env).
Proof. intros H. unfold r1_amp_mailmsg_lifecycle_timeout_work. safe_auto. Qed.
Lemma safe_control_work fuel env : safe linux_safe (r1_amp_mailmsg_control_work fuel env).
Proof.
  assert (H : forall k buf, safe linux_safe (control_loop fuel env k buf)).
  { induction fuel as [|fuel IH]; intros k buf; cbn [control_loop]; [apply safe_ret|].
    apply safe_bind; [by auto with safe|intros [ret response]]. destruct (_ || _); [apply safe_ret|].
    destruct (negb _).
    - destruct (_ =? MAILMSG_ENDPOINT_STALE_FRAME); [apply IH|].
      apply safe_bind; [|intros _; safe_auto].
      apply safe_modify. intros d Hd. by destruct (state_is _ _).
    - safe_auto. }
  unfold r1_amp_mailmsg_control_work. safe_auto.
Qed.

Lemma safe_linux_bind sh role : safe linux_safe
  (on_endpoint (mailmsg_endpoint_bind sh (Some mailmsg_linux_memory_ops) (Some mailmsg_notify_endpoint_) role)).
Proof.
  apply safe_on_endpoint, safe_bind_endpoint; [by intros ops [= <-]|].
  intros g i [= <-] Hi. by apply safe_notify_locked.
Qed.
#[local] Hint Resolve safe_linux_bind : safe.
Lemma next_generation_u32 g : is_u32 (next_generation g).
Proof. unfold next_generation. destruct (_ =? 0); apply u32_range. Qed.
Lemma safe_start env buf count : safe linux_safe (start_store env buf count).
Proof.
  unfold start_store. destruct (negb _); [apply safe_ret|]. apply safe_bind; [safe_auto|intros d].
  do 3 (match goal with |- safe _ (if ?b then _ else _) => destruct b; [apply safe_ret|] end).
  destruct (psci_affinity_info env) eqn:Ea; [|apply safe_ret]. destruct (psci_cpu_on env); [|apply safe_ret].
  apply safe_bind; [apply safe_refresh; by rewrite Ea|intros ?].
  apply safe_bind; [safe_auto|intros d1]. destruct (negb _); [apply safe_ret|]. apply safe_bind.
  { apply safe_modify. intros d2 []. split; try done. apply block_typed_new, next_generation_u32. }
  intros _. apply safe_bind.
  { apply safe_on_block, safe_modify. intros sh. pose proof coherent_publish as E. cbn in E. injection E as E.
    unfold mailmsg_linux_publish in E. by rewrite E. }
  intros _. safe_auto.
Qed.
Lemma safe_rearm env buf count : safe linux_safe (rearm_store env buf count).
Proof.
  unfold rearm_store. destruct (negb _); [apply safe_ret|]. apply safe_bind; [safe_auto|intros d].
  do 2 (destruct (negb _); [apply safe_ret|]). destruct (psci_affinity_info env) eqn:Ea; [|apply safe_ret].
  apply safe_bind; [apply safe_refresh; by rewrite Ea|intros ?]. apply safe_bind; [safe_auto|intros d1].
  destruct (negb _); [apply safe_ret|]. apply safe_bind; [by auto with safe|intros quiet].
  destruct (negb _); [apply safe_ret|]. apply safe_bind; [|intros _; apply safe_bind; [|intros _; apply safe_ret]].
  - apply safe_modify. intros d2 []. by split.
  - apply safe_modify. intros d2 [? ? ? ? ? (H1 & H2 & H3)]. split; try done. cbn. unfold is_u32 in H1. repeat split; lia.
Qed.
Lemma safe_preflight : safe linux_safe r1_amp_mailmsg_stop_preflight_locked.
Proof.
  assert (H : forall ps, Forall (fun p => 0 <= p < 4) ps -> safe linux_safe (stop_preflight_rings ps)).
  { intros ps Hps. induction Hps as [|p ps Hp _ IH]; cbn [stop_preflight_rings]; [apply safe_ret|].
    pose proof (safe_has_data mailmsg_linux_memory_ops (mk_ring_ptr LinuxToCpu3 p) Hp).
    assert (0 <= p) by lia. safe_auto. }
  pose proof (H priorities ltac:(by repeat constructor)). unfold r1_amp_mailmsg_stop_preflight_locked. safe_auto.
Qed.
#[local] Hint Resolve safe_preflight : safe.
Lemma payload_none len : payload_given None len.
Proof. done. Qed.
Lemma safe_stop env buf count : safe linux_safe (mailmsg_stop_store env buf count).
Proof.
  assert (Hs : forall r, safe (world_safe mbox_safe) (mailmsg_endpoint_send MAILMSG_PRIO_CRITICAL
    MAILMSG_MSG_STOP_REQUEST None 0 r)) by (intros r; by apply safe_send).
  unfold mailmsg_stop_store. safe_auto.
Qed.

(** ** The character devices *)
Lemma safe_user_file file {A} (k : r1_amp_mailmsg_user_file -> D A) d :
  is_Some (user_files d !! file) -> (forall u, user_files d !! file = Some u -> 0 <= channel u < 4 ->
    triple (fun d' => linux_safe d' /\ user_files d' = user_files d) (k u) (fun _ => linux_safe)) ->
  linux_safe d -> exists a d', (u ← get_user_file file; k u) d = Some (a, d') /\ linux_safe d'.
Proof.
  intros [u Hu] Hk Hd. unfold get_user_file. erewrite run_bind_some by (step; by rewrite Hu).
  apply (Hk u Hu); [by eapply lp_files|done].
Qed.
Lemma user_channel_at d i : linux_safe d -> 0 <= i < 4 -> exists c, zget (mailmsg_user d) i = Some c /\ uc_priority c = i.
Proof.
  intros Hd Hi. pose proof (lp_user _ _ _ _ _ _ _ _ _ Hd) as Hu.
  assert (Hl : length (mailmsg_user d) = 4%nat) by (by rewrite <-(length_map uc_priority), Hu).
  destruct (zget_is_Some (mailmsg_user d) i) as [c Hc]; [lia|]. exists c. split; [done|].
  assert (E : zget (map uc_priority (mailmsg_user d)) i = Some (uc_priority c)).
  { unfold zget in *. destruct (0 <=? i); [|done]. by rewrite (list_lookup_fmap uc_priority), Hc. }
  rewrite Hu in E. assert (i = 0 \/ i = 1 \/ i = 2 \/ i = 3) as [-> | [-> | [-> | ->]]] by lia; by injection E.
Qed.
Lemma safe_user_channel i : 0 <= i < 4 -> safe_with linux_safe (get_user_channel i) (fun c => uc_priority c = i).
Proof.
  intros Hi d Hd. destruct (user_channel_at d i Hd Hi) as (c & Hc & Hp). exists c, d.
  unfold get_user_channel. step. by rewrite Hc.
Qed.
Lemma safe_upd_user i f : 0 <= i < 4 -> (forall c, uc_priority (f c) = uc_priority c) ->
  safe linux_safe (upd_user_channel i f).
Proof.
  intros Hi Hf. unfold upd_user_channel. eapply safe_bind_with; [by apply safe_user_channel|]. intros c0 _.
  apply safe_modify. intros d []. split; try done. cbn. by rewrite map_zupd_same.
Qed.
Lemma safe_gate : safe linux_safe r1_amp_mailmsg_data_gate_locked.
Proof. unfold r1_amp_mailmsg_data_gate_locked. safe_auto. Qed.
#[local] Hint Resolve safe_gate : safe.
#[local] Hint Extern 1 (safe _ (upd_user_channel _ _)) => apply safe_upd_user; [assumption|reflexivity] : safe.

(** A computation on the private data of an open file. *)
Definition safe_on_file (file : nat) {A} (m : D A) : Prop :=
  forall d, linux_safe d -> is_Some (user_files d !! file) -> exists a d', m d = Some (a, d') /\ linux_safe d'.
Lemma safe_file file {A} (k : r1_amp_mailmsg_user_file -> D A) :
  (forall u, 0 <= channel u < 4 -> safe linux_safe (k u)) -> safe_on_file file (u ← get_user_file file; k u).
Proof.
  intros Hk d Hd Hf. apply safe_user_file; [done| |done]. intros u _ Hu d1 [Hd1 _]. by apply Hk.
Qed.
Lemma files_insert d file u : linux_safe d -> 0 <= channel u < 4 ->
  linux_safe (d <| user_files := <[file := u]> (user_files d) |>).
Proof.
  intros [] Hu. split; try done. cbn. intros f v. destruct (decide (f = file)) as [->|Hne].
  - rewrite lookup_insert_eq. by intros [= <-].
  - rewrite lookup_insert_ne by done. eauto.
Qed.
Lemma safe_open file i alloc : 0 <= i < 4 -> safe linux_safe (r1_amp_mailmsg_user_open file i alloc).
Proof.
  intros Hi. assert (safe linux_safe (modify (fun d => d <| user_files := <[file := mk_user_file i false]> (user_files d) |>)))
    by (apply safe_modify; intros d Hd; by apply files_insert).
  unfold r1_amp_mailmsg_user_open. safe_auto.
Qed.
Lemma safe_release file : safe_on_file file (r1_amp_mailmsg_user_release file).
Proof.
  assert (safe linux_safe (modify (fun d => d <| user_files := delete file (user_files d) |>))).
  { apply safe_modify. intros d []. split; try done. cbn. intros f v [_ H]%lookup_delete_Some. eauto. }
  apply safe_file. intros u Hu. safe_auto.
Qed.
Lemma safe_claim_body file u : 0 <= channel u < 4 -> safe linux_safe
  (if reader_claimed u then mret 0 else
   c ← get_user_channel (channel u);
   if negb (reader_open_count c =? 0) then mret (- EBUSY) else
   upd_user_channel (channel u) (fun c => c <| reader_open_count := reader_open_count c + 1 |>) ;;
   modify (fun d => d <| user_files := <[file := u <| reader_claimed := true |>]> (user_files d) |>) ;;
   mret 0).
Proof.
  intros Hu. assert (safe linux_safe (modify (fun d => d <| user_files := <[file := u <| reader_claimed := true |>]> (user_files d) |>)))
    by (apply safe_modify; intros d Hd; by apply files_insert).
  destruct (reader_claimed u); [apply safe_ret|].
  eapply safe_bind_with; [by apply safe_user_channel|]. intros c _. safe_auto.
Qed.
Lemma safe_claim file : safe_on_file file (r1_amp_mailmsg_user_claim_reader file).
Proof. apply safe_file. intros u Hu. by apply safe_claim_body. Qed.
Lemma safe_poll file : safe_on_file file (r1_amp_mailmsg_user_poll file).
Proof.
  intros d Hd Hf. unfold r1_amp_mailmsg_user_poll. apply safe_user_file; [done| |done].
  intros u Hu Hc d1 [Hd1 E1]. unfold r1_amp_mailmsg_user_claim_reader.
  destruct (safe_claim file d1 Hd1) as (ret & d2 & R & Hd2); [by rewrite E1|]. step_with R.
  match goal with |- exists a d', ?m d2 = _ /\ _ => assert (Hm : safe linux_safe m); [|by apply Hm] end.
  destruct (negb _); [apply safe_ret|]. apply safe_bind; [safe_auto|intros st].
  do 2 (destruct (_ : bool); [apply safe_ret|]). destruct (state_is _ _); [|apply safe_ret].
  eapply safe_bind_with; [by apply safe_user_channel|]. intros c Hcp. cbv beta in Hcp.
  assert (0 <= uc_priority c) by lia. safe_auto.
Qed.
Lemma safe_user_receive i buf : 0 <= i < 4 ->
  safe_with linux_safe (user_receive i buf) (fun x => x.1 = 0 -> good_frame x.2).
Proof.
  intros Hi d Hd. unfold user_receive. destruct (safe_gate d Hd) as (ret & d1 & R & Hd1). step_with R.
  destruct (Z.eqb_spec ret 0) as [->|]; cbn [negb]; [|by do 2 eexists].
  destruct (safe_user_channel i Hi d1 Hd1) as (c & d2 & R2 & Hd2 & Hp). step_with R2.
  cbv beta in Hp. apply safe_linux_receive; [lia|done].
Qed.
Lemma safe_write file buf count : (forall frame, buf = Some frame -> user_frame_typed frame) ->
  safe_on_file file (r1_amp_mailmsg_user_write file buf count).
Proof.
  intros Hb. apply safe_file. intros u Hu. destruct (negb _); [apply safe_ret|].
  destruct buf as [frame|]; [|apply safe_ret]. destruct (Hb frame eq_refl) as [Ht Hl [Hn Hp]].
  eapply safe_bind_with; [by apply safe_user_channel|]. intros c Hc. cbv beta in Hc. destruct (_ || _) eqn:Eb; [apply safe_ret|].
  assert (Hs : forall r, safe (world_safe mbox_safe) (mailmsg_endpoint_send (uc_priority c) (uf_type frame)
    (Some (uf_payload frame)) (uf_length frame) r)).
  { intros r. apply safe_send; [lia|done|done|]. intros bytes [= <-]. split; [exact Hp|]. rewrite Hn. lia. }
  clear Eb. safe_auto.
Qed.
Lemma safe_callback i msg : 0 <= i < 4 -> safe linux_safe (r1_amp_mbox_rx_callback i msg).
Proof.
  intros Hi. unfold r1_amp_mbox_rx_callback.
  apply safe_bind; [destruct msg as [[cmd dat]|]; safe_auto|intros _]. apply safe_bind; [safe_auto|intros _].
  assert (Hc : safe_with linux_safe (on_mb (c ← get_channel i; mret (mc_index c))) (fun x => x = i)).
  { eapply triple_zoom with (Q := mbox_safe) (R := fun x b => mbox_safe b /\ x = i); [|by intros d []|].
    - intros b Hb. destruct (safe_get_channel i Hi b Hb) as (c & b1 & R & Hb1 & _ & Hx).
      exists (mc_index c), b1. by rewrite (run_bind_some _ _ _ _ _ R).
    - intros x b d [] [Hb Hx]. by split. }
  eapply safe_bind_with; [exact Hc|]. intros x ->. apply safe_bind_get. intros d Hd.
  destruct (user_channel_at d i Hd Hi) as (c & E & _). apply (safe_bind_some _ _ c); [done|].
  apply safe_bind; [apply safe_modify; intros d1; by rewrite linux_safe_wake|intros _]. safe_auto.
Qed.

(** ** The sysfs attributes *)
Lemma safe_image_write buf off : safe linux_safe (image_write buf off).
Proof.
  intros d Hd. unfold image_write. cbv zeta. step. pose proof (lp_image _ _ _ _ _ _ _ _ _ Hd) as (Hz & Hw & Hl).
  destruct (mailmsg_user_removing d); [by do 2 eexists|]. destruct (cpu_on_attempted d); [by do 2 eexists|].
  destruct (Z.eqb_spec off (image_written d)) as [->|]; cbn [negb]; [|by do 2 eexists].
  unfold is_u32 in Hz. unfold u64 at 1. rewrite (Z.mod_small (image_size d - image_written d)) by lia.
  destruct (Z.ltb_spec (image_size d - image_written d) (Z.of_nat (length buf))); [by do 2 eexists|].
  unfold memcpy_at. rewrite (proj2 (Z.leb_le 0 _)), (proj2 (Z.leb_le _ _)) by lia. cbn [andb from_option_ub].
  do 2 eexists. split; [reflexivity|]. destruct Hd. split; try done. cbn. unfold u64. rewrite Z.mod_small by lia.
  split; [done|]. split; [lia|]. rewrite !length_app, length_take, length_drop. lia.
Qed.
Lemma safe_ping buf count : safe linux_safe (ping_store buf count).
Proof. intros d Hd. destruct (ping_store_refused buf count d) as (err & R & _). by do 2 eexists. Qed.
Lemma safe_doorbell buf count : safe linux_safe (doorbell_store buf count).
Proof.
  unfold doorbell_store. destruct (sscanf_u_u buf) as [[i v]|] eqn:E; [|safe_auto].
  destruct (scan_unsigned _ _ _ E) as [[Hi _] _]. destruct (Z.leb_spec R1_AMP_MBOX_CHANNELS i) as [|Hl]; [safe_auto|].
  assert (0 <= i < 4) by (split; [exact Hi|exact Hl]). safe_auto.
Qed.

Lemma lxor_ff b : is_u8 b -> is_u8 (Z.lxor b 0xff).
Proof.
  intros Hb. assert (E : Z.lxor b (Z.ones 8) = Z.lnot b mod 2 ^ 8).
  { rewrite <-Z.land_ones by done. apply Z.bits_inj'. intros n Hn.
    rewrite Z.lxor_spec, Z.land_spec, Z.lnot_spec, Z.testbit_ones_nonneg by lia.
    destruct (Z.ltb_spec n 8); [by rewrite andb_true_r, xorb_true_r|].
    rewrite andb_false_r, xorb_false_r. destruct (decide (b = 0)) as [->|]; [apply Z.bits_0|].
    apply Z.bits_above_log2; [apply Hb|]. assert (Z.log2 b < 8) by (apply Z.log2_lt_pow2; unfold is_u8 in Hb; lia). lia. }
  change 0xff with (Z.ones 8). rewrite E. apply u8_range.
Qed.
Lemma frame_typed_linux corrupt m : frame_typed m -> frame_typed (linux_committed corrupt m).
Proof.
  intros Hm. pose proof (frame_typed_committed m Hm) as Hc. destruct corrupt; [|exact Hc].
  destruct Hc as [? ? ? ? [Hl Hb] ? ?]. split; try done. cbn. rewrite length_zupd. split; [exact Hl|].
  unfold zupd. destruct (zget (payload m) 0) as [b|] eqn:E; [|exact Hb]. apply Forall_zset; [|exact Hb].
  apply lxor_ff. exact (Forall_lookup_1 _ _ _ _ Hb E).
Qed.
Lemma safe_linux_push p m corrupt : 0 <= ring_index p < 4 -> frame_typed m ->
  safe block_typed (mailmsg_linux_ring_push p m corrupt).
Proof.
  intros Hp Hm sh Hs. destruct (block_typed_at sh p Hs Hp) as (r & Hr & Ht).
  rewrite (run_linux_push p r m corrupt sh Hr (proj1 Ht)).
  destruct (frame_invalid m); [by do 2 eexists|]. destruct (_ =? _); [by do 2 eexists|].
  do 2 eexists. split; [done|]. apply block_typed_set; [done|]. by apply ring_typed_put, frame_typed_linux.
Qed.
Lemma safe_enqueue priority value corrupt : 0 <= priority < 4 ->
  safe linux_safe (mailmsg_test_enqueue_locked priority value corrupt).
Proof.
  intros Hi. unfold mailmsg_test_enqueue_locked. apply safe_bind.
  { apply safe_on_block, safe_modify. intros sh. pose proof coherent_acquire as E. cbn in E. injection E as E. by rewrite E. }
  intros _. apply safe_bind_get. intros d Hd. cbv zeta. destruct (_ || _); [apply safe_ret|].
  assert (Hm : forall seq, is_u32 seq -> frame_typed (mk_message (ep_generation (mailmsg_endpoint_ d)) MAILMSG_MSG_PING seq 4
    (mailmsg_store_payload_u32 (payload message_zero) 0 value) 0 0)).
  { intros seq Hseq. apply frame_typed_made; [apply Hd|by split|done|by split| |].
    - unfold mailmsg_store_payload_u32. by rewrite length_store_u32.
    - apply store_u32_u8, frame_typed_zero. }
  intros d1 Hd1. step. step.
  apply (safe_on_block _ (safe_linux_push (mk_ring_ptr LinuxToCpu3 priority) _ corrupt Hi (Hm _ (next_seq_u32 _)))).
  destruct Hd1. split; try done. by apply (endpoint_safe_same mbox_safe (mailmsg_endpoint_ d1)).
Qed.
#[local] Hint Resolve safe_enqueue : safe.
Lemma safe_send_ping buf count corrupt : safe linux_safe (mailmsg_send_ping buf count corrupt).
Proof.
  unfold mailmsg_send_ping. destruct (sscanf_u_u buf) as [[i v]|] eqn:E; [|safe_auto].
  destruct (scan_unsigned _ _ _ E) as [[Hi _] _]. destruct (Z.leb_spec MAILMSG_PRIORITY_COUNT i) as [|Hl]; [safe_auto|].
  assert (0 <= i < 4) by (split; [exact Hi|exact Hl]).
  assert (Hs : forall r, safe (world_safe mbox_safe) (mailmsg_endpoint_send i MAILMSG_MSG_PING
    (Some (mailmsg_store_payload_u32 [0; 0; 0; 0] 0 v)) 4 r)).
  { intros r. apply safe_send; [lia|by split|by split|]. intros bytes [= <-].
    split; [apply store_u32_u8; by repeat (constructor; [by split|])|]. intros _. unfold mailmsg_store_payload_u32.
    rewrite length_store_u32. cbn. lia. }
  safe_auto.
Qed.
Lemma safe_queue_push buf count : safe linux_safe (mailmsg_queue_push_store buf count).
Proof.
  unfold mailmsg_queue_push_store. destruct (sscanf_u_u buf) as [[i v]|] eqn:E; [|safe_auto].
  destruct (scan_unsigned _ _ _ E) as [[Hi _] _]. destruct (Z.leb_spec MAILMSG_PRIORITY_COUNT i) as [|Hl]; [safe_auto|].
  assert (0 <= i < 4) by (split; [exact Hi|exact Hl]). safe_auto.
Qed.
Lemma safe_notify_inject buf count : safe linux_safe (mailmsg_notify_inject_store buf count).
Proof. unfold mailmsg_notify_inject_store. safe_auto. Qed.
Lemma safe_affinity_show env : safe linux_safe (affinity_state_show env).
Proof.
  unfold affinity_state_show. destruct (psci_affinity_info env) eqn:E; [|safe_auto].
  apply safe_bind; [apply safe_refresh; by rewrite E|intros ?; safe_auto].
Qed.
Lemma safe_stats_show : safe linux_safe mailmsg_stats_show.
Proof.
  assert (H : forall ps, Forall (fun p => 0 <= p < 4) ps -> safe linux_safe (stats_rows ps)).
  { intros ps Hps. induction Hps as [|p ps Hp _ IH]; cbn [stats_rows]; [apply safe_ret|].
    apply safe_bind_get. intros d Hd. destruct (zget_is_Some (stats (mailmsg_endpoint_ d)) p) as [st Hst].
    { rewrite (es_stats _ _ (lp_endpoint _ _ _ _ _ _ _ _ _ Hd)). lia. }
    apply (safe_bind_some _ _ st); [exact Hst|].
    pose proof (fun dir => safe_count mailmsg_linux_memory_ops (mk_ring_ptr dir p) Hp). safe_auto. }
  apply H. by repeat constructor.
Qed.
Lemma safe_response_begin : safe linux_safe response_begin.
Proof. unfold response_begin. safe_auto. Qed.
Lemma safe_response_turn ps response lines : Forall (fun p => 0 <= p) ps ->
  safe linux_safe (response_turn ps response lines).
Proof. intros H. unfold response_turn. destruct H; safe_auto. Qed.
Lemma safe_status_show peer : (forall k c, peer k c = c) -> safe linux_safe (status_show peer).
Proof.
  intros H. assert (Hr : forall A k (f : carveout_mem -> A), safe linux_safe (peer_read peer k f)).
  { intros. unfold peer_read. apply safe_bind; [|intros _; safe_auto].
    apply safe_modify. intros d. unfold linux_safe. cbn. by rewrite H. }
  unfold status_show, read_tx_full, read_worker. safe_auto.
Qed.

(** ** Every event *)

(** How the kernel calls the driver: devices and channels that exist, files
    that are open, works that are due and PSCI there while they run, records
    copied from userspace, the priorities of the reader of the reverse rings,
    enough turns for the control work, CPU3 standing still while [status_show]
    reads. *)
Definition event_called d (ev : driver_event) : Prop :=
  match ev with
  | EvOpen file i _ => user_files d !! file = None /\ 0 <= i < 4
  | EvRelease file | EvClaim file | EvPoll file => is_Some (user_files d !! file)
  | EvReadTurn i | EvMailbox i _ => 0 <= i < 4
  | EvResponseTurn ps _ _ => Forall (fun p => 0 <= p < 4) ps
  | EvWrite file buf _ => is_Some (user_files d !! file) /\ forall frame, buf = Some frame -> user_frame_typed frame
  | EvAffinityWork env => is_Some (affinity_work d) /\ is_Some (psci_affinity_info env)
  | EvControlWork fuel _ => control_work d = true /\ (8 <= fuel)%nat
  | EvTimeoutWork env => is_Some (lifecycle_timeout_work d) /\ is_Some (psci_affinity_info env)
  | EvStatusShow peer => forall k c, peer k c = c
  | EvPeer _ _ => False
  | _ => True
  end.

Lemma safe_run {A} (m : D A) d : safe linux_safe m -> linux_safe d ->
  exists d', run_event m d = Some d' /\ linux_safe d'.
Proof. intros Hm Hd. destruct (Hm d Hd) as (a & d' & R & Hd'). exists d'. unfold run_event. by rewrite R. Qed.
Lemma safe_run_file {A} file (m : D A) d : safe_on_file file m -> linux_safe d -> is_Some (user_files d !! file) ->
  exists d', run_event m d = Some d' /\ linux_safe d'.
Proof. intros Hm Hd Hf. destruct (Hm d Hd Hf) as (a & d' & R & Hd'). exists d'. unfold run_event. by rewrite R. Qed.
#[local] Hint Resolve safe_image_write safe_start safe_rearm safe_stop safe_ping safe_doorbell safe_send_ping
  safe_notify_inject safe_queue_push safe_response_begin safe_affinity_show safe_stats_show safe_status_show
  safe_open safe_callback safe_affinity_work safe_timeout_work : safe.

(** But for the turns of the control work, which the frames in its ring bound,
    an event called so is defined; and it keeps the driver's data sound. *)
Lemma linux_event_safe d ev : linux_safe d -> event_called d ev ->
  (forall fuel env, ev = EvControlWork fuel env ->
     exists d', r1_amp_mailmsg_control_work fuel env (d <| control_work := false |>) = Some (true, d')) ->
  exists d', handle ev d = Some d' /\ linux_safe d'.
Proof.
  intros Hd Hev Hcw. destruct ev; cbn [handle event_called] in *; try (apply safe_run; [by auto with safe|done]).
  - apply safe_run; [|done]. apply safe_response_turn. eapply Forall_impl; [exact Hev|]. cbn. lia.
  - destruct Hev as [-> Hi]. destruct (user_channel_at d i Hd Hi) as (c & -> & _). apply safe_run; [by auto with safe|done].
  - apply (safe_run_file file); [apply safe_release|done..].
  - apply (safe_run_file file); [apply safe_claim|done..].
  - apply safe_run; [|done]. eapply safe_forget. by apply safe_user_receive.
  - destruct Hev as [Hf Hb]. apply (safe_run_file file); [by apply safe_write|done..].
  - apply (safe_run_file file); [apply safe_poll|done..].
  - destruct Hev as [[x ->] Hp]. apply safe_run; [by auto with safe|]. by destruct Hd.
  - destruct Hev as [-> Hfuel]. destruct (Hcw fuel env eq_refl) as (d' & R). rewrite R. exists d'. split; [done|].
    destruct (safe_control_work fuel env (d <| control_work := false |>)) as (b & d1 & R1 & Hd1); [by destruct Hd|].
    rewrite R in R1. by injection R1 as <- <-.
  - destruct Hev as [[x ->] Hp]. apply safe_run; [by auto with safe|]. by destruct Hd.
  - done.
Qed.
End SafeLinux.

(** * What probe sets up *)
Section Probed.
Lemma request_channels env idxs : forall s s', request_from env idxs s = Some (0, s') ->
  mbox (mb (pdata s')) = fold_left (fun l i => zupd i (init_channel i) l) idxs (mbox (mb (pdata s))) /\
  mbox_regs (mb (pdata s')) = mbox_regs (mb (pdata s)).
Proof.
  induction idxs as [|i idxs IH]; intros s s' E; cbn [request_from fold_left] in *.
  { apply run_bind_inv in E as ([] & s1 & E & [= <-]). by injection E as <-. }
  apply run_bind_inv in E as ([] & s1 & E1 & E).
  assert (H1 : mbox (mb (pdata s1)) = zupd i (init_channel i) (mbox (mb (pdata s))) /\
    mbox_regs (mb (pdata s1)) = mbox_regs (mb (pdata s))).
  { unfold on_pdata, on_mb, upd_channel, get_channel, zoom in E1. revert E1. run.
    destruct (zget (mbox (mb (pdata s))) i); [|done]. by intros [= <-]. }
  cbv zeta in E. destruct (Z.eqb_spec (pe_request_channel env i) 0) as [|Hne]; cbn [negb] in E.
  - apply run_bind_inv in E as ([] & s2 & [= <-] & E). destruct (IH _ _ E) as [Ha Hb]. cbn in Ha, Hb.
    destruct H1 as [H1 H2]. by rewrite Ha, Hb, H1, H2.
  - apply run_bind_inv in E as ([] & s2 & [= <-] & E). apply run_bind_inv in E as ([] & s3 & _ & [= Hz _]). congruence.
Qed.
Lemma map_regs_length env s s' ret : r1_amp_map_mbox_regs env [0] s = Some (ret, s') ->
  mbox (mb (pdata s')) = mbox (mb (pdata s)) /\ length (mbox_regs (mb (pdata s'))) = length (mbox_regs (mb (pdata s))).
Proof.
  cbn [r1_amp_map_mbox_regs]. destruct (pe_map_regs env 0) as [regs|err]; [|by intros [= _ <-]].
  intros E. apply run_bind_inv in E as ([] & s1 & [= <-] & [= _ <-]). exact (conj eq_refl (length_zset _ _ _)).
Qed.
Lemma pres_register_mb result ps : pres mb (register_from result ps).
Proof.
  assert (pres mb r1_amp_unregister_mailmsg_user)
    by (unfold r1_amp_unregister_mailmsg_user, upd_user_channel, get_user_channel; pres_auto).
  induction ps as [|p ps IH]; cbn [register_from]; unfold upd_user_channel, get_user_channel; pres_auto.
Qed.
Lemma probed_mailbox d : probed d -> mbox_safe (mb d).
Proof.
  intros [env s H]. unfold r1_amp_cpu_on_probe in H. destruct (pe_launch env) as [la|]; [|done].
  destruct (negb _) in H; [done|]. destruct (pe_memory env) as [[[base size]|]|]; try done.
  destruct (invalid_geometry la base size); [done|]. destruct (negb _) in H; [done|].
  destruct (Z.eqb_spec (pe_memremap env) 0) as [|Hne]; cbn [negb] in H; [|by injection H].
  destruct (probe_bind env _) as [[ret s']|] eqn:E; [|done]. unfold mbind, option_bind in H. injection H as -> ->.
  unfold probe_bind in E. apply run_bind_inv in E as (r1 & s1 & E1 & E). apply map_regs_length in E1 as [A1 L1].
  destruct (Z.eqb_spec r1 0) as [->|]; cbn [negb] in E; [|by injection E].
  apply run_bind_inv in E as (r2 & s2 & E2 & E).
  destruct (Z.eqb_spec r2 0) as [->|]; cbn [negb] in E; [|by injection E].
  apply request_channels in E2 as [A2 B2]. destruct (Z.eqb_spec (pe_create_image env) 0); cbn [negb] in E; [|by injection E].
  apply run_bind_inv in E as ([] & s3 & [= <-] & E). apply (pres_create_files mb) in E; cbn in E.
  2: { pose proof (pres_goto mb err_mailmsg_response). pose proof (pres_on_pdata mb _ (pres_register_mb (pe_misc_register env) priorities)).
    unfold r1_amp_register_mailmsg_user. pres_auto. }
  unfold mbox_safe. rewrite E, A2, B2. cbn in A1, L1. rewrite A1.
  split; [done| |by rewrite L1].
  intros i c Hc. assert (Hi : 0 <= i < Z.of_nat 4) by exact (zget_Some_range _ _ _ Hc).
  assert (i = 0 \/ i = 1 \/ i = 2 \/ i = 3) as [-> | [-> | [-> | ->]]] by lia; by injection Hc as <-.
Qed.

(** What the loader, the devices and the endpoint start from. *)
Definition start_view (d : r1_amp_cpu_on_data) :=
  (c_shared (carveout d), mailmsg_endpoint_ d, map uc_priority (mailmsg_user d), user_files d,
   image (carveout d), image_written d, image_size d).
Lemma start_view_register result ps : pres start_view (register_from result ps).
Proof.
  assert (Hu : forall i f, (forall c, uc_priority (f c) = uc_priority c) -> pres start_view (upd_user_channel i f)).
  { intros i f Hf. unfold upd_user_channel, get_user_channel. apply pres_bind; [pres_auto|intros c].
    apply pres_modify. intros d. unfold start_view. cbn. by rewrite map_zupd_same. }
  assert (pres start_view r1_amp_unregister_mailmsg_user).
  { unfold r1_amp_unregister_mailmsg_user, get_user_channel. apply pres_for_each. intros p.
    apply pres_bind; [pres_auto|intros c]. by apply pres_when, Hu. }
  induction ps as [|p ps IH]; cbn [register_from]; [apply pres_ret|]. cbv zeta. destruct (negb _); [pres_auto|].
  apply pres_bind; [by apply Hu|done].
Qed.
Lemma probed_safe d : probed d -> is_u32 (image_size d) -> linux_safe d.
Proof.
  intros Hd Hu. pose proof (probed_mailbox d Hd) as Hm. assert (MbView start_view) by done.
  destruct (probed_launch start_view d start_view_register Hd) as (la & base & size & Hg & Hv).
  injection Hv as E1 E2 E3 E4 E5 E6 E7. unfold linux_safe. rewrite E1, E2, E3, E4, E5, E6. unfold is_u32 in Hu.
  unfold invalid_geometry in Hg. bool_to_prop.
  split; [apply block_typed_zero|apply endpoint_safe_zero|exact Hm|done| |].
  - by intros file u Hf%lookup_empty_Some.
  - split; [exact Hu|]. cbn. rewrite length_replicate. lia.
Qed.
End Probed.
