(* ===== verification/SafeSpec.v ===== *)
(** No undefined behaviour: neither the driver nor the firmware, running
    together on one memory, ever indexes out of an array, follows a pointer that
    is not there or leaves the control work unfinished; and the shared block holds values
    of its C types all the while. *)
From S2P Require Import Prelude Protocol Ring Notify Endpoint Frame DriverState DriverLifecycle DriverUser DriverSysfs DriverProbe DriverSpec ProbeSpec HostDemo LifecycleSpec BlockSpec ControlSpec NotifySpec Firmware FirmwareSpec BootSpec WorkerSpec SystemSpec Layout Safe SafeLinux.

(** * The firmware *)
Record cpu3_parts (img : list Z) (sh : mailmsg_shared) (e : mailmsg_endpoint (Z -> Z)) (lines : list bool)
    (img' : list Z) : Prop := {
  cp_block : block_typed sh;
  cp_endpoint : endpoint_safe (fun _ => True) e;
  cp_lines : length lines = 4%nat;
  cp_image : img' = img;
}.
Definition cpu3_safe (img : list Z) (s : cpu3_state) : Prop :=
  cpu3_parts img (c_shared (mem3 s)) (cpu3_endpoint s) (irq_lines s) (image (mem3 s)).

Section SafeFirmware.
Context {platform : Cpu3Platform} {coherent : CoherentOps mailmsg_queue_memory_ops} (cfg : fw_config) (img : list Z).
#[local] Abbreviation ok := (cpu3_safe img).
#[local] Abbreviation world := (world_safe (fun _ : Z -> Z => True)).

Lemma cpu3_world_safe s : ok s -> world (cpu3_world s).
Proof. intros []. by split. Qed.
Lemma cpu3_back_safe w s : ok s -> world w -> ok (cpu3_back w s).
Proof. intros [] []. by split. Qed.
Lemma safe_on_cpu3 {A} (m : M (ep_world (Z -> Z)) A) : safe world m -> safe ok (on_cpu3_endpoint m).
Proof. intros Hm. apply (safe_zoom ok world); [done|apply cpu3_world_safe|]. intros w s. apply cpu3_back_safe. Qed.
Lemma safe_cpu3_receive i buf : 0 <= i -> safe ok (on_cpu3_endpoint (mailmsg_endpoint_receive i buf)).
Proof. intros Hi. apply safe_on_cpu3. eapply safe_forget. by apply safe_receive. Qed.
Lemma safe_cpu3_has_received i : 0 <= i -> safe ok (on_cpu3_endpoint (mailmsg_endpoint_has_received i)).
Proof. intros Hi. by apply safe_on_cpu3, safe_has_received. Qed.
Lemma safe_cpu3_notify i : safe (fun _ : Z -> Z => True) (mailmsg_cpu3_notify i).
Proof. unfold mailmsg_cpu3_notify. intros regs _. step. destruct (has_bit _ _); by do 2 eexists. Qed.
Lemma safe_cpu3_send prio type p len r : 0 <= prio -> is_u32 type -> is_u32 len -> payload_given p len ->
  safe ok (on_cpu3_endpoint (mailmsg_endpoint_send prio type p len r)).
Proof. intros. by apply safe_on_cpu3, safe_send. Qed.
#[local] Hint Resolve safe_cpu3_receive safe_cpu3_has_received : safe.

Lemma safe_upd_mem f : (forall m, c_shared (f m) = c_shared m) -> (forall m, image (f m) = image m) -> safe ok (upd_mem f).
Proof. intros H1 H2. apply safe_modify. intros s []. split; try done; cbn; by rewrite ?H1, ?H2. Qed.
#[local] Hint Extern 1 (safe _ (upd_mem _)) => apply safe_upd_mem; reflexivity : safe.
Lemma safe_read off : safe ok (sys_read32_mailbox 0 off).
Proof. apply safe_gets. Qed.
Lemma safe_write32 value off : safe ok (sys_write32_mailbox value 0 off).
Proof. by apply safe_modify. Qed.
Lemma safe_observe a b c e : safe ok (observe a b c e).
Proof. unfold observe. safe_auto. Qed.
Lemma safe_checkpoint mark : safe ok (r1_amp_checkpoint_c mark).
Proof. unfold r1_amp_checkpoint_c. safe_auto. Qed.
Lemma safe_publish_worker x y : safe ok (mailmsg_publish_worker_observation x y).
Proof. unfold mailmsg_publish_worker_observation. safe_auto. Qed.
Lemma safe_publish_tx_full a b c : safe ok (mailmsg_publish_tx_full_observation a b c).
Proof. unfold mailmsg_publish_tx_full_observation. safe_auto. Qed.
#[local] Hint Resolve safe_read safe_write32 safe_observe safe_checkpoint safe_publish_worker safe_publish_tx_full : safe.
Lemma safe_record priority type r : safe ok (mailmsg_record_tx_full priority type r).
Proof. unfold mailmsg_record_tx_full. safe_auto. Qed.
#[local] Hint Resolve safe_record : safe.
Lemma safe_core_off : safe ok mailmsg_cpu_off_after_ready.
Proof.
  unfold mailmsg_cpu_off_after_ready. apply safe_bind; [|intros _; safe_auto]. apply safe_for_each. intros i _.
  apply safe_modify. intros s []. split; try done. cbn. by rewrite length_zset.
Qed.
#[local] Hint Resolve safe_core_off : safe.

(** ** The frames CPU3 sends *)
Lemma bytes_given n v off v' off' len : Z.of_nat n = len ->
  payload_given (Some (store_u32 (store_u32 (replicate n 0) off v) off' v')) len.
Proof.
  intros Hn bytes [= <-]. split; [do 2 apply store_u32_u8; by apply Forall_replicate|].
  rewrite !length_store_u32, length_replicate. lia.
Qed.
Lemma feedback_given peer_sequence status : payload_given (Some (feedback_payload peer_sequence status)) MAILMSG_FEEDBACK_BYTES.
Proof. exact (bytes_given 8 _ _ _ _ 8 eq_refl). Qed.
Lemma session_given gen : payload_given (Some (session_payload gen)) MAILMSG_SESSION_BYTES.
Proof. exact (bytes_given 8 _ _ _ _ 8 eq_refl). Qed.
Lemma eight_u32 : is_u32 8.
Proof. by split. Qed.
Lemma safe_send_feedback priority type peer_sequence status : 0 <= priority -> is_u32 type ->
  safe ok (mailmsg_send_feedback priority type peer_sequence status).
Proof.
  intros Hp Ht. unfold mailmsg_send_feedback. apply safe_bind.
  - apply safe_cpu3_send; [done|exact Ht|exact eight_u32|apply feedback_given].
  - intros [ret result]. safe_auto.
Qed.
Lemma safe_stop_feedback type peer_sequence status : is_u32 type -> safe ok (mailmsg_send_stop_feedback type peer_sequence status).
Proof.
  intros Ht. unfold mailmsg_send_stop_feedback. apply safe_bind.
  - apply safe_cpu3_send; [done|exact Ht|exact eight_u32|apply feedback_given].
  - intros [ret result]. safe_auto.
Qed.
Lemma safe_session_ready : safe ok mailmsg_service_session_ready.
Proof.
  unfold mailmsg_service_session_ready. apply safe_bind; [apply safe_get|intros s]. destruct (_ || _); [apply safe_ret|].
  destruct (mailmsg_session_ready_committed s); (apply safe_bind; [|intros ?; safe_auto]).
  - apply (safe_zoom ok (fun _ => True)); [apply safe_cpu3_notify|done|]. by intros regs s' [] _.
  - apply safe_cpu3_send; [done|by split|exact eight_u32|apply session_given].
Qed.
Lemma safe_pong priority request : 0 <= priority -> safe ok (mailmsg_send_pong priority request).
Proof.
  intros Hp. unfold mailmsg_send_pong. cbv zeta. apply safe_bind; [|intros [ret result]; safe_auto].
  apply safe_cpu3_send; [done|by destruct (_ =? _)|by split|]. intros bytes [= <-].
  split; [apply store_u32_u8, (Forall_replicate is_u8 4); by split|]. unfold mailmsg_store_payload_u32. rewrite length_store_u32. cbn. lia.
Qed.
#[local] Hint Resolve safe_session_ready safe_pong : safe.
#[local] Hint Extern 1 (safe _ (mailmsg_send_feedback _ _ _ _)) => apply safe_send_feedback; [assumption|by split] : safe.
#[local] Hint Extern 1 (safe _ (mailmsg_send_stop_feedback _ _ _)) => apply safe_stop_feedback; by split : safe.
Lemma safe_handle_frame priority m : 0 <= priority -> safe ok (handle_frame cfg priority m).
Proof. intros Hp. unfold handle_frame. safe_auto. Qed.
Lemma safe_reject priority code m : 0 <= priority -> safe ok (reject_frame priority code m).
Proof. intros Hp. unfold reject_frame. safe_auto. Qed.
#[local] Hint Resolve safe_handle_frame safe_reject : safe.

(** ** Threads and the interrupt *)
Lemma safe_service pending last reschedule : safe ok (mailmsg_pingpong_test_service cfg pending last reschedule).
Proof.
  assert (H : forall turns priority messages m, 0 <= priority -> safe ok (service_priority cfg turns priority messages m)).
  { intros turns priority. induction turns as [|turns IH]; intros; cbn [service_priority]; safe_auto. }
  assert (H' : forall ps pending messages last reschedule, Forall (fun p => 0 <= p) ps ->
    safe ok (service_priorities cfg ps pending messages last reschedule)).
  { intros ps. induction ps as [|p ps IH]; intros ? ? ? ? Hps; cbn [service_priorities]; [apply safe_ret|].
    apply Forall_cons in Hps as [Hp Hps]. safe_auto. }
  pose proof (fun last reschedule => H' priorities pending 0 last reschedule ltac:(by repeat constructor)).
  unfold mailmsg_pingpong_test_service. safe_auto.
Qed.
#[local] Hint Resolve safe_service : safe.
Lemma safe_isr index : 0 <= index < 4 -> safe ok (mailmsg_mailbox_a2b_matrix_isr index).
Proof.
  intros Hi. unfold mailmsg_mailbox_a2b_matrix_isr, k_sem_give. cbv zeta.
  replace (index / RK3588_MAILBOX_CHANNELS) with 0 by (unfold RK3588_MAILBOX_CHANNELS; lia). safe_auto.
Qed.
Lemma safe_main_loop : safe ok (main_loop cfg).
Proof. unfold main_loop, mailmsg_send_b2a_ack. safe_auto. Qed.
Lemma safe_main_init : safe ok (main_init cfg).
Proof.
  assert (Hb : safe ok (on_cpu3_endpoint (mailmsg_endpoint_bind true (Some mailmsg_queue_memory_ops)
    (Some mailmsg_cpu3_notify_endpoint) MAILMSG_ENDPOINT_CPU3))).
  { apply safe_on_cpu3, safe_bind_endpoint; [by intros ops [= <-]|]. intros g i [= <-] _. apply safe_cpu3_notify. }
  assert (safe ok (modify (fun s => s <| irq_lines := [true; true; true; true] |>)))
    by (apply safe_modify; by intros s []).
  unfold main_init, main_bringup, mailmsg_reset_tx_full_observation, mailmsg_enable_a2b_channels,
    mailmsg_snapshot_gic_routes, sys_read32_gicd. safe_auto.
Qed.
End SafeFirmware.

(** * The control work comes to an end *)
Section ControlEnds.
Context {platform : Platform} {coherent : CoherentOps mailmsg_linux_memory_ops}.
Implicit Types (d : r1_amp_cpu_on_data).

(** Whatever the clock says, each turn but the last takes a frame. *)
Lemma control_loop_ends env fuel : forall k buf d q b d',
  linux_bound d -> represents control_ring (c_shared (carveout d)) q -> (length q < fuel)%nat ->
  control_loop fuel env k buf d = Some (b, d') -> b = true.
Proof.
  induction fuel as [|fuel IH]; intros k buf d q b d' Hb Hq Hl E; [lia|]. cbn [control_loop] in E.
  pose proof (run_control_receive d buf q Hb Hq) as R. destruct q as [|m q].
  { rewrite (run_bind_some _ _ _ _ _ R) in E. by injection E. }
  destruct R as (w & R & Hrep & Hkey & Hsame). destruct (drained_receive d w Hb Hkey Hsame) as [_ [Hb1 _ _ _]].
  rewrite (run_bind_some _ _ _ _ _ R) in E. destruct (received_code_cases d m Hb) as (_ & He & Hi). cbv zeta in *.
  set (code := received_code _ m) in *. set (d1 := endpoint_back w d) in *. cbv beta iota in E. rewrite He in E.
  assert (Hagain : forall k buf d2, linux_bound d2 -> c_shared (carveout d2) = shm w ->
    control_loop fuel env k buf d2 = Some (b, d') -> b = true).
  { intros k2 buf2 d2 Hb2 Hc E2. eapply (IH k2 buf2 d2 q); [exact Hb2|by rewrite Hc|cbn in Hl; lia|exact E2]. }
  destruct (code =? 0); cbn [negb] in E.
  - apply run_bind_inv in E as (dx & sx & [= <- <-] & E). destruct (time_after_eq _ _).
    + apply run_bind_inv in E as ([] & s1 & _ & E). apply run_bind_inv in E as ([] & s2 & _ & E). by injection E.
    + destruct (state_is _ _); (destruct (negb _); [by eapply Hagain, E|]); [|destruct (_ =? _)];
        apply run_bind_inv in E as ([] & s1 & _ & E); by injection E.
  - destruct (code =? MAILMSG_ENDPOINT_STALE_FRAME) eqn:Es; [by eapply Hagain, E|].
    destruct Hi as [Hi|Hi]; [by rewrite Hi in Es|]. apply run_bind_inv in E as ([] & s1 & [= <-] & E). rewrite Hi in E.
    eapply Hagain; [| |exact E]; [destruct Hb1; by destruct (state_is _ _)|by destruct (state_is _ _)].
Qed.
Lemma control_work_ends env fuel d q b d' :
  (lifecycle_pending (mailmsg_state d) = true -> linux_bound d) -> represents control_ring (c_shared (carveout d)) q ->
  (8 <= fuel)%nat -> r1_amp_mailmsg_control_work fuel env d = Some (b, d') -> b = true.
Proof.
  intros Hb Hq Hf E. unfold r1_amp_mailmsg_control_work in E. apply run_bind_inv in E as (dx & sx & [= <- <-] & E).
  destruct (lifecycle_pending (mailmsg_state d)); cbn [negb] in E; [|by injection E].
  destruct (time_after_eq _ _).
  - apply run_bind_inv in E as ([] & s1 & _ & E). apply run_bind_inv in E as ([] & s2 & _ & E). by injection E.
  - assert (length q < fuel)%nat by (apply represents_length in Hq; lia).
    eapply (control_loop_ends env fuel _ _ d q); [by apply Hb|exact Hq|assumption|exact E].
Qed.
End ControlEnds.

(** * The composed system *)
Section SafeSystem.
Context {linux_platform : Platform} {linux_coherent : CoherentOps mailmsg_linux_memory_ops}
  {scan : ScanLaws linux_platform}.
Context {cpu3_platform : Cpu3Platform} {cpu3_coherent : CoherentOps mailmsg_queue_memory_ops}.
Context (cfg : fw_config).
Implicit Types (d : r1_amp_cpu_on_data) (f : fw_state).

(** What can happen next on a core that runs: an enabled interrupt, the
    worker's next piece, a turn of the main loop while the worker waits. *)
Definition cpu3_called f (ev : cpu3_event) : Prop :=
  core (cpu f) = CoreRunning /\
  match ev with
  | CIsr index => zget (irq_lines (cpu f)) index = Some true
  | CWorker => pc f = WWaiting -> mailmsg_work_sem (cpu f) <> 0
  | CMain => pc f = WWaiting
  | CPeer _ _ => False
  end.
Lemma cpu3_event_safe img f ev : cpu3_safe img (cpu f) -> cpu3_called f ev ->
  exists f', cpu3_handle cfg ev f = Some f' /\ cpu3_safe img (cpu f').
Proof.
  intros Hf [Hrun Hev]. unfold cpu3_handle. cbv zeta. rewrite Hrun, bool_decide_true by done. cbn [negb].
  destruct ev as [index| | |m g]; [| | |done].
  - rewrite Hev. cbn [negb]. pose proof (zget_Some_range _ _ _ Hev) as Hi. rewrite (cp_lines _ _ _ _ _ Hf) in Hi.
    destruct (safe_isr img index Hi (cpu f) Hf) as ([] & s & R & Hs). rewrite R. by exists (mk_fw s (pc f)).
  - unfold worker_step. destruct (pc f) as [| |pending|pending last reschedule|pending last reschedule].
    + rewrite (proj2 (Z.eqb_neq _ 0)) by auto. by eexists.
    + by eexists.
    + destruct (pending =? 0); [eexists; split; [reflexivity|by destruct Hf]|].
      assert (Hserve : safe (cpu3_safe img) (worker_serve cfg pending)).
      { pose proof (safe_service cfg img pending MAILMSG_PRIORITY_COUNT 0). unfold worker_serve. safe_auto. }
      destruct (Hserve (cpu f) Hf) as ([[last reschedule]|] & s & -> & Hs); by eexists.
    + unfold worker_merge, when. destruct (negb _); by eexists.
    + unfold worker_finish, when, k_sem_give. destruct (negb _); (eexists; split; [reflexivity|by destruct Hf]).
  - rewrite Hev. destruct (safe_main_loop cfg img (cpu f) Hf) as ([] & s & R & Hs). rewrite R. by eexists.
Qed.

(** The system as the kernel, the interrupts and the threads drive it. *)
Inductive called_step : system -> system -> Prop :=
| called_linux ev d d' c :
    event_called d ev -> handle ev d = Some d' -> called_step (mk_system d c) (mk_system d' c)
| called_cpu3 ev d f f' :
    cpu3_called (sees d f) ev -> cpu3_handle cfg ev (sees d f) = Some f' ->
    called_step (mk_system d (Some f)) (mk_system (leaves (cpu f') d) (Some f'))
| called_reset gic d c s :
    (forall f, c = Some f -> core (cpu f) = CoreOff) ->
    main_init cfg (cpu3_boot (carveout d) (regs0 (mb d)) gic) = Some (tt, s) ->
    called_step (mk_system d c) (mk_system (leaves s d) (Some (mk_fw s WWaiting))).
Definition called_reachable (y : system) : Prop :=
  exists d0, probed d0 /\ is_u32 (image_size d0) /\ star called_step (mk_system d0 None) y.

Lemma called_is_step y y' : called_step y y' -> system_step cfg y y'.
Proof.
  intros [ev d d' c Hev E|ev d f f' [_ Hev] E|gic d c s Hoff E].
  - apply (step_linux cfg ev); [|exact E]. by destruct ev.
  - apply (step_cpu3 cfg ev); [|exact E]. by intros m g ->.
  - by apply (step_reset cfg gic).
Qed.
Lemma called_is_reachable y : called_reachable y -> system_reachable cfg y.
Proof.
  intros (d0 & Hp & _ & Hs). exists d0. split; [exact Hp|]. clear Hp.
  induction Hs as [|a b c _ IH Hstep]; [constructor|]. eapply star_snoc; [exact IH|by apply called_is_step].
Qed.

Definition system_safe (y : system) : Prop :=
  linux_safe (linux y) /\
  forall f, cpu3 y = Some f -> endpoint_safe (fun _ => True) (cpu3_endpoint (cpu f)) /\ length (irq_lines (cpu f)) = 4%nat.
Lemma sees_safe d f : linux_safe d -> endpoint_safe (fun _ => True) (cpu3_endpoint (cpu f)) ->
  length (irq_lines (cpu f)) = 4%nat -> cpu3_safe (image (carveout d)) (cpu (sees d f)).
Proof. intros [] He Hl. by split. Qed.
Lemma leaves_safe s d pc : linux_safe d -> cpu3_safe (image (carveout d)) s ->
  system_safe (mk_system (leaves s d) (Some (mk_fw s pc))).
Proof.
  intros [H1 H2 [M1 M2 M3] H4 H5 H6] [G1 G2 G3 G4]. split; [|by intros f [= <-]].
  split; try done; cbn; [|by rewrite G4].
  split; [done|done|by rewrite length_insert].
Qed.
Lemma boot_safe d regs gic : linux_safe d -> cpu3_safe (image (carveout d)) (cpu3_boot (carveout d) regs gic).
Proof. intros []. split; [done|apply endpoint_safe_zero|done|done]. Qed.

(** The control work finds at most seven frames. *)
Lemma control_work_called y fuel env : system_reachable cfg y -> linux_safe (linux y) -> (8 <= fuel)%nat ->
  exists d', r1_amp_mailmsg_control_work fuel env (linux y <| control_work := false |>) = Some (true, d').
Proof.
  intros Hy Hd Hf. set (d := linux y <| control_work := false |>).
  destruct (safe_control_work fuel env d) as (b & d' & R & _); [by destruct Hd|].
  destruct (system_reachable_inv cfg y Hy) as [_ [[_ _ _ Hq] _]].
  destruct (Hq Cpu3ToLinux MAILMSG_PRIO_CRITICAL ltac:(by split)) as (q & Hr & _).
  assert (b = true) as ->; [|by exists d'].
  eapply (control_work_ends env fuel d q); [|exact Hr|exact Hf|exact R].
  intros Hp. assert (Hb : linux_bound (linux y)); [|by destruct Hb].
  apply (system_bound cfg y Hy). intros Hu. change (lifecycle_pending (mailmsg_state (linux y)) = true) in Hp.
  by rewrite Hu in Hp.
Qed.

Lemma system_safe_step y y' : system_reachable cfg y -> system_safe y -> called_step y y' -> system_safe y'.
Proof.
  intros Hy [Hl Hc] Hstep. destruct Hstep as [ev d d' c Hev E|ev d f f' Hev E|gic d c s Hoff E]; cbn [linux cpu3] in *.
  - split; [|exact Hc]. destruct (linux_event_safe d ev Hl Hev) as (d1 & E1 & Hd1).
    { intros fuel env ->. apply (control_work_called _ fuel env Hy Hl), Hev. }
    cbn. congruence.
  - destruct (Hc f eq_refl) as [He Hn].
    destruct (cpu3_event_safe _ (sees d f) ev (sees_safe d f Hl He Hn) Hev) as (f1 & E1 & Hf1).
    assert (f1 = f') as -> by congruence. destruct f' as [s pc]. by apply leaves_safe.
  - destruct (safe_main_init cfg _ _ (boot_safe d (regs0 (mb d)) gic Hl)) as ([] & s1 & E1 & Hs1).
    rewrite E in E1. injection E1 as <-. by apply leaves_safe.
Qed.
Lemma called_safe y : called_reachable y -> system_safe y.
Proof.
  intros (d0 & Hp & Hu & Hs). remember (mk_system d0 None) as y0 eqn:E0.
  assert (H0 : called_reachable y0) by (exists d0; subst; split; [done|]; split; [done|constructor]).
  assert (Hsafe0 : system_safe y0) by (subst; split; [by apply probed_safe|done]). clear E0 Hp Hu.
  assert (H : called_reachable y /\ system_safe y); [|apply H].
  induction Hs as [|a b c Hab IH Hstep]; [done|]. destruct (IH H0 Hsafe0) as [Hb Hsb]. split.
  - destruct Hb as (d1 & Hp1 & Hu1 & Hs1). exists d1. split; [done|]. split; [done|]. by eapply star_snoc.
  - eapply system_safe_step; [by apply called_is_reachable|exact Hsb|exact Hstep].
Qed.

(** The copy of a received frame into the record for userspace stays inside both arrays. *)
Lemma received_frame_fits i m : good_frame m -> exists frame, user_frame_of i m = Some frame.
Proof.
  intros [Ht Hn]. pose proof (proj1 (ft_payload _ Ht)) as Hp. unfold user_frame_of.
  rewrite (copy_bytes_spec _ 0); [by eexists|rewrite Hp|cbn]; lia.
Qed.

(** C25. Neither side ever runs into undefined behaviour. In every state the
    two sides reach together from a completed probe, whatever handler the
    kernel, userspace or an interrupt calls next in the driver is defined: no
    array is indexed out of its bounds, no null pointer is followed, nothing
    the driver relies on to be there is missing, and the control work's loop
    over the ring ends. The same holds of whatever CPU3 does next, of CPU3
    coming out of reset, and of the copy of a received frame to userspace. The
    shared block holds values of its C types, so the bytes of the carveout are
    those of a [struct mailmsg_shared]. *)
Theorem never_undefined y : called_reachable y ->
  holds shared_codec (c_shared (carveout (linux y))) /\
  (forall ev, event_called (linux y) ev -> exists d', handle ev (linux y) = Some d') /\
  (forall f ev, cpu3 y = Some f -> cpu3_called (sees (linux y) f) ev ->
     exists f', cpu3_handle cfg ev (sees (linux y) f) = Some f') /\
  (forall gic, exists s, main_init cfg (cpu3_boot (carveout (linux y)) (regs0 (mb (linux y))) gic) = Some (tt, s)) /\
  (forall i m m' d', 0 <= i < 4 -> user_receive i m (linux y) = Some ((0, m'), d') ->
     exists frame, user_frame_of i m' = Some frame).
Proof.
  intros Hy. pose proof (called_is_reachable y Hy) as Hr. destruct (called_safe y Hy) as [Hl Hc].
  split; [by apply block_typed_holds; destruct Hl|]. split; [|split; [|split]].
  - intros ev Hev. destruct (linux_event_safe (linux y) ev Hl Hev) as (d' & E & _); [|by exists d'].
    intros fuel env ->. apply (control_work_called y fuel env Hr Hl), Hev.
  - intros f ev E Hev. destruct (Hc f E) as [He Hn].
    destruct (cpu3_event_safe _ (sees (linux y) f) ev (sees_safe _ f Hl He Hn) Hev) as (f' & E' & _). by exists f'.
  - intros gic. destruct (safe_main_init cfg _ _ (boot_safe _ (regs0 (mb (linux y))) gic Hl)) as ([] & s & E & _).
    by exists s.
  - intros i m m' d' Hi E. destruct (safe_user_receive i m Hi (linux y) Hl) as (x & d1 & E1 & _ & Hg).
    rewrite E in E1. injection E1 as <- <-. by apply received_frame_fits, Hg.
Qed.
End SafeSystem.

(** * At the scripted session *)
#[local] Existing Instance host_platform.
#[local] Existing Instance host_cpu3.
#[export] Instance host_scan : ScanLaws host_platform.
Proof. intros buf priority value. cbn. by destruct (String.eqb buf "1 41"); [intros [= <- <-]|]. Qed.

(** Deciding that a script only calls what the kernel would. *)
Definition check_called (d : r1_amp_cpu_on_data) (ev : driver_event) : bool :=
  match ev with
  | EvImageWrite _ _ | EvStart _ _ _ | EvPing _ _ | EvDoorbell _ _ => true
  | EvOpen file i _ => bool_decide (user_files d !! file = None) && (0 <=? i) && (i <? 4)
  | EvMailbox i _ => (0 <=? i) && (i <? 4)
  | EvControlWork fuel _ => control_work d && (8 <=? fuel)%nat
  | _ => false
  end.
Fixpoint check_run (evs : list driver_event) (d : r1_amp_cpu_on_data) : bool :=
  match evs with
  | [] => true
  | ev :: evs => check_called d ev && match handle ev d with Some d' => check_run evs d' | None => false end
  end.
Lemma check_called_ok d ev : check_called d ev = true -> event_called d ev.
Proof.
  destruct ev; cbn [check_called event_called]; try done;
    rewrite ?andb_true_iff, ?bool_decide_eq_true, ?Z.leb_le, ?Z.ltb_lt, ?Nat.leb_le; tauto.
Qed.
Lemma check_run_steps c evs : forall d d', check_run evs d = true -> run_events evs d = Some d' ->
  star (called_step default_config) (mk_system d c) (mk_system d' c).
Proof.
  induction evs as [|ev evs IH]; intros d d' Hc; cbn [run_events]; [intros [= ->]; constructor|].
  cbn [check_run] in Hc. apply andb_true_iff in Hc as [Hev Hc]. destruct (handle ev d) as [d1|] eqn:E; [|done].
  intros R. eapply star_trans; [|by apply IH]. eapply star_snoc; [constructor|].
  eapply called_linux; [by apply check_called_ok|exact E].
Qed.
Lemma duo_called : called_reachable default_config duo_system.
Proof.
  exists host_probed. split; [apply host_probed_ok|]. split; [by split; vm_compute|].
  assert (C1 : check_run events_start host_probed = true) by (vm_compute; reflexivity).
  assert (C2 : check_run duo_events (leaves duo_cpu3 host_starting) = true) by (vm_compute; reflexivity).
  assert (R : run_events events_start host_probed = Some host_starting).
  { assert (B : match run_events events_start host_probed with Some _ => true | None => false end = true)
      by (vm_compute; reflexivity).
    unfold host_starting, host_run. by destruct (run_events events_start host_probed). }
  eapply star_trans; [exact (check_run_steps None _ _ _ C1 R)|].
  eapply star_trans; [eapply star_snoc; [constructor|]; by eapply (called_reset _ (fun _ => 0)); [|exact duo_boots]|].
  exact (check_run_steps _ _ _ _ C2 duo_runs).
Qed.
Lemma never_undefined_witness :
  holds shared_codec (c_shared (carveout (linux duo_system))) /\
  (exists d', handle (EvReadTurn 1) (linux duo_system) = Some d') /\
  (exists f', cpu3_handle default_config CMain (sees (linux duo_system) duo_fw) = Some f') /\
  (exists s, main_init default_config (cpu3_boot (carveout (linux duo_system)) (regs0 (mb (linux duo_system)))
     (fun _ => 0)) = Some (tt, s)).
Proof.
  destruct (never_undefined default_config duo_system duo_called) as (Hh & Hl & Hf & Hb & _).
  split; [exact Hh|]. split; [apply Hl; by split|]. split; [|apply Hb].
  apply Hf; [exact duo_running|]. split; [vm_compute; reflexivity|reflexivity].
Defined.
