(* ===== verification/LayoutSpec.v ===== *)
(** The layout of the shared memory: the codecs are inverse to each other, the
    objects lie at the addresses both sides use, the ranges handed to the
    memory hooks are the fields they name, and the owners of the bytes. *)
From S2P Require Import Prelude Protocol Ring DriverState Layout Firmware BlockSpec OwnSpec.
#[local] Open Scope codec_scope.
#[local] Open Scope nat_scope.

(** * The laws of a codec *)
Class Lawful {A} (c : codec A) : Prop := {
  enc_length a : holds c a -> length (enc c a) = csize c;
  enc_u8 a : holds c a -> Forall is_u8 (enc c a);
  dec_enc a rest : holds c a -> dec c (enc c a ++ rest) = a;
  dec_holds bs : csize c <= length bs -> Forall is_u8 bs -> holds c (dec c bs);
}.
(** A codec without reserved bytes: every run of bytes is an encoding. *)
Class Packed {A} (c : codec A) : Prop :=
  enc_dec bs : csize c <= length bs -> Forall is_u8 bs -> enc c (dec c bs) = take (csize c) bs.

(** ** Integers *)
Lemma le_enc_length n v : length (le_enc n v) = n.
Proof. revert v. induction n as [|n IH]; intros v; cbn; [done|by rewrite IH]. Qed.
Lemma le_enc_u8 n v : Forall is_u8 (le_enc n v).
Proof. revert v. induction n as [|n IH]; intros v; cbn; constructor; auto with word. Qed.
Lemma le_word_enc n v : (0 <= v < 2 ^ (8 * Z.of_nat n))%Z -> le_word (le_enc n v) = v.
Proof.
  revert v. induction n as [|n IH]; intros v Hv; cbn [le_enc].
  { change (2 ^ (8 * Z.of_nat 0))%Z with 1%Z in Hv. cbn. lia. }
  assert (Hs : (0 <= Z.shiftr v 8 < 2 ^ (8 * Z.of_nat n))%Z).
  { rewrite Z.shiftr_div_pow2 by lia. split; [apply Z.div_pos; lia|].
    apply Z.div_lt_upper_bound; [lia|]. rewrite <-Z.pow_add_r by lia.
    replace (8 + 8 * Z.of_nat n)%Z with (8 * Z.of_nat (S n))%Z by lia. lia. }
  rewrite le_word_cons; [|by auto with word|rewrite IH by done; lia]. rewrite IH by done.
  rewrite Z.shiftr_div_pow2 by lia. unfold u8. change (2 ^ 8)%Z with 256%Z.
  pose proof (Z.div_mod v 256). lia.
Qed.
Lemma le_enc_word n bs : length bs = n -> Forall is_u8 bs -> le_enc n (le_word bs) = bs.
Proof.
  intros Hl Hb. apply le_word_inj; [apply le_enc_u8|done|by rewrite le_enc_length|].
  apply le_word_enc. rewrite <-Hl. by apply le_word_bound.
Qed.
#[export] Instance word_lawful n : Lawful (word n).
Proof.
  split; cbn.
  - intros; apply le_enc_length.
  - intros; apply le_enc_u8.
  - intros a rest H. rewrite take_app_length' by by rewrite le_enc_length. by apply le_word_enc.
  - intros bs Hl Hb. pose proof (le_word_bound (take n bs) (Forall_take _ _ _ Hb)) as H.
    by rewrite length_take, Nat.min_l in H.
Qed.
#[export] Instance word_packed n : Packed (word n).
Proof. intros bs Hl Hb. cbn in *. apply le_enc_word; [rewrite length_take; lia|by apply Forall_take]. Qed.

Lemma s32_range v : (- 2 ^ 31 <= s32 v < 2 ^ 31)%Z.
Proof. unfold s32. pose proof (u32_range v) as H. unfold is_u32 in H. case_match; lia. Qed.
Lemma s32_u32 v : (- 2 ^ 31 <= v < 2 ^ 31)%Z -> s32 (u32 v) = v.
Proof.
  intros H. unfold s32. rewrite u32_idem. unfold u32.
  destruct (Z.ltb_spec (v mod 2 ^ 32) (2 ^ 31)); destruct (decide (0 <= v)%Z).
  - by rewrite Z.mod_small by lia.
  - rewrite <-(Z_mod_plus_full v 1), Z.mod_small in * by lia. lia.
  - rewrite Z.mod_small in * by lia. lia.
  - rewrite <-(Z_mod_plus_full v 1), Z.mod_small by lia. lia.
Qed.
Lemma u32_s32 v : is_u32 v -> u32 (s32 v) = v.
Proof.
  intros H. unfold s32. rewrite (u32_small v H). unfold is_u32, u32 in *.
  destruct (Z.ltb_spec v (2 ^ 31)); [by rewrite Z.mod_small by lia|].
  rewrite <-(Z_mod_plus_full _ 1), Z.mod_small by lia. lia.
Qed.
#[export] Instance sword_lawful : Lawful sword.
Proof.
  split; cbn -[le_enc s32].
  - intros; apply le_enc_length.
  - intros; apply le_enc_u8.
  - intros a rest H. rewrite take_app_length' by by rewrite le_enc_length.
    rewrite le_word_enc by apply u32_range. by apply s32_u32.
  - intros; apply s32_range.
Qed.
#[export] Instance sword_packed : Packed sword.
Proof.
  intros bs Hl Hb. cbn -[le_enc s32]. pose proof (le_word_bound _ (Forall_take _ 4 _ Hb)) as H.
  rewrite length_take, Nat.min_l in H by (cbn in Hl; lia).
  rewrite u32_s32 by exact H. apply le_enc_word; [rewrite length_take; cbn in Hl; lia|by apply Forall_take].
Qed.

(** ** Bytes, pairs, arrays, padding, structs *)
#[export] Instance octets_lawful n : Lawful (octets n).
Proof.
  split; cbn.
  - by intros a [H _].
  - by intros a [_ H].
  - intros a rest [H _]. by rewrite take_app_length'.
  - intros bs Hl Hb. split; [rewrite length_take; lia|by apply Forall_take].
Qed.
#[export] Instance octets_packed n : Packed (octets n).
Proof. done. Qed.

Section Combinators.
Context {A B : Type} (a : codec A) (b : codec B) `{!Lawful a} `{!Lawful b}.
#[export] Instance pair_lawful : Lawful (a ⊗ b).
Proof.
  split; cbn.
  - intros x [H1 H2]. by rewrite length_app, !enc_length.
  - intros x [H1 H2]. apply Forall_app. by split; apply enc_u8.
  - intros [x y] rest [H1 H2]; cbn in *. rewrite <-app_assoc, dec_enc by done.
    rewrite drop_app_length' by by rewrite enc_length. by rewrite dec_enc.
  - intros bs Hl Hb. split; apply dec_holds; rewrite ?length_drop; try lia; [done|by apply Forall_drop].
Qed.
#[export] Instance pair_packed : Packed a -> Packed b -> Packed (a ⊗ b).
Proof.
  intros Ha Hb bs Hl Hu. cbn in *. rewrite (enc_dec (c := a)), (enc_dec (c := b)) by
    (rewrite ?length_drop; try apply Forall_drop; done || lia).
  by rewrite take_take_drop.
Qed.
Lemma dec_array_holds n bs :
  n * csize a <= length bs -> Forall is_u8 bs -> length (dec_array a n bs) = n /\ Forall (holds a) (dec_array a n bs).
Proof.
  revert bs. induction n as [|n IH]; intros bs Hl Hb; cbn in *; [by split|].
  destruct (IH (drop (csize a) bs)) as [E H]; [rewrite length_drop; lia|by apply Forall_drop|].
  split; [by rewrite E|]. constructor; [apply dec_holds; [lia|done]|done].
Qed.
#[export] Instance array_lawful n : Lawful (array n a).
Proof.
  split; cbn.
  - intros l [<- H]. induction H as [|x l Hx _ IH]; cbn; [done|]. rewrite length_app, enc_length by done. f_equal. exact IH.
  - intros l [_ H]. induction H as [|x l Hx _ IH]; cbn; [done|]. apply Forall_app. split; [by apply enc_u8|done].
  - intros l rest [<- H]. induction H as [|x l Hx _ IH]; cbn; [done|]. rewrite <-app_assoc, dec_enc by done.
    rewrite drop_app_length' by by rewrite enc_length. f_equal. apply IH.
  - intros bs. apply dec_array_holds.
Qed.
#[export] Instance array_packed n : Packed a -> Packed (array n a).
Proof.
  intros Ha bs. revert bs. induction n as [|n IH]; intros bs Hl Hb; cbn in *; [done|].
  rewrite enc_dec by (done || lia). rewrite IH by (rewrite ?length_drop; try apply Forall_drop; done || lia).
  by rewrite take_take_drop.
Qed.
Lemma padded_lawful n : csize a <= n -> Lawful (padded_to n a).
Proof.
  intros Hn. split; cbn.
  - intros x H. rewrite length_app, enc_length, length_replicate by done. lia.
  - intros x H. apply Forall_app. split; [by apply enc_u8|]. by apply Forall_replicate.
  - intros x rest H. rewrite <-app_assoc. by apply dec_enc.
  - intros bs Hl Hb. apply dec_holds; [lia|done].
Qed.
Lemma struct_lawful {C} (make : A -> C) fields :
  (forall x, fields (make x) = x) -> (forall y, make (fields y) = y) -> Lawful (struct a make fields).
Proof.
  intros E1 E2. split; cbn.
  - intros x H. by apply enc_length.
  - intros x H. by apply enc_u8.
  - intros x rest H. by rewrite dec_enc, E2.
  - intros bs Hl Hb. rewrite E1. by apply dec_holds.
Qed.
Lemma struct_packed {C} (make : A -> C) fields :
  Packed a -> (forall x, fields (make x) = x) -> Packed (struct a make fields).
Proof. intros Ha E bs Hl Hb. cbn. rewrite E. by apply enc_dec. Qed.
End Combinators.

(** ** The types of the protocol *)
Ltac by_fields := intros x; repeat match goal with x : _ * _ |- _ => destruct x end; by try destruct x.
Ltac lawful := try (apply padded_lawful; [|cbn; lia]); apply struct_lawful; [exact _|by_fields..].
Ltac packed := apply struct_packed; [exact _|by_fields].
#[export] Instance message_lawful : Lawful message_codec.
Proof. lawful. Qed.
#[export] Instance message_packed : Packed message_codec.
Proof. packed. Qed.
#[export] Instance ring_lawful : Lawful ring_codec.
Proof. lawful. Qed.
#[export] Instance ring_packed : Packed ring_codec.
Proof. packed. Qed.
#[export] Instance shared_lawful : Lawful shared_codec.
Proof. lawful. Qed.
#[export] Instance shared_packed : Packed shared_codec.
Proof. packed. Qed.
#[export] Instance payload_line_lawful : Lawful payload_line_codec.
Proof. lawful. Qed.
#[export] Instance commit_line_lawful : Lawful commit_line_codec.
Proof. lawful. Qed.
#[export] Instance observation_lawful : Lawful observation_codec.
Proof. lawful. Qed.
#[export] Instance tx_full_lawful : Lawful tx_full_codec.
Proof. lawful. Qed.
#[export] Instance worker_lawful : Lawful worker_codec.
Proof. lawful. Qed.
#[export] Instance status_lawful : Lawful status_codec.
Proof. apply padded_lawful; [exact _|cbn; lia]. Qed.
#[export] Instance state_lawful : Lawful state_codec.
Proof. unfold state_codec. exact _. Qed.
#[export] Instance carveout_lawful n : Lawful (carveout_codec n).
Proof. lawful. Qed.

(** The sizes the sources compute with [sizeof]. *)
Lemma sizes :
  Z.of_nat (csize message_codec) = sizeof_message /\ Z.of_nat (csize ring_codec) = sizeof_ring /\
  Z.of_nat (csize shared_codec) = sizeof_shared /\ Z.of_nat (csize state_codec) = R1_AMP_STATE_SIZE.
Proof. by repeat split. Qed.

(** The two sources declare the lines alike, and their assertions hold. *)
Lemma same_lines :
  amp_payload_line = payload_line_codec /\ amp_commit_line = commit_line_codec /\
  amp_mbox_observation_line = observation_codec /\ mailmsg_worker_observation_line = worker_codec.
Proof. by repeat split. Qed.
Lemma static_asserts_hold : driver_static_asserts = true /\ firmware_static_asserts = true.
Proof. by repeat split. Qed.

(** * Fields

    In the bytes of [a] the object [b] lies at [off]; [upd] replaces it, and
    nothing but its own bytes changes. *)
Definition field_at {A B} (c : codec A) (d : codec B) (off : nat) (a : A) (b : B) (upd : B -> A) : Prop :=
  exists pre post, length pre = off /\ enc c a = pre ++ enc d b ++ post /\
    forall b', enc c (upd b') = pre ++ enc d b' ++ post.

Section Fields.
Context {A B : Type} (a : codec A) (b : codec B) `{!Lawful a} `{!Lawful b}.
Lemma field_self x : field_at a a 0 x x (fun y => y).
Proof. exists [], []. split; [done|]. split; intros; by rewrite app_nil_r. Qed.
Lemma field_trans {C} (c : codec C) o1 o2 (x : C) (y : A) (z : B) u v :
  field_at c a o1 x y u -> field_at a b o2 y z v -> field_at c b (o1 + o2) x z (fun z' => u (v z')).
Proof.
  intros (p1 & q1 & <- & E1 & U1) (p2 & q2 & <- & E2 & U2). exists (p1 ++ p2), (q2 ++ q1).
  split; [apply length_app|]. split; [by rewrite E1, E2, <-!app_assoc|].
  intros z'. by rewrite U1, U2, <-!app_assoc.
Qed.
Lemma length_encs l : Forall (holds a) l -> length (mjoin (enc a <$> l)) = length l * csize a.
Proof. intros H. by apply (enc_length (c := array (length l) a)). Qed.
Lemma encs_app l l' : mjoin (enc a <$> (l ++ l')) = mjoin (enc a <$> l) ++ mjoin (enc a <$> l').
Proof. by rewrite fmap_app, join_app. Qed.
Lemma field_array n l i x : Forall (holds a) l -> l !! i = Some x ->
  field_at (array n a) a (i * csize a) l x (fun x' => <[i := x']> l).
Proof.
  intros H Hi. pose proof (lookup_lt_Some _ _ _ Hi) as Hlt.
  exists (mjoin (enc a <$> take i l)), (mjoin (enc a <$> drop (S i) l)). split.
  { rewrite length_encs by by apply Forall_take. by rewrite length_take, Nat.min_l by lia. }
  split; cbn [array enc].
  - rewrite <-(take_drop_middle l i x Hi) at 1. by rewrite encs_app.
  - intros x'. rewrite insert_take_drop by done. by rewrite encs_app.
Qed.
Lemma field_struct {C} (make : A -> C) fields off x y u u' :
  field_at a b off (fields x) y u -> (forall y', fields (u' y') = u y') ->
  field_at (struct a make fields) b off x y u'.
Proof.
  intros (p & q & Hp & E & U) Hu. exists p, q. split; [done|]. split; [exact E|].
  intros y'. cbn. by rewrite Hu.
Qed.
Lemma field_next {C} (c : codec C) off x y z v : holds a x ->
  field_at b c off y z v -> field_at (a ⊗ b) c (csize a + off) (x, y) z (fun z' => (x, v z')).
Proof.
  intros H (p & q & Hp & E & U). exists (enc a x ++ p), q. split; [by rewrite length_app, enc_length, Hp|].
  split; intros; cbn; [by rewrite E, <-app_assoc|by rewrite U, <-app_assoc].
Qed.
Lemma field_left {C} (c : codec C) off x y z v :
  field_at a c off x z v -> field_at (a ⊗ b) c off (x, y) z (fun z' => (v z', y)).
Proof.
  intros (p & q & Hp & E & U). exists p, (q ++ enc b y). split; [done|].
  split; intros; cbn; [by rewrite E, <-!app_assoc|by rewrite U, <-!app_assoc].
Qed.
Lemma field_padded n off x y u : field_at a b off x y u -> field_at (padded_to n a) b off x y u.
Proof.
  intros (p & q & Hp & E & U). exists p, (q ++ replicate (n - csize a) 0%Z). split; [done|].
  split; cbn; [by rewrite E, <-!app_assoc|]. intros y'. by rewrite U, <-!app_assoc.
Qed.
End Fields.

(** ** The fields of the block *)
Lemma field_off {A B} (c : codec A) (d : codec B) o o' x y u :
  o = o' -> field_at c d o x y u -> field_at c d o' x y u.
Proof. by intros ->. Qed.
(** The field of a struct past [n] others, as [leaf] locates it. *)
Tactic Notation "field" integer(n) "then" tactic3(leaf) :=
  eapply field_off; [|eapply field_struct; [do n (eapply field_next; [exact _|assumption|]); leaf|done]].

Lemma field_commit m : holds message_codec m ->
  field_at message_codec c_u32 48 m (commit m) (fun k => m <| commit := k |>).
Proof. intros (H1 & H2 & H3 & H4 & H5 & H6 & H7). by field 6 then apply field_self. Qed.
Lemma field_producer r : field_at ring_codec c_u32 0 r (producer r) (fun v => r <| producer := v |>).
Proof. by field 0 then apply field_left, field_self. Qed.
Lemma field_consumer r : holds ring_codec r ->
  field_at ring_codec c_u32 4 r (consumer r) (fun v => r <| consumer := v |>).
Proof. intros (H1 & H2 & H3). by field 1 then apply field_left, field_self. Qed.
Lemma field_slot r i m : holds ring_codec r -> slot r !! i = Some m ->
  field_at ring_codec message_codec (8 + i * 52) r m (fun m' => r <| slot := <[i := m']> (slot r) |>).
Proof.
  intros (H1 & H2 & H3) Hi. by field 2 then (apply (field_array message_codec); [apply H3|exact Hi]).
Qed.
Lemma field_ring p sh r : holds shared_codec sh -> ring_at p sh = Some r ->
  field_at shared_codec ring_codec (Z.to_nat (ring_offset p)) sh r (fun r' => ring_set p r' sh).
Proof.
  destruct p as [dir i]. intros (H1 & H2 & H3 & H4 & H5) Hr. unfold ring_at, ring_set, zget, zset in *.
  cbn in Hr. destruct (Z.leb_spec 0 i) as [Hi|]; [|done]. cbn [ring_dir ring_index].
  rewrite (proj2 (Z.leb_le 0 i) Hi).
  unfold ring_offset, sizeof_ring, sizeof_message, MAILMSG_PRIORITY_COUNT. cbn [ring_index ring_dir].
  assert (E4 : csize c_u32 = 4) by done. assert (Er : csize ring_codec = 424) by done.
  destruct dir; cbn [rings set_rings] in *.
  - field 3 then (apply field_left, (field_array ring_codec); [apply H4|exact Hr]). rewrite E4, Er. lia.
  - field 4 then (apply (field_array ring_codec); [apply H5|exact Hr]).
    change (csize (array 4 ring_codec)) with (4 * csize ring_codec). rewrite E4, Er. lia.
Qed.

(** The object [b] is what the hook's range [rg] of the block holds. *)
Definition region_field {B} (d : codec B) (rg : region) (sh : mailmsg_shared) (b : B)
    (upd : B -> mailmsg_shared) : Prop :=
  field_at shared_codec d (Z.to_nat (region_range rg).1) sh b upd /\
  (0 <= (region_range rg).1)%Z /\ (region_range rg).2 = Z.of_nat (csize d) /\
  ((region_range rg).1 + (region_range rg).2 <= sizeof_shared)%Z.

Lemma holds_ring p sh r : holds shared_codec sh -> ring_at p sh = Some r ->
  holds ring_codec r /\ (0 <= ring_index p < 4)%Z.
Proof.
  destruct p as [dir i]. intros (_ & _ & _ & [L4 H4] & [L5 H5]) Hr. unfold ring_at in Hr. cbn in *.
  pose proof (zget_Some_range _ _ _ Hr) as Hi. unfold zget in Hr. destruct (0 <=? i)%Z; [|done].
  destruct dir; cbn [rings] in *; (split; [|lia]).
  - exact (Forall_lookup_1 _ _ _ _ H4 Hr).
  - exact (Forall_lookup_1 _ _ _ _ H5 Hr).
Qed.
Lemma holds_slot r i m : holds ring_codec r -> zget (slot r) i = Some m ->
  holds message_codec m /\ (0 <= i < 8)%Z.
Proof.
  intros (_ & _ & [L H]) Hm. cbn in *. pose proof (zget_Some_range _ _ _ Hm) as Hi.
  unfold zget in Hm. destruct (0 <=? i)%Z; [|done]. split; [|lia].
  exact (Forall_lookup_1 _ _ _ _ H Hm).
Qed.
Lemma slot_field p sh r i m :
  holds shared_codec sh -> ring_at p sh = Some r -> zget (slot r) i = Some m ->
  field_at shared_codec message_codec (Z.to_nat (slot_offset p i)) sh m
    (fun m' => ring_set p (r <| slot := zset i m' (slot r) |>) sh).
Proof.
  intros Hs Hr Hm. destruct (holds_ring p sh r Hs Hr) as [Hh Hp]. destruct (holds_slot r i m Hh Hm) as [_ Hi].
  unfold zget in Hm. unfold zset. rewrite (proj2 (Z.leb_le 0 i)) in * by lia.
  eapply field_off; [|exact (field_trans _ _ _ _ _ _ _ _ _ _ (field_ring p sh r Hs Hr) (field_slot r _ m Hh Hm))].
  unfold slot_offset, ring_offset, sizeof_ring, sizeof_message, MAILMSG_PRIORITY_COUNT in *.
  destruct (ring_dir p); lia.
Qed.

(** C32. The ranges the protocol hands to the memory hooks are the fields they
    name: at [&ring->producer], [&ring->consumer], [slot] and [&slot->commit]
    lie exactly the bytes of that word or frame, as long as the length says and
    inside the block, and storing the field changes those bytes and no other;
    the header's range is its three words and the block's the whole block. *)
Theorem hook_ranges p sh r i m :
  holds shared_codec sh -> ring_at p sh = Some r -> zget (slot r) i = Some m ->
  region_field c_u32 (RegProducer p) sh (producer r) (fun v => ring_set p (r <| producer := v |>) sh) /\
  region_field c_u32 (RegConsumer p) sh (consumer r) (fun v => ring_set p (r <| consumer := v |>) sh) /\
  region_field message_codec (RegSlot p i) sh m (fun m' => ring_set p (r <| slot := zset i m' (slot r) |>) sh) /\
  region_field c_u32 (RegCommit p i) sh (commit m)
    (fun k => ring_set p (r <| slot := zset i (m <| commit := k |>) (slot r) |>) sh) /\
  region_field (c_u32 ⊗ c_u32 ⊗ c_u32) RegHeader sh (magic sh, (version sh, shared_generation sh))
    (fun '(a, (b, c)) => sh <| magic := a |> <| version := b |> <| shared_generation := c |>) /\
  region_field shared_codec RegShared sh sh (fun sh' => sh').
Proof.
  intros Hs Hr Hm. destruct (holds_ring p sh r Hs Hr) as [Hh Hp]. destruct (holds_slot r i m Hh Hm) as [Hhm Hi].
  pose proof (field_ring p sh r Hs Hr) as Fr.
  assert (Hoff : (0 <= ring_offset p /\ ring_offset p + 424 <= sizeof_shared)%Z).
  { unfold ring_offset, sizeof_shared, sizeof_ring, sizeof_message, MAILMSG_PRIORITY_COUNT.
    destruct (ring_dir p); lia. }
  assert (Hslot : slot_offset p i = (ring_offset p + 8 + i * 52)%Z) by done.
  repeat split; cbn [region_range fst snd]; try done; try (change sizeof_message with 52%Z; lia).
  - eapply field_off; [|exact (field_trans _ _ _ _ _ _ _ _ _ _ Fr (field_producer r))]. lia.
  - eapply field_off; [|exact (field_trans _ _ _ _ _ _ _ _ _ _ Fr (field_consumer r Hh))]. lia.
  - by apply slot_field.
  - eapply field_off; [|exact (field_trans _ _ _ _ _ _ _ _ _ _ (slot_field p sh r i m Hs Hr Hm) (field_commit m Hhm))].
    lia.
  - exists [], (enc (array 4 ring_codec ⊗ array 4 ring_codec) (linux_to_cpu3 sh, cpu3_to_linux sh)).
    split; [done|].
    split; [|intros (a & b & c)]; cbn -[le_enc]; by rewrite <-!app_assoc.
  - apply field_self.
Qed.

(** * The state area in the carveout *)

(** What the driver's pointer points to, in the bytes of the carveout. *)
Definition object_at {B} (status_offset : nat) (d : codec B) (ptr : Z -> Z -> Z) (c : carveout_mem) (b : B)
    (upd : B -> carveout_mem) : Prop :=
  forall base, field_at (carveout_codec status_offset) d
    (Z.to_nat (ptr base (Z.of_nat status_offset) - base)) c b upd.

Ltac ptr_offset :=
  cbn -[Nat.add]; unfold mailmsg_linux_shared_ptr, r1_amp_mailmsg_worker_observation_ptr,
    r1_amp_mailmsg_tx_full_observation_ptr, r1_amp_mbox_observation_ptr, r1_amp_protocol_ptr, r1_amp_status_ptr,
    R1_AMP_MAILMSG_OFF, R1_AMP_MAILMSG_WORKER_OBS_OFF, R1_AMP_MAILMSG_TX_FULL_OBS_OFF, R1_AMP_MBOX_OBS_OFF,
    R1_AMP_RSP_COMMIT_OFF, R1_AMP_RSP_PAYLOAD_OFF, R1_AMP_REQ_COMMIT_OFF, R1_AMP_REQ_PAYLOAD_OFF; lia.

(** C33. Both sides find the same objects at the same bytes: each of the
    driver's pointers points at the line or block it is used for, past the image
    area, whatever the mapping's base; and with the board's geometry - the
    carveout at 0x50000000, the status words at 0xff000 - they are the
    firmware's addresses.  The firmware declares the lines there as the driver
    does. *)
Theorem same_addresses so c :
  holds (carveout_codec so) c ->
  (object_at so status_codec r1_amp_status_ptr c (status_words c) (fun x => c <| status_words := x |>) /\
   object_at so payload_line_codec (fun b s => r1_amp_protocol_ptr b s R1_AMP_REQ_PAYLOAD_OFF) c (req_payload c)
     (fun x => c <| req_payload := x |>) /\
   object_at so commit_line_codec (fun b s => r1_amp_protocol_ptr b s R1_AMP_REQ_COMMIT_OFF) c (req_commit c)
     (fun x => c <| req_commit := x |>) /\
   object_at so payload_line_codec (fun b s => r1_amp_protocol_ptr b s R1_AMP_RSP_PAYLOAD_OFF) c (rsp_payload c)
     (fun x => c <| rsp_payload := x |>) /\
   object_at so commit_line_codec (fun b s => r1_amp_protocol_ptr b s R1_AMP_RSP_COMMIT_OFF) c (rsp_commit c)
     (fun x => c <| rsp_commit := x |>) /\
   object_at so observation_codec r1_amp_mbox_observation_ptr c (mbox_observation c)
     (fun x => c <| mbox_observation := x |>) /\
   object_at so tx_full_codec r1_amp_mailmsg_tx_full_observation_ptr c (tx_full_observation c)
     (fun x => c <| tx_full_observation := x |>) /\
   object_at so worker_codec r1_amp_mailmsg_worker_observation_ptr c (worker_observation c)
     (fun x => c <| worker_observation := x |>) /\
   object_at so shared_codec mailmsg_linux_shared_ptr c (c_shared c) (fun x => c <| c_shared := x |>)) /\
  let ptr := r1_amp_protocol_ptr 0x50000000 0xff000 in
  r1_amp_status_ptr 0x50000000 0xff000 = AMP_STATUS_ADDR /\
  ptr R1_AMP_REQ_PAYLOAD_OFF = AMP_REQ_PAYLOAD_ADDR /\ ptr R1_AMP_REQ_COMMIT_OFF = AMP_REQ_COMMIT_ADDR /\
  ptr R1_AMP_RSP_PAYLOAD_OFF = AMP_RSP_PAYLOAD_ADDR /\ ptr R1_AMP_RSP_COMMIT_OFF = AMP_RSP_COMMIT_ADDR /\
  r1_amp_mbox_observation_ptr 0x50000000 0xff000 = AMP_MBOX_OBS_ADDR /\
  r1_amp_mailmsg_tx_full_observation_ptr 0x50000000 0xff000 = AMP_MAILMSG_TX_FULL_OBS_ADDR /\
  r1_amp_mailmsg_worker_observation_ptr 0x50000000 0xff000 = AMP_MAILMSG_WORKER_OBS_ADDR /\
  mailmsg_linux_shared_ptr 0x50000000 0xff000 = AMP_QUEUE_ADDR /\
  (amp_payload_line = payload_line_codec /\ amp_commit_line = commit_line_codec /\
   amp_mbox_observation_line = observation_codec /\ mailmsg_worker_observation_line = worker_codec).
Proof.
  intros (Him & H1 & H2 & H3 & H4 & H5 & H6 & H7 & H8 & H9). split; [|by repeat split].
  repeat split; intros base.
  - field 1 then apply field_left, field_self. ptr_offset.
  - field 2 then apply field_left, field_self. ptr_offset.
  - field 3 then apply field_left, field_self. ptr_offset.
  - field 4 then apply field_left, field_self. ptr_offset.
  - field 5 then apply field_left, field_self. ptr_offset.
  - field 6 then apply field_left, field_self. ptr_offset.
  - field 7 then apply field_left, field_self. ptr_offset.
  - field 8 then apply field_left, field_self. ptr_offset.
  - field 9 then apply field_self. ptr_offset.
Qed.

(** * Round trips *)

(** The bytes a frame occupies, as the CRC's properties see them. *)
Lemma slot_bytes_layout m : enc message_codec m = slot_bytes m.
Proof.
  assert (E : forall v, le_bytes v = le_enc 4 v).
  { intros v. cbn. by rewrite !Z.shiftr_shiftr by lia. }
  unfold slot_bytes, sealed_bytes, frame_bytes. rewrite !E. cbn -[le_enc]. by rewrite <-!app_assoc.
Qed.

(** C34. The layout loses nothing: a well-typed carveout is read back from its
    bytes as it was; of the block, which has no reserved bytes, every run of
    3404 bytes is the encoding of exactly the block it is read as, which is
    well typed; and the CRC of a frame is taken over the bytes in front of its
    [crc32] word. *)
Theorem layout_round_trip so c bs m :
  holds (carveout_codec so) c -> Z.of_nat (length bs) = sizeof_shared -> Forall is_u8 bs ->
  holds message_codec m ->
  dec (carveout_codec so) (enc (carveout_codec so) c) = c /\
  Z.of_nat (length (enc (carveout_codec so) c)) = (Z.of_nat so + R1_AMP_STATE_SIZE)%Z /\
  enc shared_codec (dec shared_codec bs) = bs /\ holds shared_codec (dec shared_codec bs) /\
  (exists pre post, enc message_codec m = pre ++ enc c_u32 (crc32 m) ++ post /\
     mailmsg_frame_crc32 m = u32_not (crc_bytes 0xffffffff pre)).
Proof.
  intros Hc Hl Hb Hm. split; [by rewrite <-(app_nil_r (enc _ c)), dec_enc|].
  split.
  { rewrite enc_length by done. change R1_AMP_STATE_SIZE with (Z.of_nat (csize state_codec)).
    change (csize (carveout_codec so)) with (so + csize state_codec). apply Nat2Z.inj_add. }
  change sizeof_shared with (Z.of_nat (csize shared_codec)) in Hl. apply Nat2Z.inj in Hl.
  split; [rewrite enc_dec by (done || lia); by rewrite <-Hl, firstn_all|].
  split; [apply dec_holds; [lia|done]|].
  exists (frame_bytes m), (le_bytes (commit m)). split; [|done].
  rewrite slot_bytes_layout. unfold slot_bytes, sealed_bytes. rewrite <-app_assoc. do 2 f_equal.
Qed.

(** * The owners of the bytes *)
Definition agree (who : owner) : list owner -> list Z -> list Z -> Prop :=
  Forall3 (fun o b b' => o = who -> b = b').
Lemma agree_refl who os bs : length bs = length os -> agree who os bs bs.
Proof. revert bs. induction os as [|o os IH]; intros [|b bs] H; try done; constructor; [done|apply IH; cbn in *; lia]. Qed.
Lemma agree_not who os bs bs' :
  who ∉ os -> length bs = length os -> length bs' = length os -> agree who os bs bs'.
Proof.
  revert bs bs'. induction os as [|o os IH]; intros [|b bs] [|b' bs'] Hn H H'; try done; constructor.
  - intros ->. destruct Hn. by apply list_elem_of_here.
  - apply IH; [by intros ?; apply Hn, list_elem_of_further|cbn in *; lia..].
Qed.
Lemma agree_piece {A} (d : codec A) `{!Lawful d} who os x y :
  holds d x -> holds d y -> length os = csize d -> (who ∈ os -> x = y) -> agree who os (enc d x) (enc d y).
Proof.
  intros Hx Hy Hl E. destruct (decide (who ∈ os)) as [Hin|Hn].
  - rewrite (E Hin). apply agree_refl. by rewrite enc_length, Hl.
  - by apply agree_not; rewrite ?enc_length, ?Hl.
Qed.
Lemma agree_array {A} (d : codec A) who os n l l' :
  Forall2 (fun x y => agree who os (enc d x) (enc d y)) l l' -> length l = n ->
  agree who (mjoin (replicate n os)) (mjoin (enc d <$> l)) (mjoin (enc d <$> l')).
Proof. intros H <-. induction H as [|x y l l' Hxy _ IH]; cbn; [constructor|]. by apply Forall3_app. Qed.

(** A line of one side, with its reserved bytes. *)
Lemma agree_line {A} (d : codec A) `{!Lawful d} who o n x y :
  holds d x -> holds d y -> who <> OwnNobody -> n <= 64 -> csize d = 64 ->
  (who = o -> x = y) -> agree who (line_owners o n) (enc d x) (enc d y).
Proof.
  intros Hx Hy Hw Hn Hd E. apply agree_piece; [done..| |].
  - unfold line_owners. rewrite length_app, !length_replicate. lia.
  - unfold line_owners. rewrite elem_of_app, !elem_of_replicate. intros [[-> _]|[-> _]]; [by apply E|done].
Qed.
Lemma agree_ring who push pop r r' :
  holds ring_codec r -> holds ring_codec r' ->
  (who = push -> producer r = producer r' /\ slot r = slot r') -> (who = pop -> consumer r = consumer r') ->
  agree who (ring_owners push pop) (enc ring_codec r) (enc ring_codec r').
Proof.
  intros (H1 & H2 & H3) (H1' & H2' & H3') Hp Hc.
  apply (Forall3_app _ (replicate 4 push)); [|apply (Forall3_app _ (replicate 4 pop))].
  - apply (agree_piece c_u32); [done..|]. intros [-> _]%elem_of_replicate. by apply Hp.
  - apply (agree_piece c_u32); [done..|]. intros [-> _]%elem_of_replicate. by apply Hc.
  - apply (agree_piece (array 8 message_codec)); [done..|]. intros [-> _]%elem_of_replicate. by apply Hp.
Qed.
Lemma agree_rings who push pop l l' :
  holds (array 4 ring_codec) l -> holds (array 4 ring_codec) l' ->
  (who = push -> (fun r => (producer r, slot r)) <$> l = (fun r => (producer r, slot r)) <$> l') ->
  (who = pop -> consumer <$> l = consumer <$> l') ->
  agree who (mjoin (replicate 4 (ring_owners push pop))) (enc (array 4 ring_codec) l) (enc (array 4 ring_codec) l').
Proof.
  intros [L H] [L' H'] Hp Hc. apply agree_array; [|done]. apply Forall2_same_length_lookup_2; [congruence|].
  intros i r r' Hr Hr'. apply agree_ring.
  - exact (Forall_lookup_1 _ _ _ _ H Hr).
  - exact (Forall_lookup_1 _ _ _ _ H' Hr').
  - intros E. specialize (Hp E). apply (f_equal (lookup i)) in Hp. rewrite !list_lookup_fmap, Hr, Hr' in Hp.
    cbn in Hp. by injection Hp as -> ->.
  - intros E. specialize (Hc E). apply (f_equal (lookup i)) in Hc. rewrite !list_lookup_fmap, Hr, Hr' in Hc.
    cbn in Hc. by injection Hc as ->.
Qed.
Lemma agree_block who sh sh' :
  holds shared_codec sh -> holds shared_codec sh' ->
  (who = OwnLinux -> linux_block sh = linux_block sh') -> (who = OwnCpu3 -> cpu3_block sh = cpu3_block sh') ->
  agree who block_owners (enc shared_codec sh) (enc shared_codec sh').
Proof.
  intros (B1 & B2 & B3 & B4 & B5) (B1' & B2' & B3' & B4' & B5') EL EC.
  assert (Hh : who = OwnLinux -> header sh = header sh') by (intros Hw; specialize (EL Hw); unfold linux_block in EL; congruence).
  unfold header in Hh.
  change block_owners with (replicate 4 OwnLinux ++ replicate 4 OwnLinux ++ replicate 4 OwnLinux ++
    mjoin (replicate 4 (ring_owners OwnLinux OwnCpu3)) ++ mjoin (replicate 4 (ring_owners OwnCpu3 OwnLinux))).
  repeat apply Forall3_app.
  - apply (agree_piece c_u32); [done..|]. intros [Hw _]%elem_of_replicate. specialize (Hh Hw). cbn. congruence.
  - apply (agree_piece c_u32); [done..|]. intros [Hw _]%elem_of_replicate. specialize (Hh Hw). cbn. congruence.
  - apply (agree_piece c_u32); [done..|]. intros [Hw _]%elem_of_replicate. specialize (Hh Hw). cbn. congruence.
  - apply agree_rings; [done..| |]; intros Hw; [specialize (EL Hw)|specialize (EC Hw)];
      unfold linux_block, cpu3_block, produced, consumed in *; cbn [rings] in *; cbn; congruence.
  - apply agree_rings; [done..| |]; intros Hw; [specialize (EC Hw)|specialize (EL Hw)];
      unfold linux_block, cpu3_block, produced, consumed in *; cbn [rings] in *; cbn; congruence.
Qed.
Lemma agree_state who c c' :
  holds state_codec (state_fields c) -> holds state_codec (state_fields c') -> who <> OwnNobody ->
  (who = OwnLinux -> linux_part c = linux_part c') -> (who = OwnCpu3 -> cpu3_part c = cpu3_part c') ->
  agree who state_owners (enc state_codec (state_fields c)) (enc state_codec (state_fields c')).
Proof.
  intros (H1 & H2 & H3 & H4 & H5 & H6 & H7 & H8 & H9) (H1' & H2' & H3' & H4' & H5' & H6' & H7' & H8' & H9') Hn EL EC.
  unfold linux_part, cpu3_part, linux_lines, cpu3_lines in EL, EC.
  unfold state_owners. do 8 (apply Forall3_app; [apply (agree_line _); [done|done|done|lia|done|];
    cbn [state_fields fst snd]; intros Hw; (specialize (EL Hw) || specialize (EC Hw)); congruence|]).
  apply agree_block; [done..| |]; intros Hw; [specialize (EL Hw)|specialize (EC Hw)]; cbn; congruence.
Qed.

(** The line of the k-th byte of the state area. *)
Definition line_index (offset : Z) : nat := Z.to_nat (offset / R1_AMP_CACHE_LINE_SIZE).
Definition in_line (who : owner) (k : nat) : bool := bool_decide (who ∈ line_of k).
Lemma protocol_lines_single k : k < 8 -> in_line OwnLinux k && in_line OwnCpu3 k = false.
Proof.
  intros Hk. assert (H : forallb (fun k => negb (in_line OwnLinux k && in_line OwnCpu3 k)) (seq 0 8) = true)
    by (vm_compute; reflexivity).
  rewrite forallb_forall in H. specialize (H k). rewrite in_seq in H. specialize (H ltac:(lia)).
  by destruct (_ && _).
Qed.
Lemma index_lines_shared p : (0 <= ring_index p < 4)%Z ->
  let k := line_index (R1_AMP_MAILMSG_OFF + (region_range (RegConsumer p)).1) in
  in_line OwnLinux k = true /\ in_line OwnCpu3 k = true.
Proof.
  intros Hp. destruct p as [dir i]. cbn [ring_index] in Hp.
  assert (i = 0 \/ i = 1 \/ i = 2 \/ i = 3)%Z as [-> | [-> | [-> | ->]]] by lia; destruct dir; vm_compute; by split.
Qed.

(** C35. The bytes have owners: two well-typed state areas that agree on a
    side's part agree on every byte that side owns, so, with what the two sides
    write, a byte only ever changes under its owner's hand. Of the cache lines,
    the eight in front of the block have bytes of one side only; but the line
    of every ring's consumer index holds bytes of both sides. *)
Theorem byte_owners :
  (forall c c', holds state_codec (state_fields c) -> holds state_codec (state_fields c') ->
     (linux_part c = linux_part c' -> forall n, state_owners !! n = Some OwnLinux ->
        enc state_codec (state_fields c) !! n = enc state_codec (state_fields c') !! n) /\
     (cpu3_part c = cpu3_part c' -> forall n, state_owners !! n = Some OwnCpu3 ->
        enc state_codec (state_fields c) !! n = enc state_codec (state_fields c') !! n)) /\
  Z.of_nat (length state_owners) = R1_AMP_STATE_SIZE /\
  (forall k, k < 8 -> in_line OwnLinux k && in_line OwnCpu3 k = false) /\
  (forall p, (0 <= ring_index p < 4)%Z ->
     let k := line_index (R1_AMP_MAILMSG_OFF + (region_range (RegConsumer p)).1) in
     in_line OwnLinux k = true /\ in_line OwnCpu3 k = true).
Proof.
  split; [|split; [by vm_compute|split; [exact protocol_lines_single|exact index_lines_shared]]].
  assert (Hl : forall who bs bs', agree who state_owners bs bs' ->
    forall n, state_owners !! n = Some who -> bs !! n = bs' !! n).
  { intros who bs bs' H n Hn. destruct (Forall3_lookup_l _ _ _ _ _ _ H Hn) as (b & b' & -> & -> & E).
    by rewrite E. }
  intros c c' H H'. split; intros E; apply Hl, agree_state; done.
Qed.

(** * The properties at concrete bytes *)
Definition some_bytes (n : nat) : list Z := (fun k => Z.of_nat (k mod 251)) <$> seq 0 n.
Lemma some_bytes_u8 n : Forall is_u8 (some_bytes n).
Proof.
  apply Forall_fmap, Forall_forall. intros k _. unfold is_u8. cbn [compose].
  pose proof (Nat.mod_upper_bound k 251 ltac:(lia)). change (2 ^ 8)%Z with 256%Z. lia.
Qed.
Lemma length_some n : length (some_bytes n) = n.
Proof. unfold some_bytes. by rewrite length_fmap, length_seq. Qed.
Definition some_block : mailmsg_shared := dec shared_codec (some_bytes 3404).
Definition some_carveout : carveout_mem := dec (carveout_codec 96) (some_bytes 4012).
Lemma some_block_holds : holds shared_codec some_block.
Proof. apply dec_holds; [by rewrite length_some|apply some_bytes_u8]. Qed.
Lemma some_carveout_holds : holds (carveout_codec 96) some_carveout.
Proof. apply dec_holds; [by rewrite length_some|apply some_bytes_u8]. Qed.

Lemma hook_ranges_witness :
  exists r m, ring_at (mk_ring_ptr Cpu3ToLinux 2) some_block = Some r /\ zget (slot r) 5 = Some m /\
    region_range (RegSlot (mk_ring_ptr Cpu3ToLinux 2) 5) = (2824, 52)%Z /\
    region_field message_codec (RegSlot (mk_ring_ptr Cpu3ToLinux 2) 5) some_block m
      (fun m' => ring_set (mk_ring_ptr Cpu3ToLinux 2) (r <| slot := zset 5 m' (slot r) |>) some_block).
Proof.
  destruct (ring_at (mk_ring_ptr Cpu3ToLinux 2) some_block) as [r|] eqn:Hr; [|vm_compute in Hr; discriminate Hr].
  exists r. destruct (zget (slot r) 5) as [m|] eqn:Hm.
  - exists m. split; [reflexivity|]. split; [reflexivity|]. split; [vm_compute; reflexivity|].
    apply (hook_ranges (mk_ring_ptr Cpu3ToLinux 2) some_block r 5 m some_block_holds Hr Hm).
  - exfalso. revert Hm. assert (B : match ring_at (mk_ring_ptr Cpu3ToLinux 2) some_block with
      Some r => match zget (slot r) 5 with Some _ => true | None => false end | None => false end = true)
      by (vm_compute; reflexivity).
    rewrite Hr in B. intros Hm. rewrite Hm in B. discriminate B.
Defined.
Lemma same_addresses_witness :
  object_at 96 shared_codec mailmsg_linux_shared_ptr some_carveout (c_shared some_carveout)
    (fun x => some_carveout <| c_shared := x |>) /\
  mailmsg_linux_shared_ptr 0x50000000 0xff000 = 0x500ff200%Z.
Proof.
  destruct (same_addresses 96 some_carveout some_carveout_holds) as [(_ & _ & _ & _ & _ & _ & _ & _ & H) _].
  split; [exact H|reflexivity].
Defined.
Lemma layout_round_trip_witness :
  dec (carveout_codec 96) (enc (carveout_codec 96) some_carveout) = some_carveout /\
  enc shared_codec (dec shared_codec (some_bytes 3404)) = some_bytes 3404.
Proof.
  assert (Hm : holds message_codec (dec message_codec (some_bytes 52)))
    by (apply dec_holds; [rewrite length_some; reflexivity|apply some_bytes_u8]).
  destruct (layout_round_trip 96 some_carveout (some_bytes 3404) (dec message_codec (some_bytes 52))
    some_carveout_holds ltac:(rewrite length_some; reflexivity) (some_bytes_u8 3404) Hm) as (H1 & _ & H2 & _).
  split; [exact H1|exact H2].
Defined.
