(* ===== verification/Bringup.v ===== *)
(** The bring-up images that came before the MailMsg firmware: the checkpoint
    image, which reports each exception level it passes and then counts, and
    the heartbeat image, which reports once.  They share the state area's first
    line with the firmware and nothing else. *)
From S2P Require Import Prelude Protocol Ring DriverState.

(** * zephyr-amp-checkpoint

    [mrs] is what [mrs CurrentEL] reads: the exception level in bits 3:2. *)
Module Checkpoint.
Definition MARK_EL_HIGHEST : Z := 0x454c4849.
Definition MARK_EL2_INIT : Z := 0x454c3249.
Definition MARK_EL1_INIT : Z := 0x454c3149.
Definition MARK_MAIN : Z := 0x414d5031.
Definition MARK_HEARTBEAT : Z := 0x48420000.

(** The memory and the local [sequence] of [main]. *)
Record state := mk_state { memory : carveout_mem; beat_sequence : Z }.
#[export] Instance eta_state : Eta state := fun s => mk_state (memory s) (beat_sequence s).

Definition current_el (mrs : Z) : Z := mrs.
(** The stores of the two words; [dc cvac] and [dsb] write them back. *)
Definition r1_amp_checkpoint_c (mrs mark : Z) : M state unit :=
  modify (fun s => s <| memory := memory s <| status_words := [mark; current_el mrs] |> |>).
Definition z_arm64_el_highest_plat_init (mrs : Z) : M state unit := r1_amp_checkpoint_c mrs MARK_EL_HIGHEST.
Definition z_arm64_el2_plat_init (mrs : Z) : M state unit := r1_amp_checkpoint_c mrs MARK_EL2_INIT.
Definition z_arm64_el1_plat_init (mrs : Z) : M state unit := r1_amp_checkpoint_c mrs MARK_EL1_INIT.

(** One turn of [main]'s loop, its delay left out; [n] turns; [main] as far as
    that. *)
Definition main_turn (mrs : Z) : M state unit :=
  s ← get;
  r1_amp_checkpoint_c mrs (Z.lor MARK_HEARTBEAT (Z.land (beat_sequence s) 0xffff)) ;;
  modify (fun s => s <| beat_sequence := u64 (beat_sequence s + 1) |>).
Fixpoint main_turns (mrs : Z) (n : nat) : M state unit :=
  match n with O => mret tt | S n => main_turns mrs n ;; main_turn mrs end.
Definition main (mrs : Z) (n : nat) : M state unit :=
  modify (fun s => s <| beat_sequence := 0 |>) ;;
  r1_amp_checkpoint_c mrs MARK_MAIN ;;
  main_turns mrs n.
End Checkpoint.

(** * zephyr-amp-heartbeat *)
Module Heartbeat.
Definition AMP_MAGIC : Z := 0x414d5031.
Definition current_el (mrs : Z) : Z := Z.shiftr mrs 2.
(** [main] up to the endless [wfe]. *)
Definition main (mrs : Z) : M carveout_mem unit :=
  modify (fun m => m <| status_words := [AMP_MAGIC; current_el mrs] |>).
End Heartbeat.

(** * What Linux samples *)
Lemma beat_mark k : Z.lor Checkpoint.MARK_HEARTBEAT (Z.land k 0xffff) = Checkpoint.MARK_HEARTBEAT + k mod 2 ^ 16.
Proof.
  change 0xffff with (Z.ones 16). rewrite Z.land_ones by lia.
  pose proof (Z.mod_pos_bound k (2 ^ 16) ltac:(lia)) as Hk. set (b := k mod 2 ^ 16) in *.
  change Checkpoint.MARK_HEARTBEAT with (Z.shiftl 0x4842 16).
  assert (Hd : Z.land (Z.shiftl 0x4842 16) b = 0).
  { apply Z.bits_inj'. intros i Hi. rewrite Z.land_spec, Z.bits_0. destruct (decide (i < 16)).
    - by rewrite Z.shiftl_spec_low by lia.
    - destruct (decide (b = 0)) as [->|]; [by rewrite Z.bits_0, andb_false_r|].
      rewrite (Z.bits_above_log2 b), andb_false_r; [done|lia|].
      assert (Z.log2 b < 16) by (apply Z.log2_lt_pow2; lia). lia. }
  rewrite <-Z.lxor_lor by done. symmetry. by apply Z.add_nocarry_lxor.
Qed.

(** The status words after [main] and [n] turns of its loop. *)
Definition beat_words (mrs : Z) (n : nat) : list Z :=
  [match n with
   | O => Checkpoint.MARK_MAIN
   | S k => Checkpoint.MARK_HEARTBEAT + Z.of_nat k mod 2 ^ 16
   end; mrs].
(** What a reader of the status line makes of the image: it has passed [main]
    with the first word MARK_MAIN, and each turn of the loop is a new word - the
    heartbeat mark, never disturbed by the counter beneath it, which starts
    again after 65536 beats; nothing else of the carveout changes. *)
Theorem checkpoint_counts mrs n s :
  Z.of_nat n < 2 ^ 64 ->
  Checkpoint.main mrs n s =
    Some (tt, Checkpoint.mk_state (Checkpoint.memory s <| status_words := beat_words mrs n |>) (Z.of_nat n)) /\
  (forall k, Z.of_nat n <= Z.of_nat k -> beat_words mrs (S n) = beat_words mrs (S k) ->
     (Z.of_nat k - Z.of_nat n) mod 2 ^ 16 = 0).
Proof.
  intros Hn. split.
  - unfold Checkpoint.main. do 2 step. cbn. revert Hn. induction n as [|n IH]; intros Hn; [done|].
    cbn [Checkpoint.main_turns]. rewrite (run_bind_some _ _ _ _ _ (IH ltac:(lia))).
    unfold Checkpoint.main_turn. do 2 step. unfold Checkpoint.r1_amp_checkpoint_c, modify. cbn -[Z.lor Z.land].
    rewrite beat_mark. unfold u64. rewrite Z.mod_small by lia.
    change (Z.pos (Pos.of_succ_nat n)) with (Z.of_nat (S n)). by rewrite Nat2Z.inj_succ.
  - intros k Hk [= E]. lia.
Qed.
Definition bringup_state : Checkpoint.state := Checkpoint.mk_state (mk_carveout [] [0; 0] payload_line_zero
  commit_line_zero payload_line_zero commit_line_zero observation_zero tx_full_zero worker_observation_zero
  shared_zero) 0.
Lemma checkpoint_counts_witness :
  Checkpoint.main 4 3 bringup_state = Some (tt, Checkpoint.mk_state
    (Checkpoint.memory bringup_state <| status_words := [0x48420002; 4] |>) 3).
Proof. apply (checkpoint_counts 4 3 bringup_state). reflexivity. Defined.
(** The two images report the exception level differently. *)
Lemma images_disagree mem s : exists m s',
  Heartbeat.main 4 mem = Some (tt, m) /\ Checkpoint.main 4 0 s = Some (tt, s') /\
  status_words m = [0x414d5031; 1] /\ status_words (Checkpoint.memory s') = [0x414d5031; 4].
Proof. by do 2 eexists. Qed.
