(* ===== verification/Tools.v ===== *)
(** The host tools of [tools/]: the in-flight window benchmark
    [mailmsg_window_bench.c] and the smoke test [mailmsg_user_client.c], as
    programs over the system calls they make. *)
From Stdlib Require Import Ascii.
From Stdlib Require DecimalString.
From stdpp Require Import sorting.
From S2P Require Import Prelude Protocol DriverState DriverUser.

Definition EINTR : Z := 4.
Definition POLLIN : Z := EPOLLIN.
Definition POLLERR : Z := EPOLLERR.
Definition POLLHUP : Z := EPOLLHUP.
Definition POLLNVAL : Z := 0x20.
Definition UINT32_MAX : Z := 0xffffffff.
Definition ULONG_MAX : Z := 0xffffffffffffffff.

(** * The system calls

    A call that fails answers [- errno]. *)
Class Kernel := {
  world : Type;
  clock_gettime : world -> option (Z * Z) * world;        (* tv_sec, tv_nsec *)
  alloc_ok : Z -> world -> bool * world;                  (* calloc, realloc of so many bytes *)
  sys_open : string -> bool -> world -> Z * world;        (* path, O_NONBLOCK *)
  sys_poll : Z -> Z -> world -> Z * Z * world;            (* fd, timeout: result, revents *)
  sys_write : Z -> mailmsg_user_frame -> world -> Z * world;
  sys_read : Z -> world -> Z * mailmsg_user_frame * world;
  sys_close : Z -> world -> world;
}.

(** * [strtoul(text, &end, 0)] of the C library *)
Definition is_space (c : Ascii.ascii) : bool :=
  let n := Ascii.nat_of_ascii c in ((n =? 32) || ((9 <=? n) && (n <=? 13)))%nat.
(** The value of a digit in bases up to 16. *)
Definition digit_value (c : Ascii.ascii) : option Z :=
  let n := Z.of_nat (Ascii.nat_of_ascii c) in
  if (48 <=? n) && (n <=? 57) then Some (n - 48)
  else if (97 <=? n) && (n <=? 102) then Some (n - 87)
  else if (65 <=? n) && (n <=? 70) then Some (n - 55)
  else None.
Definition digit_in (base : Z) (c : Ascii.ascii) : option Z :=
  v ← digit_value c; if v <? base then Some v else None.
Fixpoint skip_spaces (text : list Ascii.ascii) : list Ascii.ascii :=
  match text with
  | c :: text' => if is_space c then skip_spaces text' else text
  | [] => []
  end.
(** The longest run of digits: how many, their value, and what follows. *)
Fixpoint digits (base acc : Z) (text : list Ascii.ascii) : nat * Z * list Ascii.ascii :=
  match text with
  | c :: text' =>
      match digit_in base c with
      | Some v => let '(n, acc, rest) := digits base (acc * base + v) text' in (S n, acc, rest)
      | None => (O, acc, text)
      end
  | [] => (O, acc, [])
  end.
(** The base prefix: 0x before a hexadecimal digit, or 0. *)
Definition base_of (text : list Ascii.ascii) : Z * list Ascii.ascii :=
  match text with
  | "0"%char :: x :: c :: rest =>
      if (bool_decide (x = "x"%char) || bool_decide (x = "X"%char)) &&
         match digit_in 16 c with Some _ => true | None => false end
      then (16, c :: rest) else (8, text)
  | "0"%char :: _ => (8, text)
  | _ => (10, text)
  end.
(** The value, [errno <> 0], and whether [*end] is not the terminating zero. *)
Definition strtoul (text : string) : Z * bool * bool :=
  let chars := String.list_ascii_of_string text in
  let body := skip_spaces chars in
  let '(negative, body) :=
    match body with
    | "-"%char :: rest => (true, rest)
    | "+"%char :: rest => (false, rest)
    | _ => (false, body)
    end in
  let '(base, body) := base_of body in
  let '(n, value, rest) := digits base 0 body in
  match n with
  | O => (0, false, match chars with [] => false | _ => true end)
  | _ => (if ULONG_MAX <? value then ULONG_MAX else if negative : bool then u64 (- value) else value,
          ULONG_MAX <? value, match rest with [] => false | _ => true end)
  end.

(** * Programs: state, [exit], [goto] *)

(** How a statement leaves the straight line; running out of fuel is its own
    outcome. *)
Inductive jump :=
| JExit (code : Z)
| JDrain              (* goto drain *)
| JFuel.

Record request_slot := mk_slot { rs_value : Z; rs_start_ns : Z; rs_active : bool }.
#[export] Instance eta_slot : Eta request_slot := fun s =>
  mk_slot (rs_value s) (rs_start_ns s) (rs_active s).
Definition slot_zero : request_slot := mk_slot 0 0 false.

Section Programs.
Context {kernel : Kernel}.

(** The variables of the benchmark and the system under it.  [latency_ns] holds
    the [count] values written so far of the [capacity] allocated. *)
Record bench := mk_bench {
  os : world;
  slots : list request_slot;
  latency_ns : list Z;
  capacity : Z;
  next_value : Z;
  attempts : Z; write_ok : Z; enospc : Z; eagain : Z; write_other : Z;
  ack : Z; nack : Z; pong : Z; duplicate : Z; unknown : Z; read_error : Z;
  outstanding : Z; max_inflight : Z;
}.
#[export] Instance eta_bench : Eta bench := fun b =>
  mk_bench (os b) (slots b) (latency_ns b) (capacity b) (next_value b) (attempts b) (write_ok b)
    (enospc b) (eagain b) (write_other b) (ack b) (nack b) (pong b) (duplicate b) (unknown b)
    (read_error b) (outstanding b) (max_inflight b).

Definition B (A : Type) : Type := M bench (A + jump).
#[export] Instance B_ret : MRet B := fun A a s => Some (inl a, s).
#[export] Instance B_bind : MBind B := fun A C k m s =>
  match m s with
  | Some (inl a, s') => k a s'
  | Some (inr j, s') => Some (inr j, s')
  | None => None
  end.
Definition jump_to {A} (j : jump) : B A := fun s => Some (inr j, s).
Definition var {A} (f : bench -> A) : B A := fun s => Some (inl (f s), s).
Definition set_var (f : bench -> bench) : B unit := fun s => Some (inl tt, f s).
Definition undefined {A} : B A := fun _ => None.
(** A system call. *)
Definition sys {A} (call : world -> A * world) : B A := fun s =>
  let '(a, w) := call (os s) in Some (inl a, s <| os := w |>).

(** * The benchmark *)
Definition monotonic_ns : B Z :=
  ts ← sys clock_gettime;
  match ts with
  | None => jump_to (JExit 1)
  | Some (tv_sec, tv_nsec) => mret (u64 (tv_sec * 1000000000 + tv_nsec))
  end.

Definition compare_u64 (a b : Z) : Z :=
  (if b <? a then 1 else 0) - (if a <? b then 1 else 0).
(** [qsort] by that comparison. *)
Definition not_after (a b : Z) : Prop := compare_u64 a b <= 0.
#[export] Instance not_after_dec a b : Decision (not_after a b) := decide (compare_u64 a b <= 0).
Definition sort_u64 (l : list Z) : list Z := merge_sort not_after l.

Definition append_latency (latency : Z) : B unit :=
  s ← var id;
  (if Z.of_nat (length (latency_ns s)) =? capacity s then
     let new_capacity := if negb (capacity s =? 0) then u64 (capacity s * 2) else 4096 in
     ok ← sys (alloc_ok (u64 (new_capacity * 8)));
     if negb ok then jump_to (JExit 1)
     else set_var (fun s => s <| capacity := new_capacity |>)
   else mret tt) ;;
  s ← var id;
  if Z.of_nat (length (latency_ns s)) <? capacity s
  then set_var (fun s => s <| latency_ns := latency_ns s ++ [latency] |>)
  else undefined.

(** The index of the first slot that satisfies [p]. *)
Fixpoint find_slot (p : request_slot -> bool) (slots : list request_slot) : option nat :=
  match slots with
  | [] => None
  | slot :: slots => if p slot then Some O else S <$> find_slot p slots
  end.
Definition find_free_slot : list request_slot -> option nat :=
  find_slot (fun slot => negb (rs_active slot)).
Definition find_value (slots : list request_slot) (value : Z) : option nat :=
  find_slot (fun slot => rs_active slot && (rs_value slot =? value)) slots.

Definition percentile_index (count percentile : Z) : Z :=
  if count =? 0 then 0 else
  let rank := u64 (count * percentile + 99) / 100 in
  let rank := if rank =? 0 then 1 else rank in
  s32 (rank - 1).

(** Steps of the counters. *)
Definition inc (n : Z) : Z := u64 (n + 1).

(** What becomes of one frame that was read. *)
Definition take_frame (frame : mailmsg_user_frame) : B unit :=
  if uf_type frame =? MAILMSG_MSG_ACK then set_var (fun s => s <| ack ::= inc |>) else
  if uf_type frame =? MAILMSG_MSG_NACK then set_var (fun s => s <| nack ::= inc |>) else
  if negb (uf_type frame =? MAILMSG_MSG_PONG) || (uf_length frame <? 4)
  then set_var (fun s => s <| unknown ::= inc |>) else
  let pong_value := load_u32 (uf_payload frame) 0 in
  if pong_value =? 0 then set_var (fun s => s <| unknown ::= inc |>) else
  found ← var (fun s => find_value (slots s) (u32 (pong_value - 1)));
  match found with
  | None => set_var (fun s => s <| duplicate ::= inc |>)
  | Some i =>
      now ← monotonic_ns;
      s ← var id;
      match slots s !! i with
      | None => undefined
      | Some slot =>
          append_latency (u64 (now - rs_start_ns slot)) ;;
          set_var (fun s => s <| slots ::= alter (fun slot => slot <| rs_active := false |>) i |>
            <| outstanding ::= fun n => u64 (n - 1) |> <| pong ::= inc |>)
      end
  end.

(** The loop that reads until there is nothing left; [on_error] follows a read
    that fails or is short. *)
Fixpoint read_all (fuel : nat) (fd : Z) (on_error : B unit) : B unit :=
  match fuel with
  | O => jump_to JFuel
  | S fuel =>
      '(io_ret, frame) ← sys (sys_read fd);
      if io_ret =? - EAGAIN then mret tt else
      if negb (io_ret =? sizeof_user_frame) then
        set_var (fun s => s <| read_error ::= inc |>) ;; on_error
      else take_frame frame ;; read_all fuel fd on_error
  end.

(** The request written for [value]. *)
Definition ping_frame (priority value : Z) : mailmsg_user_frame :=
  user_frame_zero <| uf_priority := priority |> <| uf_type := MAILMSG_MSG_PING |> <| uf_length := 4 |>
    <| uf_payload := store_u32 (uf_payload user_frame_zero) 0 value |>.

(** The loop that fills the window. *)
Fixpoint fill_window (fuel : nat) (fd priority window : Z) : B unit :=
  match fuel with
  | O => jump_to JFuel
  | S fuel =>
      s ← var id;
      if negb (outstanding s <? window) then mret tt else
      match find_free_slot (slots s) with
      | None => mret tt
      | Some i =>
          set_var (fun s => s <| attempts ::= inc |>) ;;
          io_ret ← sys (sys_write fd (ping_frame priority (next_value s)));
          if io_ret =? sizeof_user_frame then
            set_var (fun s => s <| slots ::= alter (fun slot => slot <| rs_value := next_value s |>) i |>
              <| next_value := u32 (next_value s + 1) |>) ;;
            now ← monotonic_ns;
            set_var (fun s => s
              <| slots ::= alter (fun slot => slot <| rs_start_ns := now |> <| rs_active := true |>) i |>
              <| write_ok ::= inc |> <| outstanding ::= inc |>) ;;
            set_var (fun s => s <| max_inflight :=
              if max_inflight s <? outstanding s then outstanding s else max_inflight s |>) ;;
            fill_window fuel fd priority window
          else if io_ret =? - ENOSPC then set_var (fun s => s <| enospc ::= inc |>)
          else if io_ret =? - EAGAIN then set_var (fun s => s <| eagain ::= inc |>)
          else set_var (fun s => s <| write_other ::= inc |>) ;; jump_to JDrain
      end
  end.

Definition poll_failed (revents : Z) : bool :=
  negb (Z.land revents (Z.lor (Z.lor POLLERR POLLHUP) POLLNVAL) =? 0).
Definition readable (revents : Z) : bool := negb (Z.land revents POLLIN =? 0).

(** The measurement: fill, wait, drain, until [deadline_ns]. *)
Fixpoint measure (fuel : nat) (fd priority window deadline_ns : Z) : B unit :=
  match fuel with
  | O => jump_to JFuel
  | S fuel' =>
      now_ns ← monotonic_ns;
      if now_ns <? deadline_ns then
        fill_window fuel fd priority window ;;
        '(poll_ret, revents) ← sys (sys_poll fd 10);
        if poll_ret <? 0 then
          if poll_ret =? - EINTR then measure fuel' fd priority window deadline_ns
          else set_var (fun s => s <| read_error ::= inc |>) ;; jump_to JDrain
        else if poll_failed revents then
          set_var (fun s => s <| read_error ::= inc |>) ;; jump_to JDrain
        else if negb (readable revents) then measure fuel' fd priority window deadline_ns
        else read_all fuel fd (jump_to JDrain) ;; measure fuel' fd priority window deadline_ns
      else
        s ← var id;
        if outstanding s =? 0 then mret tt else jump_to JDrain
  end.

(** [while (outstanding && monotonic_ns() < drain_deadline_ns)]. *)
Fixpoint drain_responses (fuel : nat) (fd drain_deadline_ns : Z) : B unit :=
  match fuel with
  | O => jump_to JFuel
  | S fuel' =>
      s ← var id;
      if outstanding s =? 0 then mret tt else
      now_ns ← monotonic_ns;
      if negb (now_ns <? drain_deadline_ns) then mret tt else
      '(poll_ret, revents) ← sys (sys_poll fd 20);
      if poll_ret <=? 0 then drain_responses fuel' fd drain_deadline_ns else
      if negb (readable revents) then mret tt else
      read_all fuel fd (mret tt) ;; drain_responses fuel' fd drain_deadline_ns
  end.

(** A statement whose [goto drain] leads to the next one. *)
Definition until_drain (m : B unit) : B unit := fun s =>
  match m s with
  | Some (inr JDrain, s') => Some (inl tt, s')
  | r => r
  end.

(** From the start of the clock to the end of the drain, for fuel [fuel]. *)
Definition run_window (fuel : nat) (fd priority window duration_seconds : Z) : B unit :=
  start_ns ← monotonic_ns;
  until_drain (measure fuel fd priority window (u64 (start_ns + u64 (duration_seconds * 1000000000)))) ;;
  now ← monotonic_ns;
  drain_responses fuel fd (u64 (now + 5000000000)).

(** The line printed, and the latencies: count, minimum, percentiles, maximum. *)
Record report := mk_report {
  rp_final : bench;
  rp_timeout : Z;
  rp_lost : Z;
  rp_latency : option (Z * Z * Z * Z * Z * Z);
}.
Definition bench_report (s : bench) : option report :=
  let sorted := sort_u64 (latency_ns s) in
  let count := Z.of_nat (length sorted) in
  let lost := if pong s <? write_ok s then u64 (write_ok s - pong s) else 0 in
  if count =? 0 then Some (mk_report s (outstanding s) lost None) else
  lo ← zget sorted 0;
  p50 ← zget sorted (percentile_index count 50);
  p95 ← zget sorted (percentile_index count 95);
  p99 ← zget sorted (percentile_index count 99);
  hi ← zget sorted (count - 1);
  Some (mk_report s (outstanding s) lost (Some (count, lo, p50, p95, p99, hi))).

Definition nonzero (z : Z) : bool := negb (z =? 0).
(** The exit status. *)
Definition bench_status (priority : Z) (s : bench) : Z :=
  if nonzero (eagain s) || nonzero (write_other s) || nonzero (read_error s) || nonzero (nack s) ||
     nonzero (duplicate s) || nonzero (unknown s) then 1
  else if mailmsg_priority_is_reliable priority &&
          (nonzero (outstanding s) || negb (ack s =? write_ok s) || negb (pong s =? write_ok s)) then 1
  else 0.

Definition parse_ulong (text : string) (maximum : Z) : option Z :=
  let '(value, errno, rest) := strtoul text in
  if errno || rest || (maximum <? value) then None else Some value.

Definition device_path (priority : Z) : string := 
  "/dev/mailmsg-p" +:+ DecimalString.NilZero.string_of_uint (N.to_uint (Z.to_N priority)).

(** The variables at the start of the measurement. *)
Definition bench_zero (w : world) (window base_value : Z) : bench :=
  mk_bench w (replicate (Z.to_nat window) slot_zero) [] 0 (u32 base_value) 0 0 0 0 0 0 0 0 0 0 0 0 0.

Inductive outcome :=
| Exited (code : Z) (printed : option report)
| OutOfFuel.

(** [main]: [args] are the arguments after the program's name. *)
Definition bench_main (fuel : nat) (args : list string) (w : world) : option (outcome * world) :=
  match args with
  | [a1; a2; a3; a4] =>
      match parse_ulong a1 (MAILMSG_PRIORITY_COUNT - 1), parse_ulong a2 4096, parse_ulong a3 3600,
            parse_ulong a4 (UINT32_MAX - 1000000) with
      | Some priority, Some window, Some duration_seconds, Some base_value =>
          if (window =? 0) || (duration_seconds =? 0) then Some (Exited 2 None, w) else
          let '(ok, w) := alloc_ok (window * 24) w in
          if negb ok then Some (Exited 1 None, w) else
          let '(fd, w) := sys_open (device_path priority) true w in
          if fd <? 0 then Some (Exited 1 None, w) else
          let '(poll_ret, revents, w) := sys_poll fd 0 w in
          if (poll_ret <? 0) || poll_failed revents then Some (Exited 1 None, sys_close fd w) else
          '(r, s) ← run_window fuel fd priority window duration_seconds (bench_zero w window base_value);
          match r with
          | inr (JExit code) => Some (Exited code None, os s)
          | inr JFuel => Some (OutOfFuel, os s)
          | inr JDrain => None      (* the label is inside *)
          | inl _ =>
              let w := sys_close fd (os s) in
              rep ← bench_report s;
              Some (Exited (bench_status priority s) (Some rep), w)
          end
      | _, _, _, _ => Some (Exited 2 None, w)
      end
  | _ => Some (Exited 2 None, w)
  end.

(** * The smoke test *)

(** What is printed of a frame after its header. *)
Inductive client_value :=
| ClientFeedback (peer_sequence status : Z)
| ClientValue (value : Z)
| ClientNothing.
Record client_line := mk_client_line {
  cl_priority : Z; cl_type : Z; cl_frame_sequence : Z; cl_length : Z; cl_value : client_value;
}.
Definition client_line_of (frame : mailmsg_user_frame) : client_line :=
  mk_client_line (uf_priority frame) (uf_type frame) (uf_sequence frame) (uf_length frame)
    (if ((uf_type frame =? MAILMSG_MSG_ACK) || (uf_type frame =? MAILMSG_MSG_NACK)) &&
        (MAILMSG_FEEDBACK_BYTES <=? uf_length frame)
     then ClientFeedback (load_u32 (uf_payload frame) 0)
            (s32 (load_u32 (uf_payload frame) MAILMSG_FEEDBACK_STATUS_OFFSET))
     else if 4 <=? uf_length frame then ClientValue (load_u32 (uf_payload frame) 0)
     else ClientNothing).

(** The loop over the expected answers: the exit status and the lines. *)
Fixpoint client_replies (expected : nat) (fd : Z) (w : world) : Z * list client_line * world :=
  match expected with
  | O => (0, [], w)
  | S expected =>
      let '(ret, revents, w) := sys_poll fd 1000 w in
      if ret <=? 0 then (1, [], w) else
      if negb (readable revents) then (1, [], w) else
      let '(ret, frame, w) := sys_read fd w in
      if negb (ret =? sizeof_user_frame) then (1, [], w) else
      let '(code, lines, w) := client_replies expected fd w in
      (code, client_line_of frame :: lines, w)
  end.

Definition client_run (priority value : Z) (no_read : bool) (w : world) : Z * list client_line * world :=
  let '(fd, w) := sys_open (device_path priority) false w in
  if fd <? 0 then (1, [], w) else
  let '(ret, w) := sys_write fd (ping_frame priority value) w in
  if negb (ret =? sizeof_user_frame) then (1, [], sys_close fd w) else
  let expected := if no_read then O else if mailmsg_priority_is_reliable priority then 2%nat else 1%nat in
  let '(code, lines, w) := client_replies expected fd w in
  (code, lines, sys_close fd w).

(** [main]: the exit status and the lines printed. *)
Definition client_main (args : list string) (w : world) : Z * list client_line * world :=
  let parsed :=
    match args with
    | [a1; a2] => Some (a1, a2, false)
    | [a1; a2; a3] => if String.eqb a3 "--no-read" then Some (a1, a2, true) else None
    | _ => None
    end in
  match parsed with
  | None => (2, [], w)
  | Some (a1, a2, no_read) =>
      let '(priority, _, rest) := strtoul a1 in
      if rest || (MAILMSG_PRIORITY_COUNT <=? priority) then (2, [], w) else
      let '(value, _, rest) := strtoul a2 in
      if rest || (UINT32_MAX <? value) then (2, [], w) else
      client_run priority value no_read w
  end.
End Programs.
