(* ===== verification/ToolsSpec.v ===== *)
(** What the window benchmark's verdict is worth, and that it terminates: the
    accounting between the system calls made and the counters reported, and
    termination on a kernel whose clock advances. *)
From Stdlib Require Import Ascii.
From stdpp Require Import sorting.
From S2P Require Import Prelude Protocol DriverState DriverUser Tools.

(** * The kernel with a record of the calls that move frames *)
Inductive call :=
| CallPoll (ret revents : Z)
| CallWrite (frame : mailmsg_user_frame) (ret : Z)
| CallRead (ret : Z) (frame : mailmsg_user_frame).

Definition traced (kernel : Kernel) : Kernel := {|
  world := world * list call;
  clock_gettime '(w, log) := let '(ts, w) := clock_gettime w in (ts, (w, log));
  alloc_ok n '(w, log) := let '(ok, w) := alloc_ok n w in (ok, (w, log));
  sys_open path nonblock '(w, log) := let '(fd, w) := sys_open path nonblock w in (fd, (w, log));
  sys_poll fd timeout '(w, log) :=
    let '(ret, revents, w) := sys_poll fd timeout w in (ret, revents, (w, log ++ [CallPoll ret revents]));
  sys_write fd frame '(w, log) :=
    let '(ret, w) := sys_write fd frame w in (ret, (w, log ++ [CallWrite frame ret]));
  sys_read fd '(w, log) :=
    let '(ret, frame, w) := sys_read fd w in (ret, frame, (w, log ++ [CallRead ret frame]));
  sys_close fd '(w, log) := (sys_close fd w, log);
|}.

(** The values of the requests the kernel took, and the frames it delivered. *)
Definition accepted_value (c : call) : option Z :=
  match c with
  | CallWrite frame ret => if ret =? sizeof_user_frame then Some (load_u32 (uf_payload frame) 0) else None
  | _ => None
  end.
Definition delivered_frame (c : call) : option mailmsg_user_frame :=
  match c with
  | CallRead ret frame => if ret =? sizeof_user_frame then Some frame else None
  | _ => None
  end.
Definition accepted (log : list call) : list Z := omap accepted_value log.
Definition delivered (log : list call) : list mailmsg_user_frame := omap delivered_frame log.

Definition is_ack (f : mailmsg_user_frame) : bool := uf_type f =? MAILMSG_MSG_ACK.
Definition is_nack (f : mailmsg_user_frame) : bool := negb (is_ack f) && (uf_type f =? MAILMSG_MSG_NACK).
(** A PONG that names a request. *)
Definition is_answer (f : mailmsg_user_frame) : bool :=
  (uf_type f =? MAILMSG_MSG_PONG) && (4 <=? uf_length f) && negb (load_u32 (uf_payload f) 0 =? 0).
Definition answered_value (f : mailmsg_user_frame) : Z := u32 (load_u32 (uf_payload f) 0 - 1).
Definition is_unknown (f : mailmsg_user_frame) : bool := negb (is_ack f) && negb (is_nack f) && negb (is_answer f).

(** A write that neither was taken nor met a full ring; a read that failed. *)
Definition write_failed (c : call) : bool :=
  match c with
  | CallWrite _ ret => negb (ret =? sizeof_user_frame) && negb (ret =? - ENOSPC)
  | _ => false
  end.
Definition read_failed (c : call) : bool :=
  match c with
  | CallRead ret _ => negb (ret =? - EAGAIN) && negb (ret =? sizeof_user_frame)
  | _ => false
  end.
Definition count {A} (p : A -> bool) (l : list A) : nat := length (List.filter p l).

Lemma count_snoc {A} (p : A -> bool) l x : count p (l ++ [x]) = (count p l + if p x then 1 else 0)%nat.
Proof. unfold count. rewrite List.filter_app, length_app. cbn. by destruct (p x). Qed.
Lemma count_le {A} (p : A -> bool) l : (count p l <= length l)%nat.
Proof. unfold count. induction l as [|x l IH]; cbn; [lia|]. destruct (p x); cbn; lia. Qed.
Lemma accepted_snoc log c : accepted (log ++ [c]) = accepted log ++ option_list (accepted_value c).
Proof. unfold accepted. rewrite omap_app. cbn. by destruct (accepted_value c). Qed.
Lemma delivered_snoc log c : delivered (log ++ [c]) = delivered log ++ option_list (delivered_frame c).
Proof. unfold delivered. rewrite omap_app. cbn. by destruct (delivered_frame c). Qed.
Lemma omap_length_le {A C} (f : A -> option C) l : (length (omap f l) <= length l)%nat.
Proof. induction l as [|x l IH]; cbn; [lia|]. destruct (f x); cbn; lia. Qed.

Lemma accepted_read log ret f : accepted (log ++ [CallRead ret f]) = accepted log.
Proof. rewrite accepted_snoc. apply app_nil_r. Qed.
Lemma accepted_poll log ret rev : accepted (log ++ [CallPoll ret rev]) = accepted log.
Proof. rewrite accepted_snoc. apply app_nil_r. Qed.
Lemma delivered_poll log ret rev : delivered (log ++ [CallPoll ret rev]) = delivered log.
Proof. rewrite delivered_snoc. apply app_nil_r. Qed.
Lemma delivered_write log f ret : delivered (log ++ [CallWrite f ret]) = delivered log.
Proof. rewrite delivered_snoc. apply app_nil_r. Qed.
Lemma delivered_frame_ok log f : delivered (log ++ [CallRead sizeof_user_frame f]) = delivered log ++ [f].
Proof. by rewrite delivered_snoc. Qed.
Lemma delivered_failed log f ret :
  ret <> sizeof_user_frame -> delivered (log ++ [CallRead ret f]) = delivered log.
Proof.
  intros H. rewrite delivered_snoc. cbn. rewrite (proj2 (Z.eqb_neq ret _) H). apply app_nil_r.
Qed.
Create Rewrite HintDb calls.
#[export] Hint Rewrite accepted_read accepted_poll delivered_poll delivered_write delivered_frame_ok
  @count_snoc @length_app : calls.

(** * The slots *)
Definition active_values (slots : list request_slot) : list Z := map rs_value (List.filter rs_active slots).

Lemma find_slot_some p slots i :
  find_slot p slots = Some i -> exists slot, slots !! i = Some slot /\ p slot = true.
Proof.
  revert i. induction slots as [|slot slots IH]; intros i; cbn; [done|]. destruct (p slot) eqn:E.
  - intros [= <-]. by exists slot.
  - destruct (find_slot p slots) as [j|]; [|done]. intros [= <-]. by apply IH.
Qed.
Lemma active_deactivate slots i slot :
  slots !! i = Some slot -> rs_active slot = true ->
  active_values slots ≡ₚ rs_value slot :: active_values (alter (fun s => s <| rs_active := false |>) i slots).
Proof.
  revert i. induction slots as [|s slots IH]; intros [|i]; cbn; try done.
  - intros [= <-] Ha. unfold active_values. cbn. by rewrite Ha.
  - intros Hi Ha. specialize (IH i Hi Ha). unfold active_values in *. cbn. destruct (rs_active s); cbn; [|done].
    rewrite IH. apply Permutation_swap.
Qed.
Lemma active_activate slots i slot f :
  slots !! i = Some slot -> rs_active slot = false -> rs_active (f slot) = true ->
  active_values (alter f i slots) ≡ₚ rs_value (f slot) :: active_values slots.
Proof.
  revert i. induction slots as [|s slots IH]; intros [|i]; cbn; try done.
  - intros [= <-] Ha Hf. unfold active_values. cbn. by rewrite Ha, Hf.
  - intros Hi Ha Hf. specialize (IH i Hi Ha Hf). unfold active_values in *. cbn. destruct (rs_active s); cbn; [|done].
    rewrite IH. apply Permutation_swap.
Qed.
Lemma length_active slots : (length (active_values slots) <= length slots)%nat.
Proof. unfold active_values. rewrite length_map. apply (count_le rs_active). Qed.

(** * Partial correctness of the benchmark's statements

    [post Q D r s]: the statement ended normally in [Q], at [goto drain] in
    [D], or in [exit(1)]. *)
Section Accounting.
Context {kernel : Kernel}.
Definition post {A} (Q : A -> bench -> Prop) (D : bench -> Prop) (r : A + jump) (s : bench) : Prop :=
  match r with
  | inl a => Q a s
  | inr JDrain => D s
  | inr (JExit code) => code = 1
  | inr JFuel => True
  end.
Definition leads {A} (D : bench -> Prop) (m : B A) (Q : A -> bench -> Prop) (s : bench) : Prop :=
  forall r s', m s = Some (r, s') -> post Q D r s'.

Lemma leads_bind {A C} D (m : B A) (k : A -> B C) Q s :
  leads D m (fun a => leads D (k a) Q) s -> leads D (a ← m; k a) Q s.
Proof.
  intros H r s' E. unfold mbind, B_bind in E. destruct (m s) as [[[a|j] s1]|] eqn:Em; [| |done].
  - exact (H _ _ Em r s' E).
  - injection E as <- <-. specialize (H _ _ Em). by destruct j.
Qed.
Lemma leads_mono {A} D (m : B A) (Q R : A -> bench -> Prop) s :
  leads D m Q s -> (forall a s', Q a s' -> R a s') -> leads D m R s.
Proof. intros H HQR r s' E. specialize (H r s' E). destruct r as [a|[]]; cbn in *; auto. Qed.
Lemma leads_seq {A C} D (P : bench -> Prop) (m : B A) (k : A -> B C) Q s :
  leads D m (fun _ => P) s -> (forall a s', P s' -> leads D (k a) Q s') -> leads D (a ← m; k a) Q s.
Proof. intros Hm Hk. apply leads_bind. eapply leads_mono; [exact Hm|exact Hk]. Qed.
Lemma leads_ret {A} D (a : A) (Q : A -> bench -> Prop) s : Q a s -> leads D (mret a) Q s.
Proof. by intros H r s' [= <- <-]. Qed.
Lemma leads_var {A} D (f : bench -> A) Q s : Q (f s) s -> leads D (var f) Q s.
Proof. by intros H r s' [= <- <-]. Qed.
Lemma leads_set D (f : bench -> bench) (Q : unit -> bench -> Prop) s : Q tt (f s) -> leads D (set_var f) Q s.
Proof. by intros H r s' [= <- <-]. Qed.
Lemma leads_drain {A} (D : bench -> Prop) (Q : A -> bench -> Prop) s : D s -> leads D (jump_to JDrain) Q s.
Proof. by intros H r s' [= <- <-]. Qed.
Lemma leads_exit {A} D (Q : A -> bench -> Prop) s : leads D (jump_to (JExit 1)) Q s.
Proof. by intros r s' [= <- <-]. Qed.
Lemma leads_fuel {A} D (Q : A -> bench -> Prop) s : leads D (jump_to JFuel) Q s.
Proof. by intros r s' [= <- <-]. Qed.
Lemma leads_undefined {A} D (Q : A -> bench -> Prop) s : leads D undefined Q s.
Proof. done. Qed.
Lemma leads_sys {A} D (call : world -> A * world) (Q : A -> bench -> Prop) s :
  (forall a w, call (os s) = (a, w) -> Q a (s <| os := w |>)) -> leads D (sys call) Q s.
Proof.
  intros H r s' E. unfold sys in E. destruct (call (os s)) as [a w] eqn:Ec. injection E as <- <-. by apply H.
Qed.
End Accounting.
Create HintDb leads.
#[export] Hint Resolve leads_ret leads_var leads_set leads_drain leads_exit leads_fuel leads_undefined : leads.

Section Traced.
Context {kernel : Kernel} (priority window base_value : Z) (window_range : 0 < window <= 4096).
Abbreviation bench := (@Tools.bench (traced kernel)).
Implicit Types (s : bench) (l : list call).

Definition log s : list call := snd (os s : world * list call).
Definition with_os s (w : @world kernel) l : bench := s <| os := ((w, l) : @world (traced kernel)) |>.

(** The benchmark's variables account for the calls recorded in [l]: the values
    sent, which of them were answered ([ans]), the answers that matched none
    ([dups]) and the failed reads and polls ([fails]). *)
Record account s l (ans : list Z) (dups fails : nat) : Prop := {
  ac_slots : length (slots s) = Z.to_nat window;
  ac_next : next_value s = u32 (base_value + Z.of_nat (length (accepted l)));
  ac_values : accepted l = map (fun k => u32 (base_value + Z.of_nat k)) (seq 0 (length (accepted l)));
  ac_requests : accepted l ≡ₚ ans ++ active_values (slots s);
  ac_outstanding : outstanding s = Z.of_nat (length (active_values (slots s)));
  ac_max : outstanding s <= max_inflight s <= window;
  ac_write_ok : write_ok s = u64 (Z.of_nat (length (accepted l)));
  ac_write_failed : exists n m : nat, eagain s = u64 (Z.of_nat n) /\ write_other s = u64 (Z.of_nat m) /\
    (n + m = count write_failed l)%nat;
  ac_pong : pong s = u64 (Z.of_nat (length ans));
  ac_latency : length (latency_ns s) = length ans;
  ac_ack : ack s = u64 (Z.of_nat (count is_ack (delivered l)));
  ac_nack : nack s = u64 (Z.of_nat (count is_nack (delivered l)));
  ac_unknown : unknown s = u64 (Z.of_nat (count is_unknown (delivered l)));
  ac_duplicate : duplicate s = u64 (Z.of_nat dups);
  ac_answers : (dups + length ans = count is_answer (delivered l))%nat;
  ac_matched : dups = O -> ans = map answered_value (List.filter is_answer (delivered l));
  ac_read_error : read_error s = u64 (Z.of_nat fails);
  ac_fails : (count read_failed l <= fails <= length l)%nat;
}.
(** The calls recorded so far are accounted for. *)
Definition accounted s : Prop := exists ans dups fails, account s (log s) ans dups fails.

Lemma inc_count n : inc (u64 (Z.of_nat n)) = u64 (Z.of_nat (n + 1)).
Proof. unfold inc, u64. rewrite Zplus_mod_idemp_l. f_equal. lia. Qed.

(** ** System calls that leave no trace *)
Lemma leads_clock D (Q : Z -> bench -> Prop) s :
  (forall now w, Q now (with_os s w (log s))) -> leads D monotonic_ns Q s.
Proof.
  intros H. unfold monotonic_ns. apply leads_bind, leads_sys. intros ts w E.
  cbn in E. unfold log in H. destruct (os s) as [w0 l0]. destruct (clock_gettime w0) as [ts' w'].
  injection E as <- <-. destruct ts' as [[sec ns]|]; [apply leads_ret, H|apply leads_exit].
Qed.
Lemma leads_append D lat (Q : unit -> bench -> Prop) s :
  (forall w cap, Q tt (with_os s w (log s) <| capacity := cap |> <| latency_ns := latency_ns s ++ [lat] |>)) ->
  leads D (append_latency lat) Q s.
Proof.
  intros H. unfold append_latency. apply leads_bind, leads_var, leads_bind.
  apply leads_mono with (Q := fun _ s' => exists w cap, s' = with_os s w (log s) <| capacity := cap |>).
  - cbn [id]. destruct (_ =? _).
    + apply leads_bind, leads_sys. intros ok w E. cbn in E. unfold log. destruct (os s) as [w0 l0].
      destruct (alloc_ok _ w0) as [ok' w']. injection E as <- <-.
      destruct ok'; [|apply leads_exit]. apply leads_set. by eexists _, _.
    + apply leads_ret. exists (fst (os s : world * list call)), (capacity s). unfold with_os, log.
      destruct s as [o]. cbn. by destruct o.
  - intros [] s' (w & cap & ->). apply leads_bind, leads_var. cbn [id].
    destruct (_ <? _); [|apply leads_undefined]. apply leads_set. apply H.
Qed.

(** ** Reading *)

(** [account] of a later state or record, field by field. *)
Ltac account_tac :=
  repeat match goal with H : account _ _ _ _ _ |- _ => destruct H end;
  split; cbn [os slots latency_ns capacity next_value attempts write_ok enospc eagain write_other ack nack
    pong duplicate unknown read_error outstanding max_inflight set_field with_os];
  autorewrite with calls; cbn [length write_failed read_failed]; rewrite ?Nat.add_0_r; try done; try lia.

Lemma account_poll s l ans dups fails ret rev :
  account s l ans dups fails -> account s (l ++ [CallPoll ret rev]) ans dups fails.
Proof. intros H. account_tac. Qed.
(** A failed read, of the ring or of the poll, once it is counted. *)
Lemma account_fail s l ans dups fails c :
  account s l ans dups fails -> accepted_value c = None -> delivered_frame c = None -> write_failed c = false ->
  account (s <| read_error ::= inc |>) (l ++ [c]) ans dups (fails + 1).
Proof.
  intros H Ha Hd Hw.
  assert (Ea : accepted (l ++ [c]) = accepted l) by (rewrite accepted_snoc, Ha; apply app_nil_r).
  assert (Ed : delivered (l ++ [c]) = delivered l) by (rewrite delivered_snoc, Hd; apply app_nil_r).
  account_tac; rewrite ?Ea, ?Ed, ?Hw, ?Nat.add_0_r; try done.
  - rewrite ac_read_error0. apply inc_count.
  - destruct (read_failed c); lia.
Qed.
(** A read that finds nothing. *)
Lemma account_again s l ans dups fails f :
  account s l ans dups fails -> account s (l ++ [CallRead (- EAGAIN) f]) ans dups fails.
Proof.
  intros H. assert (Ed : delivered (l ++ [CallRead (- EAGAIN) f]) = delivered l) by by apply delivered_failed.
  account_tac; by rewrite ?Ed.
Qed.

(** A frame delivered, by what it is. *)
Lemma frame_cases f :
  (is_ack f = true /\ is_nack f = false /\ is_answer f = false /\ is_unknown f = false) \/
  (is_ack f = false /\ is_nack f = true /\ is_answer f = false /\ is_unknown f = false) \/
  (is_ack f = false /\ is_nack f = false /\ is_answer f = true /\ is_unknown f = false) \/
  (is_ack f = false /\ is_nack f = false /\ is_answer f = false /\ is_unknown f = true).
Proof.
  unfold is_unknown, is_nack, is_answer, is_ack.
  destruct (Z.eqb_spec (uf_type f) MAILMSG_MSG_ACK) as [->|]; [left; done|].
  destruct (Z.eqb_spec (uf_type f) MAILMSG_MSG_NACK) as [->|]; [right; left; done|]. cbn [negb andb].
  destruct (_ && _ && _); tauto.
Qed.
Lemma account_frame s l ans dups fails f d :
  account s l ans dups fails -> is_answer f = false ->
  d = (if is_ack f then s <| ack ::= inc |> else if is_nack f then s <| nack ::= inc |> else s <| unknown ::= inc |>) ->
  account d (l ++ [CallRead sizeof_user_frame f]) ans dups fails.
Proof.
  intros H Hf ->. destruct (frame_cases f) as [(E1 & E2 & E3 & E4)|[(E1 & E2 & E3 & E4)|[(E1 & E2 & E3 & E4)|
    (E1 & E2 & E3 & E4)]]]; rewrite ?E1, ?E2; try congruence; account_tac;
    rewrite ?List.filter_app, ?E1, ?E2, ?E3, ?E4, ?Nat.add_0_r; cbn [List.filter]; rewrite ?E3, ?app_nil_r; try done;
    try (etransitivity; [apply (f_equal inc); eassumption|apply inc_count]).
Qed.

Lemma account_duplicate s l ans dups fails f :
  account s l ans dups fails -> is_answer f = true ->
  account (s <| duplicate ::= inc |>) (l ++ [CallRead sizeof_user_frame f]) ans (dups + 1) fails.
Proof.
  intros H Hf. destruct (frame_cases f) as [(E1 & E2 & E3 & E4)|[(E1 & E2 & E3 & E4)|[(E1 & E2 & E3 & E4)|
    (E1 & E2 & E3 & E4)]]]; try congruence; account_tac; rewrite ?E1, ?E2, ?E3, ?E4, ?Nat.add_0_r; try done; try lia.
  rewrite ac_duplicate0. apply inc_count.
Qed.
Lemma account_answer s l ans dups fails f i slot lat :
  account s l ans dups fails -> is_answer f = true ->
  slots s !! i = Some slot -> rs_active slot = true -> rs_value slot = answered_value f ->
  account (s <| latency_ns := latency_ns s ++ [lat] |>
             <| slots ::= alter (fun slot => slot <| rs_active := false |>) i |>
             <| outstanding ::= fun n => u64 (n - 1) |> <| pong ::= inc |>)
    (l ++ [CallRead sizeof_user_frame f]) (ans ++ [answered_value f]) dups fails.
Proof.
  intros H Hf Hi Ha Hv. pose proof (active_deactivate _ _ _ Hi Ha) as Hp. rewrite Hv in Hp.
  pose proof (Permutation_length Hp) as Hlen. cbn [length] in Hlen.
  pose proof (ac_outstanding _ _ _ _ _ H) as Ho. pose proof (ac_max _ _ _ _ _ H) as Hm.
  assert (Hdec : u64 (outstanding s - 1) = outstanding s - 1) by (apply Z.mod_small; lia).
  destruct (frame_cases f) as [(E1 & E2 & E3 & E4)|[(E1 & E2 & E3 & E4)|[(E1 & E2 & E3 & E4)|
    (E1 & E2 & E3 & E4)]]]; try congruence; account_tac; rewrite ?Hdec, ?E1, ?E2, ?E3, ?E4, ?Nat.add_0_r; try done; try lia.
  - by rewrite length_alter.
  - rewrite ac_requests0, Hp, <-app_assoc. done.
  - rewrite ac_pong0. apply inc_count.
  - intros Hd. rewrite List.filter_app, map_app, <-ac_matched0 by done. cbn [List.filter]. by rewrite E3.
Qed.

(** The calls recorded by a state that differs from [s] in its variables. *)
Ltac same_log s Hl := match goal with |- account ?d (log ?d) _ _ _ => change (log d) with (log s); rewrite Hl end.

Lemma leads_take_frame D s l ans dups fails f :
  account s l ans dups fails -> log s = l ++ [CallRead sizeof_user_frame f] ->
  leads D (take_frame f) (fun _ => accounted) s.
Proof.
  intros H Hl. unfold take_frame.
  assert (Hother : is_answer f = false -> forall d, log d = log s ->
    d = (if is_ack f then s <| ack ::= inc |> else if is_nack f then s <| nack ::= inc |> else s <| unknown ::= inc |>) ->
    accounted d).
  { intros Hf d Hd Ed. exists ans, dups, fails. rewrite Hd, Hl. by eapply account_frame. }
  unfold is_nack, is_answer, is_ack in Hother.
  destruct (uf_type f =? MAILMSG_MSG_ACK) eqn:E1.
  { apply leads_set. eapply Hother; [|done|done]. apply Z.eqb_eq in E1. by rewrite E1. }
  destruct (uf_type f =? MAILMSG_MSG_NACK) eqn:E2; cbn [negb andb] in Hother.
  { apply leads_set. eapply Hother; [|done|done]. apply Z.eqb_eq in E2. by rewrite E2. }
  assert (Elen : (uf_length f <? 4) = negb (4 <=? uf_length f)) by lia.
  rewrite Elen. destruct (uf_type f =? MAILMSG_MSG_PONG) eqn:E3, (4 <=? uf_length f) eqn:E4,
    (load_u32 (uf_payload f) 0 =? 0) eqn:E5; cbn [negb andb orb] in *; cbv zeta; try (apply leads_set; by eapply Hother).
  assert (Hf : is_answer f = true) by (unfold is_answer; by rewrite E3, E4, E5).
  apply leads_bind, leads_var. destruct (find_value _ _) as [i|] eqn:Efind.
  - apply find_slot_some in Efind as (slot & Hi & Hp). apply andb_true_iff in Hp as [Ha Hv]. apply Z.eqb_eq in Hv.
    apply leads_bind, leads_clock. intros now w. apply leads_bind, leads_var. cbn [id slots with_os set_field].
    rewrite Hi. apply leads_bind, leads_append. intros w' cap. apply leads_set.
    exists (ans ++ [answered_value f]), dups, fails.
    same_log s Hl.
    pose proof (account_answer s l ans dups fails f i slot (u64 (now - rs_start_ns slot)) H Hf Hi Ha Hv) as [].
    split; done.
  - apply leads_set. exists ans, (dups + 1)%nat, fails. same_log s Hl.
    by apply account_duplicate.
Qed.

Lemma leads_read_all fd on_error :
  (forall s, accounted s -> leads accounted on_error (fun _ => accounted) s) ->
  forall fuel s, accounted s -> leads accounted (read_all fuel fd on_error) (fun _ => accounted) s.
Proof.
  intros He. induction fuel as [|fuel IH]; intros s (ans & dups & fails & H); [apply leads_fuel|]. cbn [read_all].
  apply leads_bind, leads_sys. intros [ret f] w E. cbn in E. unfold log in H.
  destruct (os s) as [w0 l0] eqn:Eos. cbn [snd] in H. destruct (sys_read fd w0) as [[ret' f'] w']. injection E as <- <- <-.
  destruct (Z.eqb_spec ret' (- EAGAIN)) as [->|Hagain].
  { apply leads_ret. exists ans, dups, fails. pose proof (account_again _ _ _ _ _ f' H) as []. by split. }
  destruct (Z.eqb_spec ret' sizeof_user_frame) as [Hok|Hfail]; cbn [negb].
  - apply leads_seq with (P := accounted); [|intros []; apply IH].
    eapply (leads_take_frame _ _ l0 ans dups fails); [|by rewrite <-Hok]. destruct H. by split.
  - apply leads_bind, leads_set, He. exists ans, dups, (fails + 1)%nat.
    assert (Hc : account (s <| read_error ::= inc |>) (l0 ++ [CallRead ret' f']) ans dups (fails + 1)).
    { apply account_fail; [done|done| |done]. cbn. by rewrite (proj2 (Z.eqb_neq ret' _)). }
    destruct Hc. by split.
Qed.

(** ** Writing *)
Lemma account_write_failed s l ans dups fails f ret s' :
  account s l ans dups fails -> ret <> sizeof_user_frame ->
  s' = (if ret =? - ENOSPC then s <| enospc ::= inc |> else
        if ret =? - EAGAIN then s <| eagain ::= inc |> else s <| write_other ::= inc |>) ->
  account s' (l ++ [CallWrite f ret]) ans dups fails.
Proof.
  intros H Hret ->. assert (Ea : accepted (l ++ [CallWrite f ret]) = accepted l).
  { rewrite accepted_snoc. cbn. rewrite (proj2 (Z.eqb_neq ret _) Hret). apply app_nil_r. }
  destruct (ac_write_failed _ _ _ _ _ H) as (n & m & He & Ho & Hc).
  destruct (Z.eqb_spec ret (- ENOSPC)) as [->|Hn]; [|destruct (Z.eqb_spec ret (- EAGAIN)) as [->|Hg]];
    account_tac; rewrite ?Ea; try done.
  - exists (n + 1)%nat, m. rewrite He. split; [apply inc_count|]. split; [done|].
    match goal with |- context [if ?b then _ else _] => change b with true end. cbv iota. lia.
  - exists n, (m + 1)%nat. rewrite Ho. split; [done|]. split; [apply inc_count|].
    rewrite (proj2 (Z.eqb_neq ret sizeof_user_frame)), (proj2 (Z.eqb_neq ret (- ENOSPC))) by done. cbn [negb andb]. cbv iota. lia.
Qed.
Lemma account_write s l ans dups fails i now :
  account s l ans dups fails -> find_free_slot (slots s) = Some i -> outstanding s < window ->
  account (s <| slots ::= alter (fun slot => slot <| rs_value := next_value s |>) i |>
             <| next_value := u32 (next_value s + 1) |>
             <| slots ::= alter (fun slot => slot <| rs_start_ns := now |> <| rs_active := true |>) i |>
             <| write_ok ::= inc |> <| outstanding ::= inc |>
             <| max_inflight := if max_inflight s <? inc (outstanding s) then inc (outstanding s)
                                else max_inflight s |>)
    (l ++ [CallWrite (ping_frame priority (next_value s)) sizeof_user_frame]) ans dups fails.
Proof.
  intros H Hfree Hlt. apply find_slot_some in Hfree as (slot & Hi & Hp). apply negb_true_iff in Hp.
  assert (Ea : accepted (l ++ [CallWrite (ping_frame priority (next_value s)) sizeof_user_frame]) =
    accepted l ++ [next_value s]).
  { rewrite accepted_snoc. cbn [accepted_value]. rewrite Z.eqb_refl. apply f_equal, (f_equal (fun v => [v])).
    apply store_load_u32; [|lia|cbn; lia]. rewrite (ac_next _ _ _ _ _ H). apply u32_range. }
  pose proof (active_activate (slots s) i slot ((fun slot => slot <| rs_start_ns := now |> <| rs_active := true |>) ∘
    (fun slot => slot <| rs_value := next_value s |>)) Hi Hp eq_refl) as Hact.
  change (rs_value (_ slot)) with (next_value s) in Hact.
  pose proof (ac_outstanding _ _ _ _ _ H) as Ho. pose proof (ac_max _ _ _ _ _ H) as Hm.
  assert (Hinc : inc (outstanding s) = outstanding s + 1) by (unfold inc; apply Z.mod_small; lia).
  pose proof (Permutation_length Hact) as Hlen. cbn [length] in Hlen.
  assert (Hn : next_value s = u32 (base_value + Z.of_nat (length (accepted l)))) by apply H.
  account_tac; rewrite ?Hinc, ?Ea, ?list_alter_alter_eq, ?length_app; cbn [length]; try done; try lia.
  - by rewrite length_alter.
  - rewrite Hn. unfold u32. rewrite Zplus_mod_idemp_l. f_equal. lia.
  - rewrite seq_app, map_app, <-ac_values0. cbn. by rewrite Hn.
  - rewrite Hact, ac_requests0, <-app_assoc. apply Permutation_app_head, Permutation_app_comm.
  - destruct (Z.ltb_spec (max_inflight s) (outstanding s + 1)); lia.
  - rewrite ac_write_ok0. apply inc_count.
Qed.

Lemma leads_fill_window fd fuel s :
  accounted s -> leads accounted (fill_window fuel fd priority window) (fun _ => accounted) s.
Proof.
  revert s. induction fuel as [|fuel IH]; intros s (ans & dups & fails & H); [apply leads_fuel|]. cbn [fill_window].
  apply leads_bind, leads_var. cbn [id].
  destruct (Z.ltb_spec (outstanding s) window) as [Hlt|]; cbn [negb]; [|apply leads_ret; by exists ans, dups, fails].
  destruct (find_free_slot (slots s)) as [i|] eqn:Hfree; [|apply leads_ret; by exists ans, dups, fails].
  apply leads_bind, leads_set, leads_bind, leads_sys. intros ret w E. cbn in E. unfold log in H.
  destruct (os s) as [w0 l0] eqn:Eos. cbn [snd] in H. destruct (sys_write fd _ w0) as [ret' w']. injection E as <- <-.
  destruct (Z.eqb_spec ret' sizeof_user_frame) as [->|Hret].
  - apply leads_bind, leads_set, leads_bind, leads_clock. intros now w. apply leads_bind, leads_set, leads_bind, leads_set, IH.
    exists ans, dups, fails. pose proof (account_write s l0 ans dups fails i now H Hfree Hlt) as Ha.
    destruct Ha. by split.
  - assert (Hs : forall d, log d = l0 ++ [CallWrite (ping_frame priority (next_value s)) ret'] ->
      (account d (l0 ++ [CallWrite (ping_frame priority (next_value s)) ret']) ans dups fails) -> accounted d).
    { intros d Hd Ha. exists ans, dups, fails. by rewrite Hd. }
    assert (Ha := fun s' => account_write_failed s l0 ans dups fails (ping_frame priority (next_value s)) ret' s' H Hret).
    destruct (ret' =? - ENOSPC); [|destruct (ret' =? - EAGAIN)].
    + apply leads_set, Hs; [done|]. destruct (Ha _ eq_refl). by split.
    + apply leads_set, Hs; [done|]. destruct (Ha _ eq_refl). by split.
    + apply leads_bind, leads_set, leads_drain, Hs; [done|]. destruct (Ha _ eq_refl). by split.
Qed.

(** ** The loops *)
Lemma leads_poll D fd timeout (Q : Z * Z -> bench -> Prop) s :
  accounted s ->
  (forall ret revents w, let l := log s ++ [CallPoll ret revents] in
     accounted (with_os s w l) -> accounted (with_os s w l <| read_error ::= inc |>) -> Q (ret, revents) (with_os s w l)) ->
  leads D (sys (sys_poll fd timeout)) Q s.
Proof.
  intros (ans & dups & fails & H) HQ. apply leads_sys. intros [ret revents] w E. cbn in E. unfold log in *.
  destruct (os s) as [w0 l0] eqn:Eos. cbn [snd] in *. destruct (sys_poll fd timeout w0) as [[ret' rev'] w'].
  injection E as <- <- <-. apply HQ.
  - exists ans, dups, fails. destruct (account_poll _ _ _ _ _ ret' rev' H). by split.
  - exists ans, dups, (fails + 1)%nat.
    destruct (account_fail _ _ _ _ _ (CallPoll ret' rev') H eq_refl eq_refl eq_refl). by split.
Qed.
Lemma accounted_clock s w : accounted s -> accounted (with_os s w (log s)).
Proof. intros (ans & dups & fails & []). exists ans, dups, fails. by split. Qed.

Lemma leads_measure fuel fd deadline s :
  accounted s -> leads accounted (measure fuel fd priority window deadline) (fun _ => accounted) s.
Proof.
  revert s. induction fuel as [|fuel IH]; intros s H; [apply leads_fuel|]. cbn [measure].
  apply leads_bind, leads_clock. intros now w. apply (accounted_clock s w) in H. revert H. generalize (with_os s w (log s)).
  clear s. intros s H. destruct (now <? deadline).
  - apply leads_seq with (P := accounted); [by apply leads_fill_window|]. intros [] s1 H1.
    apply leads_bind, leads_poll; [done|]. intros ret revents w1 l H2 Hf.
    destruct (ret <? 0).
    + destruct (ret =? - EINTR); [by apply IH|]. by apply leads_bind, leads_set, leads_drain.
    + destruct (poll_failed revents); [by apply leads_bind, leads_set, leads_drain|].
      destruct (negb (readable revents)); [by apply IH|].
      apply leads_seq with (P := accounted); [|intros []; apply IH].
      apply leads_read_all; [|done]. intros s' H'. by apply leads_drain.
  - apply leads_bind, leads_var. cbn [id]. destruct (outstanding s =? 0); [by apply leads_ret|by apply leads_drain].
Qed.
Lemma leads_drain_responses fuel fd deadline s :
  accounted s -> leads accounted (drain_responses fuel fd deadline) (fun _ => accounted) s.
Proof.
  revert s. induction fuel as [|fuel IH]; intros s H; [apply leads_fuel|]. cbn [drain_responses].
  apply leads_bind, leads_var. cbn [id]. destruct (outstanding s =? 0); [by apply leads_ret|].
  apply leads_bind, leads_clock. intros now w. apply (accounted_clock s w) in H. revert H. generalize (with_os s w (log s)).
  clear s. intros s H. destruct (negb (now <? deadline)); [by apply leads_ret|].
  apply leads_bind, leads_poll; [done|]. intros ret revents w1 l H2 Hf.
  destruct (ret <=? 0); [by apply IH|]. destruct (negb (readable revents)); [by apply leads_ret|].
  apply leads_seq with (P := accounted); [|intros []; apply IH].
  apply leads_read_all; [|done]. intros s' H'. by apply leads_ret.
Qed.
Lemma leads_until_drain D (m : @B (traced kernel) unit) s :
  leads accounted m (fun _ => accounted) s -> leads D (until_drain m) (fun _ => accounted) s.
Proof.
  intros H r s' E. unfold until_drain in E. destruct (m s) as [[[[]|[]] s1]|] eqn:Em; try done;
    injection E as <- <-; exact (H _ _ Em).
Qed.
Lemma leads_run_window fuel fd duration s :
  accounted s -> leads accounted (run_window fuel fd priority window duration) (fun _ => accounted) s.
Proof.
  intros H. unfold run_window. apply leads_bind, leads_clock. intros now w.
  apply leads_seq with (P := accounted).
  - by apply leads_until_drain, leads_measure, accounted_clock.
  - intros [] s1 H1. apply leads_bind, leads_clock. intros now1 w1. by apply leads_drain_responses, accounted_clock.
Qed.

Lemma accounted_start s l :
  s = bench_zero (os s) window base_value -> log s = l -> accepted l = [] -> delivered l = [] ->
  count write_failed l = O -> count read_failed l = O -> accounted s.
Proof.
  intros Hs Hl Ha Hd Hw Hr. exists [], O, O. rewrite Hl, Hs.
  assert (Hact : active_values (replicate (Z.to_nat window) slot_zero) = []).
  { unfold active_values. induction (Z.to_nat window); done. }
  unfold bench_zero. split; cbn [slots latency_ns next_value write_ok eagain write_other ack nack pong duplicate
    unknown read_error outstanding max_inflight]; rewrite ?Ha, ?Hd, ?Hact, ?Hw, ?Hr; try done; try lia.
  - apply length_replicate.
  - rewrite Z.add_0_r. reflexivity.
  - by exists O, O.
Qed.

(** ** The verdict *)
Lemma u64_zero n : Z.of_nat n < 2 ^ 64 -> u64 (Z.of_nat n) = 0 -> n = O.
Proof. unfold u64. lia. Qed.
Lemma u64_nat n : Z.of_nat n < 2 ^ 64 -> u64 (Z.of_nat n) = Z.of_nat n.
Proof. intros. apply Z.mod_small. lia. Qed.
Lemma nonzero_false z : nonzero z = false -> z = 0.
Proof. unfold nonzero. intros ?%negb_false_iff%Z.eqb_eq. done. Qed.

Lemma status_zero s :
  bench_status priority s = 0 ->
  eagain s = 0 /\ write_other s = 0 /\ read_error s = 0 /\ nack s = 0 /\ duplicate s = 0 /\ unknown s = 0 /\
  (mailmsg_priority_is_reliable priority = true -> outstanding s = 0 /\ ack s = write_ok s /\ pong s = write_ok s).
Proof.
  unfold bench_status. intros H. destruct (_ || nonzero (unknown s)) eqn:E; [done|].
  repeat (apply orb_false_iff in E as [E ?%nonzero_false]). apply nonzero_false in E.
  split_and!; try done. intros Hrel. rewrite Hrel in H. cbn [andb] in H.
  destruct (_ || negb (pong s =? write_ok s)) eqn:E2; [done|].
  apply orb_false_iff in E2 as [[?%nonzero_false ?]%orb_false_iff ?]. bool_to_prop. done.
Qed.

(** What a passing status says of the calls. *)
Definition all_answered (l : list call) (missing : list Z) : Prop :=
  accepted l = map (fun k => u32 (base_value + Z.of_nat k)) (seq 0 (length (accepted l))) /\
  accepted l ≡ₚ map answered_value (List.filter is_answer (delivered l)) ++ missing /\
  Forall (fun f => is_ack f = true \/ is_answer f = true) (delivered l) /\
  count write_failed l = O /\ count read_failed l = O /\
  (mailmsg_priority_is_reliable priority = true ->
     missing = [] /\ count is_ack (delivered l) = length (accepted l)).

Lemma count_zero {A} (p : A -> bool) xs : count p xs = O -> Forall (fun x => p x = false) xs.
Proof.
  unfold count. induction xs as [|x xs IH]; cbn; [constructor|]. destruct (p x) eqn:E; [done|]. intros H.
  constructor; auto.
Qed.

Lemma report_fields s r :
  bench_report s = Some r ->
  rp_timeout r = outstanding s /\ rp_lost r = (if pong s <? write_ok s then u64 (write_ok s - pong s) else 0).
Proof.
  unfold bench_report. destruct (_ =? 0); [by intros [= <-]|]. intros H.
  repeat (apply bind_Some in H as (? & _ & H)). by injection H as <-.
Qed.

Lemma passing_account s r :
  accounted s -> Z.of_nat (length (log s)) < 2 ^ 64 -> bench_status priority s = 0 -> bench_report s = Some r ->
  exists missing, all_answered (log s) missing /\ rp_timeout r = Z.of_nat (length missing) /\
    rp_lost r = Z.of_nat (length missing).
Proof.
  intros (ans & dups & fails & H) Hlen Hst Hrep. set (l := log s) in *.
  apply status_zero in Hst as (Eg & Eo & Er & En & Ed & Eu & Hrel).
  pose proof (omap_length_le accepted_value l) as La. fold (accepted l) in La.
  pose proof (omap_length_le delivered_frame l) as Ld. fold (delivered l) in Ld.
  pose proof (count_le is_nack (delivered l)). pose proof (count_le is_unknown (delivered l)).
  pose proof (count_le is_ack (delivered l)). pose proof (count_le is_answer (delivered l)).
  pose proof (count_le write_failed l).
  pose proof (Permutation_length (ac_requests _ _ _ _ _ H)) as Hp. rewrite length_app in Hp.
  destruct H.
  destruct ac_write_failed0 as (n & m & Hn & Hm & Hnm). destruct ac_fails0 as [Hf1 Hf2].
  rewrite Hn in Eg. rewrite Hm in Eo. rewrite ac_read_error0 in Er. rewrite ac_nack0 in En.
  rewrite ac_duplicate0 in Ed. rewrite ac_unknown0 in Eu.
  apply u64_zero in Eg, Eo, Er, En, Ed, Eu; try lia. subst n m fails dups.
  specialize (ac_matched0 eq_refl).
  assert (Hw : write_ok s = Z.of_nat (length (accepted l))) by (rewrite ac_write_ok0; apply u64_nat; lia).
  assert (Hpg : pong s = Z.of_nat (length ans)) by (rewrite ac_pong0; apply u64_nat; lia).
  assert (Ha : ack s = Z.of_nat (count is_ack (delivered l))) by (rewrite ac_ack0; apply u64_nat; lia).
  exists (active_values (slots s)). split; [|split].
  - split; [done|]. rewrite <-ac_matched0. split; [done|]. split.
    + apply count_zero in En, Eu. rewrite Forall_forall in En, Eu |- *. intros f Hf.
      specialize (En f Hf). specialize (Eu f Hf). cbn in En, Eu.
      destruct (frame_cases f) as [E|[E|[E|E]]]; destruct E as (? & ? & ? & ?); try congruence; tauto.
    + split; [lia|]. split; [lia|]. intros (Ho & Hk & _)%Hrel. split; [|lia].
      apply length_zero_iff_nil. lia.
  - by rewrite (proj1 (report_fields s r Hrep)).
  - rewrite (proj2 (report_fields s r Hrep)), Hw, Hpg.
    destruct (Z.ltb_spec (Z.of_nat (length ans)) (Z.of_nat (length (accepted l)))); [|lia].
    unfold u64. rewrite Z.mod_small; lia.
Qed.
End Traced.

(** * The arguments *)
Lemma digit_in_nonneg base c v : digit_in base c = Some v -> 0 <= v.
Proof.
  unfold digit_in. intros H. apply bind_Some in H as (x & Hx & H). destruct (x <? base); [|done].
  injection H as <-. unfold digit_value in Hx.
  repeat match type of Hx with (if ?b then _ else _) = _ => destruct b eqn:? end; bool_to_prop; try done;
    injection Hx as <-; lia.
Qed.
Lemma digits_nonneg base text acc n v rest :
  0 <= base -> 0 <= acc -> digits base acc text = (n, v, rest) -> 0 <= v.
Proof.
  intros Hb. revert acc n v rest. induction text as [|c text IH]; intros acc n v rest Ha; cbn [digits].
  { by intros [= <- <- <-]. }
  destruct (digit_in base c) as [x|] eqn:E; [|by intros [= <- <- <-]].
  destruct (digits base (acc * base + x) text) as [[n' v'] rest'] eqn:E'. intros [= <- <- <-].
  eapply IH, E'. apply digit_in_nonneg in E. nia.
Qed.
Lemma base_of_nonneg text : 0 <= fst (base_of text).
Proof.
  unfold base_of. destruct text as [|c text]; [cbn; lia|].
  repeat match goal with |- context [match ?x with _ => _ end] => destruct x end; cbn; lia.
Qed.
Lemma strtoul_nonneg text : 0 <= fst (fst (strtoul text)).
Proof.
  unfold strtoul.
  lazymatch goal with |- context [let '(_, _) := ?p in let '(_, _) := _ in _] => destruct p as [negative body] end.
  destruct (base_of body) as [base body'] eqn:Eb.
  destruct (digits base 0 body') as [[n v] rest] eqn:Ed.
  assert (0 <= v). { eapply digits_nonneg, Ed; [|lia]. pose proof (base_of_nonneg body) as Hb. by rewrite Eb in Hb. }
  destruct n; cbn [fst]; [lia|]. destruct (ULONG_MAX <? v); [done|]. destruct negative; [|done].
  unfold u64. lia.
Qed.
Lemma parse_ulong_range text maximum v : parse_ulong text maximum = Some v -> 0 <= v <= maximum.
Proof.
  unfold parse_ulong. pose proof (strtoul_nonneg text) as Hn. destruct (strtoul text) as [[x e] r]. cbn in Hn.
  destruct (e || r || (maximum <? x)) eqn:E; [done|]. intros [= <-]. bool_to_prop. lia.
Qed.

(** The measurement behind an exit status of [main] that comes with a report. *)
Lemma bench_main_inv `{K : Kernel} fuel args w code rep w' :
  bench_main fuel args w = Some (Exited code (Some rep), w') ->
  exists a1 a2 a3 a4 priority window duration base_value wa fd wo ret revents wp s,
    args = [a1; a2; a3; a4] /\ parse_ulong a1 (MAILMSG_PRIORITY_COUNT - 1) = Some priority /\
    parse_ulong a2 4096 = Some window /\ parse_ulong a3 3600 = Some duration /\
    parse_ulong a4 (UINT32_MAX - 1000000) = Some base_value /\ window <> 0 /\
    alloc_ok (window * 24) w = (true, wa) /\ sys_open (device_path priority) true wa = (fd, wo) /\
    sys_poll fd 0 wo = (ret, revents, wp) /\
    run_window fuel fd priority window duration (bench_zero wp window base_value) = Some (inl tt, s) /\
    w' = sys_close fd (os s) /\ code = bench_status priority s /\ bench_report s = Some rep.
Proof.
  unfold bench_main. destruct args as [|a1 [|a2 [|a3 [|a4 [|]]]]]; try done.
  destruct (parse_ulong a1 _) as [priority|] eqn:E1; [|done].
  destruct (parse_ulong a2 _) as [window|] eqn:E2; [|done].
  destruct (parse_ulong a3 _) as [duration|] eqn:E3; [|done].
  destruct (parse_ulong a4 _) as [base_value|] eqn:E4; [|done].
  destruct ((window =? 0) || (duration =? 0)) eqn:E5; [done|]. bool_to_prop.
  destruct (alloc_ok _ w) as [ok wa] eqn:Ea. destruct ok; [cbn [negb]|done].
  destruct (sys_open _ true wa) as [fd wo] eqn:Eo. destruct (fd <? 0); [done|].
  destruct (sys_poll fd 0 wo) as [[ret revents] wp] eqn:Ep. destruct ((ret <? 0) || poll_failed revents); [done|].
  intros Hrun. apply bind_Some in Hrun as ([r s] & R & Hrun). destruct r as [[]|[]]; try done.
  apply bind_Some in Hrun as (rep' & Hr & Hrun). injection Hrun as <- <- <-.
  by exists a1, a2, a3, a4, priority, window, duration, base_value, wa, fd, wo, ret, revents, wp, s.
Qed.

(** C39. A passing benchmark is one whose calls add up.  Whatever the kernel
    answers: when [main] exits with status 0, the kernel took exactly the
    consecutive values from the base value on, every frame it delivered is an
    ACK or a PONG naming one of them, each request is named at most once, those
    without an answer are the timeouts reported, which are the requests
    reported lost, no write failed except on a full ring and no read failed;
    and on a reliable priority nothing is missing and there are as many ACKs as
    requests. *)
Theorem bench_pass_is_sound (K : Kernel) fuel a1 a2 a3 a4 w rep w' l :
  @bench_main (traced K) fuel [a1; a2; a3; a4] ((w, []) : @world (traced K)) =
    Some (Exited 0 (Some rep), ((w', l) : @world (traced K))) ->
  Z.of_nat (length l) < 2 ^ 64 ->
  exists priority base_value missing,
    parse_ulong a1 (MAILMSG_PRIORITY_COUNT - 1) = Some priority /\
    parse_ulong a4 (UINT32_MAX - 1000000) = Some base_value /\
    all_answered priority base_value l missing /\
    rp_timeout rep = Z.of_nat (length missing) /\ rp_lost rep = Z.of_nat (length missing).
Proof.
  intros H Hlen. apply bench_main_inv in H as (b1 & b2 & b3 & b4 & priority & window & duration & base_value & wa & fd &
    wo & ret & revents & wp & s & Hargs & E1 & E2 & E3 & E4 & Hw & Ea & Eo & Ep & R & Hw' & Hst & Hrep).
  injection Hargs as <- <- <- <-. apply parse_ulong_range in E2 as Hr.
  assert (Hwin : 0 < window <= 4096) by lia.
  exists priority, base_value.
  cbn in Ea. destruct (alloc_ok (window * 24) w) as [ok' wa'] in Ea. injection Ea as -> <-.
  cbn in Eo. destruct (sys_open _ _ _) as [fd' wo'] in Eo. injection Eo as -> <-.
  cbn in Ep. destruct (sys_poll fd 0 wo') as [[ret' rev'] wp'] in Ep. injection Ep as -> -> <-.
  pose proof (leads_run_window priority window base_value Hwin fuel fd duration _
    (accounted_start window base_value Hwin (@bench_zero (traced K) (wp', [CallPoll ret revents]) window base_value)
       [CallPoll ret revents] eq_refl eq_refl eq_refl eq_refl eq_refl eq_refl) _ _ R) as Hs. cbn [post] in Hs.
  assert (Hl : log s = l).
  { unfold log. destruct (os s) as [ws ls]. cbn in Hw'. by injection Hw' as _ ->. }
  destruct (passing_account priority window base_value Hwin s rep Hs) as (missing & Hall & Ht & Hlo);
    [by rewrite Hl|done|done|].
  exists missing. rewrite <-Hl. done.
Qed.

Definition answer_frame (type value : Z) : mailmsg_user_frame :=
  user_frame_zero <| uf_type := type |> <| uf_length := 4 |>
    <| uf_payload := store_u32 (uf_payload user_frame_zero) 0 value |>.
(** The answer to the last 32-bit value names no request: a run that passes it
    cannot pass. *)
Example wrapped_answer_is_unknown : is_unknown (answer_frame MAILMSG_MSG_PONG (u32 (UINT32_MAX + 1))) = true.
Proof. reflexivity. Qed.

(** * The smoke test *)
Section Client.
Context {kernel : Kernel}.
(** Status 0 comes with one line for every answer waited for. *)
Lemma client_replies_complete n fd w lines w' :
  client_replies n fd w = (0, lines, w') -> length lines = n.
Proof.
  revert w lines w'. induction n as [|n IH]; intros w lines w'; cbn [client_replies]; [by intros [= <- <-]|].
  destruct (sys_poll fd 1000 w) as [[ret revents] w1]. destruct (ret <=? 0); [done|].
  destruct (negb (readable revents)); [done|]. destruct (sys_read fd w1) as [[ret2 frame] w2].
  destruct (negb (ret2 =? sizeof_user_frame)); [done|].
  destruct (client_replies n fd w2) as [[code lines'] w3] eqn:E. intros [= -> <- <-]. cbn. by erewrite IH.
Qed.
Lemma client_run_complete priority value no_read w lines w' :
  client_run priority value no_read w = (0, lines, w') ->
  length lines = (if no_read then 0 else if mailmsg_priority_is_reliable priority then 2 else 1)%nat.
Proof.
  unfold client_run. destruct (sys_open _ false w) as [fd w1]. destruct (fd <? 0); [done|].
  destruct (sys_write fd _ w1) as [ret w2]. destruct (negb (ret =? sizeof_user_frame)); [done|].
  destruct (client_replies _ fd w2) as [[code ls] w3] eqn:E. intros [= -> <- <-].
  apply client_replies_complete in E. rewrite E. by destruct no_read, (mailmsg_priority_is_reliable priority).
Qed.
End Client.
