(* ===== verification/ToolsTermination.v ===== *)
(** The window benchmark terminates on a kernel whose clock moves on in the end
    and whose devices deliver only answers to what was written. *)
From stdpp Require Import sorting.
From S2P Require Import Prelude Protocol DriverState DriverUser Tools ToolsSpec.

(** * What termination relies on

    [good] holds of the states the kernel can be in, and every call keeps it.
    [time] is CLOCK_MONOTONIC in nanoseconds: it never goes back and stays in 64
    bits, but successive readings may be identical.  That time passes at all is
    [pace]: how often the clock can still be read before it shows another value;
    the processor is not infinitely fast, so this is bounded.  [inbox] bounds the
    frames that can still be read unless something is written.  No allocation is
    larger than [max_alloc], which PTRDIFF_MAX bounds. *)
Class KernelLaws (kernel : Kernel) := {
  good : world -> Prop;
  time : world -> Z;
  pace : world -> nat;
  pace_bound : nat;
  inbox : world -> nat;
  inbox_bound : nat;
  max_alloc : Z;
  (** from one state to a later one *)
  passes (w w' : world) : Prop := time w <= time w' /\ (time w' = time w -> (pace w' <= pace w)%nat);
  kl_pace w : (pace w <= pace_bound)%nat;
  kl_inbox w : (inbox w <= inbox_bound)%nat;
  kl_max_alloc : 0 <= max_alloc < 2 ^ 63;
  kl_clock w r w' : good w -> clock_gettime w = (r, w') ->
    good w' /\ (inbox w' <= inbox w)%nat /\
    forall sec ns, r = Some (sec, ns) -> sec * 1000000000 + ns = time w' /\ 0 <= time w <= time w' /\ time w' < 2 ^ 63 /\
      (time w' = time w -> (pace w' < pace w)%nat);
  kl_alloc n w ok w' : good w -> alloc_ok n w = (ok, w') ->
    good w' /\ passes w w' /\ (inbox w' <= inbox w)%nat /\ (ok = true -> n <= max_alloc);
  kl_open path nonblock w fd w' : good w -> sys_open path nonblock w = (fd, w') -> good w';
  kl_poll fd timeout w r w' : good w -> sys_poll fd timeout w = (r, w') -> good w' /\ passes w w';
  kl_write fd f w r w' : good w -> sys_write fd f w = (r, w') -> good w' /\ passes w w';
  kl_read fd w ret f w' : good w -> sys_read fd w = (ret, f, w') ->
    good w' /\ passes w w' /\ (ret = sizeof_user_frame -> (inbox w' < inbox w)%nat);
  kl_close fd w : good w -> good (sys_close fd w);
}.

Section Termination.
Context {kernel : Kernel} {laws : KernelLaws kernel}.
Implicit Types (s : bench) (w : world).

#[local] Instance passes_preorder : PreOrder passes.
Proof. split; [intros w; split; lia|]. intros a b c [H1 H2] [H3 H4]. split; [lia|]. intros E. lia. Qed.
(** A reading of the clock. *)
Definition ticks w w' : Prop := time w <= time w' /\ (time w' = time w -> (pace w' < pace w)%nat).
Lemma ticks_passes w w' : ticks w w' -> passes w w'.
Proof. intros [H1 H2]. split; [done|]. intros E. specialize (H2 E). lia. Qed.

(** How many readings are left before the clock is past [deadline]. *)
Definition left (deadline : Z) w : Z := Z.max 0 ((deadline - time w) * (Z.of_nat pace_bound + 1) + Z.of_nat (pace w)).
Lemma left_passes deadline w w' : passes w w' -> left deadline w' <= left deadline w.
Proof.
  intros [Ht Hp]. unfold left. pose proof (kl_pace w'). destruct (decide (time w' = time w)) as [E|E]; [rewrite E; specialize (Hp E); lia|nia].
Qed.
Lemma left_ticks deadline w w' : ticks w w' -> time w' < deadline -> left deadline w' < left deadline w.
Proof.
  intros [Ht Hp] Hd. unfold left. pose proof (kl_pace w'). destruct (decide (time w' = time w)) as [E|E]; [rewrite E in *; specialize (Hp eq_refl); nia|nia].
Qed.

(** [m] is defined and does not run out of fuel; an exit leaves a good state. *)
Definition completes {A} (D : bench -> Prop) (m : B A) (Q : A -> bench -> Prop) s : Prop :=
  exists r s', m s = Some (r, s') /\
    match r with inl a => Q a s' | inr JDrain => D s' | inr (JExit _) => good (os s') | inr JFuel => False end.

Lemma completes_bind {A C} D (m : B A) (k : A -> B C) Q s :
  completes D m (fun a => completes D (k a) Q) s -> completes D (a ← m; k a) Q s.
Proof.
  intros (r & s1 & E & H). unfold completes, mbind, B_bind. rewrite E. destruct r as [a|j]; [exact H|].
  exists (inr j), s1. by destruct j.
Qed.
Lemma completes_mono {A} (D D' : bench -> Prop) (m : B A) (Q R : A -> bench -> Prop) s :
  completes D m Q s -> (forall a s', Q a s' -> R a s') -> (forall s', D s' -> D' s') -> completes D' m R s.
Proof.
  intros (r & s1 & E & H) HQR HD. exists r, s1. split; [done|]. destruct r as [a|[]]; auto.
Qed.
Lemma completes_ret {A} D (a : A) (Q : A -> bench -> Prop) s : Q a s -> completes D (mret a) Q s.
Proof. intros H. by exists (inl a), s. Qed.
Lemma completes_var {A} D (f : bench -> A) Q s : Q (f s) s -> completes D (var f) Q s.
Proof. intros H. by exists (inl (f s)), s. Qed.
Lemma completes_set D (f : bench -> bench) (Q : unit -> bench -> Prop) s : Q tt (f s) -> completes D (set_var f) Q s.
Proof. intros H. by exists (inl tt), (f s). Qed.
Lemma completes_drain {A} (D : bench -> Prop) (Q : A -> bench -> Prop) s : D s -> completes D (jump_to JDrain) Q s.
Proof. intros H. by exists (inr JDrain), s. Qed.
Lemma completes_exit {A} D (Q : A -> bench -> Prop) s code : good (os s) -> completes D (jump_to (JExit code)) Q s.
Proof. intros H. by exists (inr (JExit code)), s. Qed.
Lemma completes_sys {A} D (call : world -> A * world) (Q : A -> bench -> Prop) s :
  (forall a w, call (os s) = (a, w) -> Q a (s <| os := w |>)) -> completes D (sys call) Q s.
Proof.
  intros H. destruct (call (os s)) as [a w] eqn:E. exists (inl a), (s <| os := w |>).
  unfold sys. rewrite E. by auto.
Qed.

(** ** What every statement keeps *)
Record sane s : Prop := {
  sn_capacity : Z.of_nat (length (latency_ns s)) <= capacity s /\ capacity s * 8 <= max_alloc;
  sn_outstanding : 0 <= outstanding s < 2 ^ 64;
  sn_good : good (os s);
}.
(** Later, with nothing new to read; later. *)
Definition quieter s s' : Prop := sane s' /\ passes (os s) (os s') /\ (inbox (os s') <= inbox (os s))%nat.
Definition later s s' : Prop := sane s' /\ passes (os s) (os s').

Lemma quieter_trans a b c : quieter a b -> quieter b c -> quieter a c.
Proof. intros (_ & ? & ?) (? & ? & ?). split; [done|]. split; [by etransitivity|lia]. Qed.
Lemma later_trans a b c : later a b -> later b c -> later a c.
Proof. intros (_ & ?) (? & ?). split; [done|by etransitivity]. Qed.
Lemma quieter_later a b : quieter a b -> later a b.
Proof. intros (? & ? & _). by split. Qed.

Lemma completes_clock D s (Q : Z -> bench -> Prop) :
  good (os s) ->
  (forall w, good w -> ticks (os s) w -> 0 <= time w < 2 ^ 63 -> (inbox w <= inbox (os s))%nat ->
     Q (u64 (time w)) (s <| os := w |>)) -> completes D monotonic_ns Q s.
Proof.
  intros Hg H. unfold monotonic_ns. apply completes_bind, completes_sys. intros r w E.
  apply kl_clock in E as (Hg' & Hi & Hr); [|done]. destruct r as [[sec ns]|]; [|by apply completes_exit].
  destruct (Hr _ _ eq_refl) as (Et & Hlt & Hmax & Hp). apply completes_ret. rewrite Et. apply H; [done|split; [lia|done]|lia|done].
Qed.
Lemma completes_append D lat s :
  sane s -> completes D (append_latency lat) (fun _ s' => quieter s s' /\ slots s' = slots s) s.
Proof.
  intros [[Hc Hm] Ho Hg]. unfold append_latency. apply completes_bind, completes_var, completes_bind. cbn [id].
  pose proof kl_max_alloc as Hmax.
  apply completes_mono with (D := D) (Q := fun _ s' => quieter s s' /\ slots s' = slots s /\
    latency_ns s' = latency_ns s /\ Z.of_nat (length (latency_ns s)) < capacity s'); [| |done].
  - destruct (Z.eqb_spec (Z.of_nat (length (latency_ns s))) (capacity s)) as [He|He].
    + apply completes_bind, completes_sys. intros ok w E. apply kl_alloc in E as (Hg' & Ht & Hi & Hn); [|done].
      destruct ok; [|by apply completes_exit]. cbn [negb]. apply completes_set. specialize (Hn eq_refl).
      set (cap := if negb (capacity s =? 0) then u64 (capacity s * 2) else 4096) in *.
      assert (Hcap : Z.of_nat (length (latency_ns s)) < cap /\ cap * 8 <= max_alloc).
      { assert (Hsmall : Z.of_nat (length (latency_ns s)) < cap /\ cap * 8 < 2 ^ 64).
        { subst cap. destruct (Z.eqb_spec (capacity s) 0) as [Hz|Hz]; cbn [negb] in *; [lia|].
          assert (E2 : u64 (capacity s * 2) = capacity s * 2) by (apply Z.mod_small; lia). rewrite E2. lia. }
        split; [apply Hsmall|]. unfold u64 in Hn at 1. rewrite Z.mod_small in Hn; lia. }
      split; [|split; [done|split; [done|cbn; lia]]]. split; [split; cbn; [lia|lia|done]|]. by split.
    + apply completes_ret. split; [|split; [done|split; [done|lia]]]. split; [by split|]. by split.
  - intros [] s1 ((Hs & Ht & Hi) & Hsl & Hlat & Hlt). apply completes_bind, completes_var. cbn [id].
    rewrite Hlat, (proj2 (Z.ltb_lt _ _) Hlt). apply completes_set. destruct Hs as [[Hc1 Hm1] Ho1 Hg1].
    split; [|done]. split; [|done]. split; cbn; rewrite ?length_app, ?Hlat; cbn; done || lia.
Qed.
Lemma completes_take_frame D f s : sane s -> completes D (take_frame f) (fun _ => quieter s) s.
Proof.
  intros Hs. unfold take_frame.
  assert (Hset : forall g : bench -> bench, os (g s) = os s -> sane (g s) -> completes D (set_var g) (fun _ => quieter s) s).
  { intros g Hg Hsg. apply completes_set. split; [done|]. by rewrite Hg. }
  destruct (uf_type f =? MAILMSG_MSG_ACK); [apply Hset; [done|destruct Hs; by split]|].
  destruct (uf_type f =? MAILMSG_MSG_NACK); [apply Hset; [done|destruct Hs; by split]|].
  destruct (_ || _); [apply Hset; [done|destruct Hs; by split]|]. cbv zeta.
  destruct (_ =? 0); [apply Hset; [done|destruct Hs; by split]|].
  apply completes_bind, completes_var. destruct (find_value _ _) as [i|] eqn:Ef.
  2: { apply Hset; [done|destruct Hs; by split]. }
  apply find_slot_some in Ef as (slot & Hi & _).
  apply completes_bind, completes_clock; [apply Hs|]. intros w Hg Ht Hmax Hb.
  apply completes_bind, completes_var. cbn [id slots set_field].
  rewrite Hi. apply completes_bind.
  eapply completes_mono; [apply completes_append; destruct Hs; by split| |by intros ? H].
  intros [] s1 ((Hs1 & Ht1 & Hi1) & _). cbn [os set_field] in *. apply completes_set. destruct Hs1.
  split; [split; cbn; [done|unfold u64; lia|done]|]. cbn. split; [|lia].
  etransitivity; [by apply ticks_passes|done].
Qed.

(** ** The loops *)
Definition since w0 s : Prop := sane s /\ passes w0 (os s).
Lemma since_later w0 s s' : since w0 s -> later s s' -> since w0 s'.
Proof. intros [_ ?] [? ?]. split; [done|by etransitivity]. Qed.
Lemma since_os w0 s w : since w0 s -> good w -> passes (os s) w -> since w0 (s <| os := w |>).
Proof. intros [[] ?] ? ?. split; [by split|cbn; by etransitivity]. Qed.
Lemma since_tick w0 s w : since w0 s -> good w -> ticks (os s) w -> since w0 (s <| os := w |>).
Proof. intros. apply since_os; [done..|by apply ticks_passes]. Qed.
Lemma since_here w0 s w : since w0 s -> good w -> since w (s <| os := w |>).
Proof. intros [[] _] ?. by split. Qed.
(** A statement that leaves the system alone. *)
Lemma since_set w0 s (g : bench -> bench) : since w0 s -> os (g s) = os s -> sane (g s) -> since w0 (g s).
Proof. intros [_ Hp] Hg Hs. split; [done|by rewrite Hg]. Qed.

Lemma completes_read_all w0 D fd on_error fuel s :
  (forall s, since w0 s -> completes D on_error (fun _ => since w0) s) ->
  since w0 s -> (inbox (os s) < fuel)%nat ->
  completes D (read_all fuel fd on_error) (fun _ => since w0) s.
Proof.
  intros He. revert s. induction fuel as [|fuel IH]; intros s Hs Hf; [lia|]. cbn [read_all].
  apply completes_bind, completes_sys. intros [ret f] w E. apply kl_read in E as (Hg & Ht & Hi); [|apply Hs].
  pose proof (since_os w0 s w Hs Hg Ht) as Hs1. destruct (ret =? - EAGAIN); [by apply completes_ret|].
  destruct (Z.eqb_spec ret sizeof_user_frame) as [Hr|Hr]; cbn [negb].
  - apply completes_bind. eapply completes_mono; [apply completes_take_frame with (D := fun _ => False), Hs1| |done].
    intros [] s2 Hq. apply IH.
    + eapply since_later; [exact Hs1|by apply quieter_later].
    + destruct Hq as (_ & _ & Hq). cbn [os set_field] in Hq. specialize (Hi Hr). lia.
  - apply completes_bind, completes_set, He. apply since_set; [done..|]. destruct Hs1 as [[] ?]. by split.
Qed.

Lemma completes_fill_window w0 fd priority window fuel s :
  window <= 4096 -> since w0 s -> window - outstanding s < Z.of_nat fuel -> (0 < fuel)%nat ->
  completes (since w0) (fill_window fuel fd priority window) (fun _ => since w0) s.
Proof.
  intros Hw. revert s. induction fuel as [|fuel IH]; intros s Hs Hf Hpos; [lia|]. cbn [fill_window].
  apply completes_bind, completes_var. cbn [id].
  destruct (Z.ltb_spec (outstanding s) window) as [Hlt|]; cbn [negb]; [|by apply completes_ret].
  destruct (find_free_slot (slots s)) as [i|] eqn:Hfree; [|by apply completes_ret].
  apply completes_bind, completes_set, completes_bind, completes_sys. intros ret w E.
  apply kl_write in E as [Hw1 E]; [|apply Hs]. cbn [os set_field] in E. pose proof (since_os w0 s w Hs Hw1 E) as Hs1.
  assert (Hinc : inc (outstanding s) = outstanding s + 1).
  { destruct Hs as [[_ ? _] _]. unfold inc. apply Z.mod_small. lia. }
  destruct (ret =? sizeof_user_frame).
  - apply completes_bind, completes_set, completes_bind, completes_clock; [exact Hw1|].
    intros w2 Hg2 Ht2 _ _. cbn [os set_field] in Ht2. pose proof (since_tick w0 _ w2 Hs1 Hg2 Ht2) as [_ Hp2].
    apply completes_bind, completes_set, completes_bind, completes_set.
    apply IH; [|cbn [outstanding set_field]; rewrite Hinc; lia|lia].
    destruct Hs as [[Hc Ho _] _]. split; [split; cbn; [done|rewrite Hinc; lia|done]|exact Hp2].
  - assert (Hset : forall g : bench -> bench, os (g (s <| attempts ::= inc |> <| os := w |>)) = w ->
      sane (g (s <| attempts ::= inc |> <| os := w |>)) -> since w0 (g (s <| attempts ::= inc |> <| os := w |>))).
    { intros g Hg Hsg. split; [done|]. rewrite Hg. apply Hs1. }
    destruct (ret =? - ENOSPC); [|destruct (ret =? - EAGAIN)].
    + apply completes_set, Hset; [done|]. destruct Hs1 as [[] _]. by split.
    + apply completes_set, Hset; [done|]. destruct Hs1 as [[] _]. by split.
    + apply completes_bind, completes_set, completes_drain, Hset; [done|]. destruct Hs1 as [[] _]. by split.
Qed.

(** The fuel one turn of the loops needs. *)
Definition turn_fuel : Z := 4096 + Z.of_nat inbox_bound + 3.

Lemma completes_measure w0 fd priority window deadline fuel s :
  window <= 4096 -> since w0 s -> left deadline (os s) + turn_fuel <= Z.of_nat fuel ->
  completes (since w0) (measure fuel fd priority window deadline) (fun _ => since w0) s.
Proof.
  intros Hw. revert s. induction fuel as [|fuel IH]; intros s Hs Hf; [unfold turn_fuel, left in Hf; lia|].
  cbn [measure]. apply completes_bind, completes_clock; [apply Hs|]. intros w Hg Ht Hmax _.
  set (s1 := s <| os := w |>). pose proof (since_here w0 s w Hs Hg) as Hs1.
  assert (Hup : forall s', since w s' -> since w0 s').
  { intros s' [? ?]. split; [done|]. etransitivity; [apply (since_tick w0 s w Hs Hg Ht)|done]. }
  assert (Hnow : u64 (time w) = time w) by (apply Z.mod_small; lia). rewrite Hnow.
  destruct (Z.ltb_spec (time w) deadline) as [Hlt|Hge].
  2: { apply completes_bind, completes_var. cbn [id].
    destruct (outstanding s1 =? 0); [by apply completes_ret, Hup|by apply completes_drain, Hup]. }
  pose proof (left_ticks deadline _ _ Ht Hlt) as Hleft.
  assert (Hnext : forall s', since w s' ->
    completes (since w0) (measure fuel fd priority window deadline) (fun _ => since w0) s').
  { intros s' Hs'. apply IH; [by apply Hup|]. pose proof (left_passes deadline _ _ (proj2 Hs')). lia. }
  apply completes_bind. eapply completes_mono; [apply (completes_fill_window w); try done| |exact Hup].
  1: { unfold s1. cbn [outstanding set_field]. destruct Hs as [[_ ? _] _]. unfold turn_fuel, left in Hf. lia. }
  1: lia.
  intros [] s2 Hs2. apply completes_bind, completes_sys. intros [ret revents] w2 E.
  apply kl_poll in E as [Hg2 E]; [|apply Hs2]. pose proof (since_os _ _ w2 Hs2 Hg2 E) as Hs3.
  assert (Herr : completes (since w0) (set_var (fun s => s <| read_error ::= inc |>) ;; jump_to JDrain)
    (fun _ : unit => since w0) (s2 <| os := w2 |>)).
  { apply completes_bind, completes_set, completes_drain, Hup. apply since_set; [done..|]. destruct Hs3 as [[] ?]. by split. }
  destruct (ret <? 0); [destruct (ret =? - EINTR); [by apply Hnext|exact Herr]|].
  destruct (poll_failed revents); [exact Herr|]. destruct (negb (readable revents)); [by apply Hnext|].
  apply completes_bind. eapply completes_mono; [apply (completes_read_all w (since w))| |exact Hup].
  - intros s' Hs'. by apply completes_drain.
  - exact Hs3.
  - pose proof (kl_inbox w2). unfold turn_fuel, left in Hf. cbn [os set_field]. lia.
  - intros []. exact Hnext.
Qed.

Lemma completes_drain_responses w0 fd deadline fuel s :
  since w0 s -> left deadline (os s) + turn_fuel <= Z.of_nat fuel ->
  completes (fun _ => False) (drain_responses fuel fd deadline) (fun _ => since w0) s.
Proof.
  revert s. induction fuel as [|fuel IH]; intros s Hs Hf; [unfold turn_fuel, left in Hf; lia|]. cbn [drain_responses].
  apply completes_bind, completes_var. cbn [id]. destruct (outstanding s =? 0); [by apply completes_ret|].
  apply completes_bind, completes_clock; [apply Hs|]. intros w Hg Ht Hmax _.
  set (s1 := s <| os := w |>). pose proof (since_here w0 s w Hs Hg) as Hs1.
  assert (Hup : forall s', since w s' -> since w0 s').
  { intros s' [? ?]. split; [done|]. etransitivity; [apply (since_tick w0 s w Hs Hg Ht)|done]. }
  assert (Hnow : u64 (time w) = time w) by (apply Z.mod_small; lia). rewrite Hnow.
  destruct (Z.ltb_spec (time w) deadline) as [Hlt|Hge]; cbn [negb]; [|by apply completes_ret, Hup].
  pose proof (left_ticks deadline _ _ Ht Hlt) as Hleft.
  assert (Hnext : forall s', since w s' ->
    completes (fun _ => False) (drain_responses fuel fd deadline) (fun _ => since w0) s').
  { intros s' Hs'. apply IH; [by apply Hup|]. pose proof (left_passes deadline _ _ (proj2 Hs')). lia. }
  apply completes_bind, completes_sys. intros [ret revents] w2 E.
  apply kl_poll in E as [Hg2 E]; [|apply Hs1]. pose proof (since_os _ _ w2 Hs1 Hg2 E) as Hs3.
  destruct (ret <=? 0); [by apply Hnext|]. destruct (negb (readable revents)); [by apply completes_ret, Hup|].
  apply completes_bind. eapply completes_mono;
    [apply (completes_read_all w (fun _ => False))| |by intros ? H].
  - intros s' Hs'. by apply completes_ret.
  - exact Hs3.
  - pose proof (kl_inbox w2). unfold turn_fuel, left in Hf. cbn [os set_field]. lia.
  - intros []. exact Hnext.
Qed.

(** Enough for any run: an hour, at the pace of the clock. *)
Definition bench_fuel : Z := (3600 * 1000000000 + 1) * (Z.of_nat pace_bound + 1) + turn_fuel.
Lemma left_bound w n : 0 <= n -> left (time w + n) w <= (n + 1) * (Z.of_nat pace_bound + 1).
Proof. intros Hn. unfold left. pose proof (kl_pace w). nia. Qed.

Lemma completes_run_window w0 fd priority window duration fuel s :
  window <= 4096 -> 0 <= duration <= 3600 -> since w0 s -> bench_fuel <= Z.of_nat fuel ->
  completes (fun _ => False) (run_window fuel fd priority window duration) (fun _ => since w0) s.
Proof.
  intros Hw Hd Hs Hf. unfold run_window. apply completes_bind, completes_clock; [apply Hs|].
  intros w Hg Ht Hmax _. pose proof (since_tick w0 s w Hs Hg Ht) as Hup.
  assert (E1 : u64 (u64 (time w) + u64 (duration * 1000000000)) = time w + duration * 1000000000).
  { unfold u64. rewrite !Z.mod_small; rewrite ?Z.mod_small; lia. }
  assert (Hfuel : forall w n, 0 <= n <= 3600 * 1000000000 -> left (time w + n) w + turn_fuel <= Z.of_nat fuel).
  { intros w1 n Hn. pose proof (left_bound w1 n ltac:(lia)). unfold bench_fuel in Hf. nia. }
  rewrite E1. apply completes_bind.
  destruct (completes_measure w0 fd priority window (time w + duration * 1000000000) fuel _ Hw Hup) as (r & s1 & R & H1).
  { apply Hfuel. lia. }
  assert (Hrest : forall s2, since w0 s2 -> completes (fun _ => False)
    (now ← monotonic_ns; drain_responses fuel fd (u64 (now + 5000000000))) (fun _ => since w0) s2).
  { intros s2 Hs2. apply completes_bind, completes_clock; [apply Hs2|]. intros w2 Hg2 Ht2 Hmax2 _.
    assert (E2 : u64 (u64 (time w2) + 5000000000) = time w2 + 5000000000).
    { unfold u64. rewrite !Z.mod_small; rewrite ?Z.mod_small; lia. }
    rewrite E2. apply completes_drain_responses; [by apply since_tick|]. apply Hfuel. lia. }
  unfold until_drain, completes. rewrite R. destruct r as [[]|[]]; try done.
  - exists (inl tt), s1. split; [done|]. by apply Hrest.
  - by exists (inr (JExit code)), s1.
  - exists (inl tt), s1. split; [done|]. by apply Hrest.
Qed.

(** ** The report *)
Lemma length_sort_u64 xs : length (sort_u64 xs) = length xs.
Proof. unfold sort_u64. apply Permutation_length, merge_sort_Permutation. Qed.
(** The nearest rank of a percentile is an index of the samples. *)
Lemma percentile_index_range n p : 0 < n <= 2 ^ 31 -> 0 < p <= 100 -> 0 <= percentile_index n p < n.
Proof.
  intros Hn Hp. unfold percentile_index. rewrite (proj2 (Z.eqb_neq n 0)) by lia.
  assert (Hsmall : u64 (n * p + 99) = n * p + 99) by (apply Z.mod_small; nia). rewrite Hsmall.
  assert (Hr : 1 <= (n * p + 99) / 100 <= n) by nia.
  rewrite (proj2 (Z.eqb_neq _ 0)) by lia. unfold s32, u32. rewrite Z.mod_small by lia.
  rewrite (proj2 (Z.ltb_lt _ _)) by lia. lia.
Qed.
Lemma report_defined s : Z.of_nat (length (latency_ns s)) <= 2 ^ 31 -> exists r, bench_report s = Some r.
Proof.
  intros Hc. unfold bench_report. rewrite length_sort_u64.
  destruct (Z.eqb_spec (Z.of_nat (length (latency_ns s))) 0) as [|Hz]; [by eexists|].
  assert (Hget : forall i, 0 <= i < Z.of_nat (length (latency_ns s)) -> exists v, zget (sort_u64 (latency_ns s)) i = Some v).
  { intros i Hi. apply zget_is_Some. by rewrite length_sort_u64. }
  pose proof (percentile_index_range (Z.of_nat (length (latency_ns s))) 50 ltac:(lia) ltac:(lia)) as H50.
  pose proof (percentile_index_range (Z.of_nat (length (latency_ns s))) 95 ltac:(lia) ltac:(lia)) as H95.
  pose proof (percentile_index_range (Z.of_nat (length (latency_ns s))) 99 ltac:(lia) ltac:(lia)) as H99.
  destruct (Hget 0 ltac:(lia)) as [v0 ->], (Hget _ H50) as [v1 ->], (Hget _ H95) as [v2 ->], (Hget _ H99) as [v3 ->],
    (Hget (Z.of_nat (length (latency_ns s)) - 1) ltac:(lia)) as [v4 ->]. by eexists.
Qed.

(** What a run comes to: [main] exits; or it has taken more samples than
    [percentile_index] can count in its [int]. *)
Definition exits fuel args w : Prop :=
  exists code rep w', bench_main fuel args w = Some (Exited code rep, w') /\ good w'.
Definition too_many_samples fuel args w : Prop :=
  bench_main fuel args w = None /\
  exists fd priority window duration base w0 s, good w0 /\
    run_window fuel fd priority window duration (bench_zero w0 window base) = Some (inl tt, s) /\
    2 ^ 31 < Z.of_nat (length (latency_ns s)) <= max_alloc / 8.

Lemma bench_exits fuel args w :
  good w -> bench_fuel <= Z.of_nat fuel -> exits fuel args w \/ too_many_samples fuel args w.
Proof.
  intros Hg Hf. unfold exits, too_many_samples, bench_main. destruct args as [|a1 [|a2 [|a3 [|a4 [|]]]]]; try by left; eexists _, _, _.
  destruct (parse_ulong a1 _) as [priority|]; [|by left; eexists _, _, _].
  destruct (parse_ulong a2 _) as [window|] eqn:E2; [|by left; eexists _, _, _]. apply parse_ulong_range in E2.
  destruct (parse_ulong a3 _) as [duration|] eqn:E3; [|by left; eexists _, _, _]. apply parse_ulong_range in E3.
  destruct (parse_ulong a4 _) as [base_value|]; [|by left; eexists _, _, _].
  destruct (_ || _); [by left; eexists _, _, _|]. destruct (alloc_ok _ w) as [ok w1] eqn:Ea.
  apply kl_alloc in Ea as (Hg1 & _); [|done]. destruct ok; cbn [negb]; [|by left; eexists _, _, _].
  destruct (sys_open _ _ w1) as [fd w2] eqn:Eo. apply kl_open in Eo; [|done]. destruct (fd <? 0); [by left; eexists _, _, _|].
  destruct (sys_poll fd 0 w2) as [[ret revents] w3] eqn:Ep. apply kl_poll in Ep as [Hg3 _]; [|done].
  destruct (_ || _). { left. eexists _, _, _. split; [done|by apply kl_close]. }
  destruct (completes_run_window w3 fd priority window duration fuel (bench_zero w3 window base_value))
    as (r & s & R & H); [lia|lia|split; [split; cbn; [split; [lia|apply kl_max_alloc]|lia|done]|done]|done|].
  rewrite R. cbn [mbind option_bind]. destruct r as [[]|[code| |]]; try done.
  2: { left. by eexists _, _, _. }
  destruct (bench_report s) as [rep|] eqn:Hrep.
  - left. eexists _, _, _. split; [done|]. apply kl_close, H.
  - right. split; [done|]. exists fd, priority, window, duration, base_value, w3, s. split; [done|]. split; [exact R|].
    destruct H as [[[Hc Hm] _ _] _]. split; [|apply Z.div_le_lower_bound; lia].
    destruct (Z.lt_ge_cases (2 ^ 31) (Z.of_nat (length (latency_ns s)))) as [|Hl]; [done|].
    destruct (report_defined s Hl) as [rep Hr]. congruence.
Qed.
(** No run is that long where no allocation exceeds 16 GiB. *)
Lemma few_samples fuel args w : max_alloc <= 2 ^ 34 -> ~ too_many_samples fuel args w.
Proof.
  intros Hm (_ & fd & priority & window & duration & base & w0 & s & _ & _ & H).
  assert (max_alloc / 8 <= 2 ^ 34 / 8) by (apply Z.div_le_mono; lia). change (2 ^ 34 / 8) with (2 ^ 31) in *. lia.
Qed.

(** C40. The benchmark terminates.  Let the kernel keep these laws: the monotonic
    clock does not go back, may show the same value to successive readings, but
    not to unboundedly many ([pace]); the devices deliver only a bounded number
    of frames without a new request ([inbox]).  Then [main] comes to its end on
    every list of arguments: no loop runs for ever.  As many turns are enough as
    the longest measurement has nanoseconds, times the readings of one
    nanosecond, with the window and the frames under way on top.  And it exits,
    no percentile being read outside the samples, unless the loops ended with
    more than 2^31 samples, whose ranks do not fit the [int] of
    [percentile_index] - which cannot be where no allocation exceeds 16 GiB.
    What every system call keeps true of the kernel holds when it exits. *)
Theorem bench_terminates fuel args w :
  good w -> bench_fuel <= Z.of_nat fuel ->
  ((exists code rep w', bench_main fuel args w = Some (Exited code rep, w') /\ good w') \/
   bench_main fuel args w = None /\
   exists fd priority window duration base w0 s, good w0 /\
     run_window fuel fd priority window duration (bench_zero w0 window base) = Some (inl tt, s) /\
     2 ^ 31 < Z.of_nat (length (latency_ns s)) <= max_alloc / 8) /\
  (max_alloc <= 2 ^ 34 -> exists code rep w', bench_main fuel args w = Some (Exited code rep, w') /\ good w').
Proof.
  intros Hg Hf. pose proof (bench_exits fuel args w Hg Hf) as H. split; [exact H|]. intros Hm.
  destruct H as [H|H]; [exact H|by apply few_samples in H].
Qed.
End Termination.
