(* ===== verification/Rig.v ===== *)
(** The host tools on the modelled system: the system calls of [Tools] carried
    out by the driver's character devices, while the firmware and the driver's
    own works move as a schedule says. *)
From S2P Require Import Prelude Protocol Ring Notify Endpoint Frame DriverState DriverLifecycle DriverUser DriverSysfs DriverProbe DriverSpec HostDemo LifecycleSpec ControlSpec NotifySpec UserSpec Firmware BlockSpec FirmwareSpec BootSpec WorkerSpec SystemSpec QueueSpec ServeSpec DebtSpec Tools ToolsSpec ToolsTermination.

Section Rig.
Context {linux_platform : Platform} {cpu3_platform : Cpu3Platform} (cfg : fw_config).
(** What happens besides the tool before its [k]-th system call. *)
Context (schedule : nat -> list move).
Implicit Types (y : system).

(** A system call into the driver; a descriptor that is not open is refused. *)
Definition file_call {A} (file : nat) (bad : A) (m : D A) y : A * system :=
  match user_files (linux y) !! file with
  | None => (bad, y)
  | Some _ => match m (linux y) with Some (a, d) => (a, mk_system d (cpu3 y)) | None => (bad, y) end
  end.
Definition file_priority (file : nat) y : Z :=
  match user_files (linux y) !! file with Some uf => channel uf | None => 0 end.
Definition device_named (path : string) (priority : Z) : bool :=
  match zget r1_amp_mailmsg_user_names priority with
  | Some name => String.eqb path ("/dev/" +:+ name)
  | None => false
  end.
Definition priority_of_path (path : string) : option Z := head (List.filter (device_named path) priorities).

(** A caller that does not sleep. *)
Definition at_once : read_env :=
  mk_read_env true false (fun _ d => d) (fun _ d => d) (fun _ d => (0, d)).

(** The clock is coarse: it moves on with every second reading.  [calls] counts
    the system calls.  A descriptor is the number of its file; [next] is the next
    one. *)
Record rig := mk_rig { readings : Z; calls : nat; next : nat; rig_system : system }.
Definition tick : Z := 100000000.
Definition now_ns (w : rig) : Z := tick * (readings w / 2).
Definition between (w : rig) : rig :=
  mk_rig (readings w) (S (calls w)) (next w) (make_moves cfg (schedule (calls w)) (rig_system w)).
Definition on_system {A} (call : system -> A * system) (w : rig) : A * rig :=
  let '(a, y) := call (rig_system w) in (a, mk_rig (readings w) (calls w) (next w) y).
Definition EBADF : Z := 9.
Definition EMFILE : Z := 24.

Definition rig_clock (w : rig) : option (Z * Z) * rig :=
  let w' := mk_rig (readings w + 1) (calls w) (next w) (rig_system w) in
  let t := now_ns w' in
  if (0 <=? readings w) && (t <? 2 ^ 63) then (Some (t / 1000000000, t mod 1000000000), w') else (None, w).
Definition rig_open (path : string) (_ : bool) (w : rig) : Z * rig :=
  match priority_of_path path with
  | None => (- ENODEV, w)
  | Some i =>
      match user_files (linux (rig_system w)) !! next w,
            r1_amp_mailmsg_user_open (next w) i true (linux (rig_system w)) with
      | None, Some (ret, d) =>
          (if ret =? 0 then Z.of_nat (next w) else ret,
           mk_rig (readings w) (calls w) (S (next w)) (mk_system d (cpu3 (rig_system w))))
      | _, _ => (- EMFILE, w)
      end
  end.
(** A poll that may sleep looks again after each of the next moves. *)
Fixpoint rig_poll_turns (naps : nat) (fd : Z) (w : rig) : Z * Z * rig :=
  let file := Z.to_nat fd in
  let '(mask, w) := on_system (file_call file POLLNVAL (r1_amp_mailmsg_user_poll file)) w in
  if negb (mask =? 0) then (1, mask, w) else
  match naps with
  | O => (0, mask, w)
  | S naps => rig_poll_turns naps fd (between w)
  end.
Definition rig_poll (fd timeout : Z) (w : rig) : Z * Z * rig :=
  rig_poll_turns (if timeout =? 0 then 0%nat else 8%nat) fd w.
Definition rig_write (fd : Z) (frame : mailmsg_user_frame) (w : rig) : Z * rig :=
  let file := Z.to_nat fd in
  on_system (file_call file (- EBADF) (r1_amp_mailmsg_user_write file (Some frame) sizeof_user_frame)) w.
Definition rig_read (fd : Z) (w : rig) : Z * mailmsg_user_frame * rig :=
  let file := Z.to_nat fd in
  let '(r, w) := on_system (file_call file None (r1_amp_mailmsg_user_read 1 at_once file sizeof_user_frame)) w in
  match r with
  | Some (ret, Some frame) => (ret, frame, w)
  | Some (ret, None) => (ret, user_frame_zero, w)
  | None => (- EBADF, user_frame_zero, w)
  end.
Definition rig_close (fd : Z) (w : rig) : rig :=
  let file := Z.to_nat fd in
  snd (on_system (file_call file (- EBADF) (r1_amp_mailmsg_user_release file)) w).

Definition rig_kernel : Kernel := {|
  world := rig;
  clock_gettime w := rig_clock (between w);
  alloc_ok n w := (n <=? 2 ^ 34, between w);
  sys_open path nonblock w := rig_open path nonblock (between w);
  sys_poll fd timeout w := rig_poll fd timeout (between w);
  sys_write fd frame w := rig_write fd frame (between w);
  sys_read fd w := rig_read fd (between w);
  sys_close fd w := rig_close fd (between w);
|}.
End Rig.

(** * Every call is a run of the system *)
Section RigLaws.
Context {linux_platform : Platform} {linux_coherent : CoherentOps mailmsg_linux_memory_ops}.
Context {cpu3_platform : Cpu3Platform} {cpu3_coherent : CoherentOps mailmsg_queue_memory_ops}.
Context (cfg : fw_config) (schedule : nat -> list move).
Implicit Types (y : system) (d : r1_amp_cpu_on_data) (w : rig).
#[local] Abbreviation runs := (system_reachable cfg).

Lemma runs_event ev y d' : runs y -> own_event ev -> handle ev (linux y) = Some d' -> runs (mk_system d' (cpu3 y)).
Proof. intros H Ho E. eapply system_reachable_snoc; [exact H|]. destruct y as [d c]. by apply (step_linux cfg ev). Qed.
Lemma between_runs w : runs (rig_system w) ->
  runs (rig_system (between cfg schedule w)) /\
  (system_owes (rig_system (between cfg schedule w)) <= system_owes (rig_system w))%nat.
Proof. apply quiet_debt, make_moves_quiet. Qed.

(** A call that is one event of the driver. *)
Lemma runs_call {A} ev file (bad : A) (m : D A) y :
  own_event ev -> (forall d, handle ev d = run_event m d) -> runs y -> runs (file_call file bad m y).2.
Proof.
  intros Ho Hev H. unfold file_call. destruct (user_files (linux y) !! file); [|done].
  destruct (m (linux y)) as [[a d]|] eqn:E; [|done]. apply (runs_event ev); [done|done|].
  rewrite Hev. unfold run_event. by rewrite E.
Qed.

(** The read that does not sleep: the claim of the reader and one turn. *)
Lemma user_channel_same i d c d' : get_user_channel i d = Some (c, d') -> d' = d.
Proof.
  unfold get_user_channel. intros E. apply run_bind_inv in E as (x & s & [= <- <-] & E).
  destruct (zget (mailmsg_user d) i); [by injection E|done].
Qed.
Lemma turn_at_once i d r b d' : read_turn 0 at_once i message_zero d = Some ((r, b), d') ->
  exists code m, user_receive i message_zero d = Some ((code, m), d') /\
    forall n f, r = Some (n, f) -> n = sizeof_user_frame -> code = 0.
Proof.
  unfold read_turn. intros E. apply run_bind_inv in E as (c & s1 & E1 & E). apply user_channel_same in E1 as ->.
  cbv zeta in E. apply run_bind_inv in E as ([] & s1 & [= <-] & E). cbn [at_once re_before] in E.
  apply run_bind_inv in E as ([code m] & s1 & R & E). exists code, m.
  destruct (Z.eqb_spec code 0) as [->|Hc].
  { apply run_bind_inv in E as (c1 & s2 & E2 & E). apply user_channel_same in E2 as ->.
    apply run_bind_inv in E as (frame & s2 & E2 & E). destruct (user_frame_of _ m); [|done]. injection E2 as <- <-.
    cbn [at_once re_copy_fails] in E. injection E as <- <- <-. split; [exact R|]. by intros n f [= <- <-]. }
  assert (Hno : forall ret, ret <> sizeof_user_frame -> Some (Some (ret, None), m, s1) = Some (r, b, d') ->
    user_receive i message_zero d = Some ((code, m), d') /\ forall n f, r = Some (n, f) -> n = sizeof_user_frame -> code = 0).
  { intros ret Hret [= <- <- <-]. split; [exact R|]. by intros n f [= <- _]. }
  destruct (Z.eqb_spec code (- EAGAIN)) as [->|_]; [by eapply Hno, E|].
  destruct (_ || _) eqn:Eo; [eapply Hno, E; by apply orb_true_iff in Eo as [->%Z.eqb_eq| ->%Z.eqb_eq]|].
  destruct (negb _); [|by eapply Hno, E]. eapply Hno, E. unfold mailmsg_ring_result_to_errno.
  repeat match goal with |- (if ?b then _ else _) <> _ => destruct b end; done.
Qed.
Lemma read_at_once file d r d' : r1_amp_mailmsg_user_read 1 at_once file sizeof_user_frame d = Some (r, d') ->
  exists uf d1 ret, user_files d !! file = Some uf /\ r1_amp_mailmsg_user_claim_reader file d = Some (ret, d1) /\
    ((ret <> 0 /\ d' = d1 /\ r = Some (ret, None)) \/
     (ret = 0 /\ exists code m, user_receive (channel uf) message_zero d1 = Some ((code, m), d') /\
        forall n f, r = Some (n, f) -> n = sizeof_user_frame -> code = 0)).
Proof.
  intros E. unfold r1_amp_mailmsg_user_read in E. apply run_bind_inv in E as (uf & s & E0 & E).
  unfold get_user_file in E0. apply run_bind_inv in E0 as (x & s0 & [= <- <-] & E0).
  destruct (user_files d !! file) as [u|] eqn:Hf; [|done]. injection E0 as <- <-. rewrite Z.eqb_refl in E. cbn [negb] in E.
  apply run_bind_inv in E as (ret & d1 & Ec & E). exists u, d1, ret. split; [done|]. split; [exact Ec|].
  destruct (Z.eqb_spec ret 0) as [->|Hr]; cbn [negb] in E; [right|left; by injection E as <- <-]. split; [done|].
  cbn [user_read_loop] in E. apply run_bind_inv in E as ([r' b] & s1 & E1 & E).
  apply turn_at_once in E1 as (code & m & R & Hc). exists code, m. destruct r' as [[n f]|]; injection E as <- <-.
  - split; [exact R|]. intros n' f' [= <- <-]. by apply (Hc n f).
  - by split; [exact R|].
Qed.

(** ** What a read takes away *)
Lemma waiting_bound sh r : (length (waiting sh r) <= 7)%nat.
Proof.
  unfold waiting. destruct (ring_at r sh); [|cbn; lia]. rewrite length_ring_contents. apply ring_length_bound.
Qed.
Lemma owes_bound y : (system_owes y <= 85)%nat.
Proof.
  set (sh := c_shared (carveout (linux y))).
  assert (H : forall dir, (backlog (fun p => waiting sh (mk_ring_ptr dir p)) <= 28)%nat).
  { intros dir. unfold backlog, priorities. cbn. pose proof (fun p => waiting_bound sh (mk_ring_ptr dir p)) as Hb.
    pose proof (Hb 0). pose proof (Hb 1). pose proof (Hb 2). pose proof (Hb 3). lia. }
  unfold system_owes, block_debt, to_announce. fold sh. pose proof (H Cpu3ToLinux). pose proof (H LinuxToCpu3).
  destruct (cpu3 y) as [f|]; [destruct (mailmsg_session_ready_committed (cpu f))|]; lia.
Qed.
Lemma receive_takes y i m d' : runs y -> 0 <= i < 4 -> user_receive i message_zero (linux y) = Some ((0, m), d') ->
  (block_debt (c_shared (carveout d')) < block_debt (c_shared (carveout (linux y))))%nat.
Proof.
  intros H Hi R. destruct (system_reachable_inv cfg y H) as [[Hr _] [[_ _ _ Hs _] _]].
  destruct (decide (mailmsg_state (linux y) = R1_AMP_MAILMSG_ACTIVE)) as [Ha|Ha].
  2: { assert (Hg : data_gate (mailmsg_state (linux y)) <> 0) by by destruct (mailmsg_state (linux y)).
    rewrite (run_receive_closed _ i message_zero Hg) in R. injection R as E _ _. by destruct Hg. }
  assert (Hb : linux_bound (linux y)) by (apply (system_bound cfg); [done|by rewrite Ha]).
  destruct (user_channel_exists (linux y) i (dv_user _ (reachable_device _ Hr)) Hi) as (c & Hc & Hp).
  pose proof (run_receive_open (linux y) i c message_zero _ Ha Hb Hc Hp Hi (waiting_represents _ Cpu3ToLinux i Hs Hi)) as Hrun.
  destruct (waiting _ (mk_ring_ptr Cpu3ToLinux i)) as [|m' q] eqn:Hq; [by rewrite R in Hrun|].
  destruct Hrun as (d2 & E & Hrep & Hsame & _). rewrite R in E. injection E as _ _ <-.
  by eapply debt_taken.
Qed.
Definition unclaimed_view d := (carveout d, mailmsg_state d, mailmsg_endpoint_ d).
Lemma pres_claim file : pres unclaimed_view (r1_amp_mailmsg_user_claim_reader file).
Proof. unfold r1_amp_mailmsg_user_claim_reader, upd_user_channel, get_user_channel, get_user_file. pres_auto. Qed.
Lemma claim_result file d ret d' : r1_amp_mailmsg_user_claim_reader file d = Some (ret, d') -> ret <> sizeof_user_frame.
Proof.
  unfold r1_amp_mailmsg_user_claim_reader. intros E. apply run_bind_inv in E as (uf & s & _ & E).
  destruct (reader_claimed uf); [by injection E as <- _|]. apply run_bind_inv in E as (c & s1 & _ & E).
  destruct (negb _); [by injection E as <- _|]. apply run_bind_inv in E as ([] & s2 & _ & E).
  apply run_bind_inv in E as ([] & s3 & _ & E). by injection E as <- _.
Qed.

(** ** The calls *)
Lemma runs_read file y r y' : runs y ->
  file_call file None (r1_amp_mailmsg_user_read 1 at_once file sizeof_user_frame) y = (r, y') ->
  runs y' /\ (forall n f, r = Some (n, f) -> n = sizeof_user_frame ->
    (system_owes y' < system_owes y)%nat).
Proof.
  intros H E. unfold file_call in E. destruct (user_files (linux y) !! file) as [uf|] eqn:Hf; [|by injection E as <- <-].
  destruct (r1_amp_mailmsg_user_read _ _ _ _ _) as [[r' d']|] eqn:R; [|by injection E as <- <-]. injection E as -> <-.
  apply read_at_once in R as (uf' & d1 & ret & Hf' & Hc & Hcase). rewrite Hf in Hf'. injection Hf' as <-.
  assert (H1 : runs (mk_system d1 (cpu3 y))).
  { apply (runs_event (EvClaim file)); [done|done|]. cbn [handle]. unfold run_event. by rewrite Hc. }
  destruct Hcase as [(Hret & -> & ->)|(-> & code & m & R & Hcode)].
  { split; [exact H1|]. intros n f [= <- _] En. by destruct (claim_result _ _ _ _ Hc). }
  split.
  - apply (runs_event (EvReadTurn (channel uf)) (mk_system d1 (cpu3 y))); [done|done|]. cbn [handle linux].
    unfold run_event. by rewrite R.
  - intros n f Er En. specialize (Hcode n f Er En). subst code.
    pose proof (pres_claim file _ _ _ Hc) as Hv. unfold unclaimed_view in Hv. injection Hv as Hv _ _.
    unfold system_owes. cbn [linux cpu3]. rewrite <-Hv. apply Nat.add_lt_mono_r.
    destruct (system_reachable_inv cfg y H) as [[Hr _] _].
    apply (receive_takes (mk_system d1 (cpu3 y)) (channel uf) m d' H1); [|exact R].
    exact (ui_files _ (dv_user _ (reachable_device _ Hr)) file uf Hf).
Qed.
Lemma runs_on_system {A} ev file (bad : A) (m : D A) w a w' :
  own_event ev -> (forall d, handle ev d = run_event m d) -> runs (rig_system w) ->
  on_system (file_call file bad m) w = (a, w') -> runs (rig_system w') /\ readings w' = readings w.
Proof.
  intros Ho Hev H E. unfold on_system in E. pose proof (runs_call ev file bad m (rig_system w) Ho Hev H) as Hy.
  destruct (file_call _ _ _ _) as [b y]. by injection E as <- <-.
Qed.
Lemma runs_poll fd naps : forall w r w', runs (rig_system w) -> rig_poll_turns cfg schedule naps fd w = (r, w') ->
  runs (rig_system w') /\ readings w' = readings w.
Proof.
  induction naps as [|naps IH]; intros w r w' H E; cbn [rig_poll_turns] in E;
    destruct (on_system _ w) as [mask w2] eqn:E2;
    apply (runs_on_system (EvPoll (Z.to_nat fd))) in E2 as [Hy Ht]; try done;
    (destruct (negb _); [by injection E as <- <-|]).
  - by injection E as <- <-.
  - apply IH in E as [H1 H2]; [split; [exact H1|]|by apply between_runs].
    by rewrite H2.
Qed.
Lemma runs_open path nonblock w fd w' : runs (rig_system w) -> rig_open path nonblock w = (fd, w') ->
  runs (rig_system w').
Proof.
  intros H E. unfold rig_open in E. destruct (priority_of_path path) as [i|] eqn:Hp; [|by injection E as <- <-].
  destruct (user_files _ !! next w) eqn:Hf; [by injection E as <- <-|].
  destruct (r1_amp_mailmsg_user_open _ _ _ _) as [[ret d]|] eqn:R; [|by injection E as <- <-]. injection E as <- <-.
  cbn [rig_system]. apply (runs_event (EvOpen (next w) i true)); [done|done|]. cbn [handle]. rewrite Hf.
  assert (Hi : 0 <= i < 4).
  { unfold priority_of_path, priorities in Hp. cbn [List.filter] in Hp.
    repeat match type of Hp with context [if ?b then _ else _] => destruct b end; cbn in Hp; try done;
      injection Hp as <-; by split. }
  destruct (system_reachable_inv cfg _ H) as [[Hr _] _].
  destruct (user_channel_exists _ i (dv_user _ (reachable_device _ Hr)) Hi) as (c & -> & _).
  unfold run_event. by rewrite R.
Qed.

(** ** The clock *)
Definition rig_pace (w : rig) : nat := Z.to_nat (1 - readings w mod 2).
Lemma rig_pace_bound w : (rig_pace w <= 1)%nat.
Proof. unfold rig_pace. pose proof (Z.mod_pos_bound (readings w) 2). lia. Qed.
Lemma same_readings w w' : readings w' = readings w ->
  now_ns w <= now_ns w' /\ (now_ns w' = now_ns w -> (rig_pace w' <= rig_pace w)%nat).
Proof. intros E. unfold now_ns, rig_pace. rewrite E. lia. Qed.
Lemma next_reading w :
  let w' := mk_rig (readings w + 1) (calls w) (next w) (rig_system w) in
  0 <= readings w -> 0 <= now_ns w <= now_ns w' /\ (now_ns w' = now_ns w -> (rig_pace w' < rig_pace w)%nat).
Proof. unfold now_ns, rig_pace, tick. cbn [readings]. intros H. split; [lia|]. intros E. lia. Qed.

(** The laws the benchmark's termination relies on hold of the modelled system,
    whatever the schedule; and what it leaves is a state of the system. *)
#[export] Instance rig_laws : KernelLaws (rig_kernel cfg schedule).
Proof.
  refine (@Build_KernelLaws (rig_kernel cfg schedule) (fun w : rig => runs (rig_system w)) now_ns rig_pace 1%nat
    (fun w => system_owes (rig_system w)) 85%nat (2 ^ 34) rig_pace_bound (fun w => owes_bound (rig_system w)) _ _ _ _ _ _ _ _);
    cbn; [done|intros w r w' H E|intros n w ok w' H E|intros path nonblock w fd w' H E|intros fd timeout w r w' H E|
     intros fd frame w r w' H E|intros fd w ret frame w' H E|intros fd w H];
    destruct (between_runs w H) as [H1 Ho]; change (now_ns w) with (now_ns (between cfg schedule w));
    try change (rig_pace w) with (rig_pace (between cfg schedule w));
    set (w1 := between cfg schedule w) in *; clearbody w1.
  - unfold rig_clock in E. destruct (_ && _) eqn:Et; injection E as <- <-; [|by repeat split]. bool_to_prop.
    split; [exact H1|]. split; [exact Ho|]. intros sec ns [= <- <-].
    destruct (next_reading w1) as [Hle Hpace]; [lia|]. split; [unfold now_ns, tick in *; cbn [readings] in *; lia|].
    split; [exact Hle|]. split; [lia|exact Hpace].
  - injection E as <- <-. split; [exact H1|]. split; [by apply same_readings|]. split; [exact Ho|]. by intros ?%Z.leb_le.
  - by eapply runs_open.
  - apply runs_poll in E as [Hy Hr]; [|done]. by split; [|apply same_readings].
  - apply (runs_on_system (EvWrite (Z.to_nat fd) (Some frame) sizeof_user_frame)) in E as [Hy Hr]; [|done..].
    by split; [|apply same_readings].
  - unfold rig_read, on_system in E. destruct (file_call _ _ _ _) as [r y] eqn:Ec.
    apply runs_read in Ec as [Hy Hl]; [|exact H1].
    destruct r as [[n [f|]]|]; injection E as <- <- <-; cbn [rig_system]; (split; [exact Hy|]);
      (split; [by apply (same_readings w1)|]); [..|done];
      intros En; exact (Nat.lt_le_trans _ _ _ (Hl _ _ eq_refl En) Ho).
  - unfold rig_close. destruct (on_system _ _) as [a w2] eqn:E2.
    by apply (runs_on_system (EvRelease (Z.to_nat fd))) in E2 as [Hy _].
Defined.
End RigLaws.

(** The benchmark exits on the modelled system, started in any of its states,
    with any arguments, whenever CPU3 and the driver's works move. *)
Theorem bench_exits_on_system {linux_platform : Platform} {cpu3_platform : Cpu3Platform}
    (linux_coherent : CoherentOps mailmsg_linux_memory_ops) (cpu3_coherent : CoherentOps mailmsg_queue_memory_ops)
    cfg schedule args now file y :
  system_reachable cfg y -> exists code rep w',
    @bench_main (rig_kernel cfg schedule)
      (Z.to_nat (bench_fuel (laws := rig_laws cfg schedule))) args (mk_rig now 0 file y) =
      Some (Exited code rep, w') /\ system_reachable cfg (rig_system w').
Proof.
  intros H. pose proof (few_samples (laws := rig_laws cfg schedule)
    (Z.to_nat (bench_fuel (laws := rig_laws cfg schedule))) args (mk_rig now 0 file y) ltac:(reflexivity)) as Hf.
  destruct (bench_exits (laws := rig_laws cfg schedule) (Z.to_nat (bench_fuel (laws := rig_laws cfg schedule)))
    args (mk_rig now 0 file y)) as [Hx|Hx]; [exact H| |exact Hx|by destruct Hf].
  rewrite Z2Nat.id; [lia|]. unfold bench_fuel, turn_fuel. lia.
Qed.

(** * The tools on the scripted session

    Linux has opened the session of [duo_system] and CPU3 serves it; before
    every third call CPU3 takes its interrupt and runs its worker, and Linux
    takes the doorbell. *)
Definition duo_schedule (k : nat) : list move :=
  if (k mod 3 =? 0)%nat then MCpu3 (CIsr 1) :: replicate 6 (MCpu3 CWorker) ++ [MLinux (EvMailbox 1 None)] else [].
Definition duo_kernel : Kernel := rig_kernel (linux_platform := host_platform) (cpu3_platform := host_cpu3) default_config duo_schedule.
Definition duo_rig : rig := mk_rig 0 0 100 duo_system.

(** The benchmark: a window of two on p1 for a second, from 7 on. *)
Abbreviation duo_bench := (@bench_main (traced duo_kernel) 40 ["1"; "2"; "1"; "7"]%string
  ((duo_rig, []) : @world (traced duo_kernel))).
Definition duo_calls : list call := match duo_bench with Some (_, (_, l)) => l | None => [] end.
Lemma duo_bench_passes :
  exists rep w', duo_bench = Some (Exited 0 (Some rep), ((w', duo_calls) : @world (traced duo_kernel))).
Proof.
  assert (H : match duo_bench with Some (Exited 0 (Some _), _) => true | _ => false end = true) by (vm_compute; reflexivity).
  unfold duo_calls. destruct duo_bench as [[[[] [rep|]|] [w' l]]|]; try discriminate H. by exists rep, w'.
Qed.
Lemma duo_calls_length : Z.of_nat (length duo_calls) < 2 ^ 64.
Proof. vm_compute. reflexivity. Qed.
Lemma bench_pass_is_sound_witness :
  exists missing, all_answered 1 7 duo_calls missing /\ accepted duo_calls = [7; 8; 9; 10; 11; 12; 13; 14].
Proof.
  destruct duo_bench_passes as (rep & w' & E).
  destruct (bench_pass_is_sound duo_kernel 40 "1" "2" "1" "7" duo_rig rep w' duo_calls E duo_calls_length)
    as (priority & base & missing & E1 & E4 & H & _).
  exists missing. vm_compute in E1, E4. injection E1 as <-. injection E4 as <-. split; [exact H|].
  vm_compute. reflexivity.
Defined.

(** Whatever the arguments, here the longest measurement with a window of 16 on
    p3, the benchmark exits on the modelled system, in a state of the system. *)
#[export] Instance duo_laws : KernelLaws duo_kernel :=
  rig_laws (linux_platform := host_platform) (cpu3_platform := host_cpu3) default_config duo_schedule.
Lemma bench_terminates_witness :
  exists code rep w', @bench_main duo_kernel (Z.to_nat (bench_fuel (kernel := duo_kernel)))
    ["3"; "16"; "3600"; "0"]%string duo_rig = Some (Exited code rep, w') /\
    system_reachable (linux_platform := host_platform) (cpu3_platform := host_cpu3) default_config (rig_system w').
Proof.
  destruct (bench_terminates (kernel := duo_kernel) (Z.to_nat (bench_fuel (kernel := duo_kernel)))
    ["3"; "16"; "3600"; "0"]%string duo_rig) as [_ H].
  - exact duo_reachable.
  - rewrite Z2Nat.id; [lia|]. unfold bench_fuel, turn_fuel. lia.
  - destruct H as (code & rep & w' & E & H); [reflexivity|]. exists code, rep, w'. split; [exact E|exact H].
Defined.

(** The smoke test prints the ACK and the PONG. *)
Example client_on_duo :
  fst (@client_main duo_kernel ["1"; "41"]%string duo_rig) =
  (0, [mk_client_line 1 MAILMSG_MSG_ACK 2 8 (ClientFeedback 1 0); mk_client_line 1 MAILMSG_MSG_PONG 3 4 (ClientValue 42)]).
Proof. vm_compute. reflexivity. Qed.
