(* ===== verification/TestPrograms.v ===== *)
(** The repository's own test programs, run on the definitions: the host tests
    of tests/host, assertion by assertion, and the two C programs of
    tests/board on the modelled system. *)
From S2P Require Import Prelude Protocol Ring Notify Endpoint DriverState DriverUser DriverSpec HostDemo Firmware BootSpec SystemSpec DebtSpec Layout Tools Rig.

(** [assert(condition)]: a failure ends the run. *)
Definition assert {S} (condition : bool) : M S unit := if condition then mret tt else ub.
(** [assert(call == expected)] *)
Definition assert_eq {S} (call : M S Z) (expected : Z) : M S unit := r ← call; assert (r =? expected).

(** * mailmsg_notify_test.c *)
Module NotifyTest.
(** [last_priority] and the result the backend is told to give. *)
Record statics := mk_statics { last_priority : Z; notify_result : Z }.
#[export] Instance eta_statics : Eta statics := fun s => mk_statics (last_priority s) (notify_result s).

Definition test_notify (priority : Z) : M statics Z :=
  modify (fun s => s <| last_priority := priority |>) ;; gets notify_result.
Definition set_result (r : Z) : M statics unit := modify (fun s => s <| notify_result := r |>).

Definition main : M statics Z :=
  let ops := mk_notify_ops (Some test_notify) None in
  let endpoint := Some (mk_notify_endpoint (Some ops)) in
  set_result MAILMSG_NOTIFY_SENT ;;
  assert_eq (mailmsg_notify endpoint MAILMSG_PRIO_CONTROL) MAILMSG_NOTIFY_SENT ;;
  assert_eq (gets last_priority) MAILMSG_PRIO_CONTROL ;;
  assert (mailmsg_notify_accepted MAILMSG_NOTIFY_SENT) ;;
  assert (match mailmsg_notify_state_from_result MAILMSG_NOTIFY_SENT with
          | MAILMSG_NOTIFY_STATE_SENT => true | _ => false end) ;;
  set_result MAILMSG_NOTIFY_COALESCED ;;
  assert_eq (mailmsg_notify endpoint MAILMSG_PRIO_CONTROL) MAILMSG_NOTIFY_COALESCED ;;
  assert (mailmsg_notify_accepted MAILMSG_NOTIFY_COALESCED) ;;
  assert (match mailmsg_notify_state_from_result MAILMSG_NOTIFY_COALESCED with
          | MAILMSG_NOTIFY_STATE_COALESCED => true | _ => false end) ;;
  assert (negb (mailmsg_notify_accepted (-1))) ;;
  assert (match mailmsg_notify_state_from_result (-1) with
          | MAILMSG_NOTIFY_STATE_FAILED => true | _ => false end) ;;
  r ← mailmsg_notify endpoint MAILMSG_PRIORITY_COUNT;
  assert (r <? 0) ;;
  mret 0.
Definition initial : statics := mk_statics (-1) 0.
End NotifyTest.

(** * mailmsg_mailbox0_test.c *)
Module Mailbox0Test.
Record statics := mk_statics { channel : Z; command : Z; data : Z; send_result : Z }.
#[export] Instance eta_statics : Eta statics := fun s =>
  mk_statics (channel s) (command s) (data s) (send_result s).

Definition fake_send (ch cmd value : Z) : M statics Z :=
  modify (fun s => s <| channel := ch |> <| command := cmd |> <| data := value |>) ;; gets send_result.
Definition set_result (r : Z) : M statics unit := modify (fun s => s <| send_result := r |>).

Definition main : M statics Z :=
  let adapter := Some (mk_mailbox0 (Some fake_send)) in
  let endpoint := Some (mk_notify_endpoint (Some (mailmsg_mailbox0_notify_ops adapter))) in
  set_result MAILMSG_NOTIFY_SENT ;;
  assert_eq (mailmsg_notify endpoint MAILMSG_PRIO_NORMAL) MAILMSG_NOTIFY_SENT ;;
  assert_eq (gets channel) 2 ;;
  assert_eq (gets command) 0xa2b10002 ;;
  assert_eq (gets data) 2 ;;
  set_result MAILMSG_NOTIFY_COALESCED ;;
  assert_eq (mailmsg_notify endpoint MAILMSG_PRIO_BEST_EFFORT) MAILMSG_NOTIFY_COALESCED ;;
  assert_eq (gets channel) 3 ;;
  assert_eq (gets command) 0xa2b10003 ;;
  assert_eq (gets data) 3 ;;
  mret 0.
Definition initial : statics := mk_statics 0 0 0 0.
End Mailbox0Test.

(** * mailmsg_protocol_test.c

    The ring under test is the first one of an otherwise unused block. *)
Module ProtocolTest.
Definition static_asserts : bool :=
  (Z.of_nat (csize tx_full_codec) =? 64) && (Z.of_nat (csize shared_codec) <=? 0xe00).

Definition ops : option mailmsg_memory_ops := Some noop_ops.
Definition ring : ring_ptr := mk_ring_ptr LinuxToCpu3 0.
Definition upd_ring (f : mailmsg_ring -> mailmsg_ring) : M mailmsg_shared unit :=
  r ← load_ring ring; store_ring ring (f r).
(** [memcmp(a, b, n) == 0] *)
Definition same_bytes (n : Z) (a b : list Z) : bool :=
  bool_decide (take (Z.to_nat n) a = take (Z.to_nat n) b).

Definition in_ : mailmsg_message :=
  mk_message 3 MAILMSG_MSG_PING 7 2 (0x12 :: 0x34 :: replicate 26 0) 0 0.
Definition push_ok (m : mailmsg_message) : M mailmsg_shared unit :=
  assert_eq (mailmsg_ring_push ring ops m) MAILMSG_RING_OK.
Definition pop_to (expected : Z) (out : mailmsg_message) : M mailmsg_shared mailmsg_message :=
  '(r, out) ← mailmsg_ring_pop ring ops out; assert (r =? expected) ;; mret out.

Definition main : M mailmsg_shared Z :=
  assert (mailmsg_priority_is_reliable MAILMSG_PRIO_CRITICAL) ;;
  assert (mailmsg_priority_is_reliable MAILMSG_PRIO_CONTROL) ;;
  assert (negb (mailmsg_priority_is_reliable MAILMSG_PRIO_NORMAL)) ;;
  assert (negb (mailmsg_priority_is_reliable MAILMSG_PRIO_BEST_EFFORT)) ;;
  assert (MAILMSG_TX_FULL_OBSERVATION_MAGIC =? 0x4d46554c) ;;
  push_ok in_ ;;
  assert_eq (mailmsg_ring_count (Some ring) ops) 1 ;;
  out ← pop_to 0 message_zero;
  assert_eq (mailmsg_ring_count (Some ring) ops) 0 ;;
  assert (type_ out =? MAILMSG_MSG_PING) ;;
  assert (generation out =? 3) ;;
  assert (sequence out =? 7) ;;
  assert (length_ out =? 2) ;;
  assert (same_bytes (length_ in_) (payload out) (payload in_)) ;;
  out ← pop_to MAILMSG_RING_EMPTY out;
  push_ok in_ ;;
  upd_ring (fun r => r <| slot := zupd 1 (fun m => m <| payload := zupd 0 (Z.lxor 0xff) (payload m) |>) (slot r) |>) ;;
  out ← pop_to MAILMSG_RING_BAD_CRC out;
  r ← load_ring ring;
  assert (consumer r =? 2) ;;
  let in_ := in_ <| sequence := 8 |> in
  push_ok in_ ;;
  out ← pop_to MAILMSG_RING_OK out;
  assert (sequence out =? 8) ;;
  for_each [9; 10; 11; 12; 13; 14; 15] (fun seq => push_ok (in_ <| sequence := seq |>)) ;;
  assert_eq (mailmsg_ring_count (Some ring) ops) (MAILMSG_RING_SLOTS - 1) ;;
  let in_ := in_ <| sequence := 16 |> in
  assert_eq (mailmsg_ring_push ring ops in_) MAILMSG_RING_FULL ;;
  out ← pop_to MAILMSG_RING_OK out;
  push_ok in_ ;;
  upd_ring (fun r => r <| producer := MAILMSG_RING_SLOTS |>) ;;
  assert_eq (mailmsg_ring_count (Some ring) ops) MAILMSG_RING_INVALID ;;
  mret 0.
Definition initial : mailmsg_shared := shared_zero.
End ProtocolTest.

(** * mailmsg_endpoint_test.c

    The locals of [main] and the statics of the notification backend; what the
    locals hold when the test starts is arbitrary. *)
Module EndpointTest.
Definition static_asserts : bool := sizeof_user_frame =? 48.

(** [notify_result], [notify_count] and [notified_priority]. *)
Record statics := mk_statics { fake_result : Z; notify_count : Z; notified_priority : Z }.
#[export] Instance eta_statics : Eta statics := fun s =>
  mk_statics (fake_result s) (notify_count s) (notified_priority s).
Definition notify_fake (priority : Z) : M statics Z :=
  modify (fun s => s <| notify_count ::= Z.add 1 |> <| notified_priority := priority |>) ;; gets fake_result.

Record locals := mk_locals {
  shared : mailmsg_shared;
  linux_endpoint : mailmsg_endpoint statics;
  cpu3_endpoint : mailmsg_endpoint statics;
  result : mailmsg_send_result;
  message : mailmsg_message;
  backend : statics;
}.
#[export] Instance eta_locals : Eta locals := fun l =>
  mk_locals (shared l) (linux_endpoint l) (cpu3_endpoint l) (result l) (message l) (backend l).
Abbreviation T := (M locals).

Definition memory_ops : mailmsg_memory_ops := noop_ops.
Definition notify_endpoint : mailmsg_notify_endpoint statics :=
  mk_notify_endpoint (Some (mk_notify_ops (Some notify_fake) None)).
Definition payload : list Z := [41; 0; 0; 0].

(** A call on one of the two endpoints. *)
Inductive side := Linux | Cpu3.
Definition at_endpoint {A} (s : side) (m : M (ep_world statics) A) : T A :=
  match s with
  | Linux => zoom (fun l => mk_ep_world (linux_endpoint l) (shared l) (backend l))
      (fun w l => l <| linux_endpoint := ep w |> <| shared := shm w |> <| backend := ctx w |>) m
  | Cpu3 => zoom (fun l => mk_ep_world (cpu3_endpoint l) (shared l) (backend l))
      (fun w l => l <| cpu3_endpoint := ep w |> <| shared := shm w |> <| backend := ctx w |>) m
  end.
Definition bind (s : side) (notify : option (mailmsg_notify_endpoint statics)) (role : Z) : T Z :=
  at_endpoint s (mailmsg_endpoint_bind true (Some memory_ops) notify role).
Definition send (s : side) (priority type : Z) : T Z :=
  l ← get;
  '(ret, r) ← at_endpoint s (mailmsg_endpoint_send priority type (Some payload) 4 (result l));
  modify (fun l => l <| result := r |>) ;; mret ret.
Definition receive (s : side) (priority : Z) : T Z :=
  l ← get;
  '(ret, m) ← at_endpoint s (mailmsg_endpoint_receive priority (message l));
  modify (fun l => l <| message := m |>) ;; mret ret.
Definition has_received (s : side) (priority : Z) : T Z := at_endpoint s (mailmsg_endpoint_has_received priority).

Definition assert_that (p : locals -> bool) : T unit := l ← get; assert (p l).
(** [endpoint.stats.priority[priority].field == n] *)
Definition count_is (e : locals -> mailmsg_endpoint statics) (priority : Z) (field : mailmsg_priority_stats -> Z)
    (n : Z) : T unit :=
  l ← get; s ← from_option_ub (zget (stats (e l)) priority); assert (field s =? n).
Definition set_result (r : Z) : T unit := modify (fun l => l <| backend := backend l <| fake_result := r |> |>).
Definition upd_shared (f : mailmsg_shared -> mailmsg_shared) : T unit := modify (fun l => l <| shared ::= f |>).

(** The frame of an old session, committed into slot 0. *)
Definition stale : mailmsg_message :=
  let m := mk_message 6 MAILMSG_MSG_PONG 99 0 (replicate 28 0) 0 0 in
  m <| crc32 := mailmsg_frame_crc32 m |> <| commit := 99 |>.

Definition first_exchange : T unit :=
  upd_shared (fun _ => shared_zero <| magic := MAILMSG_PROTOCOL_MAGIC |> <| version := MAILMSG_PROTOCOL_VERSION |>
    <| shared_generation := 7 |>) ;;
  assert_eq (bind Linux (Some notify_endpoint) MAILMSG_ENDPOINT_LINUX) 0 ;;
  assert_eq (bind Cpu3 (Some notify_endpoint) MAILMSG_ENDPOINT_CPU3) 0 ;;
  set_result MAILMSG_NOTIFY_SENT ;;
  assert_eq (send Linux MAILMSG_PRIO_CONTROL MAILMSG_MSG_PING) 0 ;;
  assert_that (fun l => queue_result (result l) =? MAILMSG_RING_OK) ;;
  assert_that (fun l => negb (notify_attempted (result l) =? 0)) ;;
  assert_that (fun l => notify_result (result l) =? MAILMSG_NOTIFY_SENT) ;;
  assert_that (fun l => sr_sequence (result l) =? 1) ;;
  assert_that (fun l => ep_generation (linux_endpoint l) =? 7) ;;
  count_is linux_endpoint MAILMSG_PRIO_CONTROL tx_enqueued 1 ;;
  count_is linux_endpoint MAILMSG_PRIO_CONTROL tx_high_water 1 ;;
  count_is linux_endpoint MAILMSG_PRIO_CONTROL notify_sent 1 ;;
  assert_that (fun l => notify_count (backend l) =? 1) ;;
  assert_that (fun l => notified_priority (backend l) =? MAILMSG_PRIO_CONTROL) ;;
  r ← has_received Cpu3 MAILMSG_PRIO_CONTROL; assert (negb (r =? 0)) ;;
  assert_eq (receive Cpu3 MAILMSG_PRIO_CONTROL) 0 ;;
  assert_eq (has_received Cpu3 MAILMSG_PRIO_CONTROL) 0 ;;
  assert_that (fun l => type_ (message l) =? MAILMSG_MSG_PING) ;;
  assert_that (fun l => generation (message l) =? 7) ;;
  assert_that (fun l => sequence (message l) =? 1) ;;
  assert_that (fun l => match zget (Protocol.payload (message l)) 0 with Some b => b =? 41 | None => false end) ;;
  count_is cpu3_endpoint MAILMSG_PRIO_CONTROL rx_ok 1.

Definition answer_and_stale_frame : T unit :=
  set_result MAILMSG_NOTIFY_COALESCED ;;
  assert_eq (send Cpu3 MAILMSG_PRIO_CRITICAL MAILMSG_MSG_PONG) 0 ;;
  assert_that (fun l => notify_result (result l) =? MAILMSG_NOTIFY_COALESCED) ;;
  count_is cpu3_endpoint MAILMSG_PRIO_CRITICAL notify_coalesced 1 ;;
  assert_eq (receive Linux MAILMSG_PRIO_CRITICAL) 0 ;;
  assert_that (fun l => type_ (message l) =? MAILMSG_MSG_PONG) ;;
  assert_that (fun l => generation (message l) =? 7) ;;
  upd_shared (fun sh => sh <| cpu3_to_linux := zupd MAILMSG_PRIO_CONTROL
    (fun r => r <| slot := zset 0 stale (slot r) |> <| producer := 1 |>) (cpu3_to_linux sh) |>) ;;
  assert_eq (receive Linux MAILMSG_PRIO_CONTROL) MAILMSG_ENDPOINT_STALE_FRAME ;;
  count_is linux_endpoint MAILMSG_PRIO_CONTROL rx_stale 1.

Definition full_ring : T unit :=
  modify (fun l => l <| backend := backend l <| notify_count := 0 |> |>) ;;
  for_each (seqZ 0 (MAILMSG_RING_SLOTS - 1)) (fun _ =>
    assert_eq (send Linux MAILMSG_PRIO_NORMAL MAILMSG_MSG_PING) 0) ;;
  assert_that (fun l => notify_count (backend l) =? MAILMSG_RING_SLOTS - 1) ;;
  assert_eq (send Linux MAILMSG_PRIO_NORMAL MAILMSG_MSG_PING) MAILMSG_RING_FULL ;;
  assert_that (fun l => queue_result (result l) =? MAILMSG_RING_FULL) ;;
  assert_that (fun l => notify_attempted (result l) =? 0) ;;
  assert_that (fun l => sr_sequence (result l) =? 0) ;;
  assert_that (fun l => notify_count (backend l) =? MAILMSG_RING_SLOTS - 1) ;;
  count_is linux_endpoint MAILMSG_PRIO_NORMAL tx_full 1 ;;
  count_is linux_endpoint MAILMSG_PRIO_NORMAL tx_high_water (MAILMSG_RING_SLOTS - 1) ;;
  set_result (-16) ;;
  assert_eq (send Linux MAILMSG_PRIO_BEST_EFFORT MAILMSG_MSG_PING) MAILMSG_ENDPOINT_OK ;;
  assert_that (fun l => queue_result (result l) =? MAILMSG_RING_OK) ;;
  assert_that (fun l => negb (notify_attempted (result l) =? 0)) ;;
  assert_that (fun l => notify_result (result l) =? -16) ;;
  assert_that (fun l => negb (sr_sequence (result l) =? 0)) ;;
  count_is linux_endpoint MAILMSG_PRIO_BEST_EFFORT notify_failed 1.

Definition session_checks : T unit :=
  upd_shared (fun sh => sh <| shared_generation := 8 |>) ;;
  assert_eq (at_endpoint Linux mailmsg_endpoint_session_valid) MAILMSG_ENDPOINT_STALE_SESSION ;;
  assert_eq (send Linux MAILMSG_PRIO_CRITICAL MAILMSG_MSG_PING) MAILMSG_ENDPOINT_STALE_SESSION ;;
  upd_shared (fun sh => sh <| shared_generation := 7 |>) ;;
  assert_eq (at_endpoint Linux mailmsg_endpoint_session_valid) MAILMSG_ENDPOINT_OK ;;
  assert_eq (bind Linux None MAILMSG_ENDPOINT_LINUX) MAILMSG_ENDPOINT_INVALID ;;
  assert_eq (bind Linux (Some notify_endpoint) (-1)) MAILMSG_ENDPOINT_INVALID ;;
  upd_shared (fun sh => sh <| version ::= fun v => u32 (v + 1) |>) ;;
  assert_eq (bind Linux (Some notify_endpoint) MAILMSG_ENDPOINT_LINUX) MAILMSG_ENDPOINT_PROTOCOL_MISMATCH.

Definition main : T Z := first_exchange ;; answer_and_stale_frame ;; full_ring ;; session_checks ;; mret 0.
(** The statistics are an array of four. *)
Definition initial (l : locals) : Prop :=
  length (stats (linux_endpoint l)) = 4%nat /\ length (stats (cpu3_endpoint l)) = 4%nat /\
  notify_count (backend l) = 0.
End EndpointTest.

(** * The tests pass *)

(** What a test program answers to the shell. *)
Definition exit_status {S} (main : M S Z) (s : S) : option Z := fst <$> main s.

Theorem notify_test_passes : exit_status NotifyTest.main NotifyTest.initial = Some 0.
Proof. reflexivity. Qed.
Theorem mailbox0_test_passes : exit_status Mailbox0Test.main Mailbox0Test.initial = Some 0.
Proof. reflexivity. Qed.
Theorem protocol_test_passes :
  ProtocolTest.static_asserts = true /\ exit_status ProtocolTest.main ProtocolTest.initial = Some 0.
Proof. by vm_compute. Qed.
Theorem endpoint_test_passes l : EndpointTest.initial l ->
  EndpointTest.static_asserts = true /\ exit_status EndpointTest.main l = Some 0.
Proof.
  destruct l as [sh [? ? ? ? ? ? ? st] [? ? ? ? ? ? ? st'] r m [b n p]]. intros (H & H' & Hn). cbn in H, H', Hn. subst n.
  destruct st as [|? [|? [|? [|? [|? ?]]]]]; try discriminate H.
  destruct st' as [|? [|? [|? [|? [|? ?]]]]]; try discriminate H'.
  split; [reflexivity|]. vm_compute. reflexivity.
Qed.

(** * The board tests

    Programs over the system calls, like the tools; a call that fails answers
    [- errno], and what is printed is left out. *)
Section BoardTests.
Context {kernel : Kernel}.

(** mailmsg_exclusive_reader_test.c; the label [fail] closes what is open. *)
Definition exclusive_reader_main (w : world) : Z * world :=
  let '(first_fd, w) := sys_open (device_path 0) true w in
  if first_fd <? 0 then (1, w) else
  let '(second_fd, w) := sys_open (device_path 0) true w in
  if second_fd <? 0 then (1, sys_close first_fd w) else
  let '(ret, revents, w) := sys_poll first_fd 0 w in
  if (ret <? 0) || negb (Z.land revents POLLERR =? 0)
  then (1, sys_close second_fd (sys_close first_fd w)) else
  let '(ret, _, w) := sys_read second_fd w in
  if negb (ret =? - EBUSY) then (1, sys_close second_fd (sys_close first_fd w)) else
  let w := sys_close first_fd w in
  let '(ret, revents, w) := sys_poll second_fd 0 w in
  if (ret <? 0) || negb (Z.land revents POLLERR =? 0) then (1, sys_close second_fd w) else
  let '(ret, _, w) := sys_read second_fd w in
  if negb (ret =? - EAGAIN) then (1, sys_close second_fd w) else
  (0, sys_close second_fd w).

(** mailmsg_offline_wait_test.c *)
Definition offline_wait_main (w : world) : Z * world :=
  let '(fd, w) := sys_open (device_path 1) false w in
  if fd <? 0 then (1, w) else
  let '(ret, revents, w) := sys_poll fd (-1) w in
  if negb (ret =? 1) then (1, sys_close fd w) else
  let '(ret, _, w) := sys_read fd w in
  if 0 <=? ret then (1, sys_close fd w) else
  (if negb (Z.land revents (Z.lor POLLHUP POLLERR) =? 0) && (ret =? - ENOLINK) then 0 else 1, sys_close fd w).
End BoardTests.

(** On the scripted session: with CPU3 serving, and with the monitor finding
    CPU3 off while the test sleeps in [poll]. *)
Theorem exclusive_reader_test_passes : fst (@exclusive_reader_main duo_kernel duo_rig) = 0.
Proof. vm_compute. reflexivity. Qed.
Definition offline_schedule (k : nat) : list move :=
  if (k =? 3)%nat then [MLinux (EvAffinityWork (host_env 300 1))] else [].
Definition offline_kernel : Kernel :=
  rig_kernel (linux_platform := host_platform) (cpu3_platform := host_cpu3) default_config offline_schedule.
Theorem offline_wait_test_passes : fst (@offline_wait_main offline_kernel duo_rig) = 0.
Proof. vm_compute. reflexivity. Qed.
